(* ===== verification/_CoqProject ===== *)
-Q . S2P
Prelude.v
Regex.v
Common.v
Encoding.v
Types.v
EapCodec.v
EapFragment.v
EapSession.v
EapEngine.v
EapEngineSpec.v
Resilience.v
Radius.v
ServerInit.v
RadiusGateway.v
Gateway.v
HttpClient.v
Storage.v
Biz.v
Notify.v
Handlers.v
Cache.v
Auth.v
Crypto.v
Alarm.v
Diameter.v
DiameterForward.v
BizClients.v
Nrf.v
Json.v
NrfProfile.v
NrfServer.v
UdmServer.v
Postgres.v
PgSession.v
PgConfig.v
PgAdmin.v
Nrm.v
Config.v
Middleware.v
GatewayProcess.v
HttpGateway.v
KeyVault.v
RedisStores.v
EapTls.v
DebugTrace.v
DiameterNode.v
Processes.v
AaaMetrics.v
RadiusDict.v
RadiusListen.v
ServiceApi.v
DiameterDict.v
MetricsRegistry.v
Pools.v
Durations.v
ClientFactory.v
