(* ===== verification/Prelude.v ===== *)
(** * nssAAF: a verification development

    nssAAF is a Network Slice-Specific Authentication and Authorization Function
    (3GPP TS 29.526) in Go.  Three processes work together.  The HTTP gateway
    terminates the service interfaces; the Biz Pod (src/cmd/biz) holds the service
    handlers, the EAP engine and the session stores; the AAA gateway
    (src/cmd/aaa-gateway) speaks RADIUS and Diameter to the AAA server.  A client
    message goes handler -> AAA router ([SendEAP]) -> HTTP client with circuit
    breaker and retry -> AAA gateway -> RADIUS or Diameter -> AAA server and back;
    a server-initiated message goes AAA server -> AAA gateway (authenticated,
    correlated, registered) -> Biz Pod coordinator -> session stores and AMF.

    ** The files, in dependency order

    - [Prelude]: results of Go calls ([Ok], [Err], [Panic]), fixed-width integers
      and byte strings, tactics ([zbool], [zsolve], [go_cases]) and the hint
      database [go].
    - [Regex]: a derivative-based regular-expression matcher with its
      specification; [Common]: src/internal/api/common, problem.go and validator.go;
      [Encoding]: the base64 and hexadecimal codecs the sources use; [Types]:
      src/internal/types and src/internal/domain (S-NSSAI, SUPI, GPSI, EAP message,
      the NSSAA status machine, error values).
    - [EapCodec], [EapFragment], [EapSession], [EapEngine]: src/internal/eap,
      codec.go and state.go, fragment.go, session.go with the two session stores,
      engine.go.  [EapSession] states the session-store interface as the classes
      [SessionStore] and [LawfulStore]; the in-memory store, the Redis store and
      (in [Storage]) the write-through store are instances.  [EapEngineSpec] proves
      the engine correct against the laws.
    - [Resilience]: src/internal/resilience, circuit breaker, breaker registry and
      retry loop.
    - [Radius]: src/internal/radius, attributes, vendor attributes,
      Message-Authenticator.  [ServerInit], [RadiusGateway], [Gateway]:
      src/internal/aaa/gateway and the RADIUS adapter and client it uses (registry of
      pending server-initiated requests; forwarding and CoA handling; correlation,
      pod selection, delivery, dead-letter queue).
    - [HttpClient]: src/internal/httpclient/native_aaa.go.
    - [Storage]: src/internal/storage, with the repository interface as the classes
      [Repo] and [LawfulRepo]; [Biz]: src/internal/biz and
      src/cmd/biz/http_aaa_client.go; [Notify]: src/internal/amf and the AMF
      dead-letter queue; [Handlers]: src/internal/api/nssaa and
      src/internal/api/aiw; [Cache]: rate limiter, lock and idempotency cache of
      src/internal/cache/redis.
    - [Auth], [Crypto]: src/internal/auth (token validation and middleware) and
      src/internal/crypto (envelopes, soft key manager, rotation).
    - [Diameter], [DiameterForward]: src/internal/diameter and
      diameter_forward.go of the AAA gateway (AVP codecs; pending requests,
      connection and watchdog, server-initiated requests).
    - [BizClients]: the gateway's clients of the Biz Pods and the NF proxy
      (src/internal/httpclient, src/cmd/http-gateway).
    - [Json]: JSON documents and struct marshalling.  [Nrf], [NrfProfile]:
      src/internal/nrf (discovery, tokens, heartbeat; profiles).  [NrfServer],
      [UdmServer]: the NRF and UDM servers of the lab deployments, composed with the
      clients of src/internal/nrf, discovery, udm and ausf.
    - [Alarm], [Nrm]: src/internal/nrm and src/internal/restconf (alarm store and
      manager; HTTP server with its routes, and the client that pushes events).
    - [Postgres], [PgSession], [PgConfig], [PgAdmin]: src/internal/storage/postgres.
      Tables are lists of rows with the limits and keys of the SQL migrations.
    - [Config]: src/internal/config and the start of the Biz Pod (src/cmd/biz,
      src/internal/crypto/config.go); [Middleware]: src/internal/api/common
      middleware.go, the internal endpoints and the order of the layers.
    - [GatewayProcess]: the AAA gateway as a process (src/cmd/aaa-gateway, gateway.go):
      construction, virtual address, HTTP handlers, composed with the client of the Biz
      Pod.  [HttpGateway]: src/cmd/http-gateway and the Istio clients: admission, routes,
      proxying to a Biz Pod with the stack of [Middleware], registration with the NRF
      server of [NrfServer].
    - [KeyVault]: src/internal/crypto/kms.go, the Vault manager over a class of transit
      engines and the SoftHSM manager, as instances of the interface of [Crypto].
      [RedisStores]: the session cache, the correlation and context stores, the registry
      of the Biz Pods and the consumer of the AMF queue in one Redis with expiry.
      [EapTls]: src/internal/eap/tls.go, kdf.go, hash.go, random.go and keys.go of
      src/internal/crypto.  [DebugTrace]: src/internal/debug and src/cmd/nssAAF-debug.
    - [DiameterNode]: the parts of [DiameterForward] as one transition system with the
      handlers and the statistics of the forwarder, a whole exchange over it, and
      src/internal/diameter/client.go.  [Processes]: start of the NRM and of the AAA
      gateway, evaluation window, shutdown.  [AaaMetrics]: src/internal/aaa/metrics.go.
    - [RadiusDict]: src/internal/radius/layeh with its generated dictionary (gen/dict.go)
      over a class of the layeh library, and the adapter above it; one RADIUS exchange.
      [RadiusListen]: the UDP listener of radius_handler.go, with the buffer its goroutines
      share.  [DiameterDict]: src/internal/diameter/generated, the dictionary as data.
    - [ServiceApi]: the generated servers of the N58 and N60 interfaces (src/oapi-gen) and
      src/internal/api/common/request.go: JSON documents, routes over a class of chi
      routers, and the handlers of [Handlers] behind them.
    - [MetricsRegistry]: src/internal/metrics, the registered collectors and the calls the
      sources make on them.  [Pools]: connection pools of PostgreSQL and Redis, their
      reconnection, and the consumer of the gateway's queue.  [Durations]: times in the
      configuration, with [time.ParseDuration].  [ClientFactory]: the constructors of
      src/internal/httpclient, its factory and TLS settings, and the time a call can last.

    ** How the code is modelled

    Structs are records and enumerations are inductive types; a byte is an
    integer below 256 and machine arithmetic wraps where it is written in the code
    ([u8], [u16], [u32], [Retry.i64]).  A method that mutates its receiver returns
    the new value; pointers that are shared (fragment buffers, circuit breakers,
    response channels) are locations of an explicit store.  An operation that reads
    the clock takes the reading as an argument.  Error returns are values; a
    run-time panic is the result [Panic].  Operations under a mutex are atomic
    steps: concurrency is the order of the steps, as a list of events
    ([Resilience.run], [Cache.Lock.step], [Gateway.run_dlq]) or as a step relation
    ([ServerInit.step], [EapEngineSpec] for the session machine).  Third-party
    code and the outside world (the layeh RADIUS library, HTTP, the AAA server,
    hashes and MACs, Redis failures) are arguments of the definitions; hypotheses on
    them are documented behaviour only, such as a 16-byte digest.  Logging and, outside
    [AaaMetrics], [MetricsRegistry] and [DebugTrace], metrics and debug events are left
    out.

    ** What is proved

    - Engine ([EapEngineSpec]): a reported success is the AAA server's answer to
      this in-sequence message ([success_authentic]); at most [MaxRounds] messages of
      a session reach the AAA server over every history ([rounds_bounded]); a
      repetition is answered from the cache ([retry_idempotent]); every call follows
      the session machine ([process_follows_machine]).
    - Handlers: confirmations act only on the session of the named subscriber and
      slice ([confirm_bound], [aiw_confirm_bound]); created contexts can be confirmed
      ([create_then_confirm]).  Around them, every request is answered once and
      panics become problems ([stack_answers]).
    - Reverse flows: exact effects of a completed message ([Handle_completes]),
      failed messages can be repeated ([Handle_error_repeatable]), pending requests
      get their own answer in every interleaving ([Wait_returns_own_answer],
      [Forward_own_answer]), only authenticated requests are processed
      ([coa_authenticated]), Diameter requests are answered ([server_request_answered]),
      correlated messages are delivered or queued ([ForwardEAP_correlates],
      [forwardToBiz_no_loss]), the queue drains ([dlq_drains]).
    - Connections and breakers: the Diameter forwarder keeps the types of its state
      ([forwarder_typed]); a call returns the first answer to its own request
      ([Forward_exchange]); loss of a connection strands no call
      ([connection_loss_releases], [loss_never_strands]) and a live connection is watched
      ([connection_watched]); the breaker refines its three-state specification
      ([breaker_refines]); clients go only to live pods ([ForwardRequest_live_pods]);
      the lock excludes ([lock_exclusive]); the sliding window ([ratelimit_window]).
    - Service interfaces: a request to the N58 or N60 interface is refused with a problem,
      or decoded and handled, by path and document ([nssaa_over_http], [aiw_over_http]).
    - RADIUS and Diameter dictionaries: the generated accessors keep the contract of an
      attribute ([accessor_contract]), a request the client builds is read back and its
      answer returned ([radius_leg_read_back]), requests conform to the loaded Diameter
      dictionary but for the code of the EAP payload ([der_conforms]); what a goroutine
      of the UDP listener handles is what the shared buffer holds when it runs
      ([goroutine_reads_last], [listen_authentic]).
    - Codecs: EAP packets ([Parse_exact]), fragmentation and reassembly with isolation
      between sessions ([split_reassemble], [FragmentManager_isolated]), RADIUS
      EAP-Message and Message-Authenticator ([eap_message_roundtrip],
      [replace_then_verify]), agreement of the two Diameter encoders
      ([der_encoders_agree]), the status machine ([TransitionTo_refines]).
    - Persistence and keys: what is saved is loaded ([nssaa_save_load],
      [aiw_save_load]), concurrent first saves ([concurrent_saves_duplicate]),
      migrations can be resumed ([migrations_resume]), secrets survive one key
      rotation ([secret_rotation]), and every number of them with Vault
      ([vault_secret_survives]), tokens ([Validate_sound]), the stores in Redis
      ([cache_contract], [amf_dlq_accounts], [pod_offering]), key derivation
      ([key_info_separates]).
    - Processes: a request over the AAA gateway returns the AAA server's answer
      ([forward_end_to_end]) and server-initiated requests time out as the program is
      put together ([server_initiated_unanswered]); which requests the HTTP gateway
      lets through ([gateway_admission]), what it passes on of them and of the answers
      ([gateway_transparent]) and how it registers itself ([gateway_registration]); start and
      shutdown ([gateway_starts], [nrm_starts], [aaa_starts], [biz_shutdown_order]);
      the operator tool shows the events of a subscriber ([timeline]); a call of the AAA
      client ends within a bound ([aaa_call_bounded]); recording a metric never panics
      ([metrics_never_panic]); a reconnecting pool leaks no connections ([one_pool]); times
      mean the same as numbers and as texts ([duration_forms_agree]).
    - Management: alarms are unique and follow the breakers ([alarm_unique],
      [breaker_alarm_served]); registration heals itself ([heartbeat_self_heals]);
      life of a registration ([registration_lifecycle]); discovery through the gateway
      ([udm_discovery_transparent]); with which configurations the Biz Pod starts
      ([load_complete], [build_resources], [biz_starts_iff], [expandEnv_spec]).
    - Deviations of the code from its documentation or purpose are theorems or
      lemmas too, among them [failed_forward_swallowed], [confirm_ignores_result],
      [coa_response_diverges], [list_always_fails], [expire_stale_inverted],
      [wildcard_upsert_ignored], [discovery_never_refreshed],
      [udm_discovery_disagrees], [alarm_paths_disagree], [unset_limits_refuse],
      [fresh_call_released], [dead_connection_kept], [cache_reads_as_correlation],
      [nssai_set_panics], [nssai_del_diverges], [tls_fails_open], [negative_attempts_panic].

    ** Fuel

    Loops over bytes or characters that are not structural recursions take fuel, the
    length of the input (plus one), and each iteration consumes at least one element
    ([Radius.decode_loop], [frag_loop], [find_loop], [patch_find],
    [EapFragment.split_loop], [Config.expand] with [expand_fuel]); retry loops take
    the number of attempts.  The loops that need not consume anything are
    [RadiusGateway.coa_find] and [RadiusDict.DelVendor]; there the theorem is that no fuel
    suffices ([coa_response_diverges], [nssai_del_diverges]).

    ** Not modelled

    Signal handling, logging and tracing set-up, flags and colours of the operator tool,
    the YAML parser itself, wrappers that pass a call to a library, the entry points of
    the lab servers, and the simulators and mocks under src/test and src/cmd/aaa-sim.
    Deadlines set on Diameter connections and the float rounding of the metrics are
    abstracted where they occur.  What is left of the sources is glue of these kinds. *)
From stdpp Require Export base list numbers strings gmap pretty.
From Stdlib Require Export ZArith Lia.

Declare Scope go_scope.
Delimit Scope go_scope with go.
Open Scope Z_scope.

(** ** Results: what a Go call gives back

    [Ok v] is a nil error, [Err e] a non-nil one, [Panic] a run-time panic
    (index or slice out of range, division by zero, nil map write). *)
Inductive result (E A : Type) : Type :=
| Ok (a : A)
| Err (e : E)
| Panic.
Arguments Ok {E A} a.
Arguments Err {E A} e.
Arguments Panic {E A}.

Definition rbind {E A B} (r : result E A) (f : A -> result E B) : result E B :=
  match r with
  | Ok a => f a
  | Err e => Err e
  | Panic => Panic
  end.

Definition rmap {E A B} (f : A -> B) (r : result E A) : result E B :=
  rbind r (fun a => Ok (f a)).

Definition map_err {E E' A} (f : E -> E') (r : result E A) : result E' A :=
  match r with
  | Ok a => Ok a
  | Err e => Err (f e)
  | Panic => Panic
  end.

Definition is_Ok {E A} (r : result E A) : bool :=
  match r with Ok _ => true | _ => false end.

Notation "'let?' x := r 'in' k" := (rbind r (fun x => k))
  (at level 10, x name, r at level 100, k at level 200,
   format "'[v' 'let?'  x  :=  r  'in' '/' k ']'") : go_scope.
Open Scope go_scope.

(** ** Machine integers

    A w-bit Go integer is a [Z] in range, with the wrap-around of the Go
    conversions and operators written out. *)
Definition u8 (x : Z) : Z := x mod 256.
Definition u16 (x : Z) : Z := x mod 65536.
Definition u32 (x : Z) : Z := x mod 4294967296.

Definition in_u8 (x : Z) : Prop := 0 <= x < 256.
Definition in_u16 (x : Z) : Prop := 0 <= x < 65536.
Definition in_u32 (x : Z) : Prop := 0 <= x < 4294967296.

(** ** Byte strings *)
Abbreviation bytes := (list Z).
Definition bytes_ok (bs : bytes) : Prop := Forall in_u8 bs.
Definition bytes_okb (bs : bytes) : bool := forallb (fun b => (0 <=? b) && (b <? 256)) bs.

(** Go's [len] on slices. *)
Definition len {A} (xs : list A) : Z := Z.of_nat (length xs).
(** Go's [xs[i:j]] with indices already known to be in range. *)
Definition slice {A} (i j : Z) (xs : list A) : list A :=
  take (Z.to_nat (j - i)) (drop (Z.to_nat i) xs).
(** Go's [xs[i:]]. *)
Definition suffix_from {A} (i : Z) (xs : list A) : list A := drop (Z.to_nat i) xs.
(** Go's [bs[i]] with the index known to be in range. *)
Definition byte_at (bs : bytes) (i : Z) : Z := nth (Z.to_nat i) bs 0.

(** encoding/binary: BigEndian.PutUint16/Uint16 and PutUint32/Uint32. *)
Definition be16 (v : Z) : bytes := [u8 (v / 256); u8 v].
Definition get_be16 (hi lo : Z) : Z := hi * 256 + lo.
Definition be32 (v : Z) : bytes := be16 (u16 (v / 65536)) ++ be16 (u16 v).
Definition get_be32 (a b c d : Z) : Z := get_be16 a b * 65536 + get_be16 c d.

(** ** Strings *)
Abbreviation estr := EmptyString.
Definition is_empty (s : string) : bool :=
  match s with EmptyString => true | _ => false end.
Definition slen (s : string) : Z := Z.of_nat (String.length s).

(** Go's conversions between [string] and [[]byte]. *)
Definition bytes_of_string (s : string) : bytes :=
  map (fun c => Z.of_N (Ascii.N_of_ascii c)) (String.list_ascii_of_string s).
Definition string_of_bytes (bs : bytes) : string :=
  String.string_of_list_ascii (map (fun b => Ascii.ascii_of_N (Z.to_N b)) bs).

(** Boolean equality of strings, [==] of Go. *)
Definition str_eqb (a b : string) : bool := bool_decide (a = b).

(** Go's [%d] of an unsigned integer. *)
Definition show_uint (n : Z) : string := pretty (Z.to_N n).

(** ** Tactics *)

(** Case analysis on every [match]/[if] of the goal and the context, with the
    equations of results, options and records solved as they appear. *)
Ltac go_cases :=
  repeat (case_match; simplify_eq/=; try done).

(** Turns boolean arithmetic tests in the context into propositions. *)
Ltac zbool :=
  repeat match goal with
  | H : (_ <? _) = true |- _ => apply Z.ltb_lt in H
  | H : (_ <? _) = false |- _ => apply Z.ltb_ge in H
  | H : (_ <=? _) = true |- _ => apply Z.leb_le in H
  | H : (_ <=? _) = false |- _ => apply Z.leb_gt in H
  | H : (_ =? _) = true |- _ => apply Z.eqb_eq in H
  | H : (_ =? _) = false |- _ => apply Z.eqb_neq in H
  | H : (_ && _)%bool = true |- _ => apply andb_true_iff in H; destruct H
  | H : (_ || _)%bool = false |- _ => apply orb_false_iff in H; destruct H
  | H : negb _ = true |- _ => apply negb_true_iff in H
  | H : negb _ = false |- _ => apply negb_false_iff in H
  | H : bool_decide _ = true |- _ => apply bool_decide_eq_true_1 in H
  | H : bool_decide _ = false |- _ => apply bool_decide_eq_false_1 in H
  end.

Ltac zsolve := zbool; unfold in_u8, in_u16, in_u32, len, slen in *; lia.

(** ** Generic lemmas *)
Create HintDb go.

Lemma u8_range x : in_u8 (u8 x).
Proof. unfold in_u8, u8. apply Z.mod_pos_bound. lia. Qed.
Lemma u16_range x : in_u16 (u16 x).
Proof. unfold in_u16, u16. apply Z.mod_pos_bound. lia. Qed.
Lemma u32_range x : in_u32 (u32 x).
Proof. unfold in_u32, u32. apply Z.mod_pos_bound. lia. Qed.
Lemma u8_small x : in_u8 x -> u8 x = x.
Proof. intros. unfold u8. apply Z.mod_small. done. Qed.
Lemma u16_small x : in_u16 x -> u16 x = x.
Proof. intros. unfold u16. apply Z.mod_small. done. Qed.
Lemma u32_small x : in_u32 x -> u32 x = x.
Proof. intros. unfold u32. apply Z.mod_small. done. Qed.

Lemma bytes_ok_app a b : bytes_ok (a ++ b) <-> bytes_ok a /\ bytes_ok b.
Proof. unfold bytes_ok. rewrite Forall_app. done. Qed.
Lemma bytes_ok_take n a : bytes_ok a -> bytes_ok (take n a).
Proof. apply Forall_take. Qed.
Lemma bytes_ok_drop n a : bytes_ok a -> bytes_ok (drop n a).
Proof. apply Forall_drop. Qed.
Lemma bytes_ok_nil : bytes_ok [].
Proof. constructor. Qed.
Lemma bytes_okb_spec bs : bytes_okb bs = true <-> bytes_ok bs.
Proof.
  unfold bytes_okb, bytes_ok. rewrite forallb_forall, Forall_forall.
  split; intros H x Hx.
  - apply list_elem_of_In in Hx. specialize (H x Hx). zsolve.
  - apply list_elem_of_In in Hx. specialize (H x Hx). unfold in_u8 in H. lia.
Qed.

Lemma get_put_be16 v : in_u16 v -> get_be16 (u8 (v / 256)) (u8 v) = v.
Proof. unfold in_u16, get_be16, u8. intros. Z.to_euclidean_division_equations. lia. Qed.
Lemma put_get_be16 a b : in_u8 a -> in_u8 b -> be16 (get_be16 a b) = [a; b].
Proof.
  unfold in_u8, be16, get_be16, u8. intros.
  f_equal; [|f_equal]; Z.to_euclidean_division_equations; lia.
Qed.
Lemma get_be16_range a b : in_u8 a -> in_u8 b -> in_u16 (get_be16 a b).
Proof. unfold in_u8, in_u16, get_be16. lia. Qed.
Lemma bytes_ok_be16 v : bytes_ok (be16 v).
Proof. repeat constructor; apply u8_range. Qed.
Lemma bytes_ok_be32 v : bytes_ok (be32 v).
Proof. apply bytes_ok_app. split; apply bytes_ok_be16. Qed.

Lemma len_nonneg {A} (xs : list A) : 0 <= len xs.
Proof. unfold len. lia. Qed.
Lemma len_app {A} (xs ys : list A) : len (xs ++ ys) = len xs + len ys.
Proof. unfold len. rewrite length_app. lia. Qed.
Lemma len_cons {A} (x : A) xs : len (x :: xs) = 1 + len xs.
Proof. unfold len. simpl. lia. Qed.
Lemma len_nil {A} : len (@nil A) = 0.
Proof. done. Qed.
Lemma len_take {A} n (xs : list A) : 0 <= n -> len (take (Z.to_nat n) xs) = Z.min n (len xs).
Proof. intros. unfold len. rewrite length_take. lia. Qed.
Lemma len_drop {A} n (xs : list A) : 0 <= n <= len xs -> len (drop (Z.to_nat n) xs) = len xs - n.
Proof. unfold len. intros. rewrite length_drop. lia. Qed.

Lemma byte_at_app pre xs k : 0 <= k -> byte_at (pre ++ xs) (len pre + k) = byte_at xs k.
Proof.
  intros Hk. unfold byte_at, len. rewrite app_nth2 by lia. f_equal. lia.
Qed.
Lemma byte_at_app0 pre xs : byte_at (pre ++ xs) (len pre) = byte_at xs 0.
Proof. rewrite <- (Z.add_0_r (len pre)). by apply byte_at_app. Qed.

Lemma str_eqb_true a b : str_eqb a b = true <-> a = b.
Proof. unfold str_eqb. apply bool_decide_eq_true. Qed.
Lemma str_eqb_refl a : str_eqb a a = true.
Proof. by apply str_eqb_true. Qed.
Lemma str_eqb_false a b : a <> b -> str_eqb a b = false.
Proof. intros H. unfold str_eqb. by apply bool_decide_eq_false. Qed.

Lemma string_bytes_roundtrip s : string_of_bytes (bytes_of_string s) = s.
Proof.
  unfold string_of_bytes, bytes_of_string. rewrite map_map.
  rewrite <- (String.string_of_list_ascii_of_string s) at 2. f_equal.
  rewrite <- map_id. apply map_ext. intros c. by rewrite N2Z.id, Ascii.ascii_N_embedding.
Qed.

#[export] Hint Resolve u8_range u16_range u32_range bytes_ok_be16 bytes_ok_be32
  bytes_ok_nil bytes_ok_take bytes_ok_drop len_nonneg get_be16_range : go.
#[export] Hint Rewrite @len_app @len_cons @len_nil : go.
