(* ===== verification/Regex.v ===== *)
(** * Regular expressions

    The validators of [internal/types] and [internal/api/common] are written
    as Go regular expressions ([regexp.MustCompile]).  This file holds the
    fragment of that language the sources use (character classes, sequence,
    alternation, [+], [{n,m}], anchored on both sides), its meaning as an
    inductive relation, and an executable matcher by derivatives that is proved
    to decide the relation.  Characters are bytes: every class the sources use
    separates ASCII bytes from all others, on which Go's rune semantics and the
    byte semantics agree. *)
From S2P Require Import Prelude.

Abbreviation char := Ascii.ascii.

Inductive re : Type :=
| Empty
| Eps
| Cls (p : char -> bool)
| Seq (a b : re)
| Alt (a b : re)
| Star (a : re).

Inductive matches : re -> list char -> Prop :=
| m_eps : matches Eps []
| m_cls p c : p c = true -> matches (Cls p) [c]
| m_seq a b s t : matches a s -> matches b t -> matches (Seq a b) (s ++ t)
| m_alt_l a b s : matches a s -> matches (Alt a b) s
| m_alt_r a b s : matches b s -> matches (Alt a b) s
| m_star_nil a : matches (Star a) []
| m_star_app a s t : matches a s -> matches (Star a) t -> matches (Star a) (s ++ t).

(** Derived forms: a literal, [r+], [r{n}] and [r{n,m}]. *)
Fixpoint Lit (s : list char) : re :=
  match s with
  | [] => Eps
  | c :: s => Seq (Cls (Ascii.eqb c)) (Lit s)
  end.
Definition Plus (a : re) : re := Seq a (Star a).
Fixpoint UpTo (n : nat) (a : re) : re :=
  match n with
  | O => Eps
  | S n => Alt Eps (Seq a (UpTo n a))
  end.
Fixpoint Rep (n k : nat) (a : re) : re :=
  match n with
  | O => UpTo k a
  | S n => Seq a (Rep n k a)
  end.

Fixpoint nullable (r : re) : bool :=
  match r with
  | Empty | Cls _ => false
  | Eps | Star _ => true
  | Seq a b => nullable a && nullable b
  | Alt a b => nullable a || nullable b
  end.

Definition mkSeq (a b : re) : re :=
  match a with Empty => Empty | Eps => b | _ => Seq a b end.
Definition mkAlt (a b : re) : re :=
  match a, b with Empty, _ => b | _, Empty => a | _, _ => Alt a b end.

Fixpoint deriv (c : char) (r : re) : re :=
  match r with
  | Empty | Eps => Empty
  | Cls p => if p c then Eps else Empty
  | Seq a b =>
      if nullable a then mkAlt (mkSeq (deriv c a) b) (deriv c b)
      else mkSeq (deriv c a) b
  | Alt a b => mkAlt (deriv c a) (deriv c b)
  | Star a => mkSeq (deriv c a) (Star a)
  end.

(** [regexp.MatchString] on a pattern anchored with [^] and [$]. *)
Fixpoint matchb (r : re) (s : list char) : bool :=
  match s with
  | [] => nullable r
  | c :: s => matchb (deriv c r) s
  end.
Definition MatchString (r : re) (s : string) : bool :=
  matchb r (String.list_ascii_of_string s).

#[local] Hint Constructors matches : core.

Ltac inv_m H := inversion H; clear H; subst.

Lemma matches_mkSeq a b s : matches (mkSeq a b) s <-> matches (Seq a b) s.
Proof.
  destruct a; simpl; try done; split; intros H.
  - inv_m H.
  - inv_m H. match goal with H : matches Empty _ |- _ => inv_m H end.
  - apply (m_seq Eps b [] s); auto.
  - inv_m H. match goal with H : matches Eps _ |- _ => inv_m H end. done.
Qed.

Lemma matches_mkAlt a b s : matches (mkAlt a b) s <-> matches (Alt a b) s.
Proof.
  assert (E1 : matches (Alt Empty b) s <-> matches b s).
  { split; [|auto]. intros H. inv_m H; [|done].
    match goal with H : matches Empty _ |- _ => inv_m H end. }
  assert (E2 : matches (Alt a Empty) s <-> matches a s).
  { split; [|auto]. intros H. inv_m H; [done|].
    match goal with H : matches Empty _ |- _ => inv_m H end. }
  destruct a; simpl; try (by symmetry); destruct b; try done; by symmetry.
Qed.

Lemma nullable_spec r : nullable r = true <-> matches r [].
Proof.
  induction r; simpl; split; intros H; try done; auto.
  - inv_m H.
  - inv_m H.
  - apply andb_true_iff in H as [H1 H2].
    apply (m_seq _ _ [] []); tauto.
  - inv_m H. match goal with H : _ ++ _ = [] |- _ => apply app_eq_nil in H as [-> ->] end.
    apply andb_true_iff. tauto.
  - apply orb_true_iff in H as [H|H]; [apply m_alt_l|apply m_alt_r]; tauto.
  - apply orb_true_iff. inv_m H; tauto.
Qed.

Lemma star_cons_inv a c s :
  matches (Star a) (c :: s) ->
  exists u v, s = u ++ v /\ matches a (c :: u) /\ matches (Star a) v.
Proof.
  intros H. remember (Star a) as r eqn:Er. remember (c :: s) as w eqn:Ew.
  revert a c s Er Ew. induction H; intros; try discriminate.
  injection Er as ->. destruct s as [|c' s]; simpl in Ew.
  - eapply IHmatches2; [reflexivity|exact Ew].
  - injection Ew as -> <-. eauto.
Qed.

Lemma deriv_spec r c s : matches (deriv c r) s <-> matches r (c :: s).
Proof.
  revert s. induction r; intros s; simpl.
  - split; intros H; inv_m H.
  - split; intros H; inv_m H.
  - destruct (p c) eqn:E; split; intros H; inv_m H; auto; congruence.
  - assert (S1 : matches (mkSeq (deriv c r1) r2) s <->
                 exists u v, s = u ++ v /\ matches r1 (c :: u) /\ matches r2 v).
    { rewrite matches_mkSeq. split.
      - intros H. inv_m H. eexists _, _. rewrite <- IHr1. eauto.
      - intros (u & v & -> & H1 & H2). apply m_seq; [by apply IHr1|done]. }
    destruct (nullable r1) eqn:N.
    + rewrite matches_mkAlt. split; intros H.
      * inv_m H.
        -- match goal with H : matches (mkSeq _ _) _ |- _ =>
             apply S1 in H as (u & v & -> & ? & ?) end.
           by apply (m_seq _ _ (c :: u) v).
        -- apply (m_seq _ _ [] (c :: s)); [by apply nullable_spec|by apply IHr2].
      * inv_m H. destruct s0 as [|c' s0]; simpl in *; simplify_eq.
        -- apply m_alt_r. by apply IHr2.
        -- apply m_alt_l. apply S1. eauto.
    + rewrite S1. split.
      * intros (u & v & -> & ? & ?). by apply (m_seq _ _ (c :: u) v).
      * intros H. inv_m H. destruct s0 as [|c' s0]; simpl in *; simplify_eq; [|eauto].
        match goal with H : matches r1 [] |- _ => apply nullable_spec in H end. congruence.
  - rewrite matches_mkAlt. split; intros H; inv_m H.
    + apply m_alt_l. by apply IHr1.
    + apply m_alt_r. by apply IHr2.
    + apply m_alt_l. by apply IHr1.
    + apply m_alt_r. by apply IHr2.
  - rewrite matches_mkSeq. split; intros H.
    + inv_m H. match goal with H : matches (deriv _ _) _ |- _ => apply IHr in H end.
      by apply (m_star_app _ (c :: _) _).
    + apply star_cons_inv in H as (u & v & -> & ? & ?). apply m_seq; [by apply IHr|done].
Qed.

(** The matcher decides the relation. *)
Lemma matchb_spec r s : matchb r s = true <-> matches r s.
Proof.
  revert r. induction s as [|c s IH]; intros r; simpl.
  - apply nullable_spec.
  - rewrite IH. apply deriv_spec.
Qed.

(** ** Inversion of the derived forms *)
Lemma matches_seq a b s :
  matches (Seq a b) s <-> exists u v, s = u ++ v /\ matches a u /\ matches b v.
Proof.
  split.
  - intros H. inv_m H. eauto 6.
  - intros (u & v & -> & H1 & H2). auto.
Qed.

Lemma matches_alt a b s : matches (Alt a b) s <-> matches a s \/ matches b s.
Proof. split; [intros H; inv_m H; auto | intros [H|H]; auto]. Qed.

Lemma matches_cls p s : matches (Cls p) s <-> exists c, s = [c] /\ p c = true.
Proof. split; [intros H; inv_m H; eauto | intros (c & -> & H); auto]. Qed.

Lemma matches_lit w s : matches (Lit w) s <-> s = w.
Proof.
  revert s. induction w as [|c w IH]; intros s; simpl.
  - split; [intros H; by inv_m H | intros ->; auto].
  - rewrite matches_seq. setoid_rewrite matches_cls. split.
    + intros (u & v & -> & (c' & -> & H) & Hv). apply IH in Hv as ->.
      apply Ascii.eqb_eq in H as ->. done.
    + intros ->. exists [c], w. rewrite IH. split; [done|]. split; [|done].
      exists c. by rewrite Ascii.eqb_refl.
Qed.

Lemma matches_star_cls p s : matches (Star (Cls p)) s <-> forallb p s = true.
Proof.
  induction s as [|c s IH]; simpl.
  - split; auto.
  - rewrite andb_true_iff. split.
    + intros (u & v & -> & H & Hv)%star_cons_inv.
      apply matches_cls in H as (c' & [= <- ->] & Hc). split; [done|]. by apply IH.
    + intros [Hc Hs]. apply (m_star_app _ [c] s); [auto | by apply IH].
Qed.

Lemma matches_plus_cls p s :
  matches (Plus (Cls p)) s <-> s <> [] /\ forallb p s = true.
Proof.
  unfold Plus. rewrite matches_seq. setoid_rewrite matches_cls.
  setoid_rewrite matches_star_cls. split.
  - intros (u & v & -> & (c & -> & H) & Hv). simpl. by rewrite H, Hv.
  - intros [Hne H]. destruct s as [|c s]; [done|]. simpl in H.
    apply andb_true_iff in H as [H1 H2]. exists [c], s. eauto.
Qed.

Lemma matches_upto_cls p k s :
  matches (UpTo k (Cls p)) s <-> (length s <= k)%nat /\ forallb p s = true.
Proof.
  revert s. induction k as [|k IH]; intros s; simpl.
  - split.
    + intros H. inv_m H. auto.
    + intros [H _]. destruct s; simpl in H; [auto|lia].
  - rewrite matches_alt, matches_seq. setoid_rewrite matches_cls. setoid_rewrite IH. split.
    + intros [H | (u & v & -> & (c & -> & H) & Hl & Hv)].
      * inv_m H. split; [simpl; lia|done].
      * simpl. rewrite H, Hv. split; [lia|done].
    + intros [Hl H]. destruct s as [|c s]; [auto|]. right. simpl in *.
      apply andb_true_iff in H as [H1 H2]. exists [c], s. split_and!; eauto. lia.
Qed.

Lemma matches_rep_cls p n k s :
  matches (Rep n k (Cls p)) s <->
  (n <= length s <= n + k)%nat /\ forallb p s = true.
Proof.
  revert s. induction n as [|n IH]; intros s; simpl.
  - rewrite matches_upto_cls. split; intros [? ?]; split; auto; lia.
  - rewrite matches_seq. setoid_rewrite matches_cls. setoid_rewrite IH. split.
    + intros (u & v & -> & (c & -> & H) & Hl & Hv). simpl. rewrite H, Hv. split; [lia|done].
    + intros [Hl H]. destruct s as [|c s]; simpl in *; [lia|].
      apply andb_true_iff in H as [H1 H2]. exists [c], s. split_and!; eauto; lia.
Qed.

Lemma MatchString_spec r s :
  MatchString r s = true <-> matches r (String.list_ascii_of_string s).
Proof. apply matchb_spec. Qed.

(** ** The character classes of the sources *)
Definition ascii_code (c : char) : Z := Z.of_N (Ascii.N_of_ascii c).
Definition in_range (lo hi : Z) (c : char) : bool :=
  (lo <=? ascii_code c) && (ascii_code c <=? hi).
(** [[0-9]] *)
Definition is_digit : char -> bool := in_range 48 57.
(** [[0-9A-Fa-f]] *)
Definition is_hex (c : char) : bool := is_digit c || in_range 65 70 c || in_range 97 102 c.
(** [[^@]] *)
Definition not_at (c : char) : bool := negb (ascii_code c =? 64).
(** [.]: everything but a newline *)
Definition not_newline (c : char) : bool := negb (ascii_code c =? 10).
