(* ===== verification/Common.v ===== *)
(** * internal/api/common: problem details and input validation

    [Problem] models problem.go (the RFC 7807 value and its constructors),
    [Validator] models validator.go.  A Go validator returns a nil error or a
    [*ProblemDetails]; here it returns [result ProblemDetails unit]. *)
From S2P Require Import Prelude Regex.
Local Open Scope string_scope.
Local Open Scope Z_scope.

Module Problem.

Record ProblemDetails : Type := mkProblem {
  pd_type : string;
  pd_title : string;
  pd_detail : string;
  pd_instance : string;
  pd_cause : string;
  pd_status : Z;
}.

(** [(p *ProblemDetails) Error()] *)
Definition Error (p : ProblemDetails) : string :=
  if is_empty (pd_title p) then pd_detail p
  else pd_title p +:+ ": " +:+ pd_detail p.

Definition NewProblem (status : Z) (cause detail : string) : ProblemDetails :=
  mkProblem estr estr detail estr cause status.

Definition probs (name : string) : string :=
  "https://nssAAF.operator.com/probs/" +:+ name.

Definition ValidationProblem (field reason : string) : ProblemDetails :=
  mkProblem (probs "validation-error") "Input Validation Failed"
    (field +:+ ": " +:+ reason) estr "VALIDATION_ERROR" 400.
Definition UnauthorizedProblem (detail : string) : ProblemDetails :=
  mkProblem (probs "unauthorized") "Authentication Required"
    detail estr "AUTHENTICATION_REQUIRED" 401.
Definition ForbiddenProblem (detail : string) : ProblemDetails :=
  mkProblem (probs "forbidden") "Slice Authentication Rejected"
    detail estr "SLICE_AUTH_REJECTED" 403.
Definition NotFoundProblem (detail : string) : ProblemDetails :=
  mkProblem (probs "not-found") "Resource Not Found" detail estr "NOT_FOUND" 404.
Definition ConflictProblem (detail : string) : ProblemDetails :=
  mkProblem (probs "conflict") "Resource State Conflict" detail estr "CONFLICT" 409.
Definition GoneProblem (detail : string) : ProblemDetails :=
  mkProblem (probs "gone") "Resource No Longer Available"
    detail estr "RESOURCE_GONE" 410.
Definition BadGatewayProblem (detail : string) : ProblemDetails :=
  mkProblem (probs "bad-gateway") "AAA Server Unreachable"
    detail estr "AAA_UNREACHABLE" 502.
Definition ServiceUnavailableProblem (detail : string) : ProblemDetails :=
  mkProblem (probs "service-unavailable") "AAA Server Temporarily Unavailable"
    detail estr "AAA_UNAVAILABLE" 503.
Definition GatewayTimeoutProblem (detail : string) : ProblemDetails :=
  mkProblem (probs "gateway-timeout") "AAA Server Timeout"
    detail estr "AAA_TIMEOUT" 504.
Definition InternalServerProblem (detail : string) : ProblemDetails :=
  mkProblem (probs "internal-server-error") "Internal Server Error"
    detail estr "INTERNAL_ERROR" 500.

End Problem.
Import Problem.

Module Validator.

Definition chars (s : string) : list char := String.list_ascii_of_string s.
Lemma slen_chars s : slen s = Z.of_nat (length (chars s)).
Proof. unfold slen, chars. f_equal. induction s; simpl; congruence. Qed.

(** [^(msisdn-[0-9]{5,15}|extid-[^@]+@[^@]+|.+)$] *)
Definition gpsiRegex : re :=
  Alt (Seq (Lit (chars "msisdn-")) (Rep 5 10 (Cls is_digit)))
    (Alt (Seq (Lit (chars "extid-"))
            (Seq (Plus (Cls not_at)) (Seq (Lit (chars "@")) (Plus (Cls not_at)))))
       (Plus (Cls not_newline))).
(** [^imsi-[0-9]{5,15}$] *)
Definition supiRegex : re := Seq (Lit (chars "imsi-")) (Rep 5 10 (Cls is_digit)).
(** [^[0-9A-Fa-f]{6}$] *)
Definition sdRegex : re := Rep 6 0 (Cls is_hex).

Definition invalid {A} (field reason : string) : result ProblemDetails A :=
  Err (ValidationProblem field reason).

Definition ValidateGPSI (gpsi : string) : result ProblemDetails unit :=
  if is_empty gpsi then invalid "gpsi" "GPSI is required"
  else if negb (MatchString gpsiRegex gpsi) then
    invalid "gpsi" "must match pattern ^(msisdn-[0-9]{5,15}|extid-[^@]+@[^@]+|.+)$ (TS 29.571 §5.2.2)"
  else Ok tt.

Definition ValidateSUPI (supi : string) : result ProblemDetails unit :=
  if is_empty supi then invalid "supi" "SUPI is required"
  else if negb (MatchString supiRegex supi) then
    invalid "supi" "must match pattern ^imsi-[0-9]{5,15}$ (IMSI-based SUPI, TS 29.571 §5.4.4.2)"
  else Ok tt.

Definition ValidateSnssai (sst : Z) (sd : string) (missing : bool)
  : result ProblemDetails unit :=
  if missing then invalid "snssai" "snssai is required (TS 29.526 §7.2.2)"
  else if (sst =? 0) && is_empty sd then
    invalid "snssai" "snssai.sst or snssai.sd must be provided"
  else if (sst <? 0) || (255 <? sst) then
    invalid "snssai.sst" "SST must be in range 0-255 (TS 29.571 §5.4.4.60)"
  else if negb (is_empty sd) && negb (MatchString sdRegex sd) then
    invalid "snssai.sd" "SD must be exactly 6 hex characters if present (TS 29.571 §5.4.4.60)"
  else Ok tt.

Definition ValidateNssai (sst : Z) (sd : string) : result ProblemDetails unit :=
  ValidateSnssai sst sd false.

(** [strings.TrimSpace(s) == ""]: every rune is a Unicode white space.  The
    patterns are the UTF-8 encodings of the code points for which
    [unicode.IsSpace] holds. *)
Fixpoint all_space (bs : bytes) : bool :=
  match bs with
  | [] => true
  | a :: t =>
      if ((9 <=? a) && (a <=? 13)) || (a =? 32) then all_space t
      else match t with
      | b :: t2 =>
          if (a =? 0xC2) && ((b =? 0x85) || (b =? 0xA0)) then all_space t2
          else match t2 with
          | c :: t3 =>
              if ((a =? 0xE1) && (b =? 0x9A) && (c =? 0x80))
                 || ((a =? 0xE2) && (b =? 0x80)
                     && (((0x80 <=? c) && (c <=? 0x8A))
                         || (c =? 0xA8) || (c =? 0xA9) || (c =? 0xAF)))
                 || ((a =? 0xE2) && (b =? 0x81) && (c =? 0x9F))
                 || ((a =? 0xE3) && (b =? 0x80) && (c =? 0x80))
              then all_space t3 else false
          | [] => false
          end
      | [] => false
      end
  end.

(** [r < 0x20 || r == 0x7F] *)
Definition is_control (b : Z) : bool := (b <? 0x20) || (b =? 0x7F).

Definition ValidateAuthCtxID (id : string) : result ProblemDetails unit :=
  if all_space (bytes_of_string id) then invalid "authCtxId" "authCtxId is required"
  else if existsb is_control (bytes_of_string id) then
    invalid "authCtxId" "authCtxId contains invalid control characters"
  else Ok tt.

Definition ValidatePlmnID (mcc mnc : string) : result ProblemDetails unit :=
  if negb (slen mcc =? 3) then
    invalid "plmnId.mcc" "MCC must be exactly 3 digits (TS 29.571 §5.4.4.6)"
  else if negb (slen mnc =? 2) && negb (slen mnc =? 3) then
    invalid "plmnId.mnc" "MNC must be 2 or 3 digits (TS 29.571 §5.4.4.6)"
  else if existsb (fun c => (c <? 48) || (57 <? c)) (bytes_of_string (mcc +:+ mnc)) then
    invalid "plmnId" "PLMN ID must contain only digits"
  else Ok tt.

(** [net/url.Parse] is not modelled: it is the argument [parse], which gives
    the scheme and the host, or the parse error's text. *)
Definition ValidateURI (parse : string -> result string (string * string)) (uri : string)
  : result ProblemDetails unit :=
  if is_empty uri then invalid "uri" "URI is required"
  else match parse uri with
  | Err e => invalid "uri" ("malformed URI: " +:+ e)
  | Panic => Panic
  | Ok (scheme, host) =>
      if is_empty scheme || is_empty host then
        invalid "uri" "URI must include scheme and host"
      else Ok tt
  end.

(** ** Lemmas shared with the clients *)
Lemma chars_app a b : chars (a +:+ b) = (chars a ++ chars b)%list.
Proof. induction a as [|c a IH]; simpl; [done|by f_equal]. Qed.
Lemma chars_inj a b : chars a = chars b -> a = b.
Proof.
  intros H. rewrite <- (String.string_of_list_ascii_of_string a).
  rewrite <- (String.string_of_list_ascii_of_string b). unfold chars in H. by rewrite H.
Qed.
Lemma string_of_chars s : String.string_of_list_ascii (chars s) = s.
Proof. apply String.string_of_list_ascii_of_string. Qed.
Lemma chars_of_list cs : chars (String.string_of_list_ascii cs) = cs.
Proof. apply String.list_ascii_of_string_of_list_ascii. Qed.
Lemma is_empty_true s : is_empty s = true <-> s = estr.
Proof. by destruct s. Qed.

(** An IMSI-based SUPI: the prefix and 5 to 15 digits. *)
Definition supi_form (s : string) : Prop :=
  exists ds, s = "imsi-" +:+ ds /\ forallb is_digit (chars ds) = true
             /\ (5 <= length (chars ds) <= 15)%nat.

Lemma supiRegex_spec s : MatchString supiRegex s = true <-> supi_form s.
Proof.
  rewrite MatchString_spec. unfold supiRegex, supi_form. rewrite matches_seq.
  setoid_rewrite matches_lit. setoid_rewrite matches_rep_cls. split.
  - intros (u & v & E & -> & Hl & Hd).
    exists (String.string_of_list_ascii v). rewrite chars_of_list.
    split; [|split; [done|lia]].
    apply chars_inj. rewrite chars_app, chars_of_list. done.
  - intros (ds & -> & Hd & Hl). exists (chars "imsi-"), (chars ds).
    split; [apply chars_app|]. split; [done|]. split; [lia|done].
Qed.

Definition sd_form (s : string) : Prop :=
  length (chars s) = 6%nat /\ forallb is_hex (chars s) = true.

Lemma sdRegex_spec s : MatchString sdRegex s = true <-> sd_form s.
Proof.
  rewrite MatchString_spec. unfold sdRegex, sd_form. rewrite matches_rep_cls.
  unfold chars. split; intros [H1 H2]; split; auto; lia.
Qed.

(** The catch-all alternative makes the GPSI pattern accept every non-empty
    string without a newline; only the external-identifier form may contain one. *)
Definition gpsi_form (s : string) : Prop :=
  (s <> estr /\ forallb not_newline (chars s) = true)
  \/ exists i r, s = "extid-" +:+ i +:+ "@" +:+ r /\ i <> estr /\ r <> estr
                 /\ forallb not_at (chars i) = true /\ forallb not_at (chars r) = true.

Lemma digit_not_newline cs : forallb is_digit cs = true -> forallb not_newline cs = true.
Proof.
  rewrite !forallb_forall. intros H x Hx. specialize (H x Hx).
  unfold is_digit, in_range in H. unfold not_newline. zbool.
  apply negb_true_iff, Z.eqb_neq. lia.
Qed.

Lemma chars_nonempty s : chars s <> [] <-> s <> estr.
Proof. by destruct s. Qed.

Lemma gpsiRegex_spec s : MatchString gpsiRegex s = true <-> gpsi_form s.
Proof.
  rewrite MatchString_spec. unfold gpsiRegex, gpsi_form. rewrite !matches_alt.
  rewrite matches_plus_cls, !matches_seq.
  setoid_rewrite matches_lit. setoid_rewrite matches_rep_cls.
  setoid_rewrite matches_seq. setoid_rewrite matches_plus_cls.
  setoid_rewrite matches_seq. setoid_rewrite matches_lit.
  setoid_rewrite matches_plus_cls. fold (chars s). split.
  - intros [(u & v & E & -> & Hl & Hd) | [(u & v & E & -> & i & w & -> & [Hi Hi'] & a & r & -> & -> & Hr & Hr') | [Hne H]]].
    + left. split; [apply chars_nonempty; by rewrite E|].
      rewrite E, forallb_app, (digit_not_newline v) by done. done.
    + right. exists (String.string_of_list_ascii i), (String.string_of_list_ascii r).
      rewrite !chars_of_list. split_and!; try done.
      * apply chars_inj. by rewrite !chars_app, !chars_of_list.
      * apply chars_nonempty. by rewrite chars_of_list.
      * apply chars_nonempty. by rewrite chars_of_list.
    + left. split; [by apply chars_nonempty|done].
  - intros [[Hne H] | (i & r & -> & Hi & Hr & Hi' & Hr')].
    + right; right. split; [by apply chars_nonempty|done].
    + right; left. exists (chars "extid-"), (chars i ++ chars "@" ++ chars r)%list.
      split; [by rewrite !chars_app|]. split; [done|].
      exists (chars i), (chars "@" ++ chars r)%list. split; [done|].
      split; [by split; [apply chars_nonempty|]|].
      exists (chars "@"), (chars r). split; [done|]. split; [done|].
      split; [by apply chars_nonempty|done].
Qed.

Lemma validateGPSI_ok s : ValidateGPSI s = Ok tt <-> gpsi_form s.
Proof.
  unfold ValidateGPSI. rewrite <- gpsiRegex_spec.
  destruct (is_empty s) eqn:E.
  - apply is_empty_true in E as ->. by vm_compute.
  - destruct (MatchString gpsiRegex s); done.
Qed.

Lemma validateSUPI_ok s : ValidateSUPI s = Ok tt <-> supi_form s.
Proof.
  unfold ValidateSUPI. rewrite <- supiRegex_spec.
  destruct (is_empty s) eqn:E.
  - apply is_empty_true in E as ->. by vm_compute.
  - destruct (MatchString supiRegex s); done.
Qed.

Lemma validateSnssai_ok sst sd missing :
  ValidateSnssai sst sd missing = Ok tt <->
  missing = false /\ in_u8 sst /\ (sst <> 0 \/ sd <> estr)
  /\ (sd = estr \/ sd_form sd).
Proof.
  unfold ValidateSnssai. rewrite <- sdRegex_spec.
  destruct missing; [split; [done|intros (? & _); done]|].
  destruct (sst =? 0) eqn:E0, (is_empty sd) eqn:Ed; simpl.
  all: try apply is_empty_true in Ed as ->.
  all: try (assert (sd <> estr) by (intros ->; done)).
  all: destruct (sst <? 0) eqn:E1, (255 <? sst) eqn:E2; simpl; zbool; unfold in_u8.
  all: try destruct (MatchString sdRegex sd) eqn:E3; simpl.
  all: split; [intros; split_and!; try done; try lia; auto
              | intros (_ & ? & ? & ?); try done; try lia; naive_solver].
Qed.

End Validator.
