(* ===== verification/Encoding.v ===== *)
(** * encoding/base64 and encoding/hex

    The parts of the Go standard library encoders that the sources use:
    [base64.StdEncoding] (EAP payloads in SBI bodies) and hexadecimal digits
    (slice differentiators).  Decoders are the ones of Go: base64 skips carriage
    returns and newlines, wants the padding, and rejects anything after it. *)
From S2P Require Import Prelude Regex.

(** Exhaustive check of a boolean property of the integers below a bound. *)
Definition all_below (n : nat) (p : Z -> bool) : bool :=
  forallb (fun k => p (Z.of_nat k)) (seq 0 n).

Lemma all_below_spec n p z :
  all_below n p = true -> 0 <= z < Z.of_nat n -> p z = true.
Proof.
  unfold all_below. rewrite forallb_forall. intros H Hz.
  specialize (H (Z.to_nat z)). rewrite Z2Nat.id in H by lia. apply H.
  apply in_seq. lia.
Qed.

Module Base64.

Definition char_of (z : Z) : char := Ascii.ascii_of_N (Z.to_N z).

(** A-Z a-z 0-9 + / *)
Definition enc_char (v : Z) : char :=
  char_of (if v <? 26 then 65 + v
           else if v <? 52 then 97 + (v - 26)
           else if v <? 62 then 48 + (v - 52)
           else if v =? 62 then 43 else 47).

Definition dec_char (c : char) : option Z :=
  let z := ascii_code c in
  if (65 <=? z) && (z <=? 90) then Some (z - 65)
  else if (97 <=? z) && (z <=? 122) then Some (z - 97 + 26)
  else if (48 <=? z) && (z <=? 57) then Some (z - 48 + 52)
  else if z =? 43 then Some 62
  else if z =? 47 then Some 63
  else None.

Definition pad : char := char_of 61.
Definition is_pad (c : char) : bool := ascii_code c =? 61.
Definition is_newline (c : char) : bool := (ascii_code c =? 10) || (ascii_code c =? 13).

Fixpoint encode (bs : bytes) : list char :=
  match bs with
  | a :: b :: c :: t =>
      enc_char (a / 4) :: enc_char ((a mod 4) * 16 + b / 16)
      :: enc_char ((b mod 16) * 4 + c / 64) :: enc_char (c mod 64) :: encode t
  | [a; b] =>
      [enc_char (a / 4); enc_char ((a mod 4) * 16 + b / 16); enc_char ((b mod 16) * 4); pad]
  | [a] => [enc_char (a / 4); enc_char ((a mod 4) * 16); pad; pad]
  | [] => []
  end.

(** One quantum of four characters after the newlines have been skipped. *)
Fixpoint decode_quanta (cs : list char) : option bytes :=
  match cs with
  | [] => Some []
  | w :: x :: y :: z :: t =>
      match dec_char w, dec_char x with
      | Some w, Some x =>
          match dec_char y, dec_char z with
          | Some y, Some z =>
              match decode_quanta t with
              | Some r => Some (w * 4 + x / 16 :: (x mod 16) * 16 + y / 4
                                 :: (y mod 4) * 64 + z :: r)
              | None => None
              end
          | Some y, None =>
              match t with
              | [] => if is_pad z then Some [w * 4 + x / 16; (x mod 16) * 16 + y / 4] else None
              | _ => None
              end
          | None, _ =>
              match t with
              | [] => if is_pad y && is_pad z then Some [w * 4 + x / 16] else None
              | _ => None
              end
          end
      | _, _ => None
      end
  | _ => None
  end.

Definition decode (cs : list char) : option bytes :=
  decode_quanta (List.filter (fun c => negb (is_newline c)) cs).

Definition EncodeToString (bs : bytes) : string := String.string_of_list_ascii (encode bs).
Definition DecodeString (s : string) : option bytes := decode (String.list_ascii_of_string s).

Lemma dec_enc_char v : 0 <= v < 64 -> dec_char (enc_char v) = Some v.
Proof.
  intros Hv.
  pose proof (all_below_spec 64 (fun v => bool_decide (dec_char (enc_char v) = Some v)) v) as H.
  by eapply bool_decide_eq_true, H; [vm_compute|lia].
Qed.

Lemma enc_char_not_newline v : 0 <= v < 64 -> is_newline (enc_char v) = false.
Proof.
  intros Hv. apply negb_true_iff.
  by apply (all_below_spec 64 (fun v => negb (is_newline (enc_char v))) v); [vm_compute|lia].
Qed.

(** Induction on a byte string three bytes at a time. *)
Lemma bytes_ind3 (P : bytes -> Prop) :
  P [] -> (forall a, P [a]) -> (forall a b, P [a; b]) ->
  (forall a b c t, P t -> P (a :: b :: c :: t)) -> forall bs, P bs.
Proof.
  intros H0 H1 H2 H3. enough (forall bs, P bs /\ (forall a, P (a :: bs)) /\ forall a b, P (a :: b :: bs))
    as H by (intros; apply H).
  induction bs as [|x bs (IH0 & IH1 & IH2)]; split_and!; auto.
Qed.

Lemma sextets a b c :
  in_u8 a -> in_u8 b -> in_u8 c ->
  0 <= a / 4 < 64 /\ 0 <= (a mod 4) * 16 + b / 16 < 64
  /\ 0 <= (b mod 16) * 4 + c / 64 < 64 /\ 0 <= c mod 64 < 64
  /\ 0 <= (a mod 4) * 16 < 64 /\ 0 <= (b mod 16) * 4 < 64.
Proof. unfold in_u8. intros. Z.to_euclidean_division_equations. lia. Qed.

Lemma encode_no_newline bs :
  bytes_ok bs -> List.filter (fun c => negb (is_newline c)) (encode bs) = encode bs.
Proof.
  induction bs as [|a|a b|a b c t IH] using bytes_ind3; intros H; [done| | |].
  all: unfold bytes_ok in H; rewrite ?Forall_cons in H; destruct_and?.
  - destruct (sextets a 0 0) as (? & ? & ? & ? & ? & ?); try (done || (unfold in_u8; lia)).
    simpl. rewrite !enc_char_not_newline by done. done.
  - destruct (sextets a b 0) as (? & ? & ? & ? & ? & ?); try (done || (unfold in_u8; lia)).
    simpl. rewrite !enc_char_not_newline by done. done.
  - destruct (sextets a b c) as (? & ? & ? & ? & ? & ?); try done.
    simpl. rewrite !enc_char_not_newline by done. simpl. by rewrite IH.
Qed.

Lemma decode_encode_quanta bs : bytes_ok bs -> decode_quanta (encode bs) = Some bs.
Proof.
  induction bs as [|a|a b|a b c t IH] using bytes_ind3; intros H; [done| | |].
  all: unfold bytes_ok in H; rewrite ?Forall_cons in H; destruct_and?.
  - destruct (sextets a 0 0) as (? & ? & ? & ? & ? & ?); try (done || (unfold in_u8; lia)).
    cbn [encode decode_quanta]. rewrite !dec_enc_char by done.
    change (dec_char pad) with (@None Z). change (is_pad pad) with true. cbn.
    unfold in_u8 in *. repeat f_equal; Z.to_euclidean_division_equations; lia.
  - destruct (sextets a b 0) as (? & ? & ? & ? & ? & ?); try (done || (unfold in_u8; lia)).
    cbn [encode decode_quanta]. rewrite !dec_enc_char by done.
    change (dec_char pad) with (@None Z). change (is_pad pad) with true. cbn.
    unfold in_u8 in *. repeat f_equal; Z.to_euclidean_division_equations; lia.
  - destruct (sextets a b c) as (? & ? & ? & ? & ? & ?); try done.
    cbn [encode decode_quanta]. rewrite !dec_enc_char by done. rewrite IH by done.
    unfold in_u8 in *. repeat f_equal; Z.to_euclidean_division_equations; lia.
Qed.

(** Decoding inverts encoding on byte strings. *)
Lemma decode_encode bs : bytes_ok bs -> DecodeString (EncodeToString bs) = Some bs.
Proof.
  intros H. unfold DecodeString, EncodeToString, decode.
  rewrite String.list_ascii_of_string_of_list_ascii, encode_no_newline by done.
  by apply decode_encode_quanta.
Qed.

Lemma encode_nonempty bs : bs <> [] -> EncodeToString bs <> estr.
Proof. destruct bs as [|a [|b [|c t]]]; done. Qed.

End Base64.

Module Hex.

Definition dec_char (c : char) : option Z :=
  let z := ascii_code c in
  if (48 <=? z) && (z <=? 57) then Some (z - 48)
  else if (97 <=? z) && (z <=? 102) then Some (z - 97 + 10)
  else if (65 <=? z) && (z <=? 70) then Some (z - 65 + 10)
  else None.
(** 0-9 a-f *)
Definition enc_char (v : Z) : char :=
  Base64.char_of (if v <? 10 then 48 + v else 97 + (v - 10)).

(** [hex.DecodeString]: [None] for an odd length or a non-hexadecimal character. *)
Fixpoint decode (cs : list char) : option bytes :=
  match cs with
  | [] => Some []
  | h :: l :: t =>
      match dec_char h, dec_char l with
      | Some h, Some l => match decode t with Some r => Some (h * 16 + l :: r) | None => None end
      | _, _ => None
      end
  | _ => None
  end.
Definition DecodeString (s : string) : option bytes := decode (String.list_ascii_of_string s).

(** [hex.EncodeToString]: lower case. *)
Fixpoint encode (bs : bytes) : list char :=
  match bs with
  | [] => []
  | b :: t => enc_char (b / 16) :: enc_char (b mod 16) :: encode t
  end.
Definition EncodeToString (bs : bytes) : string := String.string_of_list_ascii (encode bs).

Lemma hex_dec_enc_char v : 0 <= v < 16 -> dec_char (enc_char v) = Some v.
Proof.
  intros Hv.
  pose proof (all_below_spec 16 (fun v => bool_decide (dec_char (enc_char v) = Some v)) v) as H.
  by eapply bool_decide_eq_true, H; [vm_compute|lia].
Qed.

Lemma hex_decode_encode bs : bytes_ok bs -> DecodeString (EncodeToString bs) = Some bs.
Proof.
  unfold DecodeString, EncodeToString. rewrite String.list_ascii_of_string_of_list_ascii.
  induction bs as [|b t IH]; intros H; [done|]. inversion H; subst. unfold in_u8 in *.
  cbn [encode decode]. rewrite !hex_dec_enc_char by (Z.to_euclidean_division_equations; lia).
  rewrite IH by done. repeat f_equal. Z.to_euclidean_division_equations. lia.
Qed.

Lemma dec_char_hex c : is_hex c = true -> exists v, dec_char c = Some v /\ 0 <= v < 16.
Proof.
  unfold is_hex, is_digit, in_range, dec_char. intros H.
  repeat case_match; zbool; [eexists; split; [done|lia]..|].
  exfalso. apply orb_true_iff in H as [[H|H]%orb_true_iff|H]; zbool; lia.
Qed.

End Hex.
