(* ===== verification/Types.v ===== *)
(** * internal/types and internal/domain

    The 3GPP data types with their validation ([Snssai], [Supi], [Gpsi],
    [EapMessage], [NssaaStatus]), the error values of nssaa_error.go, and the
    status machine of internal/domain. *)
From S2P Require Import Prelude Regex Encoding Common.
Import Problem Validator.
Local Open Scope string_scope.
Local Open Scope Z_scope.

(** ** nssaa_error.go *)
Record ValidationError : Type := mkVE {
  ve_status : Z;
  ve_field : string;
  ve_reason : string;
  ve_cause : string;
}.

Definition ve_ToProblemDetails (e : ValidationError) : ProblemDetails :=
  if negb (is_empty (ve_cause e)) && negb (str_eqb (ve_cause e) "VALIDATION_ERROR") then
    mkProblem (probs "validation-error") "Input Validation Failed"
      (ve_field e +:+ ": " +:+ ve_reason e) estr (ve_cause e) (ve_status e)
  else ValidationProblem (ve_field e) (ve_reason e).

Definition ve_StatusCode (e : ValidationError) : Z :=
  if ve_status e =? 0 then 400 else ve_status e.

Record NssaaError : Type := mkNE {
  ne_status : Z;
  ne_cause : string;
  ne_detail : string;
}.

Definition ne_ToProblemDetails (e : NssaaError) : ProblemDetails :=
  let d := ne_detail e in
  match ne_status e with
  | 400 => NewProblem (ne_status e) (ne_cause e) d
  | 403 => ForbiddenProblem d
  | 404 => NotFoundProblem d
  | 409 => ConflictProblem d
  | 410 => GoneProblem d
  | 502 => BadGatewayProblem d
  | 503 => ServiceUnavailableProblem d
  | 504 => GatewayTimeoutProblem d
  | _ => InternalServerProblem d
  end.

(** The sentinel values of type [*NssaaError]. *)
Definition ErrAuthContextNotFound := mkNE 404 "AUTH_CONTEXT_NOT_FOUND" "Authentication context not found".
Definition ErrAuthContextExpired := mkNE 410 "AUTH_CONTEXT_EXPIRED" "Authentication context has expired".
Definition ErrMaxEapRoundsExceeded :=
  mkNE 400 "MAX_EAP_ROUNDS_EXCEEDED" "Maximum number of EAP rounds exceeded".
Definition ErrAuthAlreadyCompleted :=
  mkNE 409 "AUTH_ALREADY_COMPLETED" "Authentication has already completed".
Definition ErrAaaServerNotConfigured :=
  mkNE 404 "AAA_SERVER_NOT_CONFIGURED" "No AAA server configuration found for this S-NSSAI".
Definition ErrAaaUnreachable := mkNE 502 "AAA_UNREACHABLE" "Cannot reach AAA server".
Definition ErrAaaTimeout := mkNE 504 "AAA_TIMEOUT" "AAA server response timeout".
Definition ErrAaaAuthRejected := mkNE 403 "AAA_AUTH_REJECTED" "AAA server rejected authentication".
Definition sentinels : list NssaaError :=
  [ErrAuthContextNotFound; ErrAuthContextExpired; ErrMaxEapRoundsExceeded; ErrAuthAlreadyCompleted;
   ErrAaaServerNotConfigured; ErrAaaUnreachable; ErrAaaTimeout; ErrAaaAuthRejected].

(** ** snssai.go *)
Record Snssai : Type := mkSnssai { SST : Z; SD : string }.

#[global] Instance Snssai_eq_dec : EqDecision Snssai.
Proof. solve_decision. Defined.

Definition Snssai_Validate (s : Snssai) : result ValidationError unit :=
  if 255 <? SST s then
    Err (mkVE 400 "snssai.sst" "SST must be in range 0-255 (TS 29.571 §5.4.4.60)"
           "INVALID_SNSSAI_SST")
  else if negb (is_empty (SD s)) && negb (MatchString sdRegex (SD s)) then
    Err (mkVE 400 "snssai.sd"
           "SD must be exactly 6 hexadecimal characters (TS 29.571 §5.4.4.60)"
           "INVALID_SNSSAI_SD")
  else Ok tt.

(** [strings.ToUpper] on ASCII text. *)
Definition upper_char (c : char) : char :=
  if in_range 97 122 c then Ascii.ascii_of_N (Z.to_N (ascii_code c - 32)) else c.
Definition ToUpper (s : string) : string :=
  String.string_of_list_ascii (map upper_char (chars s)).

Definition Snssai_String (s : Snssai) : string :=
  if is_empty (SD s) then "S-NSSAI{" +:+ show_uint (SST s) +:+ "}"
  else "S-NSSAI{" +:+ show_uint (SST s) +:+ ":" +:+ SD s +:+ "}".

Definition Snssai_Key (s : Snssai) : string :=
  let sd := if is_empty (SD s) then "*" else SD s in
  show_uint (SST s) +:+ ":" +:+ ToUpper sd.

Definition Snssai_Equal (s other : Snssai) : bool :=
  (SST s =? SST other) && str_eqb (SD s) (SD other).

(** ** supi.go *)
Definition Supi_Validate (s : string) : result ValidationError unit :=
  if is_empty s then Err (mkVE 400 "supi" "SUPI is required" "INVALID_SUPI")
  else if negb (MatchString supiRegex s) then
    Err (mkVE 400 "supi"
           "SUPI must match pattern ^imsi-[0-9]{5,15}$ (IMSI-based SUPI, TS 29.571 §5.4.4.2)"
           "INVALID_SUPI")
  else Ok tt.

Definition Supi_IsIMSI (s : string) : bool := String.prefix "imsi-" s.
Definition Supi_IMSI (s : string) : string :=
  if Supi_IsIMSI s then String.substring 5 (String.length s - 5) s else estr.

(** ** gpsi.go *)
Definition Gpsi_Validate (g : string) : result ValidationError unit :=
  if is_empty g then
    Err (mkVE 400 "gpsi" "GPSI is required for NSSAA (TS 23.502 §4.2.9.1)" "INVALID_GPSI")
  else if negb (MatchString gpsiRegex g) then
    Err (mkVE 400 "gpsi"
           "GPSI must match pattern ^(msisdn-[0-9]{5,15}|extid-[^@]+@[^@]+|.+)$ (TS 29.571 §5.2.2)"
           "INVALID_GPSI")
  else Ok tt.

(** ** eap.go *)
Definition EapMessage_Validate (m : string) : result ValidationError unit :=
  if is_empty m then Err (mkVE 400 "eapMessage" "EAP message is required" "MISSING_EAP_MESSAGE")
  else match Base64.DecodeString m with
  | None => Err (mkVE 400 "eapMessage" "EAP message must be valid Base64 (RFC 3748)"
                   "INVALID_EAP_MESSAGE")
  | Some _ => Ok tt
  end.
Definition EapMessage_Bytes (m : string) : option bytes := Base64.DecodeString m.
Definition NewEapMessage (data : bytes) : string := Base64.EncodeToString data.

(** ** nssaa_status.go of internal/types and of internal/domain *)
Module Status.

Definition StatusNotExecuted : string := "NOT_EXECUTED".
Definition StatusPending : string := "PENDING".
Definition StatusSuccess : string := "EAP_SUCCESS".
Definition StatusFailure : string := "EAP_FAILURE".

Definition Validate (s : string) : result ValidationError unit :=
  if str_eqb s StatusNotExecuted || str_eqb s StatusPending
     || str_eqb s StatusSuccess || str_eqb s StatusFailure then Ok tt
  else Err (mkVE 400 "nssaaStatus" ("unknown NssaaStatus value: " +:+ s) "INVALID_STATUS").

Definition IsTerminal (s : string) : bool := str_eqb s StatusSuccess || str_eqb s StatusFailure.
Definition IsPending (s : string) : bool := str_eqb s StatusPending.

(** [AuthEvent] is an [int] with four named values. *)
Inductive AuthEvent : Type :=
| EventAuthStarted
| EventEAPRound
| EventAAAComplete
| EventAAAFailed
| OtherEvent (n : Z).

Definition event_String (e : AuthEvent) : string :=
  match e with
  | EventAuthStarted => "EventAuthStarted"
  | EventEAPRound => "EventEAPRound"
  | EventAAAComplete => "EventAAAComplete"
  | EventAAAFailed => "EventAAAFailed"
  | OtherEvent n => "AuthEvent(" +:+ pretty n +:+ ")"
  end.

Record TransitionError : Type := mkTE { te_from : string; te_to : string }.

Definition TransitionTo (current : string) (event : AuthEvent)
  : string * option TransitionError :=
  let bad := (current, Some (mkTE current (event_String event))) in
  if str_eqb current StatusNotExecuted then
    match event with
    | EventAuthStarted => (StatusPending, None)
    | _ => bad
    end
  else if str_eqb current StatusPending then
    match event with
    | EventAAAComplete => (StatusSuccess, None)
    | EventAAAFailed => (StatusFailure, None)
    | EventEAPRound => (StatusPending, None)
    | _ => bad
    end
  else if str_eqb current StatusSuccess || str_eqb current StatusFailure then (current, None)
  else bad.

(** A run: the caller keeps the returned status, error or not. *)
Definition run (s : string) (es : list AuthEvent) : string :=
  foldl (fun s e => fst (TransitionTo s e)) s es.

(** The documented state machine, as a step relation between the four states. *)
Inductive status : Type := NotExecuted | Pending | Success | Failure.
Definition name (s : status) : string :=
  match s with
  | NotExecuted => StatusNotExecuted
  | Pending => StatusPending
  | Success => StatusSuccess
  | Failure => StatusFailure
  end.
Inductive status_step : status -> AuthEvent -> status -> Prop :=
| step_start : status_step NotExecuted EventAuthStarted Pending
| step_round : status_step Pending EventEAPRound Pending
| step_complete : status_step Pending EventAAAComplete Success
| step_failed : status_step Pending EventAAAFailed Failure
| step_absorb_success e : status_step Success e Success
| step_absorb_failure e : status_step Failure e Failure.

(** C26: [TransitionTo] implements exactly the documented status machine on the
    four defined statuses: an event is accepted iff the machine has a step for
    it, the new status is the step's target, and a refused event leaves the
    status unchanged. *)
Theorem TransitionTo_refines s e :
  (forall s', TransitionTo (name s) e = (name s', None) <-> status_step s e s')
  /\ ((~ exists s', status_step s e s') <->
      TransitionTo (name s) e = (name s, Some (mkTE (name s) (event_String e)))).
Proof.
  split.
  - intros s'. split.
    + destruct s, e, s'; intros H; vm_compute in H; try discriminate; constructor.
    + intros H. inversion H; subst; reflexivity.
  - split.
    + intros H. destruct s, e; try reflexivity; exfalso; apply H; eexists; constructor.
    + intros H [s' Hs]. inversion Hs; subst; vm_compute in H; discriminate.
Qed.

Lemma TransitionTo_terminal s e : IsTerminal s = true -> TransitionTo s e = (s, None).
Proof.
  unfold IsTerminal. intros [H|H]%orb_true_iff; apply str_eqb_true in H as ->; reflexivity.
Qed.

Lemma TransitionTo_valid s e :
  Validate s = Ok tt -> Validate (fst (TransitionTo s e)) = Ok tt.
Proof.
  intros H. unfold TransitionTo. repeat case_match; simplify_eq/=; done.
Qed.

Lemma run_terminal es s : IsTerminal s = true -> run s es = s.
Proof.
  induction es as [|e es IH]; intros H; simpl; [done|].
  unfold run in *. simpl. rewrite TransitionTo_terminal by done. auto.
Qed.

Lemma run_app s es es' : run s (es ++ es') = run (run s es) es'.
Proof. apply foldl_app. Qed.

(** The final result of an authentication is never overwritten: however
    the events before it arrive, once a run from a valid status reaches
    EAP_SUCCESS or EAP_FAILURE every continuation keeps that status, and all
    statuses of the run are defined ones. *)
Theorem run_terminal_final s es es' :
  Validate s = Ok tt -> IsTerminal (run s es) = true ->
  run s (es ++ es') = run s es /\ Validate (run s (es ++ es')) = Ok tt.
Proof.
  intros Hv Ht. rewrite run_app, run_terminal by done. split; [done|].
  clear Ht. revert s Hv. induction es as [|e es IH]; intros s Hv; [done|].
  apply (IH (fst (TransitionTo s e))). by apply TransitionTo_valid.
Qed.

Lemma run_terminal_final_witness :
  run StatusNotExecuted ([EventAuthStarted; EventEAPRound; EventAAAComplete] ++ [EventAAAFailed])
  = StatusSuccess.
Proof.
  destruct (run_terminal_final StatusNotExecuted
              [EventAuthStarted; EventEAPRound; EventAAAComplete] [EventAAAFailed]) as [H _];
    [reflexivity | reflexivity |].
  rewrite H. reflexivity.
Defined.

End Status.

(** ** Shared lemmas on keys *)

(** Splitting at the first separator is unambiguous. *)
Lemma app_sep_inj (p : char -> bool) (sep : char) a b x y :
  p sep = false -> forallb p a = true -> forallb p b = true ->
  (a ++ sep :: x = b ++ sep :: y)%list -> a = b /\ x = y.
Proof.
  intros Hs. revert b. induction a as [|c a IH]; intros [|d b]; simpl; intros Ha Hb E.
  - by simplify_eq.
  - simplify_eq. rewrite Hs in Hb. done.
  - simplify_eq. rewrite Hs in Ha. done.
  - apply andb_true_iff in Ha as [_ Ha], Hb as [_ Hb]. simplify_eq.
    by edestruct (IH b) as [-> ->].
Qed.

Lemma show_uint_inj a b : 0 <= a -> 0 <= b -> show_uint a = show_uint b -> a = b.
Proof. unfold show_uint. intros Ha Hb H%(inj _). lia. Qed.

Lemma show_u8_digits z : in_u8 z -> forallb is_digit (chars (show_uint z)) = true.
Proof.
  intros Hz.
  by apply (all_below_spec 256 (fun z => forallb is_digit (chars (show_uint z))) z);
    [vm_compute|].
Qed.

Lemma ToUpper_length s : length (chars (ToUpper s)) = length (chars s).
Proof. unfold ToUpper. rewrite chars_of_list. apply length_map. Qed.

Lemma Snssai_Validate_ok s :
  0 <= SST s ->
  Snssai_Validate s = Ok tt <-> in_u8 (SST s) /\ (SD s = estr \/ sd_form (SD s)).
Proof.
  intros Hp. unfold Snssai_Validate. rewrite <- sdRegex_spec. unfold in_u8.
  destruct (255 <? SST s) eqn:E; zbool; [naive_solver lia|].
  destruct (is_empty (SD s)) eqn:E2; simpl.
  - apply is_empty_true in E2. naive_solver lia.
  - assert (SD s <> estr) by (intros E3; by rewrite E3 in E2).
    destruct (MatchString _ _); simpl; naive_solver lia.
Qed.

(** The slice differentiator as it appears in a key. *)
Definition key_sd (s : Snssai) : string := ToUpper (if is_empty (SD s) then "*" else SD s).

Lemma Snssai_Key_chars s :
  chars (Snssai_Key s) = (chars (show_uint (SST s)) ++ Ascii.ascii_of_N 58 :: chars (key_sd s))%list.
Proof. unfold Snssai_Key. rewrite chars_app. done. Qed.

Lemma Snssai_Key_split a b :
  in_u8 (SST a) -> in_u8 (SST b) -> Snssai_Key a = Snssai_Key b ->
  SST a = SST b /\ key_sd a = key_sd b.
Proof.
  intros Ha Hb E. apply (f_equal chars) in E. rewrite !Snssai_Key_chars in E.
  apply (app_sep_inj is_digit) in E as [E1 E2];
    [|done|by apply show_u8_digits|by apply show_u8_digits].
  split; [|by apply chars_inj]. apply show_uint_inj; [destruct Ha; lia|destruct Hb; lia|].
  by apply chars_inj.
Qed.

Lemma sd_form_nonempty s : sd_form s -> is_empty s = false.
Proof. by destruct s as [|c s]; [intros [H _]|]. Qed.

(** Cache and routing keys identify slices: for S-NSSAIs that pass
    validation, [Key] gives the same string exactly for slices with the same
    SST and the same SD up to letter case; in particular a concrete SD never
    collides with the wildcard. *)
Theorem Snssai_Key_inj a b :
  0 <= SST a -> 0 <= SST b -> Snssai_Validate a = Ok tt -> Snssai_Validate b = Ok tt ->
  Snssai_Key a = Snssai_Key b <-> SST a = SST b /\ ToUpper (SD a) = ToUpper (SD b).
Proof.
  intros Pa Pb [Ha Sa]%Snssai_Validate_ok [Hb Sb]%Snssai_Validate_ok; [|done..]. split.
  - intros [E1 E2]%Snssai_Key_split; [|done..]. split; [done|].
    unfold key_sd in E2.
    destruct Sa as [Ea|Fa], Sb as [Eb|Fb]; [by rewrite Ea, Eb| | |].
    + rewrite Ea, (sd_form_nonempty (SD b)) in E2 by done.
      apply (f_equal (fun s => length (chars s))) in E2.
      rewrite !ToUpper_length in E2. destruct Fb as [Fb _]. by rewrite Fb in E2.
    + rewrite Eb, (sd_form_nonempty (SD a)) in E2 by done.
      apply (f_equal (fun s => length (chars s))) in E2.
      rewrite !ToUpper_length in E2. destruct Fa as [Fa _]. by rewrite Fa in E2.
    + by rewrite !sd_form_nonempty in E2.
  - intros [E1 E2]. unfold Snssai_Key. rewrite E1. do 2 f_equal.
    destruct (is_empty (SD a)) eqn:Ea, (is_empty (SD b)) eqn:Eb; try done.
    + apply is_empty_true in Ea. rewrite Ea in E2. by destruct (SD b).
    + apply is_empty_true in Eb. rewrite Eb in E2. by destruct (SD a).
Qed.

Lemma Snssai_Key_inj_witness :
  Snssai_Key (mkSnssai 1 "00aabb") = Snssai_Key (mkSnssai 1 "00AAbb").
Proof.
  apply Snssai_Key_inj; try reflexivity; try (simpl; lia). split; reflexivity.
Defined.

(** The two validation layers agree: the validators of internal/types
    accept exactly the SUPI and GPSI strings that those of
    internal/api/common accept, and an S-NSSAI accepted on the SBI interface
    is valid as a [types.Snssai]. *)
Theorem validators_agree :
  (forall s, Supi_Validate s = Ok tt <-> ValidateSUPI s = Ok tt)
  /\ (forall g, Gpsi_Validate g = Ok tt <-> ValidateGPSI g = Ok tt)
  /\ (forall sst sd, 0 <= sst ->
        ValidateSnssai sst sd false = Ok tt <->
        Snssai_Validate (mkSnssai sst sd) = Ok tt /\ ~ (sst = 0 /\ sd = estr)).
Proof.
  split_and!.
  - intros s. unfold Supi_Validate, ValidateSUPI. by repeat case_match.
  - intros g. unfold Gpsi_Validate, ValidateGPSI. by repeat case_match.
  - intros sst sd Hp. rewrite validateSnssai_ok, Snssai_Validate_ok by done. simpl.
    destruct (decide (sst = 0)), (decide (sd = estr)); naive_solver.
Qed.

(** What the identifier validators accept: a SUPI is accepted iff it is
    [imsi-] and 5 to 15 digits; a GPSI iff it is non-empty without a newline or an
    external identifier; an S-NSSAI iff present, SST within a byte, not the
    empty object, and SD absent or 6 hexadecimal digits. *)
Theorem validators_spec :
  (forall s, ValidateSUPI s = Ok tt <-> supi_form s)
  /\ (forall g, ValidateGPSI g = Ok tt <-> gpsi_form g)
  /\ (forall sst sd missing,
        ValidateSnssai sst sd missing = Ok tt <->
        missing = false /\ in_u8 sst /\ (sst <> 0 \/ sd <> estr)
        /\ (sd = estr \/ sd_form sd)).
Proof.
  split; [exact validateSUPI_ok|]. split; [exact validateGPSI_ok|exact validateSnssai_ok].
Qed.

(** EAP payloads survive the SBI encoding: the Base64 message built from
    any byte string decodes to that byte string, and passes validation unless
    the payload is empty. *)
Theorem EapMessage_roundtrip data :
  bytes_ok data ->
  EapMessage_Bytes (NewEapMessage data) = Some data
  /\ (data <> [] -> EapMessage_Validate (NewEapMessage data) = Ok tt).
Proof.
  intros H. unfold EapMessage_Bytes, NewEapMessage, EapMessage_Validate.
  rewrite Base64.decode_encode by done. split; [done|].
  intros Hn%Base64.encode_nonempty. by destruct (Base64.EncodeToString data).
Qed.

Lemma EapMessage_roundtrip_witness :
  EapMessage_Bytes (NewEapMessage [2; 1; 0; 5; 255]) = Some [2; 1; 0; 5; 255].
Proof.
  apply EapMessage_roundtrip. apply bytes_okb_spec. reflexivity.
Defined.

(** The HTTP status of a sentinel error survives its conversion to a problem. *)
Lemma sentinels_status :
  Forall (fun e => pd_status (ne_ToProblemDetails e) = ne_status e) sentinels.
Proof. repeat constructor. Qed.
