(* ===== verification/EapCodec.v ===== *)
(** * internal/eap: packet codes, methods and the wire codec

    state.go (codes, methods, EAP-TLS flags, round results) and codec.go
    ([Parse], [Encode] and the packet builders).  Bytes are integers below 256; the
    16-bit length field wraps as [uint16] does. *)
From S2P Require Import Prelude.

(** ** state.go *)
Definition CodeRequest : Z := 1.
Definition CodeResponse : Z := 2.
Definition CodeSuccess : Z := 3.
Definition CodeFailure : Z := 4.
Definition Code_IsValid (c : Z) : bool := (CodeRequest <=? c) && (c <=? CodeFailure).

Definition MethodIdentity : Z := 1.
Definition MethodNotification : Z := 2.
Definition MethodNak : Z := 3.
Definition MethodTLS : Z := 13.
Definition MethodTTLS : Z := 21.
Definition MethodPEAP : Z := 26.
Definition MethodAKAPrime : Z := 50.

Definition Method_IsValid (m : Z) : bool :=
  bool_decide (m ∈ [MethodIdentity; MethodNotification; MethodNak; MethodTLS;
                    MethodTTLS; MethodPEAP; MethodAKAPrime]).
Definition Method_IsTunneled (m : Z) : bool := (m =? MethodTTLS) || (m =? MethodPEAP).

Definition TLSFlagsMoreFrags : Z := 0x40.
Definition TLSFlagsLength : Z := 0x20.
Definition HasMoreFragments (f : Z) : bool := negb (Z.land f TLSFlagsMoreFrags =? 0).
Definition HasLength (f : Z) : bool := negb (Z.land f TLSFlagsLength =? 0).

Inductive Result : Type :=
| ResultContinue
| ResultSuccess
| ResultFailure
| ResultIgnored
| ResultTimeout.

#[global] Instance Result_eq_dec : EqDecision Result.
Proof. solve_decision. Defined.

(** ** codec.go *)
Definition MaxEAPSize : Z := 65535.

Record Packet : Type := mkPacket {
  Code : Z;
  ID : Z;
  Length : Z;
  PType : Z;
  Data : bytes;
  RawData : bytes;
}.

Inductive codec_error : Type :=
| ErrInvalidPacket
| ErrUnexpectedLength.

(** A packet with a Type byte: Request and Response. *)
Definition has_type (code : Z) : bool := (code =? CodeRequest) || (code =? CodeResponse).

Definition Parse (data : bytes) : result codec_error Packet :=
  match data with
  | c :: id :: l1 :: l0 :: rest =>
      let length := get_be16 l1 l0 in
      if negb (length =? len data) then Err ErrUnexpectedLength
      else if MaxEAPSize <? length then Err ErrInvalidPacket
      else if negb (Code_IsValid c) then Err ErrInvalidPacket
      else if has_type c then
        match rest with
        | [] => Err ErrInvalidPacket
        | t :: d => Ok (mkPacket c id length t d data)
        end
      else Ok (mkPacket c id length 0 rest data)
  | _ => Err ErrInvalidPacket
  end.

Lemma Parse_no_panic data : Parse data <> Panic.
Proof. unfold Parse. by repeat case_match. Qed.

(** [buf := make([]byte, length)], header, then [copy], which stops at the
    shorter of buffer and data. *)
Definition Encode (p : Packet) : bytes :=
  let length := 4 + (if has_type (Code p) then 1 else 0) + len (Data p) in
  let length := if MaxEAPSize <? length then MaxEAPSize else length in
  if has_type (Code p) then
    [Code p; ID p] ++ be16 (u16 length) ++ [PType p] ++ take (Z.to_nat (length - 5)) (Data p)
  else
    [Code p; ID p] ++ be16 (u16 length) ++ take (Z.to_nat (length - 4)) (Data p).

Definition with_raw (p : Packet) : Packet :=
  mkPacket (Code p) (ID p) (Length p) (PType p) (Data p) (Encode p).

(** [Length: 5 + uint16(len(data))] wraps in 16 bits. *)
Definition BuildRequest (id method : Z) (data : bytes) : Packet :=
  with_raw (mkPacket CodeRequest id (u16 (5 + u16 (len data))) method data []).
Definition BuildResponse (id method : Z) (data : bytes) : Packet :=
  with_raw (mkPacket CodeResponse id (u16 (5 + u16 (len data))) method data []).
Definition BuildSuccess (id : Z) : Packet :=
  with_raw (mkPacket CodeSuccess id 4 0 [] []).
Definition BuildFailure (id : Z) : Packet :=
  with_raw (mkPacket CodeFailure id 4 0 [] []).

(** A packet whose fields fit their Go types and whose code is one of the four. *)
Definition packet_ok (p : Packet) : Prop :=
  Code_IsValid (Code p) = true /\ in_u8 (ID p) /\ in_u8 (PType p) /\ bytes_ok (Data p)
  /\ (has_type (Code p) = false -> PType p = 0).

(** The total length of the packet on the wire. *)
Definition wire_length (p : Packet) : Z :=
  4 + (if has_type (Code p) then 1 else 0) + len (Data p).

Lemma take_len {A} n (xs : list A) : n = len xs -> take (Z.to_nat n) xs = xs.
Proof. intros ->. unfold len. rewrite Nat2Z.id. apply firstn_all. Qed.

(** Below the limit, [Encode] is the header followed by the whole body. *)
Lemma Encode_small p :
  wire_length p <= MaxEAPSize ->
  Encode p = [Code p; ID p] ++ be16 (wire_length p)
             ++ (if has_type (Code p) then PType p :: Data p else Data p).
Proof.
  unfold wire_length, Encode. intros H.
  assert (Hn := len_nonneg (Data p)). destruct (has_type (Code p)).
  - destruct (MaxEAPSize <? _) eqn:E; [zsolve|].
    rewrite (take_len _ (Data p)) by lia. rewrite u16_small; [done|].
    unfold in_u16, MaxEAPSize in *. lia.
  - destruct (MaxEAPSize <? _) eqn:E; [zsolve|].
    rewrite (take_len _ (Data p)) by lia. rewrite u16_small; [done|].
    unfold in_u16, MaxEAPSize in *. lia.
Qed.

Lemma Encode_length p : len (Encode p) = Z.min (wire_length p) MaxEAPSize.
Proof.
  unfold wire_length, Encode. assert (Hn := len_nonneg (Data p)).
  destruct (has_type (Code p)), (MaxEAPSize <? _) eqn:E; zbool;
    cbn [app be16]; autorewrite with go; rewrite len_take by (unfold MaxEAPSize in *; lia);
    unfold MaxEAPSize in *; lia.
Qed.

Lemma code_valid_u8 c : Code_IsValid c = true -> in_u8 c.
Proof. unfold Code_IsValid, CodeRequest, CodeFailure, in_u8. intros H. zbool. lia. Qed.

(** Wire round trip: for every packet that fits in an EAP packet,
    [Parse] of [Encode] gives the packet back, with the Length and RawData
    fields set from the wire. *)
Theorem Parse_Encode p :
  packet_ok p -> wire_length p <= MaxEAPSize ->
  Parse (Encode p) =
    Ok (mkPacket (Code p) (ID p) (wire_length p) (PType p) (Data p) (Encode p)).
Proof.
  intros (Hc & Hi & Ht & Hd & H0) Hl.
  assert (Hn : 0 <= wire_length p).
  { unfold wire_length. assert (H := len_nonneg (Data p)). destruct (has_type _); lia. }
  assert (HL := Encode_length p). rewrite Z.min_l in HL by done.
  rewrite (Encode_small p) in * by done. cbn [app be16] in *. unfold Parse.
  rewrite get_put_be16 by (unfold in_u16, MaxEAPSize in *; lia).
  rewrite HL, Z.eqb_refl. cbn [negb].
  destruct (MaxEAPSize <? wire_length p) eqn:E; [zsolve|].
  rewrite Hc. cbn [negb]. destruct (has_type (Code p)) eqn:Et; [done|].
  by rewrite H0 by done.
Qed.

Lemma Parse_Encode_witness :
  Parse (Encode (mkPacket 2 7 0 13 [0xC0; 1; 2] [])) =
    Ok (mkPacket 2 7 8 13 [0xC0; 1; 2] (Encode (mkPacket 2 7 0 13 [0xC0; 1; 2] []))).
Proof.
  apply (Parse_Encode (mkPacket 2 7 0 13 [0xC0; 1; 2] [])).
  - split_and!; try reflexivity; try (simpl; unfold in_u8; lia).
    + apply bytes_okb_spec. reflexivity.
    + intros H. discriminate H.
  - vm_compute. discriminate.
Defined.

Lemma Parse_inv data p :
  Parse data = Ok p ->
  exists c id l1 l0 rest, data = c :: id :: l1 :: l0 :: rest
    /\ get_be16 l1 l0 = len data /\ Code_IsValid c = true
    /\ Code p = c /\ ID p = id /\ Length p = len data /\ RawData p = data
    /\ (has_type c = true -> rest = PType p :: Data p)
    /\ (has_type c = false -> rest = Data p /\ PType p = 0).
Proof.
  unfold Parse. intros H. repeat case_match; simplify_eq/=; zbool.
  - eexists _, _, _, _, _. split_and!; try done; try congruence; by intros ?.
  - eexists _, _, _, _, _. split_and!; try done; try congruence; by intros ?.
Qed.

(** C24: [Parse] is lossless and strict: it accepts a byte string exactly when
    the length field equals its length, the code is known and a
    Request/Response carries a type byte; and re-encoding what was parsed gives
    back the very same bytes. *)
Theorem Parse_exact data :
  bytes_ok data ->
  (forall p, Parse data = Ok p -> Encode p = data /\ packet_ok p)
  /\ ((exists p, Parse data = Ok p) <->
      4 <= len data /\ get_be16 (byte_at data 2) (byte_at data 3) = len data
      /\ Code_IsValid (byte_at data 0) = true
      /\ (has_type (byte_at data 0) = true -> 5 <= len data)).
Proof.
  intros Hb. split.
  - intros p (c & id & l1 & l0 & rest & E & HL & Hc & Ec & Ei & EL & ER & H1 & H2)%Parse_inv.
    assert (Hb' := Hb). rewrite E in Hb'. unfold bytes_ok in Hb'.
    rewrite !Forall_cons in Hb'. destruct Hb' as (? & ? & ? & ? & Hr).
    assert (Hrange : in_u16 (len data)) by (rewrite <- HL; auto with go).
    assert (W : wire_length p = len data).
    { unfold wire_length. rewrite Ec, E. destruct (has_type c) eqn:Et.
      - rewrite (H1 eq_refl). autorewrite with go. lia.
      - destruct (H2 eq_refl) as [-> _]. autorewrite with go. lia. }
    split.
    + rewrite Encode_small by (rewrite W; unfold in_u16, MaxEAPSize in *; lia).
      rewrite W, <- HL, put_get_be16 by done. rewrite Ec, Ei, E. cbn [app].
      destruct (has_type c) eqn:Et; [by rewrite <- H1|by destruct (H2 eq_refl) as [-> _]].
    + unfold packet_ok. rewrite Ec, Ei. split_and!; auto.
      * destruct (has_type c) eqn:Et; [rewrite (H1 eq_refl) in Hr; by inversion Hr|].
        destruct (H2 eq_refl) as [_ ->]. unfold in_u8. lia.
      * destruct (has_type c) eqn:Et; [rewrite (H1 eq_refl) in Hr; by inversion Hr|].
        destruct (H2 eq_refl) as [<- _]. done.
      * intros Et. by apply H2.
  - split.
    + intros (p & (c & id & l1 & l0 & rest & E & HL & Hc & Ec & Ei & EL & ER & H1 & H2)%Parse_inv).
      rewrite E in *. autorewrite with go in *. assert (Hr := len_nonneg rest).
      split_and!; try done; [lia|].
      intros Et. rewrite (H1 Et). autorewrite with go.
      assert (Hn := len_nonneg (Data p)). lia.
    + intros (H4 & HL & Hc & Ht).
      destruct data as [|c [|id [|l1 [|l0 rest]]]]; try (unfold len in H4; simpl in H4; lia).
      unfold Parse. unfold byte_at in *. simpl in HL, Hc, Ht.
      rewrite HL, Z.eqb_refl. cbn [negb].
      assert (in_u16 (len (c :: id :: l1 :: l0 :: rest))).
      { rewrite <- HL. unfold bytes_ok in Hb. rewrite !Forall_cons in Hb.
        apply get_be16_range; tauto. }
      destruct (MaxEAPSize <? _) eqn:E; [unfold MaxEAPSize in *; zsolve|].
      rewrite Hc. cbn [negb]. destruct (has_type c) eqn:Et; [|eauto].
      destruct rest; [|eauto]. specialize (Ht eq_refl). unfold len in Ht. simpl in Ht. lia.
Qed.

Lemma Parse_exact_witness :
  Encode (mkPacket 3 9 4 0 [] [3; 9; 0; 4]) = [3; 9; 0; 4].
Proof.
  apply (Parse_exact [3; 9; 0; 4]).
  - apply bytes_okb_spec. reflexivity.
  - reflexivity.
Defined.

(** The code and identifier of a built packet, as the engine's callers use them. *)
Lemma BuildSuccess_parses id : in_u8 id -> Parse (RawData (BuildSuccess id)) = Ok (BuildSuccess id).
Proof. done. Qed.
Lemma BuildFailure_parses id : in_u8 id -> Parse (RawData (BuildFailure id)) = Ok (BuildFailure id).
Proof. done. Qed.
