(* ===== verification/EapFragment.v ===== *)
(** * internal/eap/fragment.go: fragmentation and reassembly

    [FragmentBuffer] collects the fragments of one EAP message; [AddFragment]
    mutates the buffer in place and may fail after the mutation, so an operation
    returns the new buffer together with its outcome.  [FragmentManager] maps
    keys to buffer pointers: the pointers are locations of a store, so that two
    callers holding the same pointer see each other's updates. *)
From S2P Require Import Prelude Regex Common Types Encoding.
Import Validator.

Definition MaxFragmentSize : Z := 4096.
Definition MaxFragmentsPerSession : Z := 16.

Inductive fragment_error : Type :=
| ErrAlreadyComplete
| ErrFragmentNotFound (expected got : Z)
| ErrFragmentOverflow (received expected : Z)
| ErrFragmentIncomplete (received expected : Z)
| ErrTotalLengthLate.

Record FragmentBuffer : Type := mkFB {
  AuthCtxID : string;
  ExpectedID : Z;
  FragmentSeq : Z;
  TotalLength : Z;
  Received : Z;
  Fragments : gmap Z bytes;
  Complete : bool;
  CreatedAt : Z;
}.

Definition NewFragmentBuffer (authCtxID : string) (id now : Z) : FragmentBuffer :=
  mkFB authCtxID id 0 0 0 ∅ false now.

(** The sequence numbers [0 .. n-1] of the two loops of [Reassemble]. *)
Definition seqs (n : Z) : list Z := map Z.of_nat (seq 0 (Z.to_nat n)).

Definition Reassemble (fb : FragmentBuffer) : result fragment_error bytes :=
  if negb (Complete fb) then Err (ErrFragmentIncomplete (Received fb) (TotalLength fb))
  else
    let expectedCount := FragmentSeq fb in
    match List.find (fun seq => negb (bool_decide (is_Some (Fragments fb !! seq)))) (seqs expectedCount) with
    | Some seq => Err (ErrFragmentNotFound expectedCount seq)
    | None => Ok (concat (map (fun seq => default [] (Fragments fb !! seq)) (seqs expectedCount)))
    end.

Definition set_complete (fb : FragmentBuffer) : FragmentBuffer :=
  mkFB (AuthCtxID fb) (ExpectedID fb) (FragmentSeq fb) (TotalLength fb) (Received fb)
    (Fragments fb) true (CreatedAt fb).

(** The buffer after the fragment has been stored, before the length checks. *)
Definition store_fragment (fb : FragmentBuffer) (data : bytes) : FragmentBuffer :=
  mkFB (AuthCtxID fb) (ExpectedID fb) (u16 (FragmentSeq fb + 1)) (TotalLength fb)
    (u32 (Received fb + u32 (len data)))
    (<[FragmentSeq fb := data]> (Fragments fb)) (Complete fb) (CreatedAt fb).

(** [Ok None] is Go's [nil, nil]: more fragments are expected. *)
Definition AddFragment (fb : FragmentBuffer) (seq : Z) (data : bytes) (moreFragments : bool)
  : FragmentBuffer * result fragment_error (option bytes) :=
  if Complete fb then (fb, Err ErrAlreadyComplete)
  else if negb (seq =? FragmentSeq fb) then (fb, Err (ErrFragmentNotFound (FragmentSeq fb) seq))
  else
    let fb := store_fragment fb data in
    if negb moreFragments then
      if (0 <? TotalLength fb) && (TotalLength fb <? Received fb) then
        (fb, Err (ErrFragmentOverflow (Received fb) (TotalLength fb)))
      else if (0 <? TotalLength fb) && (Received fb <? TotalLength fb) then
        (fb, Err (ErrFragmentIncomplete (Received fb) (TotalLength fb)))
      else
        let fb := set_complete fb in (fb, rmap Some (Reassemble fb))
    else if (0 <? TotalLength fb) && (TotalLength fb <=? Received fb) then
      let fb := set_complete fb in (fb, rmap Some (Reassemble fb))
    else (fb, Ok None).

Definition SetTotalLength (fb : FragmentBuffer) (length : Z)
  : FragmentBuffer * result fragment_error unit :=
  if 0 <? Received fb then (fb, Err ErrTotalLengthLate)
  else (mkFB (AuthCtxID fb) (ExpectedID fb) (FragmentSeq fb) length (Received fb)
          (Fragments fb) (Complete fb) (CreatedAt fb), Ok tt).

Definition Reset (fb : FragmentBuffer) : FragmentBuffer :=
  mkFB (AuthCtxID fb) (ExpectedID fb) 0 0 0 ∅ false (CreatedAt fb).

Definition fb_Size (fb : FragmentBuffer) : nat := size (Fragments fb).

(** ** SplitPacket *)
Record Fragment : Type := mkFragment { Seq : Z; FData : bytes; MoreComing : bool }.
Definition IsLast (f : Fragment) : bool := negb (MoreComing f).

(** The loop, on the unsent rest of the packet.  Each iteration sends at least
    one byte when [maxSize > 0], so the length of the packet is enough fuel. *)
Fixpoint split_loop (fuel : nat) (rest : bytes) (maxSize seq : Z) : list Fragment :=
  match fuel with
  | O => []
  | S fuel =>
      let remaining := len rest in
      if remaining <=? 0 then []
      else
        let size := if remaining <? maxSize then remaining else maxSize in
        mkFragment seq (take (Z.to_nat size) rest) (0 <? remaining - size)
        :: split_loop fuel (drop (Z.to_nat size) rest) maxSize (u16 (seq + 1))
  end.

(** A non-positive [maxSize] with bytes to send panics: division by zero or a
    negative capacity or slice bound. *)
Definition SplitPacket (packet : bytes) (maxSize : Z) : result fragment_error (list Fragment) :=
  if len packet <=? maxSize then Ok [mkFragment 0 packet false]
  else if maxSize <=? 0 then (if len packet =? 0 then Ok [] else Panic)
  else Ok (split_loop (length packet) packet maxSize 0).

(** A receiver: fragments are added in order until one fails or completes the
    message. *)
Fixpoint feed (fb : FragmentBuffer) (fs : list Fragment)
  : FragmentBuffer * result fragment_error (option bytes) :=
  match fs with
  | [] => (fb, Ok None)
  | f :: fs =>
      match AddFragment fb (Seq f) (FData f) (MoreComing f) with
      | (fb', Ok None) => feed fb' fs
      | r => r
      end
  end.

(** ** Buffer invariant *)

(** After the fragments [ds] have been stored in order, the buffer holds
    exactly them under the sequence numbers [0 .. n-1]. *)
Record fb_holds (fb : FragmentBuffer) (ds : list bytes) : Prop := {
  fh_seq : FragmentSeq fb = len ds;
  fh_recv : Received fb = len (concat ds);
  fh_frag : forall k, 0 <= k < len ds -> Fragments fb !! k = ds !! Z.to_nat k;
  fh_open : Complete fb = false;
  fh_count : len ds < 65536;
  fh_total : len (concat ds) < 4294967296;
}.

Lemma fb_holds_new ctx id now : fb_holds (NewFragmentBuffer ctx id now) [].
Proof. by constructor. Qed.

Lemma concat_snoc {A} (xss : list (list A)) ys : concat (xss ++ [ys]) = concat xss ++ ys.
Proof. rewrite concat_app. simpl. by rewrite app_nil_r. Qed.

Lemma fb_holds_store fb ds d :
  fb_holds fb ds -> len ds < 65535 -> len (concat ds) + len d < 4294967296 ->
  fb_holds (store_fragment fb d) (ds ++ [d]).
Proof.
  intros [H1 H2 H3 H4 H5 H6] Hc Ht.
  assert (Hn := len_nonneg ds). assert (Hd := len_nonneg d). assert (Hs := len_nonneg (concat ds)).
  assert (Ec : len (concat (ds ++ [d])) = len (concat ds) + len d)
    by (by rewrite concat_snoc, len_app).
  constructor; simpl; rewrite ?Ec; try (done || lia).
  - rewrite H1, len_app, u16_small by (unfold in_u16; lia). done.
  - rewrite H2, (u32_small (len d)), u32_small by (unfold in_u32; lia). done.
  - intros k Hk. rewrite len_app in Hk. change (len [d]) with 1 in Hk.
    destruct (decide (k = len ds)) as [->|Hne].
    + rewrite H1, lookup_insert. rewrite decide_True by done.
      rewrite lookup_app_r by (unfold len; lia).
      replace (Z.to_nat (len ds) - length ds)%nat with 0%nat by (unfold len; lia). done.
    + rewrite lookup_insert_ne by congruence. rewrite H3 by lia.
      rewrite lookup_app_l; [done|]. unfold len in *. lia.
  - rewrite len_app. change (len [d]) with 1. lia.
Qed.

Lemma seqs_lookup n k : k ∈ seqs n -> 0 <= k < n.
Proof.
  unfold seqs. rewrite list_elem_of_fmap. intros (i & -> & Hi).
  apply list_elem_of_In, in_seq in Hi. lia.
Qed.

Lemma map_lookup_seqs {A} (m : gmap Z (list A)) (ds : list (list A)) :
  (forall k, 0 <= k < len ds -> m !! k = ds !! Z.to_nat k) ->
  map (fun k => default [] (m !! k)) (seqs (len ds)) = ds.
Proof.
  intros H. unfold seqs, len. rewrite Nat2Z.id, map_map.
  apply list_eq. intros i. rewrite list_lookup_fmap.
  destruct (decide (i < length ds)%nat) as [Hi|Hi].
  - rewrite lookup_seq_lt by done. simpl. rewrite H by (unfold len; lia). rewrite Nat2Z.id.
    destruct (ds !! i) eqn:E; [done|]. apply lookup_ge_None in E. lia.
  - rewrite lookup_seq_ge by lia. symmetry. apply lookup_ge_None. lia.
Qed.

(** A complete buffer reassembles to its fragments in order. *)
Lemma Reassemble_holds fb ds :
  fb_holds fb ds -> Reassemble (set_complete fb) = Ok (concat ds).
Proof.
  intros [H1 H2 H3 H4 H5 H6]. unfold Reassemble. simpl. rewrite H1.
  destruct (List.find _ _) as [k|] eqn:E.
  - apply find_some in E as [Hk Hn]. apply list_elem_of_In, seqs_lookup in Hk.
    zbool. exfalso. apply Hn. rewrite H3 by done.
    apply lookup_lt_is_Some_2. unfold len in Hk. lia.
  - by rewrite map_lookup_seqs.
Qed.

(** The outcome of the last fragment in sequence. *)
Lemma AddFragment_last_eq fb ds d :
  fb_holds fb ds -> len ds < 65535 -> len (concat ds) + len d < 4294967296 ->
  snd (AddFragment fb (len ds) d false) =
    let n := len (concat ds) + len d in
    if (0 <? TotalLength fb) && (TotalLength fb <? n) then
      Err (ErrFragmentOverflow n (TotalLength fb))
    else if (0 <? TotalLength fb) && (n <? TotalLength fb) then
      Err (ErrFragmentIncomplete n (TotalLength fb))
    else Ok (Some (concat ds ++ d)).
Proof.
  intros H Hc Ht. assert (H' := fb_holds_store fb ds d H Hc Ht).
  unfold AddFragment. rewrite (fh_open _ _ H), (fh_seq _ _ H), Z.eqb_refl. cbn [negb].
  assert (R := fh_recv _ _ H'). rewrite concat_snoc, len_app in R.
  change (TotalLength (store_fragment fb d)) with (TotalLength fb). rewrite R. cbn zeta.
  destruct (_ && _); [done|]. destruct (_ && _); [done|].
  cbn [snd]. rewrite (Reassemble_holds _ _ H'), concat_snoc. done.
Qed.

(** A refused fragment (buffer complete, or not the next sequence number)
    leaves the buffer as it was. *)
Lemma AddFragment_refused fb seq d more :
  Complete fb = true \/ seq <> FragmentSeq fb ->
  fst (AddFragment fb seq d more) = fb /\ is_Ok (snd (AddFragment fb seq d more)) = false.
Proof.
  unfold AddFragment. intros [H|H].
  - by rewrite H.
  - destruct (Complete fb); [done|]. destruct (seq =? FragmentSeq fb) eqn:E; [zsolve|done].
Qed.

(** An intermediate fragment below the declared length just extends the buffer. *)
Lemma AddFragment_more fb ds d :
  fb_holds fb ds -> len ds < 65535 -> len (concat ds) + len d < 4294967296 ->
  TotalLength fb = 0 \/ len (concat ds) + len d < TotalLength fb ->
  AddFragment fb (len ds) d true = (store_fragment fb d, Ok None).
Proof.
  intros H Hc Ht HT. assert (H' := fb_holds_store fb ds d H Hc Ht).
  unfold AddFragment. rewrite (fh_open _ _ H), (fh_seq _ _ H), Z.eqb_refl. cbn [negb].
  assert (R := fh_recv _ _ H'). rewrite concat_snoc, len_app in R.
  change (TotalLength (store_fragment fb d)) with (TotalLength fb). rewrite R.
  destruct (_ && _) eqn:E; [|done]. zbool. lia.
Qed.

(** Reassembly is exact.  For a buffer that holds the fragments [ds]: a
    fragment out of sequence is refused and changes nothing; the next fragment
    delivers the concatenation of all fragments in order when it is the last
    one and the declared length, if any, is met exactly, or when more fragments are
    announced although the declared length is reached; a last fragment that
    misses the declared length is an error; otherwise the buffer holds one
    fragment more. *)
Theorem AddFragment_spec fb ds seq d more :
  fb_holds fb ds -> len ds < 65535 -> len (concat ds) + len d < 4294967296 ->
  let n := len (concat ds) + len d in
  let T := TotalLength fb in
  let '(fb', r) := AddFragment fb seq d more in
  if negb (seq =? len ds) then fb' = fb /\ r = Err (ErrFragmentNotFound (len ds) seq)
  else if more then
    if (0 <? T) && (T <=? n) then r = Ok (Some (concat ds ++ d))
    else r = Ok None /\ fb_holds fb' (ds ++ [d])
  else if (T =? 0) || (n =? T) then r = Ok (Some (concat ds ++ d))
  else 0 < T -> r = Err (if T <? n then ErrFragmentOverflow n T else ErrFragmentIncomplete n T).
Proof.
  intros H Hc Ht n T. assert (H' := fb_holds_store fb ds d H Hc Ht).
  assert (R := fh_recv _ _ H'). rewrite concat_snoc, len_app in R. fold n in R.
  unfold AddFragment. rewrite (fh_open _ _ H), (fh_seq _ _ H).
  destruct (seq =? len ds); [|done]. cbn [negb].
  change (TotalLength (store_fragment fb d)) with T. rewrite R.
  destruct more; cbn [negb].
  - destruct (_ && _); [|done]. by rewrite (Reassemble_holds _ _ H'), concat_snoc.
  - destruct (0 <? T) eqn:E0, (T <? n) eqn:E1, (n <? T) eqn:E2; cbn [andb]; zbool;
      try rewrite (Reassemble_holds _ _ H'), concat_snoc;
      destruct (T =? 0) eqn:E3, (n =? T) eqn:E4; cbn [orb]; zbool; try done; try lia.
Qed.

Lemma AddFragment_spec_witness :
  snd (AddFragment (NewFragmentBuffer "ctx"%string 3 0) 0 [1; 2] false) = Ok (Some [1; 2]).
Proof.
  exact (AddFragment_spec (NewFragmentBuffer "ctx"%string 3 0) [] 0 [1; 2] false
           (fb_holds_new _ _ _) eq_refl eq_refl).
Defined.

(** ** Splitting *)

(** The last fragment, with the declared length met, delivers the message. *)
Lemma feed_final fb ds d fs :
  fb_holds fb ds -> len ds < 65535 -> len (concat ds) + len d < 4294967296 ->
  TotalLength fb = 0 \/ TotalLength fb = len (concat ds) + len d ->
  snd (feed fb (mkFragment (len ds) d false :: fs)) = Ok (Some (concat ds ++ d)).
Proof.
  intros H Hc Ht HT. cbn [feed Seq FData MoreComing].
  assert (A := AddFragment_last_eq fb ds d H Hc Ht). cbn zeta in A.
  destruct (_ && _) eqn:E1 in A; [zbool; lia|]. destruct (_ && _) eqn:E2 in A; [zbool; lia|].
  destruct (AddFragment _ _ _ _) as [fb' r]. simpl in A. by subst r.
Qed.

(** Feeding the fragments the splitter makes of [rest], into a buffer that
    already holds [ds], delivers the whole message. *)
Lemma feed_split fuel rest maxSize fb ds :
  0 < maxSize -> (length rest <= fuel)%nat -> 0 < len rest ->
  fb_holds fb ds ->
  len ds * maxSize + len rest < 65535 * maxSize ->
  len (concat ds) + len rest < 4294967296 ->
  TotalLength fb = 0 \/ TotalLength fb = len (concat ds) + len rest ->
  snd (feed fb (split_loop fuel rest maxSize (len ds))) = Ok (Some (concat ds ++ rest)).
Proof.
  intros Hm. revert rest fb ds. induction fuel as [|fuel IH]; intros rest fb ds Hf Hr H Hc Ht HT.
  { unfold len in Hr. lia. }
  cbn [split_loop]. destruct (len rest <=? 0) eqn:E0; [zsolve|].
  assert (Hds : len ds < 65535) by nia. assert (Hn := len_nonneg ds).
  destruct (len rest <? maxSize) eqn:Es; [|destruct (decide (len rest = maxSize)) as [Em|Em]].
  3: {
    zbool. set (d := take (Z.to_nat maxSize) rest). set (t := drop (Z.to_nat maxSize) rest).
    assert (Hdt : d ++ t = rest) by apply take_drop.
    assert (Hd : len d = maxSize) by (unfold d; rewrite len_take; lia).
    assert (Hl : len rest = maxSize + len t) by (rewrite <- Hdt, len_app; lia).
    replace (0 <? len rest - maxSize) with true by (symmetry; apply Z.ltb_lt; lia).
    cbn [feed Seq FData MoreComing]. rewrite AddFragment_more by (done || (rewrite Hd; lia)).
    rewrite u16_small by (unfold in_u16; lia).
    assert (H' : fb_holds (store_fragment fb d) (ds ++ [d]))
      by (apply fb_holds_store; [done|lia|lia]).
    replace (len ds + 1) with (len (ds ++ [d])) by (rewrite len_app; done).
    rewrite (IH t (store_fragment fb d) (ds ++ [d])).
    - by rewrite concat_snoc, <- app_assoc, Hdt.
    - unfold len in *. lia.
    - lia.
    - done.
    - rewrite len_app. change (len [d]) with 1. lia.
    - rewrite concat_snoc, len_app. lia.
    - rewrite concat_snoc, len_app. cbn [store_fragment TotalLength]. lia. }
  - zbool. rewrite take_ge by (unfold len in *; lia).
    rewrite Z.sub_diag. by apply feed_final.
  - zbool. rewrite take_ge by (unfold len in *; lia).
    replace (len rest - maxSize) with 0 by lia. by apply feed_final.
Qed.



(** [SplitPacket] panics exactly when it has bytes to send and the maximum
    fragment size is not positive. *)
Lemma SplitPacket_panics packet maxSize :
  SplitPacket packet maxSize = Panic <-> maxSize <= 0 /\ maxSize < len packet /\ 0 < len packet.
Proof.
  unfold SplitPacket. assert (H := len_nonneg packet).
  repeat case_match; zbool; split; intros; try done; lia.
Qed.

(** ** FragmentManager *)
Module Manager.

(** [buffers] maps a key to a pointer; [heap] is the memory the pointers refer
    to, which outlives a deletion from the map. *)
Record FragmentManager : Type := mkFM {
  buffers : gmap string positive;
  heap : gmap positive FragmentBuffer;
  next : positive;
  maxAge : Z;
}.

Definition NewFragmentManager (ttlSeconds : Z) : FragmentManager :=
  mkFM ∅ ∅ 1%positive ttlSeconds.

Definition fragmentKey (authCtxID : string) (id : Z) : string :=
  (authCtxID +:+ ":" +:+ show_uint id)%string.

Definition GetOrCreate (m : FragmentManager) (authCtxID : string) (id now : Z)
  : FragmentManager * (positive * bool) :=
  let key := fragmentKey authCtxID id in
  match buffers m !! key with
  | Some l => (m, (l, false))
  | None =>
      let l := next m in
      (mkFM (<[key := l]> (buffers m))
         (<[l := NewFragmentBuffer authCtxID id now]> (heap m)) (Pos.succ l) (maxAge m),
       (l, true))
  end.

Definition Get (m : FragmentManager) (authCtxID : string) (id : Z) : option positive :=
  buffers m !! fragmentKey authCtxID id.

Definition Delete (m : FragmentManager) (authCtxID : string) (id : Z) : FragmentManager :=
  mkFM (delete (fragmentKey authCtxID id) (buffers m)) (heap m) (next m) (maxAge m).

(** [now-buf.CreatedAt > m.maxAge] *)
Definition expired (m : FragmentManager) (now : Z) (l : positive) : bool :=
  match heap m !! l with
  | Some fb => maxAge m <? now - CreatedAt fb
  | None => false
  end.

Definition Cleanup (m : FragmentManager) (now : Z) : FragmentManager * nat :=
  let keep := filter (fun kl => expired m now (snd kl) = false) (buffers m) in
  (mkFM keep (heap m) (next m) (maxAge m), (size (buffers m) - size keep)%nat).

Definition Size (m : FragmentManager) : nat := size (buffers m).

(** An update of a buffer through a pointer (a method call on [*FragmentBuffer]). *)
Definition update (m : FragmentManager) (l : positive) (f : FragmentBuffer -> FragmentBuffer)
  : FragmentManager :=
  mkFM (buffers m) (alter f l (heap m)) (next m) (maxAge m).

(** Every key points to an allocated buffer that was created for it, and
    allocated locations are below [next]. *)
Record fm_ok (m : FragmentManager) : Prop := {
  fm_alloc : forall l, is_Some (heap m !! l) -> (l < next m)%positive;
  fm_owner : forall k l, buffers m !! k = Some l ->
    exists fb, heap m !! l = Some fb /\ in_u8 (ExpectedID fb)
               /\ k = fragmentKey (AuthCtxID fb) (ExpectedID fb);
}.

(** Distinct (context, identifier) pairs have distinct keys, although a context
    id may itself contain colons. *)
Lemma fragmentKey_inj c1 i1 c2 i2 :
  in_u8 i1 -> in_u8 i2 -> fragmentKey c1 i1 = fragmentKey c2 i2 -> c1 = c2 /\ i1 = i2.
Proof.
  intros H1 H2 E. apply (f_equal (fun s => rev (chars s))) in E. unfold fragmentKey in E.
  rewrite !chars_app, !rev_app_distr in E. simpl in E. rewrite <- !app_assoc in E. simpl in E.
  apply (app_sep_inj is_digit) in E as [E1 E2]; [|done| |].
  2,3: rewrite forallb_forall; intros x Hx; apply in_rev in Hx;
    eapply forallb_forall; [|exact Hx]; by apply show_u8_digits.
  apply (f_equal (@rev _)) in E1, E2. rewrite !rev_involutive in E1, E2.
  split; [by apply chars_inj|]. apply chars_inj in E1.
  apply show_uint_inj; [destruct H1; lia|destruct H2; lia|done].
Qed.

Lemma fm_ok_new ttl : fm_ok (NewFragmentManager ttl).
Proof. constructor; simpl; intros; [by destruct H|done]. Qed.

Lemma GetOrCreate_ok m ctx id now :
  fm_ok m -> in_u8 id -> fm_ok (fst (GetOrCreate m ctx id now)).
Proof.
  intros [Ha Ho] Hi. unfold GetOrCreate. destruct (buffers m !! _) eqn:E; [by constructor|].
  constructor; simpl.
  - intros l [fb Hl]. destruct (decide (l = next m)) as [->|Hne]; [lia|].
    rewrite lookup_insert_ne in Hl by done. specialize (Ha l (mk_is_Some _ _ Hl)). lia.
  - intros k l Hk. destruct (decide (k = fragmentKey ctx id)) as [->|Hne].
    + rewrite lookup_insert_eq in Hk. simplify_eq. eexists. rewrite lookup_insert_eq. eauto.
    + rewrite lookup_insert_ne in Hk by done. destruct (Ho k l Hk) as (fb & Hl & ?).
      exists fb. rewrite lookup_insert_ne; [done|].
      specialize (Ha l (mk_is_Some _ _ Hl)). lia.
Qed.

Lemma Delete_ok m ctx id : fm_ok m -> fm_ok (Delete m ctx id).
Proof.
  intros [Ha Ho]. constructor; simpl; [done|].
  intros k l [_ Hk]%lookup_delete_Some. by apply Ho.
Qed.

Lemma Cleanup_ok m now : fm_ok m -> fm_ok (fst (Cleanup m now)).
Proof.
  intros [Ha Ho]. constructor; simpl; [done|].
  intros k l [Hk _]%map_lookup_filter_Some. by apply Ho.
Qed.

(** [f] is a buffer operation that keeps the identity of the buffer; every
    method of [FragmentBuffer] does. *)
Definition keeps_identity (f : FragmentBuffer -> FragmentBuffer) : Prop :=
  forall fb, AuthCtxID (f fb) = AuthCtxID fb /\ ExpectedID (f fb) = ExpectedID fb.

Lemma AddFragment_keeps seq d more :
  keeps_identity (fun fb => fst (AddFragment fb seq d more)).
Proof. intros fb. unfold AddFragment. repeat case_match; done. Qed.

Lemma update_ok m l f : fm_ok m -> keeps_identity f -> fm_ok (update m l f).
Proof.
  intros [Ha Ho] Hf. constructor; simpl.
  - intros l' Hl. apply Ha. by rewrite lookup_alter_is_Some in Hl.
  - intros k l' Hk. destruct (Ho k l' Hk) as (fb & Hl & Hi & ->).
    destruct (decide (l = l')) as [->|Hne].
    + exists (f fb). rewrite lookup_alter_eq, Hl. destruct (Hf fb) as [-> ->]. done.
    + exists fb. by rewrite lookup_alter_ne.
Qed.

(** C25: isolation of concurrent reassemblies: buffers of different
    (auth context, EAP identifier) pairs are different objects, so adding a
    fragment through one pointer leaves every other session's buffer as it was. *)
Theorem FragmentManager_isolated m c1 i1 c2 i2 l1 l2 seq d more :
  fm_ok m -> in_u8 i1 -> in_u8 i2 ->
  Get m c1 i1 = Some l1 -> Get m c2 i2 = Some l2 -> (c1, i1) <> (c2, i2) ->
  let m' := update m l1 (fun fb => fst (AddFragment fb seq d more)) in
  fm_ok m' /\ Get m' c2 i2 = Some l2 /\ heap m' !! l2 = heap m !! l2.
Proof.
  intros H Hi1 Hi2 G1 G2 Hne m'. split; [by apply update_ok, AddFragment_keeps|].
  split; [done|]. subst m'. simpl. apply lookup_alter_ne. intros ->. apply Hne.
  destruct (fm_owner _ H _ _ G1) as (fb & Hl & Hi & E1).
  destruct (fm_owner _ H _ _ G2) as (fb' & Hl' & _ & E2). simplify_eq.
  apply fragmentKey_inj in E1 as [-> ->]; [|done..].
  apply fragmentKey_inj in E2 as [-> ->]; [|done..]. done.
Qed.

Lemma FragmentManager_isolated_witness :
  let m := fst (GetOrCreate (fst (GetOrCreate (NewFragmentManager 60) "a" 1 0)) "a:1" 2 0) in
  let m' := update m 1 (fun fb => fst (AddFragment fb 0 [7] true)) in
  heap m' !! 2%positive = heap m !! 2%positive.
Proof.
  intros m m'. apply (FragmentManager_isolated m "a" 1 "a:1" 2 1 2 0 [7] true);
    try (unfold in_u8; lia); try (vm_compute; reflexivity); try (intros E; discriminate E).
  apply GetOrCreate_ok; [apply GetOrCreate_ok; [apply fm_ok_new|]|]; unfold in_u8; lia.
Defined.

Lemma Cleanup_spec m now ctx id :
  Get (fst (Cleanup m now)) ctx id =
    match Get m ctx id with
    | Some l => if expired m now l then None else Some l
    | None => None
    end.
Proof.
  unfold Get, Cleanup. simpl. rewrite map_lookup_filter.
  destruct (buffers m !! _) as [l|]; cbn [mbind option_bind]; [|done].
  destruct (expired m now l) eqn:E.
  - by rewrite option_guard_False by (simpl; congruence).
  - by rewrite option_guard_True by (simpl; congruence).
Qed.

End Manager.
