(* ===== verification/EapSession.v ===== *)
(** * internal/eap: sessions and session stores

    session.go (the [Session] value, its lifecycle methods and the key decoder),
    engine_client.go (constant-time comparison, the in-memory [sessionManager]) and
    session_redis.go (the [SessionStore] interface, the Redis-backed store and its
    JSON image).  The interface is a type class with a class of laws; the engine is
    verified against the laws, and both stores are proved to satisfy them.

    Times and durations are integers (nanoseconds); an operation that reads
    the clock takes the reading as an argument. *)
From S2P Require Import Prelude Regex Common Types Encoding EapCodec.
Import Validator.
Local Open Scope string_scope.
Local Open Scope Z_scope.

(** ** session.go *)
Inductive SessionState : Type :=
| SessionStateIdle
| SessionStateInit
| SessionStateEapExchange
| SessionStateCompleting
| SessionStateDone
| SessionStateFailed
| SessionStateTimeout
| SessionStateOther (n : Z).

#[global] Instance SessionState_eq_dec : EqDecision SessionState.
Proof. solve_decision. Defined.

Definition state_String (s : SessionState) : string :=
  match s with
  | SessionStateIdle => "IDLE"
  | SessionStateInit => "INIT"
  | SessionStateEapExchange => "EAP_EXCHANGE"
  | SessionStateCompleting => "COMPLETING"
  | SessionStateDone => "DONE"
  | SessionStateFailed => "FAILED"
  | SessionStateTimeout => "TIMEOUT"
  | SessionStateOther n => "SessionState(" +:+ pretty n +:+ ")"
  end.

Definition state_IsTerminal (s : SessionState) : bool :=
  match s with
  | SessionStateDone | SessionStateFailed | SessionStateTimeout => true
  | _ => false
  end.

Definition second : Z := 1000000000.
Definition DefaultMaxRounds : Z := 20.
Definition DefaultRoundTimeout : Z := 30 * second.
Definition DefaultSessionTTL : Z := 600 * second.

(** TLSSessionState *)
Record TLSSessionState : Type := mkTLS {
  TLSVersion : Z;
  HandshakeComplete : bool;
  ClientRandom : bytes;
  ServerCertificate : bytes;
  ServerCertVerified : bool;
  MSK : bytes;
  Flags : Z;
  TLSData : bytes;
}.
Definition NewTLSSessionState : TLSSessionState := mkTLS 0 false [] [] false [] 0 [].
Definition AppendTLSData (s : TLSSessionState) (data : bytes) : TLSSessionState :=
  mkTLS (TLSVersion s) (HandshakeComplete s) (ClientRandom s) (ServerCertificate s)
    (ServerCertVerified s) (MSK s) (Flags s) (TLSData s ++ data)%list.
Definition ResetTLSData (s : TLSSessionState) : TLSSessionState :=
  mkTLS (TLSVersion s) (HandshakeComplete s) (ClientRandom s) (ServerCertificate s)
    (ServerCertVerified s) (MSK s) (Flags s) [].

(** [CachedResponse] is compared with nil, hence the option; [LastNonce] is only
    compared by content. *)
Record Session : Type := mkSession {
  s_AuthCtxID : string;
  s_Gpsi : string;
  s_Supi : string;
  s_SnssaiKey : string;
  s_State : SessionState;
  s_Method : Z;
  s_Rounds : Z;
  s_MaxRounds : Z;
  s_ExpectedID : Z;
  s_LastNonce : bytes;
  s_CachedResponse : option bytes;
  s_CreatedAt : Z;
  s_LastActivity : Z;
  s_Timeout : Z;
  s_TLSState : option TLSSessionState;
}.

Definition NewSession (authCtxID gpsi : string) (now : Z) : Session :=
  mkSession authCtxID gpsi estr estr SessionStateInit 0 0 DefaultMaxRounds 0 [] None
    now now DefaultRoundTimeout None.

(** Assignments to the fields that change. *)
Definition set_SnssaiKey (s : Session) (k : string) : Session :=
  mkSession (s_AuthCtxID s) (s_Gpsi s) (s_Supi s) k (s_State s) (s_Method s)
    (s_Rounds s) (s_MaxRounds s) (s_ExpectedID s) (s_LastNonce s) (s_CachedResponse s)
    (s_CreatedAt s) (s_LastActivity s) (s_Timeout s) (s_TLSState s).
Definition set_State (s : Session) (st : SessionState) : Session :=
  mkSession (s_AuthCtxID s) (s_Gpsi s) (s_Supi s) (s_SnssaiKey s) st (s_Method s)
    (s_Rounds s) (s_MaxRounds s) (s_ExpectedID s) (s_LastNonce s) (s_CachedResponse s)
    (s_CreatedAt s) (s_LastActivity s) (s_Timeout s) (s_TLSState s).
Definition set_Method (s : Session) (m : Z) : Session :=
  mkSession (s_AuthCtxID s) (s_Gpsi s) (s_Supi s) (s_SnssaiKey s) (s_State s) m
    (s_Rounds s) (s_MaxRounds s) (s_ExpectedID s) (s_LastNonce s) (s_CachedResponse s)
    (s_CreatedAt s) (s_LastActivity s) (s_Timeout s) (s_TLSState s).
Definition set_Rounds (s : Session) (n : Z) : Session :=
  mkSession (s_AuthCtxID s) (s_Gpsi s) (s_Supi s) (s_SnssaiKey s) (s_State s) (s_Method s)
    n (s_MaxRounds s) (s_ExpectedID s) (s_LastNonce s) (s_CachedResponse s)
    (s_CreatedAt s) (s_LastActivity s) (s_Timeout s) (s_TLSState s).
Definition set_MaxRounds (s : Session) (n : Z) : Session :=
  mkSession (s_AuthCtxID s) (s_Gpsi s) (s_Supi s) (s_SnssaiKey s) (s_State s) (s_Method s)
    (s_Rounds s) n (s_ExpectedID s) (s_LastNonce s) (s_CachedResponse s)
    (s_CreatedAt s) (s_LastActivity s) (s_Timeout s) (s_TLSState s).
Definition set_ExpectedID (s : Session) (id : Z) : Session :=
  mkSession (s_AuthCtxID s) (s_Gpsi s) (s_Supi s) (s_SnssaiKey s) (s_State s) (s_Method s)
    (s_Rounds s) (s_MaxRounds s) id (s_LastNonce s) (s_CachedResponse s)
    (s_CreatedAt s) (s_LastActivity s) (s_Timeout s) (s_TLSState s).
Definition set_LastNonce (s : Session) (h : bytes) : Session :=
  mkSession (s_AuthCtxID s) (s_Gpsi s) (s_Supi s) (s_SnssaiKey s) (s_State s) (s_Method s)
    (s_Rounds s) (s_MaxRounds s) (s_ExpectedID s) h (s_CachedResponse s)
    (s_CreatedAt s) (s_LastActivity s) (s_Timeout s) (s_TLSState s).
Definition set_CachedResponse (s : Session) (r : option bytes) : Session :=
  mkSession (s_AuthCtxID s) (s_Gpsi s) (s_Supi s) (s_SnssaiKey s) (s_State s) (s_Method s)
    (s_Rounds s) (s_MaxRounds s) (s_ExpectedID s) (s_LastNonce s) r
    (s_CreatedAt s) (s_LastActivity s) (s_Timeout s) (s_TLSState s).
Definition set_LastActivity (s : Session) (t : Z) : Session :=
  mkSession (s_AuthCtxID s) (s_Gpsi s) (s_Supi s) (s_SnssaiKey s) (s_State s) (s_Method s)
    (s_Rounds s) (s_MaxRounds s) (s_ExpectedID s) (s_LastNonce s) (s_CachedResponse s)
    (s_CreatedAt s) t (s_Timeout s) (s_TLSState s).
Definition set_Timeout (s : Session) (d : Z) : Session :=
  mkSession (s_AuthCtxID s) (s_Gpsi s) (s_Supi s) (s_SnssaiKey s) (s_State s) (s_Method s)
    (s_Rounds s) (s_MaxRounds s) (s_ExpectedID s) (s_LastNonce s) (s_CachedResponse s)
    (s_CreatedAt s) (s_LastActivity s) d (s_TLSState s).

Definition WithSnssai (s : Session) (k : string) : Session := set_SnssaiKey s k.
Definition WithMaxRounds (s : Session) (n : Z) : Session := set_MaxRounds s n.
Definition WithTimeout (s : Session) (d : Z) : Session := set_Timeout s d.

Inductive session_error : Type :=
| ErrInvalidStateTransition (from : SessionState).

Definition AdvanceToExchange (s : Session) (now : Z) : Session * option session_error :=
  if bool_decide (s_State s <> SessionStateInit) && bool_decide (s_State s <> SessionStateIdle)
  then (s, Some (ErrInvalidStateTransition (s_State s)))
  else (set_LastActivity (set_Rounds (set_State s SessionStateEapExchange) 1) now, None).

(** [sha256.Sum256] is an argument. *)
Definition RecordResponse (sha256 : bytes -> bytes) (s : Session) (id : Z) (payload : bytes)
  (now : Z) : Session :=
  set_LastNonce
    (set_LastActivity (set_Rounds (set_ExpectedID s (u8 (id + 1))) (s_Rounds s + 1)) now)
    (sha256 payload).

Definition CacheResponse (s : Session) (response : option bytes) : Session :=
  set_CachedResponse s response.
Definition MarkDone (s : Session) (now : Z) : Session :=
  set_LastActivity (set_State s SessionStateDone) now.
Definition MarkFailed (s : Session) (now : Z) : Session :=
  set_LastActivity (set_State s SessionStateFailed) now.
Definition MarkTimeout (s : Session) (now : Z) : Session :=
  set_LastActivity (set_State s SessionStateTimeout) now.
Definition IsExpired (s : Session) (ttl now : Z) : bool := ttl <? now - s_CreatedAt s.
Definition IsTimedOut (s : Session) (now : Z) : bool := s_Timeout s <? now - s_LastActivity s.

(** *** DecodeSnssaiKey

    [fmt.Sscanf] as the method uses it, on ASCII text: [%s] skips leading
    blanks (a newline there is an error) and takes the characters up to the next
    white space; a literal of the format must match the next input character;
    [%d] into a [uint8] takes the leading digits and fails without storing when
    there are none or the value does not fit. *)
Definition is_space (c : char) : bool :=
  let z := ascii_code c in ((9 <=? z) && (z <=? 13)) || (z =? 32).
Definition is_nl (c : char) : bool := ascii_code c =? 10.

Fixpoint skip_space (cs : list char) : option (list char) :=
  match cs with
  | c :: t => if is_nl c then None else if is_space c then skip_space t else Some cs
  | [] => Some []
  end.

Fixpoint span (p : char -> bool) (cs : list char) : list char * list char :=
  match cs with
  | c :: t => if p c then let '(a, b) := span p t in (c :: a, b) else ([], cs)
  | [] => ([], [])
  end.

(** [%s]: the token and the rest of the input, [None] on error or end of input. *)
Definition scan_s (cs : list char) : option (list char * list char) :=
  match skip_space cs with
  | Some [] | None => None
  | Some cs => Some (span (fun c => negb (is_space c)) cs)
  end.

Definition digits_value (cs : list char) : Z :=
  foldl (fun acc c => acc * 10 + (ascii_code c - 48)) 0 cs.

(** [Sscanf(s, "%d", &sst)] with [sst] initially 0: the value stored. *)
Definition scan_u8 (cs : list char) : Z :=
  match skip_space cs with
  | Some cs =>
      let ds := fst (span is_digit cs) in
      if (length ds =? 0)%nat || (255 <? digits_value ds) then 0 else digits_value ds
  | None => 0
  end.

(** [Sscanf(key, "%s:%s", &sstStr, &sdStr)]: the two strings after the call. *)
Definition scan_pair (cs : list char) : list char * list char :=
  match scan_s cs with
  | None => ([], [])
  | Some (sst, rest) =>
      match rest with
      | c :: rest =>
          if ascii_code c =? 58 then
            match scan_s rest with Some (sd, _) => (sst, sd) | None => (sst, []) end
          else (sst, [])
      | [] => (sst, [])
      end
  end.

Definition DecodeSnssaiKey (s : Session) : Z * string :=
  if is_empty (s_SnssaiKey s) then (0, estr)
  else
    let '(sst, sd) := scan_pair (chars (s_SnssaiKey s)) in
    (match sst with [] => 0 | _ => scan_u8 sst end, String.string_of_list_ascii sd).

Lemma span_stop p cs : match snd (span p cs) with c :: _ => p c = false | [] => True end.
Proof.
  induction cs as [|c t IH]; simpl; [done|]. destruct (p c) eqn:E; [|done].
  by destruct (span p t).
Qed.

(** [DecodeSnssaiKey] never recovers the slice differentiator: the
    [%s] verb takes the whole key up to white space, so the second string of
    the scan is never set.  For every session and key, the SD it returns is
    empty. *)
Theorem DecodeSnssaiKey_drops_sd s : snd (DecodeSnssaiKey s) = estr.
Proof.
  unfold DecodeSnssaiKey. destruct (is_empty _); [done|].
  unfold scan_pair, scan_s. destruct (skip_space _) as [[|c t]|]; [done| |done].
  assert (H := span_stop (fun c => negb (is_space c)) (c :: t)).
  destruct (span _ (c :: t)) as [tok [|d rest]]; [done|]. simpl in H.
  destruct (ascii_code d =? 58) eqn:E; [|done].
  apply Z.eqb_eq in E. apply negb_false_iff in H. unfold is_space in H. rewrite E in H. done.
Qed.

(** The SST part, however, is the slice's: the round trip with [Snssai_Key]. *)
Lemma DecodeSnssaiKey_example :
  map (fun k => DecodeSnssaiKey (set_SnssaiKey (NewSession "c" "g" 0) k))
    [Snssai_Key (mkSnssai 1 "000001"); Snssai_Key (mkSnssai 255 estr)]
  = [(1, estr); (255, estr)].
Proof. reflexivity. Qed.

(** ** engine_client.go *)

(** [diff |= a[i] ^ b[i]] over the indices of [a]. *)
Fixpoint xor_diff (a b : bytes) (diff : Z) : Z :=
  match a, b with
  | x :: a, y :: b => xor_diff a b (Z.lor diff (Z.lxor x y))
  | _, _ => diff
  end.
Definition bytesEqual (a b : bytes) : bool :=
  if negb (len a =? len b) then false else xor_diff a b 0 =? 0.

Lemma xor_diff_zero a b d :
  length a = length b -> xor_diff a b d = 0 <-> d = 0 /\ a = b.
Proof.
  revert b d. induction a as [|x a IH]; intros [|y b] d; simpl; intros Hl; try done.
  - naive_solver.
  - rewrite IH by lia. rewrite Z.lor_eq_0_iff, Z.lxor_eq_0_iff. naive_solver.
Qed.

(** The constant-time comparison is equality. *)
Lemma bytesEqual_spec a b : bytesEqual a b = true <-> a = b.
Proof.
  unfold bytesEqual. destruct (len a =? len b) eqn:E; zbool; simpl.
  - rewrite Z.eqb_eq, xor_diff_zero by (unfold len in E; lia). naive_solver.
  - split; [done|]. intros ->. done.
Qed.

(** ** The SessionStore interface *)
Inductive store_error : Type :=
| ErrSessionNotFound
| ErrStore (msg : string).

(** [put] may fail; the store it returns is the one after the call. *)
Class SessionStore (S : Type) : Type := {
  store_get : Z -> S -> string -> result store_error Session;
  store_put : Z -> S -> Session -> S * option store_error;
  store_delete : S -> string -> S * option store_error;
  store_Size : S -> nat;
}.

(** What a store promises: a successful [Put] is seen by the [Get]s of the same
    key while the session is live, [Put] and [Delete] touch no other key, and a
    session is found under its own identifier.  [store_image] is what comes back:
    the session, up to the encoding of an empty cached response. *)
Class LawfulStore (S : Type) `{SessionStore S} : Type := {
  store_wf : S -> Prop;
  store_live : S -> Z -> Session -> Z -> Prop;
  store_image : Session -> Session;
  image_spec x :
    store_image x = x
    \/ (s_CachedResponse x = Some [] /\ store_image x = set_CachedResponse x None);
  wf_put t s x : store_wf s -> store_wf (fst (store_put t s x));
  wf_delete s id : store_wf s -> store_wf (fst (store_delete s id));
  get_id t s id x : store_wf s -> store_get t s id = Ok x -> s_AuthCtxID x = id;
  get_put_eq t t' s s' x :
    store_put t s x = (s', None) -> store_live s t x t' ->
    store_get t' s' (s_AuthCtxID x) = Ok (store_image x);
  get_put_some t t' s s' x y :
    store_put t s x = (s', None) -> store_get t' s' (s_AuthCtxID x) = Ok y ->
    y = store_image x;
  get_time t t' s id x y :
    store_get t s id = Ok x -> store_get t' s id = Ok y -> x = y;
  get_put_ne t t' s x id :
    id <> s_AuthCtxID x -> store_get t' (fst (store_put t s x)) id = store_get t' s id;
  get_delete_eq t s s' id :
    store_delete s id = (s', None) -> store_get t s' id = Err ErrSessionNotFound;
  get_delete_ne t s id id' :
    id' <> id -> store_get t (fst (store_delete s id)) id' = store_get t s id';
}.

(** ** sessionManager: the in-memory store *)
Module Mem.

Record sessionManager : Type := mkSM { sessions : gmap string Session; ttl : Z }.
Definition newSessionManager (ttl : Z) : sessionManager := mkSM ∅ ttl.

Definition get (now : Z) (m : sessionManager) (authCtxID : string) : result store_error Session :=
  match sessions m !! authCtxID with
  | None => Err ErrSessionNotFound
  | Some session => if IsExpired session (ttl m) now then Err ErrSessionNotFound else Ok session
  end.

Definition put (now : Z) (m : sessionManager) (session : Session)
  : sessionManager * option store_error :=
  (mkSM (<[s_AuthCtxID session := session]> (sessions m)) (ttl m), None).

Definition delete (m : sessionManager) (authCtxID : string)
  : sessionManager * option store_error :=
  (mkSM (base.delete authCtxID (sessions m)) (ttl m), None).

Definition Size (m : sessionManager) : nat := size (sessions m).

(** [session.CreatedAt.Before(cutoff)] with [cutoff = now - ttl] *)
Definition cleanup (m : sessionManager) (now : Z) : sessionManager * nat :=
  let keep := filter (fun ks => ~ s_CreatedAt (snd ks) < now - ttl m) (sessions m) in
  (mkSM keep (ttl m), (size (sessions m) - size keep)%nat).

#[global] Instance mem_store : SessionStore sessionManager := {
  store_get := get; store_put := put; store_delete := delete; store_Size := Size }.

Definition mem_wf (m : sessionManager) : Prop :=
  forall id x, sessions m !! id = Some x -> s_AuthCtxID x = id.

#[global] Program Instance mem_lawful : LawfulStore sessionManager := {
  store_wf := mem_wf;
  store_live s t x t' := t' - s_CreatedAt x <= ttl s;
  store_image x := x }.
Next Obligation. by left. Qed.
Next Obligation.
  intros t s x H id y. simpl. rewrite lookup_insert_Some. intros [[<- ->]|[_ ?]]; auto.
Qed.
Next Obligation. intros s id H id' y. simpl. intros [_ ?]%lookup_delete_Some. auto. Qed.
Next Obligation.
  intros t s id x H. simpl. unfold get. intros. go_cases. by apply H.
Qed.
Next Obligation.
  intros t t' s s' x. simpl. unfold put, get. intros [= <-] Hl. simpl.
  rewrite lookup_insert_eq. unfold IsExpired.
  destruct (ttl s <? t' - s_CreatedAt x) eqn:E; [zsolve|done].
Qed.
Next Obligation.
  intros t t' s s' x y. simpl. unfold put, get. intros [= <-]. simpl.
  rewrite lookup_insert_eq. by destruct (IsExpired _ _ _); intros [= <-].
Qed.
Next Obligation. intros t t' s id x y. simpl. unfold get. intros. by go_cases. Qed.
Next Obligation. intros. simpl. unfold get. simpl. by rewrite lookup_insert_ne. Qed.
Next Obligation.
  intros t s s' id. simpl. unfold delete, get. intros [= <-]. simpl. by rewrite lookup_delete_eq.
Qed.
Next Obligation. intros. simpl. unfold get. simpl. by rewrite lookup_delete_ne. Qed.

Lemma put_ok t (st : sessionManager) x : snd (store_put t st x) = None.
Proof. done. Qed.

(** Periodic cleanup is invisible: it removes only sessions that [get] would
    already report as not found, now and at every later time. *)
Lemma cleanup_invisible m now now' id :
  now <= now' -> get now' (fst (cleanup m now)) id = get now' m id.
Proof.
  intros Hn. unfold get, cleanup. simpl. rewrite map_lookup_filter.
  destruct (sessions m !! id) as [x|]; cbn [mbind option_bind]; [|done].
  destruct (decide (s_CreatedAt x < now - ttl m)) as [Hx|Hx].
  - rewrite option_guard_False by (simpl; tauto). unfold IsExpired.
    destruct (ttl m <? now' - s_CreatedAt x) eqn:E; [done|zsolve].
  - by rewrite option_guard_True.
Qed.

End Mem.

(** ** RedisSessionManager *)
Module Redis.

Record redisSession : Type := mkRS {
  rs_AuthCtxID : string;
  rs_Gpsi : string;
  rs_Supi : string;
  rs_SnssaiKey : string;
  rs_State : SessionState;
  rs_Method : Z;
  rs_Rounds : Z;
  rs_MaxRounds : Z;
  rs_ExpectedID : Z;
  rs_LastNonce : bytes;
  rs_CachedResponse : option bytes;
  rs_CreatedAt : Z;
  rs_LastActivity : Z;
  rs_Timeout : Z;
  rs_TLSState : option TLSSessionState;
}.

Definition fromSession (s : Session) : redisSession :=
  mkRS (s_AuthCtxID s) (s_Gpsi s) (s_Supi s) (s_SnssaiKey s) (s_State s) (s_Method s)
    (s_Rounds s) (s_MaxRounds s) (s_ExpectedID s) (s_LastNonce s) (s_CachedResponse s)
    (s_CreatedAt s) (s_LastActivity s) (s_Timeout s) (s_TLSState s).
Definition toSession (rs : redisSession) : Session :=
  mkSession (rs_AuthCtxID rs) (rs_Gpsi rs) (rs_Supi rs) (rs_SnssaiKey rs) (rs_State rs)
    (rs_Method rs) (rs_Rounds rs) (rs_MaxRounds rs) (rs_ExpectedID rs) (rs_LastNonce rs)
    (rs_CachedResponse rs) (rs_CreatedAt rs) (rs_LastActivity rs) (rs_Timeout rs)
    (rs_TLSState rs).

(** What [json.Unmarshal] reads back of what [json.Marshal] wrote.  [lastNonce]
    and [cachedResponse] are [omitempty]: an empty slice is not written and
    reads back as nil. *)
Definition omitempty (b : option bytes) : option bytes :=
  match b with Some [] => None | _ => b end.
Definition json_image (rs : redisSession) : redisSession :=
  mkRS (rs_AuthCtxID rs) (rs_Gpsi rs) (rs_Supi rs) (rs_SnssaiKey rs) (rs_State rs)
    (rs_Method rs) (rs_Rounds rs) (rs_MaxRounds rs) (rs_ExpectedID rs) (rs_LastNonce rs)
    (omitempty (rs_CachedResponse rs)) (rs_CreatedAt rs) (rs_LastActivity rs)
    (rs_Timeout rs) (rs_TLSState rs).

(** A Redis server: values with their expiry ([None]: no expiry), and whether
    commands reach it. *)
Record RedisSessionManager : Type := mkRSM {
  kv : gmap string (redisSession * option Z);
  reachable : bool;
  ttl : Z;
}.

Definition SessionKeyPrefix : string := "nssaa:eap:session:".

Definition get (now : Z) (m : RedisSessionManager) (authCtxID : string)
  : result store_error Session :=
  if negb (reachable m) then Err (ErrStore "redis get")
  else match kv m !! (SessionKeyPrefix +:+ authCtxID) with
  | Some (rs, None) => Ok (toSession rs)
  | Some (rs, Some expiry) =>
      if now <? expiry then Ok (toSession rs) else Err ErrSessionNotFound
  | None => Err ErrSessionNotFound
  end.

Definition put (now : Z) (m : RedisSessionManager) (session : Session)
  : RedisSessionManager * option store_error :=
  if negb (reachable m) then (m, Some (ErrStore "redis set"))
  else
    let key := SessionKeyPrefix +:+ s_AuthCtxID session in
    let expiry := if ttl m =? 0 then None else Some (now + ttl m) in
    (mkRSM (<[key := (json_image (fromSession session), expiry)]> (kv m)) true (ttl m), None).

Definition delete (m : RedisSessionManager) (authCtxID : string)
  : RedisSessionManager * option store_error :=
  if negb (reachable m) then (m, Some (ErrStore "redis del"))
  else (mkRSM (base.delete (SessionKeyPrefix +:+ authCtxID) (kv m)) true (ttl m), None).

Definition Size (m : RedisSessionManager) : nat := 0.

#[global] Instance redis_store : SessionStore RedisSessionManager := {
  store_get := get; store_put := put; store_delete := delete; store_Size := Size }.

Lemma key_inj a b : SessionKeyPrefix +:+ a = SessionKeyPrefix +:+ b -> a = b.
Proof. intros H. by simplify_eq/=. Qed.

Definition redis_wf (m : RedisSessionManager) : Prop :=
  forall id rs e, kv m !! (SessionKeyPrefix +:+ id) = Some (rs, e) ->
    rs_AuthCtxID rs = id.

#[global] Program Instance redis_lawful : LawfulStore RedisSessionManager := {
  store_wf := redis_wf;
  store_live s t x t' := ttl s = 0 \/ t' < t + ttl s;
  store_image x := toSession (json_image (fromSession x)) }.
Next Obligation.
  intros x. unfold toSession, json_image, fromSession, omitempty. simpl.
  destruct x as [? ? ? ? ? ? ? ? ? ? [[|]|] ? ? ? ?]; [by right|by left|by left].
Qed.
Next Obligation.
  intros t s x H id rs e. simpl. unfold put. destruct (reachable s); simpl; [|by apply H].
  rewrite lookup_insert_Some. intros [[E ?]|[_ ?]]; [|by eapply H].
  apply key_inj in E as <-. by simplify_eq.
Qed.
Next Obligation.
  intros s id H id' rs e. simpl. unfold delete. destruct (reachable s); simpl; [|by apply H].
  intros [_ ?]%lookup_delete_Some. by eapply H.
Qed.
Next Obligation.
  intros t s id x H. simpl. unfold get. intros. go_cases; by eapply H.
Qed.
Next Obligation.
  intros t t' s s' x. simpl. unfold put, get. destruct (reachable s) eqn:R; simpl; [|done].
  intros [= <-] Hl. simpl. rewrite lookup_insert_eq.
  destruct (ttl s =? 0) eqn:E; [done|].
  destruct (t' <? t + ttl s) eqn:E2; [done|]. zbool. lia.
Qed.
Next Obligation.
  intros t t' s s' x y. simpl. unfold put, get. destruct (reachable s) eqn:R; simpl; [|done].
  intros [= <-]. simpl. rewrite lookup_insert_eq. intros. by go_cases.
Qed.
Next Obligation. intros t t' s id x y. simpl. unfold get. intros. by go_cases. Qed.
Next Obligation.
  intros t t' s x id Hne. simpl. unfold put, get. destruct (reachable s) eqn:R; simpl; [|by rewrite R].
  rewrite lookup_insert_ne; [done|]. intros E. apply key_inj in E. done.
Qed.
Next Obligation.
  intros t s s' id. simpl. unfold delete, get. destruct (reachable s); simpl; [|done].
  intros [= <-]. simpl. by rewrite lookup_delete_eq.
Qed.
Next Obligation.
  intros t s id id' Hne. simpl. unfold delete, get. destruct (reachable s) eqn:R; simpl; [|by rewrite R].
  rewrite lookup_delete_ne; [done|]. intros E. apply key_inj in E. done.
Qed.

End Redis.
