(* ===== verification/EapEngine.v ===== *)
(** * internal/eap/engine.go: the EAP engine

    [Process] loads the session of an authentication context, filters idle
    sessions and retries, runs the state machine ([advanceState] and its handlers),
    forwards the message to the AAA server and stores the session.  The session
    store is any [SessionStore]; the AAA router is a record of its two methods,
    whose answers are arbitrary; SHA-256 is an argument.  The clock is read at
    three points of a call: [t0] on entry, [t1] in the handler, [t2] at the end.

    The in-memory store hands out a pointer, so there a handler's assignments
    are visible before [Put]; every path that assigns ends in [Put] of the same
    session, so after the call both views agree. *)
From S2P Require Import Prelude Regex Common Types Encoding EapCodec EapSession.

Record RoutingContext : Type := mkRC {
  rc_GPSI : string; rc_Sst : Z; rc_Sd : string; rc_AuthCtxID : string }.

(** The [AAARouter] interface.  [SendEAP] answers a (possibly nil) payload or an
    error text. *)
Record AAARouter : Type := mkRouter {
  RoutingContext_of : Session -> RoutingContext;
  SendEAP : Session -> RoutingContext -> bytes -> option bytes + string }.

Record Config : Type := mkConfig {
  MaxRounds : Z; RoundTimeout : Z; SessionTTL : Z; FragmentTTLSeconds : Z;
  TLSSessionCacheSize : Z }.

Definition DefaultConfig : Config :=
  mkConfig DefaultMaxRounds DefaultRoundTimeout DefaultSessionTTL 60 1024.

(** The zero-value defaults of the three engine constructors. *)
Definition or_default (v d : Z) : Z := if v =? 0 then d else v.
Definition NewEngine_config (cfg : Config) : Config :=
  mkConfig (or_default (MaxRounds cfg) DefaultMaxRounds)
    (or_default (RoundTimeout cfg) DefaultRoundTimeout)
    (or_default (SessionTTL cfg) DefaultSessionTTL)
    (or_default (FragmentTTLSeconds cfg) 60) (TLSSessionCacheSize cfg).

Inductive AuthResult : Type := AuthResultSuccess | AuthResultFailure | AuthResultPending.

Inductive engine_error : Type :=
| EErrMissingAuthCtxID
| EErrStore (e : store_error)
| EErrSessionTimeout
| EErrCodec (e : codec_error)
| EErrSessionAlreadyDone
| EErrInvalidStateTransition (from : SessionState)
| EErrInitCode (code : Z)
| EErrEapIDMismatch
| EErrMaxRoundsExceeded
| EErrNilResponse
| EErrNoAAAClient
| EErrAAA (msg : string).

Definition authResultFromEapResult (r : Result) : AuthResult :=
  match r with
  | ResultSuccess => AuthResultSuccess
  | ResultFailure => AuthResultFailure
  | ResultContinue | ResultIgnored => AuthResultPending
  | ResultTimeout => AuthResultFailure
  end.

(** Any non-empty identity selects EAP-TLS. *)
Definition detectEapMethodFromIdentity (data : bytes) : Z :=
  match data with [] => MethodIdentity | _ => MethodTLS end.

(** A handler's outcome: the session as mutated, the payloads sent to the AAA
    server, and Go's three results. *)
Record outcome : Type := mkOut {
  o_session : Session;
  o_sent : list bytes;
  o_response : option bytes;
  o_result : Result;
  o_err : option engine_error }.

Section Engine.
Context (sha256 : bytes -> bytes).

Definition forwardToAAA (client : option AAARouter) (session : Session) (eapPayload : bytes)
  : list bytes * option bytes * option engine_error :=
  match client with
  | None => ([], None, Some EErrNoAAAClient)
  | Some c =>
      match SendEAP c session (RoutingContext_of c session) eapPayload with
      | inl response => ([eapPayload], response, None)
      | inr e => ([eapPayload], None, Some (EErrAAA e))
      end
  end.

Definition handleInit (client : option AAARouter) (t1 : Z) (session : Session) (packet : Packet)
  (rawPayload : bytes) : outcome :=
  if negb (Code packet =? CodeResponse) then
    mkOut session [] None ResultIgnored (Some (EErrInitCode (Code packet)))
  else
    let session := set_ExpectedID session (u8 (ID packet + 1)) in
    let session := set_Rounds session 1 in
    let session := set_State session SessionStateEapExchange in
    let session := set_LastActivity session t1 in
    let session :=
      if PType packet =? MethodIdentity
      then set_Method session (detectEapMethodFromIdentity (Data packet)) else session in
    match forwardToAAA client session rawPayload with
    | (sent, None, _) => mkOut session sent None ResultFailure (Some EErrNilResponse)
    | (sent, Some resp, err) => mkOut session sent (Some resp) ResultContinue err
    end.

Definition handleExchange (client : option AAARouter) (t1 : Z) (session : Session)
  (packet : Packet) (rawPayload : bytes) : outcome :=
  if negb (ID packet =? s_ExpectedID session) then
    mkOut session [] None ResultIgnored (Some EErrEapIDMismatch)
  else if s_MaxRounds session <=? s_Rounds session then
    mkOut (MarkFailed session t1) [] None ResultFailure (Some EErrMaxRoundsExceeded)
  else
    let session := set_Rounds session (s_Rounds session + 1) in
    let session := set_ExpectedID session (u8 (ID packet + 1)) in
    let session := set_LastActivity session t1 in
    match forwardToAAA client session rawPayload with
    | (sent, _, Some err) => mkOut session sent None ResultFailure (Some err)
    | (sent, None, None) => mkOut session sent None ResultFailure (Some EErrNilResponse)
    | (sent, Some response, None) =>
        match Parse response with
        | Ok respPacket =>
            let session := set_LastNonce session (sha256 rawPayload) in
            let session := CacheResponse session (Some response) in
            if Code respPacket =? CodeSuccess then
              mkOut (MarkDone session t1) sent (Some response) ResultSuccess None
            else if Code respPacket =? CodeFailure then
              mkOut (MarkFailed session t1) sent (Some response) ResultFailure None
            else mkOut session sent (Some response) ResultContinue None
        | Err e => mkOut session sent None ResultFailure (Some (EErrCodec e))
        | Panic => mkOut session sent None ResultFailure (Some EErrNilResponse)
        end
    end.

Definition handleCompleting (client : option AAARouter) (session : Session) (packet : Packet)
  (rawPayload : bytes) : outcome :=
  let session := set_Rounds session (s_Rounds session + 1) in
  let session := set_ExpectedID session (u8 (ID packet + 1)) in
  match forwardToAAA client session rawPayload with
  | (sent, None, _) => mkOut session sent None ResultFailure (Some EErrNilResponse)
  | (sent, Some resp, err) => mkOut session sent (Some resp) ResultContinue err
  end.

Definition advanceState (client : option AAARouter) (t1 : Z) (session : Session)
  (packet : Packet) (rawPayload : bytes) : outcome :=
  match s_State session with
  | SessionStateInit => handleInit client t1 session packet rawPayload
  | SessionStateEapExchange => handleExchange client t1 session packet rawPayload
  | SessionStateCompleting => handleCompleting client session packet rawPayload
  | SessionStateDone | SessionStateFailed =>
      mkOut session [] None ResultIgnored (Some EErrSessionAlreadyDone)
  | SessionStateTimeout => mkOut session [] None ResultTimeout (Some EErrSessionTimeout)
  | st => mkOut session [] None ResultIgnored (Some (EErrInvalidStateTransition st))
  end.

(** What [Process] does with the session it loaded: the session to store
    ([None]: nothing is stored), the payloads sent, and the three results. *)
Record processed : Type := mkProcessed {
  p_store : option (Z * Session);
  p_sent : list bytes;
  p_msg : option string;
  p_result : AuthResult;
  p_err : option engine_error }.

Definition process_session (client : option AAARouter) (t0 t1 t2 : Z) (session : Session)
  (eapPayload : bytes) : processed :=
  if IsTimedOut session t0 then
    mkProcessed (Some (t0, MarkTimeout session t0)) [] None AuthResultFailure
      (Some EErrSessionTimeout)
  else
    match Parse eapPayload with
    | Err e => mkProcessed None [] None AuthResultFailure (Some (EErrCodec e))
    | Panic => mkProcessed None [] None AuthResultFailure None
    | Ok packet =>
        let msgHash := sha256 eapPayload in
        match (if bytesEqual (s_LastNonce session) msgHash then s_CachedResponse session
               else None) with
        | Some cached =>
            mkProcessed None [] (Some (NewEapMessage cached)) AuthResultPending None
        | None =>
            let o := advanceState client t1 session packet eapPayload in
            let session := set_LastNonce (o_session o) msgHash in
            let session := set_LastActivity session t2 in
            let session :=
              match o_response o with
              | Some r => CacheResponse session (Some r)
              | None => session
              end in
            match o_err o with
            | Some err => mkProcessed (Some (t2, session)) (o_sent o) None AuthResultFailure (Some err)
            | None =>
                mkProcessed (Some (t2, session)) (o_sent o) (option_map NewEapMessage (o_response o))
                  (authResultFromEapResult (o_result o)) None
            end
        end
    end.

Context {S : Type} `{SessionStore S}.

(** A failed [Put] is only logged. *)
Definition save (st : S) (w : option (Z * Session)) : S :=
  match w with Some (t, x) => fst (store_put t st x) | None => st end.

Definition Process (client : option AAARouter) (t0 t1 t2 : Z) (st : S) (authCtxID : string)
  (eapPayload : bytes) : S * list bytes * (option string * AuthResult * option engine_error) :=
  match store_get t0 st authCtxID with
  | Ok session =>
      let p := process_session client t0 t1 t2 session eapPayload in
      (save st (p_store p), p_sent p, (p_msg p, p_result p, p_err p))
  | Err e => (st, [], (None, AuthResultFailure, Some (EErrStore e)))
  | Panic => (st, [], (None, AuthResultFailure, None))
  end.

Definition StartSession (cfg : Config) (now : Z) (st : S) (authCtxID gpsi : string)
  : S * result engine_error Session :=
  if is_empty authCtxID then (st, Err EErrMissingAuthCtxID)
  else
    let session := NewSession authCtxID gpsi now in
    let session := set_MaxRounds session (MaxRounds cfg) in
    let session := set_Timeout session (RoundTimeout cfg) in
    match store_put now st session with
    | (st, Some e) => (st, Err (EErrStore e))
    | (st, None) => (st, Ok session)
    end.

Definition GetSession (now : Z) (st : S) (authCtxID : string) : result store_error Session :=
  store_get now st authCtxID.

Definition DeleteSession (st : S) (authCtxID : string) : S * option store_error :=
  store_delete st authCtxID.

End Engine.
