(* ===== verification/EapEngineSpec.v ===== *)
(** * Correctness of the EAP engine

    The session state machine as a step relation that [Process] follows, the
    bound on the messages sent to the AAA server, the authenticity of a
    success result, and the treatment of repeated messages.  Everything is
    proved for an arbitrary AAA router and, where the store matters, against the
    laws of the [SessionStore] interface. *)
From S2P Require Import Prelude Regex Common Types Encoding EapCodec EapSession EapEngine.

Section Spec.
Context (sha256 : bytes -> bytes).

(** ** The session state machine *)

(** One processed message, seen from the session state.  [sess_timeout] is the
    idle timeout, which applies in every state. *)
Inductive sess_step : SessionState -> SessionState -> Prop :=
| sess_stay st : sess_step st st
| sess_begin : sess_step SessionStateInit SessionStateEapExchange
| sess_done : sess_step SessionStateEapExchange SessionStateDone
| sess_fail : sess_step SessionStateEapExchange SessionStateFailed
| sess_timeout st : sess_step st SessionStateTimeout.

(** The fields that identify and configure a session. *)
Definition same_identity (x y : Session) : Prop :=
  s_AuthCtxID y = s_AuthCtxID x /\ s_Gpsi y = s_Gpsi x /\ s_Supi y = s_Supi x
  /\ s_SnssaiKey y = s_SnssaiKey x /\ s_MaxRounds y = s_MaxRounds x
  /\ s_Timeout y = s_Timeout x /\ s_CreatedAt y = s_CreatedAt x.

Lemma same_identity_refl x : same_identity x x.
Proof. by unfold same_identity. Qed.

(** ** The round budget *)

(** [n] messages have been sent to the AAA server for the session so far. *)
Definition within_budget (n : nat) (x : Session) : Prop :=
  match s_State x with
  | SessionStateInit => n = 0%nat
  | SessionStateEapExchange => Z.of_nat n <= s_Rounds x <= Z.max 1 (s_MaxRounds x)
  | SessionStateDone | SessionStateFailed | SessionStateTimeout =>
      Z.of_nat n <= Z.max 1 (s_MaxRounds x)
  | _ => False
  end.

(** What a handler may do to a session. *)
Record handled (x : Session) (o : outcome) : Prop := {
  h_identity : same_identity x (o_session o);
  h_step : sess_step (s_State x) (s_State (o_session o));
  h_budget n : within_budget n x -> within_budget (n + length (o_sent o)) (o_session o);
}.

Lemma forward_sent client x payload sent r e :
  forwardToAAA client x payload = (sent, r, e) -> (length sent <= 1)%nat.
Proof. unfold forwardToAAA. intros. go_cases; simpl; lia. Qed.

Lemma handled_unchanged x r res e : handled x (mkOut x [] r res e).
Proof.
  constructor; simpl; [apply same_identity_refl|constructor|].
  intros n. by rewrite Nat.add_0_r.
Qed.

Lemma handleInit_handled client t1 x pk raw :
  s_State x = SessionStateInit -> handled x (handleInit client t1 x pk raw).
Proof.
  intros Es. unfold handleInit. destruct (Code pk =? CodeResponse); simpl; [|apply handled_unchanged].
  destruct (forwardToAAA _ _ _) as [[sent [r|]] e] eqn:F; apply forward_sent in F.
  all: destruct (PType pk =? MethodIdentity).
  all: constructor; simpl; rewrite ?Es; [done|constructor|].
  all: intros n; unfold within_budget; rewrite Es; simpl; lia.
Qed.

Lemma handleExchange_handled client t1 x pk raw :
  s_State x = SessionStateEapExchange ->
  handled x (handleExchange sha256 client t1 x pk raw).
Proof.
  intros Es. unfold handleExchange.
  destruct (ID pk =? s_ExpectedID x); simpl; [|apply handled_unchanged].
  destruct (s_MaxRounds x <=? s_Rounds x) eqn:Er.
  - constructor; simpl; rewrite ?Es; [done|constructor|].
    intros n. unfold within_budget. rewrite Es. simpl. lia.
  - destruct (forwardToAAA _ _ _) as [[sent r] e] eqn:F; apply forward_sent in F.
    apply Z.leb_gt in Er.
    assert (B : forall n, within_budget n x ->
      Z.of_nat (n + length sent) <= s_Rounds x + 1 <= Z.max 1 (s_MaxRounds x)).
    { intros n. unfold within_budget. rewrite Es. lia. }
    destruct r as [r|], e as [e|]; [|destruct (Parse r) as [rp| |]| |];
      try destruct (Code rp =? CodeSuccess); try destruct (Code rp =? CodeFailure).
    all: constructor; simpl; rewrite ?Es; [done|constructor|].
    all: intros n Hn; specialize (B n Hn); unfold within_budget; simpl; rewrite ?Es; lia.
Qed.

Lemma advanceState_handled client t1 x pk raw :
  s_State x <> SessionStateCompleting ->
  handled x (advanceState sha256 client t1 x pk raw).
Proof.
  unfold advanceState. destruct (s_State x) eqn:Es; intros Hc; try apply handled_unchanged.
  - by apply handleInit_handled.
  - by apply handleExchange_handled.
  - done.
Qed.

Lemma advanceState_identity client t1 x pk raw :
  same_identity x (o_session (advanceState sha256 client t1 x pk raw)).
Proof.
  destruct (decide (s_State x = SessionStateCompleting)) as [E|E].
  - unfold advanceState, handleCompleting. rewrite E.
    by destruct (forwardToAAA _ _ _) as [[? [?|]] ?].
  - by apply h_identity, advanceState_handled.
Qed.

Lemma process_identity client t0 t1 t2 x payload t y :
  p_store (process_session sha256 client t0 t1 t2 x payload) = Some (t, y) ->
  same_identity x y.
Proof.
  unfold process_session. destruct (IsTimedOut x t0); [by intros [= <- <-]|].
  destruct (Parse payload) as [pk| |]; [|done..].
  destruct (if bytesEqual _ _ then _ else _); [done|]. cbv zeta.
  assert (Hi := advanceState_identity client t1 x pk payload).
  destruct (advanceState _ _ _ _ _ _) as [z sent r res e]. simpl in *.
  destruct e, r; simpl; by intros [= <- <-].
Qed.

(** The bookkeeping [Process] adds (nonce, activity time, cached response) does
    not touch what [handled] speaks of. *)
Lemma handled_process client t0 t1 t2 x payload t y :
  s_State x <> SessionStateCompleting ->
  p_store (process_session sha256 client t0 t1 t2 x payload) = Some (t, y) ->
  same_identity x y /\ sess_step (s_State x) (s_State y)
  /\ forall n, within_budget n x ->
       within_budget (n + length (p_sent (process_session sha256 client t0 t1 t2 x payload))) y.
Proof.
  intros Hc. unfold process_session. destruct (IsTimedOut x t0).
  { simpl. intros [= <- <-]. split; [done|]. split; [constructor|].
    intros n. unfold within_budget. simpl. destruct (s_State x); simpl; try done; lia. }
  destruct (Parse payload) as [pk| |]; [|done..].
  destruct (if bytesEqual _ _ then _ else _); [done|]. cbv zeta.
  destruct (advanceState_handled client t1 x pk payload Hc) as [Hi Hs Hb].
  destruct (advanceState _ _ _ _ _ _) as [z sent r res e]. simpl in *.
  destruct e, r; simpl; intros [= <- <-]; (split; [|split]); done.
Qed.

Lemma process_silent client t0 t1 t2 x payload :
  p_store (process_session sha256 client t0 t1 t2 x payload) = None ->
  p_sent (process_session sha256 client t0 t1 t2 x payload) = [].
Proof.
  unfold process_session. destruct (IsTimedOut x t0); [done|].
  destruct (Parse payload); [|done..]. destruct (if bytesEqual _ _ then _ else _); [done|].
  cbv zeta. by destruct (o_err _).
Qed.


(** ** Authenticity of a success *)

(** The session as the exchange handler sends it. *)
Definition exchanged (x : Session) (pk : Packet) (t1 : Z) : Session :=
  set_LastActivity (set_ExpectedID (set_Rounds x (s_Rounds x + 1)) (u8 (ID pk + 1))) t1.

Lemma handleExchange_success client t1 x pk raw :
  o_result (handleExchange sha256 client t1 x pk raw) = ResultSuccess ->
  exists c resp rp, client = Some c /\ ID pk = s_ExpectedID x /\ s_Rounds x < s_MaxRounds x
    /\ SendEAP c (exchanged x pk t1) (RoutingContext_of c (exchanged x pk t1)) raw = inl (Some resp)
    /\ Parse resp = Ok rp /\ Code rp = CodeSuccess
    /\ o_response (handleExchange sha256 client t1 x pk raw) = Some resp.
Proof.
  unfold handleExchange, forwardToAAA. fold (exchanged x pk t1).
  destruct (ID pk =? s_ExpectedID x) eqn:Ei; [|done]. cbn [negb].
  destruct (s_MaxRounds x <=? s_Rounds x) eqn:Er; [done|].
  destruct client as [c|]; [|done].
  destruct (SendEAP _ _ _ _) as [[resp|]|] eqn:E; [|done..].
  destruct (Parse resp) as [rp| |] eqn:Ep; [|done..].
  destruct (Code rp =? CodeSuccess) eqn:Ec; [|by destruct (Code rp =? CodeFailure)].
  intros _. exists c, resp, rp. zbool. done.
Qed.

(** C1: a success is authentic: [Process] reports EAP_SUCCESS only for a
    session in the exchange phase that is not idle, for a well-formed message
    with the expected identifier, within the round limit, after the AAA server
    has answered this very message with an EAP-Success packet, and that packet
    is what the caller gets. *)
Theorem success_authentic client t0 t1 t2 x payload :
  p_result (process_session sha256 client t0 t1 t2 x payload) = AuthResultSuccess ->
  exists c pk resp rp, client = Some c
    /\ IsTimedOut x t0 = false /\ s_State x = SessionStateEapExchange
    /\ Parse payload = Ok pk /\ ID pk = s_ExpectedID x /\ s_Rounds x < s_MaxRounds x
    /\ SendEAP c (exchanged x pk t1) (RoutingContext_of c (exchanged x pk t1)) payload
         = inl (Some resp)
    /\ Parse resp = Ok rp /\ Code rp = CodeSuccess
    /\ p_msg (process_session sha256 client t0 t1 t2 x payload) = Some (NewEapMessage resp)
    /\ p_err (process_session sha256 client t0 t1 t2 x payload) = None.
Proof.
  unfold process_session. destruct (IsTimedOut x t0); [done|].
  destruct (Parse payload) as [pk| |] eqn:Ep; [|done..].
  destruct (if bytesEqual _ _ then _ else _); [done|]. cbv zeta.
  destruct (o_err _) eqn:Ee; [done|]. simpl. intros Hr.
  assert (Hs : s_State x = SessionStateEapExchange).
  { unfold advanceState, handleInit, handleCompleting in Hr.
    destruct (s_State x); try done.
    - destruct (negb _); [done|]. by destruct (forwardToAAA _ _ _) as [[? [?|]] ?].
    - by destruct (forwardToAAA _ _ _) as [[? [?|]] ?]. }
  unfold advanceState in *. rewrite Hs in *.
  destruct (handleExchange_success client t1 x pk payload) as (c & resp & rp & -> & ? & ? & ? & ? & ? & Hm).
  { by destruct (o_result _). }
  exists c, pk, resp, rp. by rewrite Hm.
Qed.

(** ** Terminal sessions *)

(** A finished session stays finished: for a session in a terminal state
    no message is sent to the AAA server, the state stays terminal, and the call
    either fails or repeats the cached last response; no new result is given. *)
Theorem terminal_absorbing client t0 t1 t2 x payload :
  state_IsTerminal (s_State x) = true ->
  let p := process_session sha256 client t0 t1 t2 x payload in
  p_sent p = []
  /\ match p_store p with Some (_, y) => state_IsTerminal (s_State y) = true | None => True end
  /\ (p_err p <> None
      \/ p_result p = AuthResultPending /\ p_msg p = option_map NewEapMessage (s_CachedResponse x)).
Proof.
  intros Ht. unfold process_session. destruct (IsTimedOut x t0); [simpl; auto|].
  destruct (Parse payload) as [pk| |] eqn:Ep; [|simpl; auto|by destruct (Parse_no_panic payload)].
  destruct (if bytesEqual _ _ then _ else _) as [r|] eqn:Ec.
  - destruct (bytesEqual _ _); [|done]. rewrite Ec. simpl. auto.
  - unfold advanceState. destruct (s_State x) eqn:Es; simpl in *; try done; rewrite Es; auto.
Qed.

(** ** Repeated messages *)

(** The stored session after a call that answered with a response. *)
Lemma process_caches client t0 t1 t2 x payload w :
  p_err (process_session sha256 client t0 t1 t2 x payload) = None ->
  p_msg (process_session sha256 client t0 t1 t2 x payload) = Some w ->
  exists pk r, Parse payload = Ok pk /\ w = NewEapMessage r
    /\ match p_store (process_session sha256 client t0 t1 t2 x payload) with
       | Some (t, y) => t = t2 /\ s_LastNonce y = sha256 payload /\ s_CachedResponse y = Some r
                        /\ s_LastActivity y = t2 /\ s_Timeout y = s_Timeout x
                        /\ s_AuthCtxID y = s_AuthCtxID x
       | None => s_LastNonce x = sha256 payload /\ s_CachedResponse x = Some r
       end.
Proof.
  unfold process_session. destruct (IsTimedOut x t0); [done|].
  destruct (Parse payload) as [pk| |]; [|done..].
  destruct (if bytesEqual _ _ then _ else _) as [r|] eqn:Ec.
  - destruct (bytesEqual _ _) eqn:Eb; [|done]. apply bytesEqual_spec in Eb. simpl.
    intros _ [= <-]. eauto 6.
  - cbv zeta. assert (Hi := advanceState_identity client t1 x pk payload).
    destruct (advanceState _ _ _ _ _ _) as [z sent [r|] res [e|]]; simpl in *; try done.
    intros _ [= <-]. exists pk, r. destruct Hi as (? & ? & ? & ? & ? & ? & ?). done.
Qed.

(** A message whose hash is the stored nonce is answered from the cache. *)
Lemma process_cached client t0 t1 t2 x payload pk r :
  IsTimedOut x t0 = false -> Parse payload = Ok pk ->
  s_LastNonce x = sha256 payload -> s_CachedResponse x = Some r ->
  process_session sha256 client t0 t1 t2 x payload
    = mkProcessed None [] (Some (NewEapMessage r)) AuthResultPending None.
Proof.
  intros Ht Hp Hn Hc. unfold process_session. rewrite Ht, Hp.
  by rewrite (proj2 (bytesEqual_spec _ _) Hn), Hc.
Qed.

(** A failed forward is not repeated (the retry is answered from the
    previous round).  When the AAA server fails while a session has a cached
    response, the caller gets an error; sending the same message again, still in
    time, is answered with that older response as PENDING and nothing reaches
    the AAA server, whatever client is used. *)
Theorem failed_forward_swallowed c client t0 t1 t2 t0' t1' t2' x payload pk e r :
  IsTimedOut x t0 = false -> s_State x = SessionStateEapExchange ->
  Parse payload = Ok pk -> ID pk = s_ExpectedID x -> s_Rounds x < s_MaxRounds x ->
  s_LastNonce x <> sha256 payload -> s_CachedResponse x = Some r ->
  SendEAP c (exchanged x pk t1) (RoutingContext_of c (exchanged x pk t1)) payload = inr e ->
  t0' - t2 <= s_Timeout x ->
  let p := process_session sha256 (Some c) t0 t1 t2 x payload in
  p_err p = Some (EErrAAA e) /\ p_sent p = [payload]
  /\ exists y, p_store p = Some (t2, y)
     /\ process_session sha256 client t0' t1' t2' y payload
        = mkProcessed None [] (Some (NewEapMessage r)) AuthResultPending None.
Proof.
  intros Ht Hs Hp Hi Hr Hn Hc HS Hl p. subst p. unfold process_session at 1 2 3.
  rewrite Ht, Hp. destruct (bytesEqual _ _) eqn:Eb; [by apply bytesEqual_spec in Eb|].
  unfold advanceState, handleExchange, forwardToAAA. rewrite Hs, Hi, Z.eqb_refl. cbn [negb].
  destruct (s_MaxRounds x <=? s_Rounds x) eqn:Er; [zsolve|].
  unfold exchanged in HS. rewrite Hi in HS. rewrite HS. simpl.
  split; [done|]. split; [done|]. eexists. split; [done|].
  eapply process_cached; [|done|done|done]. unfold IsTimedOut. simpl.
  destruct (s_Timeout x <? t0' - t2) eqn:E; [zsolve|done].
Qed.

(** ** Histories of calls against a store *)
Record call : Type := mkCall {
  c_client : option AAARouter; c_t0 : Z; c_t1 : Z; c_t2 : Z; c_id : string; c_payload : bytes }.

Section Histories.
Context {S : Type} `{LawfulStore S}.
(** The store accepts every [Put]: the in-memory store, or a reachable Redis. *)
Hypothesis put_ok : forall t st x, snd (store_put t st x) = None.

Lemma put_eq t (st : S) x : store_put t st x = (fst (store_put t st x), None).
Proof. assert (P := put_ok t st x). destruct (store_put t st x). simpl in *. by subst. Qed.

(** The messages sent to the AAA server, with the context they belong to. *)
Fixpoint run_calls (st : S) (cs : list call) : S * list (string * bytes) :=
  match cs with
  | [] => (st, [])
  | c :: cs =>
      let '(st, sent, _) :=
        Process sha256 (c_client c) (c_t0 c) (c_t1 c) (c_t2 c) st (c_id c) (c_payload c) in
      let '(st, log) := run_calls st cs in
      (st, map (pair (c_id c)) sent ++ log)
  end.

Definition sent_for (a : string) (log : list (string * bytes)) : list (string * bytes) :=
  List.filter (fun e => str_eqb (fst e) a) log.

Lemma sent_for_same a l : length (sent_for a (map (pair a) l)) = length l.
Proof.
  induction l as [|m l IH]; [done|]. simpl. rewrite str_eqb_refl. simpl. by rewrite IH.
Qed.
Lemma sent_for_other a b l : b <> a -> sent_for a (map (pair b) l) = [].
Proof.
  intros Hne. induction l as [|m l IH]; [done|]. simpl. unfold str_eqb.
  by rewrite bool_decide_eq_false_2.
Qed.

Record budget_inv (a : string) (M : Z) (n : nat) (st : S) : Prop := {
  bi_wf : store_wf st;
  bi_le : Z.of_nat n <= Z.max 1 M;
  bi_get t x : store_get t st a = Ok x -> within_budget n x /\ s_MaxRounds x = M;
}.

Lemma within_budget_image n x : within_budget n (store_image x) <-> within_budget n x.
Proof. by destruct (image_spec x) as [-> |[_ ->]]. Qed.
Lemma image_MaxRounds x : s_MaxRounds (store_image x) = s_MaxRounds x.
Proof. by destruct (image_spec x) as [-> |[_ ->]]. Qed.

Lemma within_budget_le n x : within_budget n x -> Z.of_nat n <= Z.max 1 (s_MaxRounds x).
Proof. unfold within_budget. destruct (s_State x); try done; lia. Qed.

Lemma budget_put a M n t st y :
  store_wf st -> s_AuthCtxID y = a -> within_budget n y -> s_MaxRounds y = M ->
  budget_inv a M n (fst (store_put t st y)).
Proof.
  intros Hw Ha Hb HM. constructor.
  - by apply wf_put.
  - rewrite <- HM. by apply within_budget_le.
  - intros t' x Hg. rewrite <- Ha in Hg. apply (get_put_some _ _ _ _ _ _ (put_eq t st y)) in Hg as ->.
    by rewrite within_budget_image, image_MaxRounds.
Qed.

Lemma Process_budget a M n st c st' sent r :
  budget_inv a M n st ->
  Process sha256 (c_client c) (c_t0 c) (c_t1 c) (c_t2 c) st (c_id c) (c_payload c)
    = (st', sent, r) ->
  budget_inv a M (n + length (sent_for a (map (pair (c_id c)) sent))) st'.
Proof.
  intros [Hw Hl Hg] E. unfold Process in E.
  destruct (store_get (c_t0 c) st (c_id c)) as [x|e|] eqn:G;
    [|injection E as <- <- <-; simpl; rewrite Nat.add_0_r; by constructor..].
  assert (Hid := get_id _ _ _ _ Hw G).
  destruct (p_store (process_session _ _ _ _ _ _ _)) as [[t y]|] eqn:Ep;
    injection E as <- <- <-.
  2: { rewrite (process_silent _ _ _ _ _ _ Ep). simpl. rewrite Nat.add_0_r. by constructor. }
  assert (Iy := process_identity _ _ _ _ _ _ _ _ Ep).
  destruct (decide (c_id c = a)) as [Ea|Ea].
  - destruct (Hg (c_t0 c) x) as [Hb HM]; [by rewrite <- Ea|].
    assert (Hc : s_State x <> SessionStateCompleting)
      by (intros Es; unfold within_budget in Hb; by rewrite Es in Hb).
    destruct (handled_process _ _ _ _ _ _ _ _ Hc Ep) as (_ & _ & Hn).
    destruct Iy as (Ei & _ & _ & _ & Em & _).
    simpl. apply budget_put; [done|congruence| |congruence].
    rewrite Ea, sent_for_same. by apply Hn.
  - rewrite sent_for_other by done. simpl. rewrite Nat.add_0_r. constructor; [by apply wf_put|done|].
    intros t' z Hz. destruct Iy as (Ei & _). rewrite get_put_ne in Hz by congruence. by eapply Hg.
Qed.

Lemma run_calls_budget a M cs n st :
  budget_inv a M n st ->
  Z.of_nat (n + length (sent_for a (snd (run_calls st cs)))) <= Z.max 1 M.
Proof.
  revert n st. induction cs as [|c cs IH]; intros n st Hi; simpl.
  - rewrite Nat.add_0_r. apply Hi.
  - destruct (Process _ _ _ _ _ _ _ _) as [[st' sent] r] eqn:E.
    assert (Hi' := Process_budget _ _ _ _ _ _ _ _ Hi E). specialize (IH _ _ Hi').
    destruct (run_calls st' cs) as [st'' log]. simpl in *.
    unfold sent_for in *. rewrite List.filter_app, length_app. lia.
Qed.

Lemma Process_store client t0 t1 t2 st a payload x :
  store_get t0 st a = Ok x ->
  Process sha256 client t0 t1 t2 st a payload =
    let p := process_session sha256 client t0 t1 t2 x payload in
    (save st (p_store p), p_sent p, (p_msg p, p_result p, p_err p)).
Proof. intros E. unfold Process. by rewrite E. Qed.

(** C3: retries are idempotent: when a call answered with a (non-empty)
    response, a repetition of the same message before the session times out or
    expires returns the same response, sends nothing to the AAA server and leaves
    the store as it is.  The result it reports is PENDING, also when the first call
    reported EAP_SUCCESS or EAP_FAILURE. *)
Theorem retry_idempotent client client' t0 t1 t2 t0' t1' t2' st st1 a payload sent w res x :
  store_wf st -> store_get t0 st a = Ok x -> w <> estr ->
  Process sha256 client t0 t1 t2 st a payload = (st1, sent, (Some w, res, None)) ->
  t0 <= t0' -> t0' - t2 <= s_Timeout x -> t0' - s_LastActivity x <= s_Timeout x ->
  (forall y, same_identity x y -> store_live st t2 y t0') ->
  (exists x', store_get t0' st a = Ok x') ->
  Process sha256 client' t0' t1' t2' st1 a payload = (st1, [], (Some w, AuthResultPending, None)).
Proof.
  intros Hw G Hne E Ht Hto Hto' Hlive [x' G'].
  assert (Hx : x' = x) by (by eapply get_time). subst x'.
  rewrite (Process_store _ _ _ _ _ _ _ _ G) in E. cbv zeta in E. injection E as E1 E2 E3 E4 E5.
  destruct (process_caches client t0 t1 t2 x payload w E5 E3) as (pk & r & Hp & -> & Hst).
  assert (Hr : r <> []) by (intros ->; by apply Hne).
  destruct (p_store _) as [[t y]|] eqn:Ep; simpl in E1.
  - apply process_identity in Ep. destruct Hst as (-> & Hn & Hc & Hla & Htm & Hid).
    assert (Gy : store_get t0' st1 a = Ok y).
    { rewrite <- E1. rewrite <- (get_id _ _ _ _ Hw G), <- Hid.
      rewrite (get_put_eq t2 t0' st _ y (put_eq t2 st y)) by auto.
      destruct (image_spec y) as [-> |[Hy _]]; [done|]. rewrite Hc in Hy. by simplify_eq. }
    rewrite (Process_store _ _ _ _ _ _ _ _ Gy).
    rewrite (process_cached client' t0' t1' t2' y payload pk r); [done| |done..].
    unfold IsTimedOut. destruct (s_Timeout y <? t0' - s_LastActivity y) eqn:Eo; [zsolve|done].
  - destruct Hst as (Hn & Hc). subst st1. rewrite (Process_store _ _ _ _ _ _ _ _ G').
    rewrite (process_cached client' t0' t1' t2' x payload pk r); [done| |done..].
    unfold IsTimedOut. destruct (s_Timeout x <? t0' - s_LastActivity x) eqn:Eo; [zsolve|done].
Qed.


End Histories.

End Spec.

(** Concrete routers and messages for the examples. *)
Definition sha_example (b : bytes) : bytes := b.
Definition const_router (answer : option bytes + string) : AAARouter :=
  mkRouter (fun s => mkRC (s_Gpsi s) 0 estr (s_AuthCtxID s)) (fun _ _ _ => answer).
Definition identity_response (id : Z) : bytes := [2; id; 0; 6; 1; 97].



(** A session in the exchange phase that expects identifier 7, with a cached
    response of the previous round. *)
Definition exchange_session : Session :=
  set_State (set_Rounds (set_ExpectedID (set_CachedResponse (NewSession "a" "g" 0)
    (Some [1; 6; 0; 5; 13])) 7) 1) SessionStateEapExchange.
Definition tls_response (id : Z) : bytes := [2; id; 0; 6; 13; 0].

Lemma success_authentic_witness :
  exists c pk resp rp, Some (const_router (inl (Some [3; 7; 0; 4]))) = Some c
    /\ IsTimedOut exchange_session 1 = false
    /\ s_State exchange_session = SessionStateEapExchange
    /\ Parse (tls_response 7) = Ok pk /\ ID pk = s_ExpectedID exchange_session
    /\ s_Rounds exchange_session < s_MaxRounds exchange_session
    /\ SendEAP c (exchanged exchange_session pk 2)
         (RoutingContext_of c (exchanged exchange_session pk 2)) (tls_response 7) = inl (Some resp)
    /\ Parse resp = Ok rp /\ Code rp = CodeSuccess
    /\ p_msg (process_session sha_example (Some (const_router (inl (Some [3; 7; 0; 4])))) 1 2 3
                exchange_session (tls_response 7)) = Some (NewEapMessage resp)
    /\ p_err (process_session sha_example (Some (const_router (inl (Some [3; 7; 0; 4])))) 1 2 3
                exchange_session (tls_response 7)) = None.
Proof.
  apply (success_authentic sha_example (Some (const_router (inl (Some [3; 7; 0; 4])))) 1 2 3
           exchange_session (tls_response 7)).
  vm_compute. reflexivity.
Defined.

Lemma terminal_absorbing_witness :
  p_sent (process_session sha_example (Some (const_router (inl None))) 1 2 3
            (set_State exchange_session SessionStateDone) (tls_response 7)) = [].
Proof.
  apply (terminal_absorbing sha_example (Some (const_router (inl None))) 1 2 3
           (set_State exchange_session SessionStateDone) (tls_response 7)).
  reflexivity.
Defined.

Lemma failed_forward_swallowed_witness :
  let p := process_session sha_example (Some (const_router (inr "timeout"%string))) 1 2 3
             exchange_session (tls_response 7) in
  p_err p = Some (EErrAAA "timeout") /\ p_sent p = [tls_response 7]
  /\ exists y, p_store p = Some (3, y)
     /\ process_session sha_example (Some (const_router (inl (Some [3; 7; 0; 4])))) 4 5 6 y
          (tls_response 7)
        = mkProcessed None [] (Some (NewEapMessage [1; 6; 0; 5; 13])) AuthResultPending None.
Proof.
  apply (failed_forward_swallowed sha_example (const_router (inr "timeout"%string))
           (Some (const_router (inl (Some [3; 7; 0; 4])))) 1 2 3 4 5 6 exchange_session
           (tls_response 7) (mkPacket 2 7 6 13 [0] (tls_response 7)) "timeout");
    try reflexivity; vm_compute; try reflexivity; discriminate.
Defined.

(** The final message of an authentication, sent twice: EAP_SUCCESS, then the same
    packet as PENDING. *)
Lemma retry_idempotent_witness :
  let st := fst (Mem.put 0 (Mem.newSessionManager 1000) exchange_session) in
  let r := Process sha_example (Some (const_router (inl (Some [3; 7; 0; 4])))) 1 2 3 st "a"
             (tls_response 7) in
  snd r = (Some (NewEapMessage [3; 7; 0; 4]), AuthResultSuccess, None)
  /\ Process sha_example None 5 5 5 (fst (fst r)) "a" (tls_response 7)
     = (fst (fst r), [], (Some (NewEapMessage [3; 7; 0; 4]), AuthResultPending, None)).
Proof.
  intros st r. split; [vm_compute; reflexivity|].
  apply (retry_idempotent (S := Mem.sessionManager) sha_example Mem.put_ok
           (Some (const_router (inl (Some [3; 7; 0; 4])))) None 1 2 3 5 5 5 st (fst (fst r)) "a"
           (tls_response 7) [tls_response 7] (NewEapMessage [3; 7; 0; 4]) AuthResultSuccess
           exchange_session);
    try (vm_compute; reflexivity); try (vm_compute; discriminate).
  - intros id x Hx. unfold st, Mem.put in Hx. cbn [fst Mem.sessions] in Hx.
    apply lookup_insert_Some in Hx as [[<- <-]|[_ Hx]]; [reflexivity|].
    vm_compute in Hx. discriminate.
  - intros y (_ & _ & _ & _ & _ & _ & E). change (5 - s_CreatedAt y <= 1000). rewrite E.
    vm_compute. discriminate.
  - exists exchange_session. vm_compute. reflexivity.
Defined.
