(* ===== verification/Resilience.v ===== *)
(** * internal/resilience: circuit breakers and retries

    [CircuitBreaker] with its methods as functions of the state and the clock;
    the documented three-state machine as an abstract specification that the
    breaker refines; [Registry] with the breakers it hands out as pointers; [Do],
    the retry loop, with the calls it makes and the delays it sleeps. *)
From S2P Require Import Prelude EapSession.
Local Open Scope string_scope.
Local Open Scope Z_scope.

Inductive State : Type := StateClosed | StateOpen | StateHalfOpen.

#[global] Instance State_eq_dec : EqDecision State.
Proof. solve_decision. Defined.

Definition State_String (s : State) : string :=
  match s with
  | StateClosed => "CLOSED"
  | StateOpen => "OPEN"
  | StateHalfOpen => "HALF_OPEN"
  end.

Record CircuitBreaker : Type := mkCB {
  state : State;
  failures : Z;
  successes : Z;
  lastFailure : Z;
  openedAt : Z;
  failureThreshold : Z;
  recoveryTimeout : Z;
  successThreshold : Z;
}.

Definition default_if_zero (v d : Z) : Z := if v =? 0 then d else v.

Definition NewCircuitBreaker (ft rt st : Z) : CircuitBreaker :=
  mkCB StateClosed 0 0 0 0 (default_if_zero ft 5) (default_if_zero rt (30 * second))
    (default_if_zero st 3).

Definition Allow (cb : CircuitBreaker) (now : Z) : CircuitBreaker * bool :=
  match state cb with
  | StateClosed => (cb, true)
  | StateOpen =>
      if recoveryTimeout cb <=? now - openedAt cb then
        (mkCB StateHalfOpen (failures cb) 0 (lastFailure cb) (openedAt cb)
           (failureThreshold cb) (recoveryTimeout cb) (successThreshold cb), true)
      else (cb, false)
  | StateHalfOpen => (cb, true)
  end.

Definition RecordSuccess (cb : CircuitBreaker) : CircuitBreaker :=
  match state cb with
  | StateHalfOpen =>
      let n := successes cb + 1 in
      if successThreshold cb <=? n then
        mkCB StateClosed 0 n (lastFailure cb) (openedAt cb)
          (failureThreshold cb) (recoveryTimeout cb) (successThreshold cb)
      else
        mkCB StateHalfOpen (failures cb) n (lastFailure cb) (openedAt cb)
          (failureThreshold cb) (recoveryTimeout cb) (successThreshold cb)
  | StateClosed =>
      mkCB StateClosed 0 (successes cb) (lastFailure cb) (openedAt cb)
        (failureThreshold cb) (recoveryTimeout cb) (successThreshold cb)
  | StateOpen => cb
  end.

Definition RecordFailure (cb : CircuitBreaker) (now : Z) : CircuitBreaker :=
  let n := failures cb + 1 in
  let opened := mkCB StateOpen n (successes cb) now now
                  (failureThreshold cb) (recoveryTimeout cb) (successThreshold cb) in
  let same := mkCB (state cb) n (successes cb) now (openedAt cb)
                (failureThreshold cb) (recoveryTimeout cb) (successThreshold cb) in
  match state cb with
  | StateClosed => if failureThreshold cb <=? n then opened else same
  | StateHalfOpen => opened
  | StateOpen => same
  end.

Definition Reset (cb : CircuitBreaker) : CircuitBreaker :=
  mkCB StateClosed 0 0 (lastFailure cb) (openedAt cb)
    (failureThreshold cb) (recoveryTimeout cb) (successThreshold cb).

(** ** Histories *)
Inductive event : Type :=
| EAllow (now : Z)
| ESuccess
| EFailure (now : Z)
| EReset.

Definition apply_event (cb : CircuitBreaker) (e : event) : CircuitBreaker :=
  match e with
  | EAllow t => fst (Allow cb t)
  | ESuccess => RecordSuccess cb
  | EFailure t => RecordFailure cb t
  | EReset => Reset cb
  end.
Definition run (cb : CircuitBreaker) (es : list event) : CircuitBreaker :=
  foldl apply_event cb es.

(** ** The documented machine

    REQ-11: CLOSED opens after [F] consecutive failures; OPEN admits a probe [R]
    after it opened; HALF_OPEN closes after [N] successes and reopens on a failure. *)
Inductive spec : Type :=
| Closed (consecutive : Z)
| Open (since : Z)
| HalfOpen (successes : Z).

Section Spec.
Context (F R N : Z).

Definition spec_step (s : spec) (e : event) : spec :=
  match e, s with
  | EReset, _ => Closed 0
  | EAllow t, Open t0 => if R <=? t - t0 then HalfOpen 0 else s
  | EAllow _, _ => s
  | ESuccess, Closed _ => Closed 0
  | ESuccess, HalfOpen k => if N <=? k + 1 then Closed 0 else HalfOpen (k + 1)
  | ESuccess, Open _ => s
  | EFailure t, Closed k => if F <=? k + 1 then Open t else Closed (k + 1)
  | EFailure t, HalfOpen _ => Open t
  | EFailure _, Open _ => s
  end.
Definition spec_allows (s : spec) (t : Z) : bool :=
  match s with Open t0 => R <=? t - t0 | _ => true end.
Definition spec_run (s : spec) (es : list event) : spec := foldl spec_step s es.

(** The abstraction of a breaker. *)
Definition abs (cb : CircuitBreaker) : spec :=
  match state cb with
  | StateClosed => Closed (failures cb)
  | StateOpen => Open (openedAt cb)
  | StateHalfOpen => HalfOpen (successes cb)
  end.
Definition configured (cb : CircuitBreaker) : Prop :=
  failureThreshold cb = F /\ recoveryTimeout cb = R /\ successThreshold cb = N.

Lemma apply_event_refines cb e :
  configured cb -> configured (apply_event cb e) /\ abs (apply_event cb e) = spec_step (abs cb) e.
Proof.
  intros (HF & HR & HN).
  destruct e; simpl; unfold Allow, RecordSuccess, RecordFailure, Reset, abs, configured;
    destruct (state cb) eqn:Es; simpl; rewrite ?HF, ?HR, ?HN; try (by rewrite ?Es); try done.
  all: case_match; simpl; rewrite ?Es; done.
Qed.

Lemma run_configured cb es :
  configured cb -> configured (run cb es) /\ abs (run cb es) = spec_run (abs cb) es.
Proof.
  revert cb. induction es as [|e es IH]; intros cb Hc; simpl; [done|].
  destruct (apply_event_refines cb e Hc) as [Hc' <-]. by apply IH.
Qed.
End Spec.



(** An open breaker that is neither reset nor asked after its recovery time
    refuses every request and stays open. *)
Definition before (deadline : Z) (e : event) : Prop :=
  match e with EAllow t => t < deadline | EReset => False | _ => True end.

Lemma open_stays es cb :
  state cb = StateOpen -> Forall (before (openedAt cb + recoveryTimeout cb)) es ->
  let cb' := run cb es in
  state cb' = StateOpen /\ openedAt cb' = openedAt cb /\ recoveryTimeout cb' = recoveryTimeout cb.
Proof.
  revert cb. induction es as [|e es IH]; intros cb Ho Hb; simpl; [done|].
  inversion Hb as [|? ? He Hes]; subst.
  assert (E : state (apply_event cb e) = StateOpen
    /\ openedAt (apply_event cb e) = openedAt cb
    /\ recoveryTimeout (apply_event cb e) = recoveryTimeout cb).
  { destruct e; simpl in *; unfold Allow, RecordSuccess, RecordFailure; rewrite ?Ho; try done.
    destruct (_ <=? _) eqn:E; [zsolve|]. done. }
  destruct E as (E1 & E2 & E3). rewrite <- E2, <- E3 in *.
  destruct (IH (apply_event cb e) E1 Hes) as (? & ? & ?). done.
Qed.

Lemma run_failures k cb ts :
  state cb = StateClosed -> failures cb = k -> k + len ts < failureThreshold cb ->
  state (run cb (map EFailure ts)) = StateClosed
  /\ failures (run cb (map EFailure ts)) = k + len ts
  /\ failureThreshold (run cb (map EFailure ts)) = failureThreshold cb
  /\ recoveryTimeout (run cb (map EFailure ts)) = recoveryTimeout cb.
Proof.
  revert k cb. induction ts as [|t ts IH]; intros k cb Hs Hk Hl.
  - rewrite len_nil in *. simpl. rewrite Z.add_0_r. done.
  - rewrite len_cons in *. assert (Hn := len_nonneg ts).
    change (run cb (map EFailure (t :: ts))) with (run (RecordFailure cb t) (map EFailure ts)).
    assert (E : RecordFailure cb t = mkCB StateClosed (k + 1) (successes cb) t (openedAt cb)
      (failureThreshold cb) (recoveryTimeout cb) (successThreshold cb)).
    { unfold RecordFailure. rewrite Hs, Hk.
      destruct (failureThreshold cb <=? k + 1) eqn:E; [zsolve|done]. }
    rewrite E. destruct (IH (k + 1) (RecordFailure cb t)) as (A & B & C & D);
      rewrite ?E in *; try done; simpl; try lia.
    split_and!; try done. lia.
Qed.

(** Failure isolation: a closed breaker with no recorded failure opens at
    the [F]-th consecutive failure and not before, and from then on, until the
    recovery time has passed since that failure, every request is refused
    whatever else is recorded. *)
Theorem breaker_isolates cb ts t es now :
  state cb = StateClosed -> failures cb = 0 -> len ts = failureThreshold cb - 1 ->
  Forall (before (t + recoveryTimeout cb)) es -> now < t + recoveryTimeout cb ->
  state (run cb (map EFailure ts)) = StateClosed
  /\ state (run cb (map EFailure ts ++ [EFailure t])) = StateOpen
  /\ snd (Allow (run cb (map EFailure ts ++ EFailure t :: es)) now) = false.
Proof.
  intros Hs Hf Hl Hb Hn.
  destruct (run_failures 0 cb ts Hs Hf) as (A & B & C & D); [lia|].
  set (cb1 := run cb (map EFailure ts)) in *.
  assert (O : state (RecordFailure cb1 t) = StateOpen /\ openedAt (RecordFailure cb1 t) = t
    /\ recoveryTimeout (RecordFailure cb1 t) = recoveryTimeout cb).
  { unfold RecordFailure. rewrite A, B, C. destruct (_ <=? _) eqn:E; [done|zsolve]. }
  destruct O as (O1 & O2 & O3). split; [done|]. split.
  - unfold run. rewrite foldl_app. fold (run cb (map EFailure ts)). fold cb1. done.
  - unfold run. rewrite foldl_app. fold (run cb (map EFailure ts)). fold cb1. simpl.
    rewrite <- O3 in *. rewrite <- O2 in Hb at 1.
    destruct (open_stays es (RecordFailure cb1 t) O1 Hb) as (P1 & P2 & P3).
    fold (run (RecordFailure cb1 t) es). unfold Allow. rewrite P1, P2, P3, O2.
    destruct (_ <=? _) eqn:E; [zsolve|done].
Qed.

Lemma breaker_isolates_witness :
  snd (Allow (run (NewCircuitBreaker 3 100 1)
    (map EFailure [1; 2] ++ EFailure 3 :: [ESuccess; EAllow 50])) 102) = false.
Proof.
  apply (breaker_isolates (NewCircuitBreaker 3 100 1) [1; 2] 3 [ESuccess; EAllow 50] 102);
    try reflexivity; try (vm_compute; reflexivity).
  repeat constructor; vm_compute; reflexivity.
Defined.

(** ** Registry *)
Module Registry.

Record Registry : Type := mkReg {
  breakers : gmap string positive;
  heap : gmap positive CircuitBreaker;
  next : positive;
  defaultFailureThreshold : Z;
  defaultRecoveryTimeout : Z;
  defaultSuccessThreshold : Z;
}.

Definition NewRegistry (ft rt st : Z) : Registry :=
  mkReg ∅ ∅ 1%positive (default_if_zero ft 5) (default_if_zero rt (30 * second))
    (default_if_zero st 3).

(** The unlocked lookup and the second one under the write lock see the same
    map when no other call intervenes; when one does, the second lookup finds its
    entry, which is the [Some] branch. *)
Definition Get (r : Registry) (key : string) : Registry * positive :=
  match breakers r !! key with
  | Some l => (r, l)
  | None =>
      let l := next r in
      let cb := NewCircuitBreaker (defaultFailureThreshold r) (defaultRecoveryTimeout r)
                  (defaultSuccessThreshold r) in
      (mkReg (<[key := l]> (breakers r)) (<[l := cb]> (heap r)) (Pos.succ l)
         (defaultFailureThreshold r) (defaultRecoveryTimeout r) (defaultSuccessThreshold r), l)
  end.

(** A method call on a breaker through its pointer. *)
Definition update (r : Registry) (l : positive) (e : event) : Registry :=
  mkReg (breakers r) (alter (fun cb => apply_event cb e) l (heap r)) (next r)
    (defaultFailureThreshold r) (defaultRecoveryTimeout r) (defaultSuccessThreshold r).

Record reg_ok (r : Registry) : Prop := {
  ro_alloc : forall k l, breakers r !! k = Some l -> is_Some (heap r !! l) /\ (l < next r)%positive;
  ro_inj : forall k k' l, breakers r !! k = Some l -> breakers r !! k' = Some l -> k = k';
}.

Lemma Get_ok r key : reg_ok r -> reg_ok (fst (Get r key)).
Proof.
  intros [Ha Hi]. unfold Get. destruct (breakers r !! key) eqn:E; [by constructor|].
  constructor; simpl.
  - intros k l. rewrite lookup_insert_Some. intros [[<- <-]|[_ Hk]].
    + rewrite lookup_insert_eq. split; [done|lia].
    + destruct (Ha k l Hk) as [Hs Hl]. rewrite lookup_insert_ne by lia. split; [done|lia].
  - intros k k' l. rewrite !lookup_insert_Some.
    intros [[<- <-]|[_ Hk]] [[<- E']|[_ Hk']]; try done.
    + destruct (Ha _ _ Hk') as [_ Hl]. lia.
    + subst. destruct (Ha _ _ Hk) as [_ Hl]. lia.
    + by eapply Hi.
Qed.

Lemma registry_update_ok r l e : reg_ok r -> reg_ok (update r l e).
Proof.
  intros [Ha Hi]. constructor; simpl; [|done].
  intros k l' Hk. rewrite lookup_alter_is_Some. by eapply Ha.
Qed.

(** One breaker per server: [Get] returns the same breaker for a key every
    time, and what is recorded on the breaker of one key leaves the breakers of all
    other keys unchanged. *)
Theorem Registry_per_key r k1 k2 e :
  reg_ok r -> k1 <> k2 ->
  let '(r1, l1) := Get r k1 in
  let '(r2, l2) := Get r1 k2 in
  let r3 := update r2 l1 e in
  reg_ok r3 /\ Get r3 k1 = (r3, l1) /\ Get r3 k2 = (r3, l2) /\ heap r3 !! l2 = heap r2 !! l2.
Proof.
  intros Hr Hne. destruct (Get r k1) as [r1 l1] eqn:E1. destruct (Get r1 k2) as [r2 l2] eqn:E2.
  assert (H1 := Get_ok r k1 Hr). rewrite E1 in H1. simpl in H1.
  assert (H2 := Get_ok r1 k2 H1). rewrite E2 in H2. simpl in H2.
  assert (B1 : breakers r1 !! k1 = Some l1).
  { unfold Get in E1. destruct (breakers r !! k1) eqn:E; simplify_eq/=; [done|]. apply lookup_insert_eq. }
  assert (B2 : breakers r2 !! k2 = Some l2 /\ breakers r2 !! k1 = Some l1).
  { unfold Get in E2. destruct (breakers r1 !! k2) eqn:E; simplify_eq/=; [done|].
    split; [apply lookup_insert_eq|]. by rewrite lookup_insert_ne. }
  destruct B2 as [B2 B1']. split; [by apply registry_update_ok|].
  split; [|split].
  - unfold Get, update at 1. simpl. by rewrite B1'.
  - unfold Get, update at 1. simpl. by rewrite B2.
  - simpl. apply lookup_alter_ne. intros ->. apply Hne. by eapply (ro_inj _ H2).
Qed.

Lemma reg_ok_new ft rt st : reg_ok (NewRegistry ft rt st).
Proof. by constructor. Qed.

Lemma Registry_per_key_witness :
  let '(r1, l1) := Get (NewRegistry 0 0 0) "10.0.0.1:1812" in
  let '(r2, l2) := Get r1 "10.0.0.2:1812" in
  let r3 := update r2 l1 (EFailure 0) in
  reg_ok r3 /\ Get r3 "10.0.0.1:1812" = (r3, l1) /\ Get r3 "10.0.0.2:1812" = (r3, l2)
  /\ heap r3 !! l2 = heap r2 !! l2.
Proof.
  apply (Registry_per_key (NewRegistry 0 0 0) "10.0.0.1:1812" "10.0.0.2:1812" (EFailure 0));
    [apply reg_ok_new | discriminate].
Defined.

End Registry.

(** ** retry.go *)
Module Retry.

Record RetryConfig : Type := mkRetry { MaxAttempts : Z; BaseDelay : Z; MaxDelay : Z }.
Definition DefaultRetryConfig : RetryConfig := mkRetry 3 (1 * second) (4 * second).

Inductive retry_error (E : Type) : Type :=
| ErrMaxRetriesExceeded (last : option E)
| ErrContext.
Arguments ErrMaxRetriesExceeded {E} last.
Arguments ErrContext {E}.

(** Two's-complement 64-bit integers. *)
Definition i64 (x : Z) : Z := (x + 2 ^ 63) mod 2 ^ 64 - 2 ^ 63.

(** [cfg.BaseDelay * time.Duration(1<<attempt)], capped *)
Definition backoff (cfg : RetryConfig) (attempt : Z) : Z :=
  let delay := i64 (BaseDelay cfg * i64 (Z.shiftl 1 attempt)) in
  if MaxDelay cfg <? delay then MaxDelay cfg else delay.

(** The outcome of a run: the result, how many times [fn] was called, and the
    delays slept. *)
Record retry_run (E : Type) : Type := mkDone { result_of : option (retry_error E); calls : nat; slept : list Z }.
Arguments mkDone {E} _ _ _.
Arguments result_of {E} _.
Arguments calls {E} _.
Arguments slept {E} _.

Section Do.
Context {E : Type}.
(** [fn k] is the error of the [k]-th call ([None]: nil); [cancelled k] says
    whether the context is done during the sleep after it. *)
Context (fn : nat -> option E) (cancelled : nat -> bool).

Fixpoint attempts (cfg : RetryConfig) (attempt fuel : nat) (last : option E) (slept : list Z)
  : retry_run E :=
  match fuel with
  | O => mkDone (Some (ErrMaxRetriesExceeded last)) attempt slept
  | S fuel' =>
      match fn attempt with
      | None => mkDone None (S attempt) slept
      | Some err =>
          if Z.of_nat attempt <? MaxAttempts cfg - 1 then
            let delay := backoff cfg (Z.of_nat attempt) in
            if cancelled attempt then mkDone (Some ErrContext) (S attempt) slept
            else attempts cfg (S attempt) fuel' (Some err) (slept ++ [delay])
          else attempts cfg (S attempt) fuel' (Some err) slept
      end
  end.

Definition with_defaults (cfg : RetryConfig) : RetryConfig :=
  mkRetry (default_if_zero (MaxAttempts cfg) (MaxAttempts DefaultRetryConfig))
    (default_if_zero (BaseDelay cfg) (BaseDelay DefaultRetryConfig))
    (default_if_zero (MaxDelay cfg) (MaxDelay DefaultRetryConfig)).

Definition Do (cfg : RetryConfig) : retry_run E :=
  let cfg := with_defaults cfg in
  attempts cfg 0 (Z.to_nat (MaxAttempts cfg)) None [].

(** The first successful call, if the calls before it fail and the context
    stays alive. *)
Definition succeeds_at (n k : nat) : Prop :=
  (k < n)%nat /\ fn k = None /\ (forall j, (j < k)%nat -> fn j <> None /\ cancelled j = false).

Lemma attempts_spec cfg fuel a last sl :
  (a + fuel)%nat = Z.to_nat (MaxAttempts cfg) -> (forall j, (j < a)%nat -> fn j <> None /\ cancelled j = false) ->
  (calls (attempts cfg a fuel last sl) <= a + fuel)%nat
  /\ (result_of (attempts cfg a fuel last sl) = None <-> exists k, succeeds_at (a + fuel) k).
Proof.
  revert a last sl. induction fuel as [|fuel IH]; intros a last sl Ha Hp; simpl.
  - split; [lia|]. split; [done|]. intros (k & Hk & Hf & _). destruct (Hp k); [lia|done].
  - destruct (fn a) as [err|] eqn:Ef.
    + assert (Hrec : cancelled a = false \/ fuel = 0%nat ->
        forall sl', (calls (attempts cfg (S a) fuel (Some err) sl') <= a + S fuel)%nat
        /\ (result_of (attempts cfg (S a) fuel (Some err) sl') = None <->
            exists k, succeeds_at (a + S fuel) k)).
      { intros [Hc|Hc] sl'.
        - replace (a + S fuel)%nat with (S a + fuel)%nat by lia. apply IH; [lia|].
          intros j Hj. destruct (decide (j = a)) as [->|]; [by rewrite Ef|apply Hp; lia].
        - subst fuel. simpl. split; [lia|]. split; [done|].
          intros (k & Hk & Hf & _). destruct (decide (k = a)) as [->|]; [congruence|].
          destruct (Hp k); [lia|done]. }
      destruct (Z.of_nat a <? MaxAttempts cfg - 1) eqn:El.
      * destruct (cancelled a) eqn:Ec; [|by apply Hrec; left].
        simpl. split; [lia|]. split; [done|]. intros (k & Hk & Hf & Hb).
        destruct (Nat.lt_trichotomy k a) as [Hl|[->|Hl]].
        -- destruct (Hp k Hl). done.
        -- congruence.
        -- destruct (Hb a Hl). congruence.
      * apply Hrec. right. zbool. lia.
    + simpl. split; [lia|]. split; [|done]. intros _. exists a. split; [lia|]. done.
Qed.
End Do.

(** The retry loop: [Do] calls the function at most [MaxAttempts] times and
    returns nil exactly when one of these calls succeeds before the context is
    cancelled during a back-off. *)
Theorem Do_spec {E} (fn : nat -> option E) cancelled cfg :
  let n := Z.to_nat (MaxAttempts (with_defaults cfg)) in
  (calls (Do fn cancelled cfg) <= n)%nat
  /\ (result_of (Do fn cancelled cfg) = None <-> exists k, succeeds_at fn cancelled n k).
Proof.
  intros n. unfold Do. apply (attempts_spec fn cancelled (with_defaults cfg) n 0 None []);
    [done|lia].
Qed.

(** With the default configuration the back-offs are 1 s and 2 s: three attempts
    have two pauses. *)
Lemma Do_default_delays {E} (e : E) :
  slept (Do (fun _ => Some e) (fun _ => false) (mkRetry 0 0 0)) = [1 * second; 2 * second].
Proof. reflexivity. Qed.

(** Retryable HTTP statuses. *)
Definition IsRetryable (statusCode : Z) : bool := (500 <=? statusCode) || (statusCode =? 429).

End Retry.
