(* ===== verification/Radius.v ===== *)
(** * internal/radius: attributes, vendor attributes, Message-Authenticator

    attribute.go, vsa.go and message_auth.go.  HMAC-MD5 ([crypto/hmac] over
    [crypto/md5]) is the argument [hmac] of secret and message.  An index or slice
    expression out of range is a [Panic]. *)
From S2P Require Import Prelude Regex Common Types Encoding.
Import Validator.
Local Open Scope string_scope.
Local Open Scope Z_scope.
Local Open Scope list_scope.

Definition AttrUserName : Z := 1.
Definition AttrServiceType : Z := 6.
Definition AttrState : Z := 24.
Definition AttrVendorSpecific : Z := 26.
Definition AttrCallingStationID : Z := 31.
Definition AttrNASIdentifier : Z := 32.
Definition AttrNASPortType : Z := 61.
Definition AttrEAPMessage : Z := 79.
Definition AttrMessageAuthenticator : Z := 80.
Definition Attr3GPPSNSSAI : Z := 200.
Definition ServiceTypeAuthenticateOnly : Z := 8.
Definition NASPortTypeVirtual : Z := 5.

(** ** attribute.go *)
Record Attribute : Type := mkAttr { AType : Z; AValue : bytes }.

Inductive radius_error : Type :=
| ErrTruncated
| ErrInvalidLength (attrType attrLen : Z)
| ErrBeyondData (attrType attrLen : Z)
| ErrInvalidVSA
| ErrSnssaiTooShort
| ErrNotSnssai.

(** The loop over [offset], on the data from the offset on.  An iteration
    consumes at least two bytes, so the number of bytes is enough fuel. *)
Fixpoint decode_loop (fuel : nat) (rest : bytes) : result radius_error (list Attribute) :=
  match fuel, rest with
  | _, [] => Ok []
  | O, _ => Ok []
  | S fuel, [_] => Err ErrTruncated
  | S fuel, attrType :: attrLen :: body =>
      if attrLen <? 2 then Err (ErrInvalidLength attrType attrLen)
      else if len rest <? attrLen then Err (ErrBeyondData attrType attrLen)
      else
        let? attrs := decode_loop fuel (drop (Z.to_nat (attrLen - 2)) body) in
        Ok (mkAttr attrType (take (Z.to_nat (attrLen - 2)) body) :: attrs)
  end.
Definition DecodeAttributes (data : bytes) : result radius_error (list Attribute) :=
  decode_loop (length data) data.

(** The length byte is [byte(attrLen)]: it wraps. *)
Definition encode_attr (a : Attribute) : bytes :=
  AType a :: u8 (2 + len (AValue a)) :: AValue a.
Definition EncodeAttributes (attrs : list Attribute) : bytes := concat (map encode_attr attrs).

Definition MakeAttribute (attrType : Z) (value : bytes) : Attribute := mkAttr attrType value.
Definition MakeStringAttribute (attrType : Z) (value : string) : Attribute :=
  mkAttr attrType (bytes_of_string value).
Definition MakeIntegerAttribute (attrType value : Z) : Attribute := mkAttr attrType (be32 value).
Definition MakeIPv4Attribute (attrType : Z) (ip : bytes) : Attribute :=
  mkAttr attrType (if negb (len ip =? 4) then [0; 0; 0; 0] else ip).

Definition GetAttribute (attrs : list Attribute) (attrType : Z) : option Attribute :=
  List.find (fun a => AType a =? attrType) attrs.
Definition GetAttributes (attrs : list Attribute) (attrType : Z) : list Attribute :=
  List.filter (fun a => AType a =? attrType) attrs.
Definition GetString (attr : option Attribute) : string :=
  match attr with None => estr | Some a => string_of_bytes (AValue a) end.
Definition GetInteger (attr : option Attribute) : Z :=
  match attr with
  | Some (mkAttr _ (a :: b :: c :: d :: _)) => get_be32 a b c d
  | _ => 0
  end.
Definition GetIPv4 (attr : option Attribute) : option bytes :=
  match attr with
  | Some a => if len (AValue a) <? 4 then None else Some (take 4 (AValue a))
  | None => None
  end.

(** The chunking loop, with the length of the payload as fuel. *)
Fixpoint frag_loop (fuel : nat) (rest : bytes) (maxSize : Z) : list bytes :=
  match fuel, rest with
  | O, _ | _, [] => []
  | S fuel, _ =>
      take (Z.to_nat maxSize) rest :: frag_loop fuel (drop (Z.to_nat maxSize) rest) maxSize
  end.
(** A non-positive [maxSize] with a non-empty payload divides by zero, asks for a
    negative capacity or slices out of range. *)
Definition FragmentEAPMessage (payload : bytes) (maxSize : Z) : result radius_error (list bytes) :=
  if len payload <=? maxSize then Ok [payload]
  else if maxSize <=? 0 then (if len payload =? 0 then Ok [] else Panic)
  else Ok (frag_loop (length payload) payload maxSize).

Definition AssembleEAPMessage (attrs : list Attribute) : bytes :=
  concat (map AValue (GetAttributes attrs AttrEAPMessage)).

(** ** Attribute round trips *)
Definition attr_ok (a : Attribute) : Prop :=
  in_u8 (AType a) /\ bytes_ok (AValue a) /\ len (AValue a) <= 253.

Lemma encode_attr_app_len a : (2 <= length (encode_attr a))%nat.
Proof. simpl. lia. Qed.

Lemma EncodeAttributes_ok attrs : Forall attr_ok attrs -> bytes_ok (EncodeAttributes attrs).
Proof.
  induction 1 as [|a attrs (Ht & Hb & Hl) _ IH]; [constructor|].
  apply bytes_ok_app. split; [|done]. constructor; [done|]. constructor; [auto with go|done].
Qed.

Lemma decode_encode_loop attrs fuel :
  Forall attr_ok attrs -> (length (EncodeAttributes attrs) <= fuel)%nat ->
  decode_loop fuel (EncodeAttributes attrs) = Ok attrs.
Proof.
  revert fuel. induction attrs as [|a attrs IH]; intros fuel Hok Hf; [by destruct fuel|].
  inversion Hok as [|? ? (Ht & Hb & Hl) Hoks]; subst.
  unfold EncodeAttributes in *. simpl in *.
  destruct fuel as [|fuel]; [lia|]. simpl.
  assert (Hn := len_nonneg (AValue a)).
  rewrite u8_small by (unfold in_u8; lia).
  destruct (2 + len (AValue a) <? 2) eqn:E1; [zsolve|].
  destruct (_ <? 2 + len (AValue a)) eqn:E2.
  { autorewrite with go in E2. zbool. assert (H := len_nonneg (concat (map encode_attr attrs))). lia. }
  replace (Z.to_nat (2 + len (AValue a) - 2)) with (length (AValue a)) by (unfold len; lia).
  rewrite take_app_length, drop_app_length.
  rewrite IH; [|done|rewrite length_app in Hf; lia]. simpl. by destruct a.
Qed.

Lemma decode_loop_sound fuel rest attrs :
  bytes_ok rest -> (length rest <= fuel)%nat -> decode_loop fuel rest = Ok attrs ->
  EncodeAttributes attrs = rest /\ Forall attr_ok attrs.
Proof.
  revert rest attrs. induction fuel as [|fuel IH]; intros rest attrs Hb Hf E.
  { destruct rest; simpl in *; [by simplify_eq|lia]. }
  destruct rest as [|t [|l body]]; simpl in E; [by simplify_eq|done|].
  destruct (l <? 2) eqn:E1; [done|]. destruct (len _ <? l) eqn:E2; [done|].
  destruct (decode_loop fuel _) as [rest' | |] eqn:Er; simpl in E; [|done..]. injection E as <-.
  zbool. autorewrite with go in *. unfold bytes_ok in Hb. rewrite !Forall_cons in Hb.
  destruct Hb as (Ht & Hl & Hbody).
  apply IH in Er as [Er Hok];
    [|by apply Forall_drop|rewrite length_drop; simpl in Hf; lia].
  assert (Hlen : len (take (Z.to_nat (l - 2)) body) = l - 2) by (rewrite len_take; lia).
  split.
  - unfold EncodeAttributes in *. simpl. rewrite Er, Hlen, take_drop.
    replace (2 + (l - 2)) with l by lia. by rewrite u8_small.
  - constructor; [|done]. split; [done|]. simpl. split; [by apply Forall_take|].
    rewrite Hlen. unfold in_u8 in Hl. lia.
Qed.

(** Attribute codec: decoding inverts encoding for attributes whose value
    fits the length byte (at most 253 bytes), and re-encoding what was decoded
    gives back the very same bytes. *)
Theorem attributes_roundtrip :
  (forall attrs, Forall attr_ok attrs -> DecodeAttributes (EncodeAttributes attrs) = Ok attrs)
  /\ (forall data attrs, bytes_ok data -> DecodeAttributes data = Ok attrs ->
        EncodeAttributes attrs = data /\ Forall attr_ok attrs).
Proof.
  split.
  - intros attrs H. by apply decode_encode_loop.
  - intros data attrs H. by apply decode_loop_sound.
Qed.

(** A value of 254 bytes wraps the length byte to zero and no longer decodes. *)
Lemma encode_wraps :
  DecodeAttributes (EncodeAttributes [mkAttr 79 (repeat 0 254)]) = Err (ErrInvalidLength 79 0).
Proof. vm_compute. reflexivity. Qed.

(** ** EAP-Message chunking *)
Lemma frag_loop_concat fuel rest maxSize :
  0 < maxSize -> (length rest <= fuel)%nat ->
  concat (frag_loop fuel rest maxSize) = rest
  /\ Forall (fun f => 0 < len f <= maxSize) (frag_loop fuel rest maxSize).
Proof.
  intros Hm. revert rest. induction fuel as [|fuel IH]; intros rest Hf.
  { destruct rest; simpl in *; [done|lia]. }
  destruct rest as [|b rest]; [done|]. cbn [frag_loop concat].
  destruct (IH (drop (Z.to_nat maxSize) (b :: rest))) as [E F].
  { rewrite length_drop. simpl in *. lia. }
  rewrite E, take_drop. split; [done|]. constructor; [|done].
  rewrite len_take by lia. rewrite len_cons. assert (H := len_nonneg rest). lia.
Qed.

Lemma assemble_fragments fs :
  AssembleEAPMessage (map (MakeAttribute AttrEAPMessage) fs) = concat fs.
Proof.
  unfold AssembleEAPMessage. induction fs as [|f fs IH]; [done|]. simpl in *. by rewrite IH.
Qed.

(** EAP over RADIUS attributes: a payload chunked for EAP-Message attributes
    is reassembled unchanged, and each chunk has at most [maxSize] bytes, so that
    with the size 253 used by the callers every attribute fits its length byte. *)
Theorem eap_message_roundtrip payload maxSize :
  0 < maxSize ->
  exists fs, FragmentEAPMessage payload maxSize = Ok fs
    /\ AssembleEAPMessage (map (MakeAttribute AttrEAPMessage) fs) = payload
    /\ Forall (fun f => len f <= maxSize) fs.
Proof.
  intros Hm. unfold FragmentEAPMessage. destruct (len payload <=? maxSize) eqn:E.
  - eexists. split; [done|]. rewrite assemble_fragments. simpl. rewrite app_nil_r.
    split; [done|]. constructor; [zsolve|constructor].
  - destruct (maxSize <=? 0) eqn:E0; [zsolve|]. eexists. split; [done|].
    destruct (frag_loop_concat (length payload) payload maxSize) as [C F]; [done|done|].
    rewrite assemble_fragments. split; [done|]. eapply Forall_impl; [exact F|]. simpl. lia.
Qed.

Lemma eap_message_roundtrip_witness :
  exists fs, FragmentEAPMessage [1; 2; 3; 4; 5] 2 = Ok fs
    /\ AssembleEAPMessage (map (MakeAttribute AttrEAPMessage) fs) = [1; 2; 3; 4; 5]
    /\ Forall (fun f => len f <= 2) fs.
Proof. apply eap_message_roundtrip. reflexivity. Defined.

(** ** vsa.go *)
Definition VendorID3GPP : Z := 10415.
Definition VendorTypeSNSSAI : Z := 200.

Record VSA : Type := mkVSA { VendorID : Z; VendorType : Z; VData : bytes }.

Definition DecodeVSA (attr : option Attribute) : result radius_error VSA :=
  match attr with
  | None => Err ErrInvalidVSA
  | Some a =>
      if negb (AType a =? AttrVendorSpecific) then Err ErrInvalidVSA
      else match AValue a with
      | d0 :: d1 :: d2 :: d3 :: d4 :: rest =>
          Ok (mkVSA (Z.lor d0 (Z.lor (Z.shiftl d1 8) (Z.shiftl d2 16))) d3 (d4 :: rest))
      | _ => Err ErrInvalidVSA
      end
  end.

Definition EncodeVSA (vendorID vendorType : Z) (data : bytes) : Attribute :=
  mkAttr AttrVendorSpecific
    (u8 vendorID :: u8 (Z.shiftr vendorID 8) :: u8 (Z.shiftr vendorID 16) :: vendorType :: data).

Definition EncodeSnssaiVSA (sst : Z) (sd : string) : bytes :=
  let zero := [sst; 0; 0; 0] in
  if is_empty sd then zero
  else match Hex.DecodeString sd with
  | Some b => if len b =? 3 then sst :: b else zero
  | None => zero
  end.

Definition DecodeSnssaiVSA (data : bytes) : result radius_error (Z * string) :=
  match data with
  | [] => Err ErrSnssaiTooShort
  | sst :: rest =>
      Ok (sst, if 4 <=? len data then ToUpper (Hex.EncodeToString (take 3 rest)) else estr)
  end.

Definition Make3GPPSNSSAIAttribute (sst : Z) (sd : string) : Attribute :=
  EncodeVSA VendorID3GPP VendorTypeSNSSAI (EncodeSnssaiVSA sst sd).

Definition Is3GPPSNSSAI (v : VSA) : bool :=
  (VendorID v =? VendorID3GPP) && (VendorType v =? VendorTypeSNSSAI).
Definition Parse3GPPSNSSAI (v : VSA) : result radius_error (Z * string) :=
  if negb (Is3GPPSNSSAI v) then Err ErrNotSnssai else DecodeSnssaiVSA (VData v).

(** Upper-casing the lower-case digits of a decoded hexadecimal string gives the
    string in upper case. *)
Lemma hex_upper_char z c v :
  0 <= z < 256 -> c = Base64.char_of z -> Hex.dec_char c = Some v ->
  upper_char (Hex.enc_char v) = upper_char c.
Proof.
  intros Hz -> Hv.
  pose proof (all_below_spec 256 (fun z => match Hex.dec_char (Base64.char_of z) with
    | Some v => Ascii.eqb (upper_char (Hex.enc_char v)) (upper_char (Base64.char_of z))
    | None => true end) z) as H.
  cbv beta in H. rewrite Hv in H. apply Ascii.eqb_eq, H; [vm_compute; done|lia].
Qed.

Lemma char_of_code c : c = Base64.char_of (ascii_code c) /\ 0 <= ascii_code c < 256.
Proof.
  unfold Base64.char_of, ascii_code. rewrite N2Z.id, Ascii.ascii_N_embedding. split; [done|].
  assert (H := Ascii.N_ascii_bounded c). lia.
Qed.

Lemma hex_pair h l vh vl :
  Hex.dec_char h = Some vh -> Hex.dec_char l = Some vl -> 0 <= vh < 16 -> 0 <= vl < 16 ->
  map upper_char (Hex.encode [vh * 16 + vl]) = [upper_char h; upper_char l].
Proof.
  intros Hh Hl Bh Bl. cbn [Hex.encode map].
  replace ((vh * 16 + vl) / 16) with vh by (Z.to_euclidean_division_equations; lia).
  replace ((vh * 16 + vl) mod 16) with vl by (Z.to_euclidean_division_equations; lia).
  destruct (char_of_code h) as [Eh Rh], (char_of_code l) as [El Rl].
  by rewrite (hex_upper_char _ h vh Rh Eh Hh), (hex_upper_char _ l vl Rl El Hl).
Qed.

Lemma hex_decode_upper cs :
  forallb is_hex cs = true -> Nat.even (length cs) = true ->
  exists bs, Hex.decode cs = Some bs /\ bytes_ok bs /\ (2 * length bs = length cs)%nat
    /\ map upper_char (Hex.encode bs) = map upper_char cs.
Proof.
  assert (H : forall n cs, (length cs <= n)%nat -> forallb is_hex cs = true ->
    Nat.even (length cs) = true -> exists bs, Hex.decode cs = Some bs /\ bytes_ok bs
      /\ (2 * length bs = length cs)%nat /\ map upper_char (Hex.encode bs) = map upper_char cs);
    [|eauto].
  induction n as [|n IH]; intros cs' Hn Hx Hp.
  { destruct cs'; simpl in Hn; [|lia]. exists []. split; [done|]. split; [constructor|done]. }
  destruct cs' as [|h [|l t]]; [exists []; split; [done|]; split; [constructor|done]|done|].
  simpl in Hx. apply andb_true_iff in Hx as [Hh [Hl Ht]%andb_true_iff].
  apply Hex.dec_char_hex in Hh as (vh & Eh & Bh), Hl as (vl & El & Bl).
  destruct (IH t) as (bs & D & O & L & M); [simpl in Hn; lia|done|done|].
  exists (vh * 16 + vl :: bs). cbn [Hex.decode]. rewrite Eh, El, D.
  split; [done|]. split; [constructor; [unfold in_u8; lia|done]|].
  split; [simpl in *; lia|].
  change (Hex.encode (vh * 16 + vl :: bs)) with (Hex.encode [vh * 16 + vl] ++ Hex.encode bs).
  rewrite map_app, (hex_pair h l), M by done. done.
Qed.

Lemma DecodeVSA_EncodeVSA vid vt d0 d :
  0 <= vid < 2 ^ 24 -> DecodeVSA (Some (EncodeVSA vid vt (d0 :: d))) = Ok (mkVSA vid vt (d0 :: d)).
Proof.
  intros Hv. unfold DecodeVSA, EncodeVSA. simpl. do 2 f_equal.
  unfold u8. change 256 with (2 ^ 8).
  apply Z.bits_inj'. intros n Hn.
  rewrite !Z.lor_spec, !Z.shiftl_spec by lia.
  destruct (Z.lt_ge_cases n 8) as [H8|H8].
  { rewrite Z.mod_pow2_bits_low by lia. rewrite !(Z.testbit_neg_r _ (n - _)) by lia.
    by rewrite !orb_false_r. }
  rewrite Z.mod_pow2_bits_high by lia.
  destruct (Z.lt_ge_cases n 16) as [H16|H16].
  { rewrite Z.mod_pow2_bits_low, Z.shiftr_spec by lia. rewrite (Z.testbit_neg_r _ (n - 16)) by lia.
    rewrite orb_false_l, orb_false_r. f_equal. lia. }
  rewrite Z.mod_pow2_bits_high by lia.
  destruct (Z.lt_ge_cases n 24) as [H24|H24].
  { rewrite Z.mod_pow2_bits_low, Z.shiftr_spec by lia. rewrite !orb_false_l. f_equal. lia. }
  rewrite Z.mod_pow2_bits_high by lia. symmetry. apply Z.bits_above_log2; [lia|].
  destruct (decide (vid = 0)) as [->|]; [simpl; lia|]. apply Z.log2_lt_pow2; [lia|].
  eapply Z.lt_le_trans; [apply Hv|]. apply Z.pow_le_mono_r; lia.
Qed.

Lemma EncodeSnssaiVSA_sd sst sd :
  sd_form sd -> exists b, EncodeSnssaiVSA sst sd = sst :: b /\ bytes_ok b /\ length b = 3%nat
    /\ ToUpper (Hex.EncodeToString b) = ToUpper sd.
Proof.
  intros Hsd. assert (Hne := sd_form_nonempty sd Hsd). destruct Hsd as [Hl Hx].
  destruct (hex_decode_upper (chars sd)) as (b & D & O & L & M); [done|by rewrite Hl|].
  exists b. unfold EncodeSnssaiVSA, Hex.DecodeString. rewrite Hne. fold (chars sd). rewrite D.
  assert (Hb : length b = 3%nat) by lia. unfold len. rewrite Hb. split; [done|].
  split; [done|]. split; [done|]. unfold ToUpper, Hex.EncodeToString.
  by rewrite chars_of_list, M.
Qed.

(** The S-NSSAI attribute: a slice with a valid SD encoded as the 3GPP
    vendor attribute is recognised and decodes to the same SST and the SD in upper
    case; a slice without an SD comes back with the SD [000000]. *)
Theorem snssai_attribute_roundtrip sst sd :
  sd = estr \/ sd_form sd ->
  exists v, DecodeVSA (Some (Make3GPPSNSSAIAttribute sst sd)) = Ok v
    /\ Is3GPPSNSSAI v = true
    /\ Parse3GPPSNSSAI v = Ok (sst, if is_empty sd then "000000" else ToUpper sd).
Proof.
  intros H. unfold Make3GPPSNSSAIAttribute.
  destruct H as [-> |Hsd].
  - exists (mkVSA VendorID3GPP VendorTypeSNSSAI [sst; 0; 0; 0]). done.
  - destruct (EncodeSnssaiVSA_sd sst sd Hsd) as (b & -> & Hb & Hl & HU).
    exists (mkVSA VendorID3GPP VendorTypeSNSSAI (sst :: b)).
    rewrite DecodeVSA_EncodeVSA by (unfold VendorID3GPP; lia).
    split; [done|]. split; [done|]. unfold Parse3GPPSNSSAI. simpl.
    rewrite len_cons. unfold len. rewrite Hl. simpl.
    rewrite firstn_all2 by lia. rewrite HU. by rewrite (sd_form_nonempty sd Hsd).
Qed.

Lemma snssai_attribute_roundtrip_witness :
  exists v, DecodeVSA (Some (Make3GPPSNSSAIAttribute 1 "0a1b2c")) = Ok v
    /\ Is3GPPSNSSAI v = true
    /\ Parse3GPPSNSSAI v = Ok (1, if is_empty "0a1b2c" then "000000" else ToUpper "0a1b2c").
Proof.
  apply (snssai_attribute_roundtrip 1 "0a1b2c"). right. split; reflexivity.
Defined.

(** ** message_auth.go *)
Module MessageAuth.

(** The scan from [offset].  An iteration advances by at least two, so the length
    of the packet is enough fuel. *)
Fixpoint find_loop (fuel : nat) (packet : bytes) (offset : Z) : Z :=
  match fuel with
  | O => -1
  | S fuel =>
      if offset + 1 <? len packet then
        let attrType := byte_at packet offset in
        let attrLen := byte_at packet (offset + 1) in
        if attrLen <? 2 then -1
        else if attrType =? AttrMessageAuthenticator then offset
        else find_loop fuel packet (offset + attrLen)
      else -1
  end.
Definition FindMessageAuthenticator (packet : bytes) : Z := find_loop (length packet) packet 20.
Definition HasMessageAuthenticator (packet : bytes) : bool := 0 <=? FindMessageAuthenticator packet.

(** Assignment to the bytes from index [i] on, within the bounds of the slice. *)
Definition overwrite (i : Z) (new packet : bytes) : bytes :=
  take (Z.to_nat i) packet ++ new ++ drop (Z.to_nat i + length new) packet.
Definition zeros (n : Z) : bytes := repeat 0 (Z.to_nat n).

Definition ZeroMessageAuthenticator (packet : bytes) : bytes :=
  let offset := FindMessageAuthenticator packet in
  if offset <? 0 then packet
  else overwrite (offset + 2) (zeros (Z.min 16 (len packet - (offset + 2)))) packet.

Section HMAC.
(** HMAC-MD5 of a secret and a message. *)
Context (hmac : bytes -> bytes -> bytes).

Definition ComputeMessageAuthenticator (packet secret : bytes) : bytes :=
  hmac secret (ZeroMessageAuthenticator packet).

Definition VerifyMessageAuthenticator (packet secret : bytes) : bool :=
  let offset := FindMessageAuthenticator packet in
  if offset <? 0 then false
  else if len packet <? offset + 18 then false
  else
    let storedMA := slice (offset + 2) (offset + 18) packet in
    let zeroed := overwrite (offset + 2) (zeros 16) packet in
    let expectedMA := hmac secret zeroed in
    bool_decide (storedMA = take 16 expectedMA).

Definition AddMessageAuthenticator (packet secret : bytes) : result radius_error bytes :=
  let offset := FindMessageAuthenticator packet in
  if 0 <=? offset then
    if len packet <? offset + 18 then Panic
    else
      let result := overwrite (offset + 2) (zeros 16) packet in
      let ma := hmac secret result in
      Ok (overwrite (offset + 2) (take 16 ma) result)
  else
    let ma := hmac secret packet in
    Ok (packet ++ [AttrMessageAuthenticator; 18] ++ take 16 ma).

Definition RemoveMessageAuthenticator (packet : bytes) : result radius_error bytes :=
  let offset := FindMessageAuthenticator packet in
  if offset <? 0 then Ok packet
  else
    let attrLen := byte_at packet (offset + 1) in
    if len packet <? offset + attrLen then Panic
    else Ok (take (Z.to_nat offset) packet ++ drop (Z.to_nat (offset + attrLen)) packet).

(** MD5 digests have 16 bytes. *)
Hypothesis hmac_length : forall k m, length (hmac k m) = 16%nat.

Lemma length_zeros n : length (zeros n) = Z.to_nat n.
Proof. apply repeat_length. Qed.

Lemma overwrite_length i new packet :
  0 <= i -> i + len new <= len packet -> length (overwrite i new packet) = length packet.
Proof.
  unfold overwrite, len. intros. rewrite !length_app, length_take, length_drop. lia.
Qed.

Lemma overwrite_below i new packet j :
  0 <= j < i -> i <= len packet -> byte_at (overwrite i new packet) j = byte_at packet j.
Proof.
  intros Hj Hl. unfold byte_at, overwrite. unfold len in Hl.
  rewrite app_nth1 by (rewrite length_take; lia).
  rewrite <- (firstn_skipn (Z.to_nat i) packet) at 2.
  rewrite app_nth1 by (rewrite length_take; lia). done.
Qed.

Lemma overwrite_overwrite i a b packet :
  0 <= i -> length a = length b -> i + len a <= len packet ->
  overwrite i b (overwrite i a packet) = overwrite i b packet.
Proof.
  unfold overwrite, len. intros Hi Hl Hp.
  assert (Ht : length (take (Z.to_nat i) packet) = Z.to_nat i) by (rewrite length_take; lia).
  f_equal; [|f_equal].
  - rewrite take_app_le by lia. by rewrite take_idemp.
  - rewrite <- Hl. rewrite app_assoc, drop_app_ge by (rewrite length_app; lia).
    rewrite length_app, Ht. by rewrite Nat.sub_diag.
Qed.

Lemma overwrite_slice i new packet :
  0 <= i -> i + len new <= len packet -> slice i (i + len new) (overwrite i new packet) = new.
Proof.
  unfold overwrite, slice, len. intros Hi Hl.
  rewrite drop_app_ge by (rewrite length_take; lia). rewrite length_take.
  replace (Z.to_nat i - Z.to_nat i `min` length packet)%nat with 0%nat by lia. simpl.
  replace (Z.to_nat (i + Z.of_nat (length new) - i)) with (length new) by lia.
  apply take_app_length.
Qed.

(** The scan reads type and length bytes only, up to the attribute it finds. *)
Lemma find_loop_overwrite fuel packet offset new r :
  0 <= offset -> bytes_ok packet ->
  find_loop fuel packet offset = r -> 0 <= r -> r + 2 + len new <= len packet ->
  find_loop fuel (overwrite (r + 2) new packet) offset = r.
Proof.
  revert offset. induction fuel as [|fuel IH]; intros offset Ho Hb Hf Hr Hl; simpl in *; [done|].
  assert (Hn := len_nonneg new).
  assert (L : len (overwrite (r + 2) new packet) = len packet).
  { unfold len. f_equal. apply overwrite_length; lia. }
  rewrite L. destruct (offset + 1 <? len packet) eqn:E; [|done].
  destruct (byte_at packet (offset + 1) <? 2) eqn:E1; [lia|].
  assert (Hge : offset <= r).
  { clear IH L. zbool. destruct (byte_at packet offset =? _); [lia|].
    assert (G : forall f o, 0 <= o -> 0 <= find_loop f packet o -> o <= find_loop f packet o).
    { clear Hf. induction f as [|f IHf]; intros o Ho' H'; simpl in *; [lia|].
      destruct (o + 1 <? len packet); [|lia]. destruct (_ <? 2) eqn:E2; [lia|].
      destruct (_ =? AttrMessageAuthenticator); [lia|]. zbool.
      specialize (IHf (o + byte_at packet (o + 1))). lia. }
    specialize (G fuel (offset + byte_at packet (offset + 1))). lia. }
  rewrite !overwrite_below by lia. rewrite E1.
  destruct (byte_at packet offset =? AttrMessageAuthenticator); [done|].
  apply IH; try done. zbool. lia.
Qed.

Lemma FindMessageAuthenticator_overwrite packet new r :
  FindMessageAuthenticator packet = r ->
  bytes_ok packet -> 0 <= r -> r + 2 + len new <= len packet ->
  FindMessageAuthenticator (overwrite (r + 2) new packet) = r.
Proof.
  intros Hf Hb Hr Hl. unfold FindMessageAuthenticator in *. assert (Hn := len_nonneg new).
  rewrite overwrite_length by lia. by apply find_loop_overwrite.
Qed.

Lemma take_hmac k m : take 16 (hmac k m) = hmac k m.
Proof. apply firstn_all2. by rewrite hmac_length. Qed.

Lemma Verify_replaced packet secret p :
  bytes_ok packet -> HasMessageAuthenticator packet = true ->
  AddMessageAuthenticator packet secret = Ok p -> VerifyMessageAuthenticator p secret = true.
Proof.
  unfold HasMessageAuthenticator, AddMessageAuthenticator. intros Hb Hh.
  rewrite Hh. destruct (len packet <? _) eqn:El; [done|]. intros [= <-]. zbool.
  set (r := FindMessageAuthenticator packet) in *. rewrite take_hmac.
  set (z := overwrite (r + 2) (zeros 16) packet). set (ma := hmac secret z).
  assert (Lma : len ma = 16) by (unfold len, ma; by rewrite hmac_length).
  assert (E : overwrite (r + 2) ma z = overwrite (r + 2) ma packet).
  { apply overwrite_overwrite; [lia| |unfold len in *; rewrite length_zeros; lia].
    unfold ma. by rewrite hmac_length, length_zeros. }
  rewrite E. unfold VerifyMessageAuthenticator.
  rewrite (FindMessageAuthenticator_overwrite packet ma r eq_refl) by (done || lia).
  replace (len (overwrite (r + 2) ma packet)) with (len packet)
    by (unfold len; rewrite overwrite_length by lia; done).
  destruct (r <? 0) eqn:E1; [zsolve|]. destruct (len packet <? r + 18) eqn:E2; [zsolve|].
  replace (r + 18) with (r + 2 + len ma) by lia. rewrite overwrite_slice by lia.
  rewrite overwrite_overwrite;
    [|lia|by rewrite length_zeros; unfold ma; rewrite hmac_length|lia].
  fold z. fold ma. rewrite firstn_all2 by (unfold ma; by rewrite hmac_length).
  by apply bool_decide_eq_true.
Qed.

End HMAC.

(** Sign-then-verify: on a packet that carries a Message-Authenticator
    attribute (with room for its 16 bytes), replacing its value and verifying
    with the same secret succeeds, for every MAC with 16-byte digests. *)
Theorem replace_then_verify hmac packet secret :
  (forall k m, length (hmac k m) = 16%nat) ->
  bytes_ok packet -> HasMessageAuthenticator packet = true ->
  FindMessageAuthenticator packet + 18 <= len packet ->
  exists p, AddMessageAuthenticator hmac packet secret = Ok p
    /\ VerifyMessageAuthenticator hmac p secret = true.
Proof.
  intros Hh Hb Hm Hl.
  destruct (AddMessageAuthenticator hmac packet secret) as [p|e|] eqn:E.
  - exists p. split; [done|]. by eapply Verify_replaced.
  - unfold AddMessageAuthenticator in E. by repeat case_match.
  - unfold AddMessageAuthenticator in E. repeat case_match; zbool; try done; lia.
Qed.

(** A digest that depends on the whole message, for the examples. *)
Definition toy_mac (secret m : bytes) : bytes := repeat (u8 (foldl Z.add 0 (secret ++ m))) 16.
Definition header : bytes := [43; 1; 0; 38] ++ repeat 7 16.
Definition signed_packet : bytes := header ++ [24; 3; 97] ++ [80; 18] ++ repeat 0 16.

Lemma replace_then_verify_witness :
  exists p, AddMessageAuthenticator toy_mac signed_packet [1; 2] = Ok p
    /\ VerifyMessageAuthenticator toy_mac p [1; 2] = true.
Proof.
  apply replace_then_verify.
  - reflexivity.
  - apply bytes_okb_spec. reflexivity.
  - reflexivity.
  - vm_compute. discriminate.
Defined.

(** The scan over well-formed attributes [attrs] none of which is a
    Message-Authenticator, followed by the appended attribute. *)
Lemma find_appended attrs pre tail fuel :
  Forall (fun a => attr_ok a /\ AType a <> AttrMessageAuthenticator) attrs ->
  (length (EncodeAttributes attrs) < fuel)%nat -> (1 <= length tail)%nat ->
  find_loop fuel (pre ++ EncodeAttributes attrs ++ AttrMessageAuthenticator :: 18 :: tail) (len pre)
  = len pre + len (EncodeAttributes attrs).
Proof.
  revert pre fuel. induction attrs as [|a attrs IH]; intros pre fuel Hok Hf Ht.
  - destruct fuel as [|fuel]; [simpl in Hf; lia|]. cbn [find_loop].
    rewrite byte_at_app0, byte_at_app by lia.
    change (len (EncodeAttributes [])) with 0. rewrite Z.add_0_r.
    destruct (_ <? _) eqn:E; [done|].
    rewrite len_app in E. change (EncodeAttributes []) with (@nil Z) in E.
    autorewrite with go in E. zbool. assert (H := len_nonneg tail). lia.
  - inversion Hok as [|? ? [(Hty & Hb & Hl) Hne] Hoks]; subst.
    destruct fuel as [|fuel]; [simpl in Hf; lia|]. cbn [find_loop].
    change (EncodeAttributes (a :: attrs)) with (encode_attr a ++ EncodeAttributes attrs) in *.
    assert (Hn := len_nonneg (AValue a)). assert (Hn' := len_nonneg (EncodeAttributes attrs)).
    assert (Hn'' := len_nonneg tail). assert (Hp := len_nonneg pre).
    destruct (_ <? _) eqn:E; [|unfold encode_attr in E; autorewrite with go in E; zbool; lia].
    rewrite byte_at_app0, byte_at_app by lia.
    set (T := AttrMessageAuthenticator :: 18 :: tail) in *.
    change (byte_at ((encode_attr a ++ EncodeAttributes attrs) ++ T) 0) with (AType a).
    change (byte_at ((encode_attr a ++ EncodeAttributes attrs) ++ T) 1) with (u8 (2 + len (AValue a))).
    rewrite u8_small by (unfold in_u8; lia).
    destruct (2 + len (AValue a) <? 2) eqn:E2; [zsolve|].
    destruct (AType a =? AttrMessageAuthenticator) eqn:E3; [zsolve|].
    replace (len pre + (2 + len (AValue a))) with (len (pre ++ encode_attr a))
      by (unfold encode_attr; autorewrite with go; lia).
    rewrite <- app_assoc, app_assoc. unfold T. rewrite IH; [|done| |done].
    + autorewrite with go. lia.
    + rewrite length_app in Hf. simpl in Hf. lia.
Qed.

(** A freshly added Message-Authenticator does not verify.  For a packet of a
    20-byte header and well-formed attributes without one, [AddMessageAuthenticator]
    appends the MAC of the packet before the attribute was added, while
    verification recomputes it over the packet with the attribute's zeroed bytes:
    the result verifies only if these two MACs collide. *)
Theorem append_then_verify hmac hdr attrs secret :
  (forall k m, length (hmac k m) = 16%nat) ->
  length hdr = 20%nat ->
  Forall (fun a => attr_ok a /\ AType a <> AttrMessageAuthenticator) attrs ->
  let packet := hdr ++ EncodeAttributes attrs in
  FindMessageAuthenticator packet = -1 ->
  exists p, AddMessageAuthenticator hmac packet secret = Ok p
    /\ (VerifyMessageAuthenticator hmac p secret = true
        <-> hmac secret packet = hmac secret (packet ++ [AttrMessageAuthenticator; 18] ++ zeros 16)).
Proof.
  intros Hh Hl Hok packet Hf. unfold AddMessageAuthenticator. rewrite Hf. simpl.
  eexists. split; [done|]. rewrite (take_hmac hmac Hh).
  set (ma := hmac secret packet). assert (Lma : length ma = 16%nat) by apply Hh.
  assert (F : FindMessageAuthenticator (packet ++ AttrMessageAuthenticator :: 18 :: ma) = len packet).
  { unfold FindMessageAuthenticator, packet. rewrite <- app_assoc.
    replace 20 with (len hdr) by (unfold len; lia).
    rewrite find_appended; [by autorewrite with go|done| |lia].
    rewrite !length_app. simpl. lia. }
  unfold VerifyMessageAuthenticator. rewrite F.
  assert (Hp := len_nonneg packet). destruct (len packet <? 0) eqn:E; [zsolve|].
  destruct (_ <? len packet + 18) eqn:E2.
  { autorewrite with go in E2. unfold len at 2 in E2. rewrite Lma in E2. zbool. lia. }
  replace (packet ++ AttrMessageAuthenticator :: 18 :: ma)
    with ((packet ++ [AttrMessageAuthenticator; 18]) ++ ma) by (by rewrite <- app_assoc).
  assert (Lq : Z.to_nat (len packet + 2) = length (packet ++ [AttrMessageAuthenticator; 18]))
    by (rewrite length_app; unfold len; simpl; lia).
  unfold slice, overwrite. rewrite Lq, drop_app_length, take_app_length.
  replace (Z.to_nat (len packet + 18 - (len packet + 2))) with 16%nat by lia.
  rewrite (firstn_all2 (n:=16) ma) by lia.
  rewrite (skipn_all2 (n:=(_ + length (zeros 16))%nat)) by (rewrite length_app; simpl; lia).
  rewrite app_nil_r, <- app_assoc, (take_hmac hmac Hh). apply bool_decide_eq_true.
Qed.

Lemma append_then_verify_witness :
  exists p, AddMessageAuthenticator toy_mac (header ++ EncodeAttributes [mkAttr 24 [97]]) [1; 2] = Ok p
    /\ VerifyMessageAuthenticator toy_mac p [1; 2] = false.
Proof.
  destruct (append_then_verify toy_mac header [mkAttr 24 [97]] [1; 2]) as (p & Hp & Hv).
  - reflexivity.
  - reflexivity.
  - repeat constructor; unfold in_u8; simpl; try lia; try (vm_compute; discriminate).
  - vm_compute. reflexivity.
  - exists p. split; [exact Hp|]. apply not_true_is_false. intros H. apply Hv in H.
    vm_compute in H. discriminate.
Defined.

(** A truncated Message-Authenticator makes the in-place operations panic: a
    type byte, a length byte, and fewer than 16 value bytes. *)
Lemma truncated_ma_panics hmac secret :
  AddMessageAuthenticator hmac (header ++ [80; 4; 0; 0]) secret = Panic
  /\ RemoveMessageAuthenticator (header ++ [80; 18; 0; 0]) = Panic.
Proof. split; reflexivity. Qed.

End MessageAuth.
