(* ===== verification/ServerInit.v ===== *)
(** * internal/aaa/gateway/server_initiated.go: the registry of pending requests

    A server-initiated request (ASR, RAR, CoA, ...) registers a response channel
    under its session and message type, a Biz Pod's answer completes it, and the
    waiter either receives the answer or times out and expires the entry.  The
    operations run in different goroutines: the registry is a transition system
    whose steps are the critical sections, and the theorems hold for every
    interleaving. *)
From S2P Require Import Prelude Regex Common Types Encoding.
Import Validator.
Local Open Scope string_scope.
Local Open Scope Z_scope.

Definition ResultCodeSuccess : Z := 2001.
Definition ResultCodeUnableToDeliver : Z := 3002.

Record ServerInitiatedResponse : Type := mkResp {
  r_AuthCtxID : string; r_ResultCode : Z; r_Payload : bytes; r_ErrorCause : string }.

Definition timeout_response : ServerInitiatedResponse :=
  mkResp estr ResultCodeUnableToDeliver [] "timeout".
Definition duplicate_response : ServerInitiatedResponse :=
  mkResp estr ResultCodeUnableToDeliver [] "duplicate".

(** A response channel: [rc_buf] is the one-place buffer of [Response]. *)
Record ResponseChannel : Type := mkChan {
  rc_AuthCtxID : string;
  rc_SessionID : string;
  rc_MessageType : string;
  rc_buf : option ServerInitiatedResponse;
  rc_ExpiresAt : Z;
}.

Definition registryKey (sessionID messageType : string) : string :=
  sessionID +:+ ":" +:+ messageType.
Definition chan_key (c : ResponseChannel) : string :=
  registryKey (rc_SessionID c) (rc_MessageType c).

Definition set_buf (b : option ServerInitiatedResponse) (c : ResponseChannel) : ResponseChannel :=
  mkChan (rc_AuthCtxID c) (rc_SessionID c) (rc_MessageType c) b (rc_ExpiresAt c).

(** The registry and its channels.  [sends] are the goroutines [Register] started
    for duplicates that have not sent yet; [results] what each [Wait] returned;
    [completed] is the history of [Complete] calls. *)
Record registry : Type := mkRegistry {
  pending : gmap string positive;
  chans : gmap positive ResponseChannel;
  next : positive;
  sends : list positive;
  results : gmap positive ServerInitiatedResponse;
  completed : list (string * ServerInitiatedResponse);
  default_timeout : Z;
}.

Definition NewServerInitiatedRegistry (defaultTimeout : Z) : registry :=
  mkRegistry ∅ ∅ 1%positive [] ∅ [] defaultTimeout.

Definition Register (r : registry) (sessionID authCtxID messageType : string) (timeout now : Z)
  : registry * positive :=
  let key := registryKey sessionID messageType in
  let timeout := if timeout =? 0 then default_timeout r else timeout in
  let l := next r in
  let rc := mkChan authCtxID sessionID messageType None (now + timeout) in
  match pending r !! key with
  | Some _ =>
      (mkRegistry (delete key (pending r)) (<[l := rc]> (chans r)) (Pos.succ l) (l :: sends r)
         (results r) (completed r) (default_timeout r), l)
  | None =>
      (mkRegistry (<[key := l]> (pending r)) (<[l := rc]> (chans r)) (Pos.succ l) (sends r)
         (results r) (completed r) (default_timeout r), l)
  end.

(** The non-blocking send leaves a full buffer as it is. *)
Definition try_send (resp : ServerInitiatedResponse) (c : ResponseChannel) : ResponseChannel :=
  match rc_buf c with None => set_buf (Some resp) c | Some _ => c end.

Definition Complete (r : registry) (sessionID messageType : string)
  (resp : ServerInitiatedResponse) : registry :=
  let key := registryKey sessionID messageType in
  let hist := (key, resp) :: completed r in
  match pending r !! key with
  | None => mkRegistry (pending r) (chans r) (next r) (sends r) (results r) hist (default_timeout r)
  | Some l =>
      mkRegistry (delete key (pending r)) (alter (try_send resp) l (chans r)) (next r) (sends r)
        (results r) hist (default_timeout r)
  end.

Definition Expire (r : registry) (sessionID messageType : string) : registry :=
  mkRegistry (delete (registryKey sessionID messageType) (pending r)) (chans r) (next r) (sends r)
    (results r) (completed r) (default_timeout r).

(** The two outcomes of [Wait] on channel [l]. *)
Definition Wait_recv (r : registry) (l : positive) (resp : ServerInitiatedResponse) : registry :=
  mkRegistry (pending r) (alter (set_buf None) l (chans r)) (next r) (sends r)
    (<[l := resp]> (results r)) (completed r) (default_timeout r).
Definition Wait_timeout (r : registry) (l : positive) (c : ResponseChannel) : registry :=
  let r := Expire r (rc_SessionID c) (rc_MessageType c) in
  mkRegistry (pending r) (chans r) (next r) (sends r)
    (<[l := timeout_response]> (results r)) (completed r) (default_timeout r).

(** ** Steps *)
Inductive step : registry -> registry -> Prop :=
| step_register r sid ctx mt timeout now :
    step r (fst (Register r sid ctx mt timeout now))
| step_duplicate r l pre post :
    sends r = (pre ++ l :: post)%list ->
    (exists c, chans r !! l = Some c /\ rc_buf c = None) ->
    step r (mkRegistry (pending r) (alter (set_buf (Some duplicate_response)) l (chans r)) (next r)
              (pre ++ post)%list (results r) (completed r) (default_timeout r))
| step_complete r sid mt resp : step r (Complete r sid mt resp)
| step_recv r l c resp :
    chans r !! l = Some c -> rc_buf c = Some resp -> results r !! l = None ->
    step r (Wait_recv r l resp)
| step_timeout r l c now :
    chans r !! l = Some c -> rc_ExpiresAt c <= now -> results r !! l = None ->
    step r (Wait_timeout r l c).

Inductive reachable : registry -> Prop :=
| reach_init t : reachable (NewServerInitiatedRegistry t)
| reach_step r r' : reachable r -> step r r' -> reachable r'.

(** What may sit in a channel or be returned to its waiter. *)
Definition legitimate (r : registry) (k : string) (resp : ServerInitiatedResponse) : Prop :=
  (k, resp) ∈ completed r \/ resp = duplicate_response.

Record reg_inv (r : registry) : Prop := {
  inv_alloc l : is_Some (chans r !! l) -> (l < next r)%positive;
  inv_pending k l : pending r !! k = Some l ->
    exists c, chans r !! l = Some c /\ chan_key c = k /\ rc_buf c = None /\ l ∉ sends r;
  inv_sends l : l ∈ sends r -> exists c, chans r !! l = Some c /\ rc_buf c = None;
  inv_sends_nodup : NoDup (sends r);
  inv_buf l c resp : chans r !! l = Some c -> rc_buf c = Some resp -> legitimate r (chan_key c) resp;
  inv_results l resp : results r !! l = Some resp ->
    exists c, chans r !! l = Some c
      /\ (legitimate r (chan_key c) resp \/ resp = timeout_response);
}.

Lemma reg_inv_init t : reg_inv (NewServerInitiatedRegistry t).
Proof.
  constructor; simpl; try (intros; set_solver).
  - by intros l [c Hc].
  - constructor.
Qed.

Lemma Register_inv r sid ctx mt timeout now :
  reg_inv r -> reg_inv (fst (Register r sid ctx mt timeout now)).
Proof.
  intros [Ha Hp Hs Hn Hb Hr]. unfold Register.
  set (l := next r). set (c := mkChan _ _ _ _ _).
  assert (Fr : chans r !! l = None).
  { destruct (chans r !! l) eqn:E; [|done]. specialize (Ha l (mk_is_Some _ _ E)). lia. }
  assert (Hl : forall l' c', chans r !! l' = Some c' -> <[l := c]> (chans r) !! l' = Some c').
  { intros l' c' E. rewrite lookup_insert_ne; [done|]. intros <-. congruence. }
  assert (Ls : l ∉ sends r).
  { intros Hin. destruct (Hs l Hin) as (c' & E & _). congruence. }
  destruct (pending r !! _) eqn:Ek; constructor; simpl.
  - intros l' [c' E]. apply lookup_insert_Some in E as [[<- _]|[_ E]]; [lia|].
    specialize (Ha l' (mk_is_Some _ _ E)). lia.
  - intros k l' [_ E]%lookup_delete_Some. destruct (Hp k l' E) as (c' & E' & ? & ? & ?).
    exists c'. split; [by apply Hl|]. split; [done|]. split; [done|].
    intros [->|?]%elem_of_cons; [congruence|done].
  - intros l' [->|Hin]%elem_of_cons.
    + exists c. by rewrite lookup_insert_eq.
    + destruct (Hs l' Hin) as (c' & ? & ?). eauto.
  - by constructor.
  - intros l' c' resp E. apply lookup_insert_Some in E as [[_ <-]|[_ E]]; [done|]. by eapply Hb.
  - intros l' resp E. destruct (Hr l' resp E) as (c' & ? & ?). eauto.
  - intros l' [c' E]. apply lookup_insert_Some in E as [[<- _]|[_ E]]; [lia|].
    specialize (Ha l' (mk_is_Some _ _ E)). lia.
  - intros k l' E. apply lookup_insert_Some in E as [[<- <-]|[_ E]].
    + exists c. rewrite lookup_insert_eq. done.
    + destruct (Hp k l' E) as (c' & ? & ? & ? & ?). eauto 6.
  - intros l' Hin. destruct (Hs l' Hin) as (c' & ? & ?). eauto.
  - done.
  - intros l' c' resp E. apply lookup_insert_Some in E as [[_ <-]|[_ E]]; [done|]. by eapply Hb.
  - intros l' resp E. destruct (Hr l' resp E) as (c' & ? & ?). eauto.
Qed.

(** Changing the buffer of one channel that is neither pending nor about to be
    sent to, to a legitimate value. *)
Lemma set_buf_inv r l b pend snds hist res :
  reg_inv r ->
  (forall k l', pend !! k = Some l' -> pending r !! k = Some l' /\ l' <> l) ->
  NoDup snds -> (forall l', l' ∈ snds -> l' ∈ sends r /\ l' <> l) ->
  (forall e, e ∈ completed r -> e ∈ hist) ->
  (forall c resp, chans r !! l = Some c -> b = Some resp ->
     (chan_key c, resp) ∈ hist \/ resp = duplicate_response) ->
  (forall l' resp, res !! l' = Some resp -> exists c, chans r !! l' = Some c
     /\ ((chan_key c, resp) ∈ hist \/ resp = duplicate_response \/ resp = timeout_response)) ->
  reg_inv (mkRegistry pend (alter (set_buf b) l (chans r)) (next r) snds res hist (default_timeout r)).
Proof.
  intros [Ha Hp Hs Hn Hb Hr] Qp Qn Qs Qh Qb Qr. unfold legitimate in *. constructor; simpl.
  - intros l' Hl'. apply Ha. by rewrite lookup_alter_is_Some in Hl'.
  - intros k l' E. destruct (Qp k l' E) as [E' Hne]. destruct (Hp k l' E') as (c & ? & ? & ? & ?).
    exists c. rewrite lookup_alter_ne by done. split_and!; try done.
    intros Hin. apply Qs in Hin as [Hin _]. contradiction.
  - intros l' [Hin Hne]%Qs. destruct (Hs l' Hin) as (c & ? & ?). exists c.
    by rewrite lookup_alter_ne.
  - done.
  - intros l' c resp E Eb. apply lookup_alter_Some in E as [(-> & c' & E & ->)|[Hne E]]; simpl in *.
    + exact (Qb c' resp E Eb).
    + unfold legitimate. simpl. destruct (Hb l' c resp E Eb) as [?| ->]; auto.
  - intros l' resp E. destruct (Qr l' resp E) as (c & Hc & HL). unfold legitimate. simpl.
    destruct (decide (l' = l)) as [->|Hne].
    + exists (set_buf b c). rewrite lookup_alter_eq, Hc. split; [done|]. unfold chan_key in *. simpl. tauto.
    + exists c. rewrite lookup_alter_ne by done. split; [done|]. tauto.
Qed.

Lemma results_legitimate r :
  reg_inv r -> forall (hist : list (string * ServerInitiatedResponse)) l resp, (forall e, e ∈ completed r -> e ∈ hist) ->
  results r !! l = Some resp -> exists c, chans r !! l = Some c
     /\ ((chan_key c, resp) ∈ hist \/ resp = duplicate_response \/ resp = timeout_response).
Proof.
  intros [Ha Hp Hs Hn Hb Hr] hist l resp Hh E.
  destruct (Hr l resp E) as (c & Hc & [[?|?]|?]); eauto 6.
Qed.

Lemma Complete_inv r sid mt resp : reg_inv r -> reg_inv (Complete r sid mt resp).
Proof.
  intros H. unfold Complete. set (k := registryKey sid mt).
  destruct (pending r !! k) as [l|] eqn:E.
  - destruct (inv_pending _ H k l E) as (c & Hc & Hk & Hbuf & Hns).
    replace (alter (try_send resp) l (chans r)) with (alter (set_buf (Some resp)) l (chans r)).
    2: { apply map_eq. intros j. destruct (decide (j = l)) as [->|];
         [|by rewrite !lookup_alter_ne]. rewrite !lookup_alter_eq, Hc. simpl.
         unfold try_send. by rewrite Hbuf. }
    apply set_buf_inv; auto.
    + intros k' l' [Hne E']%lookup_delete_Some. split; [done|]. intros ->.
      destruct (inv_pending _ H k' l E') as (c' & ? & ? & _). congruence.
    + apply H.
    + intros l' Hin. split; [done|]. by intros ->.
    + intros e He. by apply elem_of_cons; right.
    + intros c' resp' Hc' [= <-]. left. replace c' with c by congruence. rewrite Hk.
      apply elem_of_cons. by left.
    + intros. eapply results_legitimate; eauto. intros. by apply elem_of_cons; right.
  - destruct H as [Ha Hp Hs Hn Hb Hr]. constructor; simpl; try done.
    + intros l c resp' Hc Hbf. destruct (Hb l c resp' Hc Hbf) as [?|?]; [left|by right].
      apply elem_of_cons. by right.
    + intros l resp' Hres. destruct (Hr l resp' Hres) as (c & Hc & [[?|?]|?]);
        exists c; (split; [done|]); [left; left|left; by right|by right]. apply elem_of_cons. by right.
Qed.

Lemma Expire_inv r sid mt : reg_inv r -> reg_inv (Expire r sid mt).
Proof.
  intros [Ha Hp Hs Hn Hb Hr]. constructor; simpl; try done.
  intros k l [_ E]%lookup_delete_Some. by apply Hp.
Qed.

Lemma step_inv r r' : reg_inv r -> step r r' -> reg_inv r'.
Proof.
  intros H Hst. destruct Hst as [r sid ctx mt timeout now|r l pre post Es _|r sid mt resp
    |r l c resp Hc Hb Hres|r l c now Hc He Hres].
  - by apply Register_inv.
  - assert (ND := inv_sends_nodup _ H). rewrite Es in ND.
    assert (Hl : l ∉ (pre ++ post)%list /\ NoDup (pre ++ post)).
    { rewrite <- Permutation_middle in ND. by apply NoDup_cons in ND. }
    destruct Hl as [Hl ND']. apply set_buf_inv; auto.
    + intros k l' E. split; [done|]. intros ->.
      destruct (inv_pending _ H k l E) as (c & _ & _ & _ & Hns). apply Hns. rewrite Es. set_solver.
    + intros l' Hin. rewrite Es. set_solver.
    + intros c resp _ [= <-]. by right.
    + intros. by eapply results_legitimate.
  - by apply Complete_inv.
  - apply set_buf_inv; auto.
    + intros k l' E. split; [done|]. intros ->.
      destruct (inv_pending _ H k l E) as (c' & ? & _ & ? & _). congruence.
    + apply H.
    + intros l' Hin. split; [done|]. intros ->.
      destruct (inv_sends _ H l Hin) as (c' & ? & ?). congruence.
    + done.
    + intros l' resp' E. apply lookup_insert_Some in E as [[<- <-]|[_ E]];
        [|by eapply results_legitimate].
      exists c. split; [done|]. destruct (inv_buf _ H l c resp Hc Hb) as [?|?]; auto.
  - assert (H' := Expire_inv r (rc_SessionID c) (rc_MessageType c) H).
    destruct H' as [Ha Hp Hs Hn Hb Hr]. constructor; simpl in *; try done.
    intros l' resp' E. apply lookup_insert_Some in E as [[<- <-]|[_ E]]; [|by apply Hr].
    exists c. split; [done|]. by right.
Qed.

Lemma reachable_inv r : reachable r -> reg_inv r.
Proof. induction 1; [apply reg_inv_init|by eapply step_inv]. Qed.

(** C11: answers reach the right waiter: in every reachable state of the registry,
    for every interleaving of registrations, completions, sends and timeouts, what a
    [Wait] returned is an answer some Biz Pod gave for exactly that session and
    message type, the duplicate notice, or the timeout response. *)
Theorem Wait_returns_own_answer r l resp :
  reachable r -> results r !! l = Some resp ->
  exists c, chans r !! l = Some c
    /\ ((chan_key c, resp) ∈ completed r \/ resp = duplicate_response \/ resp = timeout_response).
Proof.
  intros Hr E. apply reachable_inv in Hr. by eapply results_legitimate.
Qed.

(** No answer is dropped at a pending request: in every reachable state,
    completing a pending request puts the answer into its (empty) channel and
    removes the entry; the "channel full" branch is never taken. *)
Theorem Complete_delivers r sid mt resp l :
  reachable r -> pending r !! registryKey sid mt = Some l ->
  let r' := Complete r sid mt resp in
  pending r' !! registryKey sid mt = None
  /\ exists c, chans r' !! l = Some c /\ rc_buf c = Some resp /\ chan_key c = registryKey sid mt.
Proof.
  intros Hr E r'. apply reachable_inv in Hr.
  destruct (inv_pending _ Hr _ _ E) as (c & Hc & Hk & Hb & _).
  subst r'. unfold Complete. rewrite E. simpl. split; [apply lookup_delete_eq|].
  exists (set_buf (Some resp) c). rewrite lookup_alter_eq, Hc. simpl. unfold try_send. rewrite Hb.
  done.
Qed.

(** ** Examples: one waiter, and a duplicated request *)
Definition reg0 : registry := NewServerInitiatedRegistry 30.
Definition answer : ServerInitiatedResponse := mkResp "ctx" ResultCodeSuccess [] estr.
Definition reg1 : registry := fst (Register reg0 "s" "ctx" "ASR" 10 0).
Definition reg1_recv : registry := Wait_recv (Complete reg1 "s" "ASR" answer) 1 answer.

Lemma reg1_reachable : reachable reg1.
Proof. eapply reach_step; [apply reach_init|apply step_register]. Qed.
Lemma reg1_recv_reachable : reachable reg1_recv.
Proof.
  eapply reach_step; [eapply reach_step; [apply reg1_reachable|apply step_complete]|].
  eapply step_recv; reflexivity.
Qed.

Lemma Wait_returns_own_answer_witness :
  exists c, chans reg1_recv !! 1%positive = Some c
    /\ ((chan_key c, answer) ∈ completed reg1_recv \/ answer = duplicate_response
        \/ answer = timeout_response).
Proof.
  apply Wait_returns_own_answer; [apply reg1_recv_reachable|reflexivity].
Defined.

Lemma Complete_delivers_witness :
  pending (Complete reg1 "s" "ASR" answer) !! registryKey "s" "ASR" = None
  /\ exists c, chans (Complete reg1 "s" "ASR" answer) !! 1%positive = Some c
     /\ rc_buf c = Some answer /\ chan_key c = registryKey "s" "ASR".
Proof.
  apply Complete_delivers; [apply reg1_reachable|reflexivity].
Defined.

(** A duplicate orphans the original request: when a request is registered
    while one for the same session and message type is pending, the Biz Pod's
    answer afterwards reaches no channel: that of the original waiter, whose answer
    it was, is still empty and no send to it is outstanding, so it can only time
    out; the key is free and the new caller is owed the duplicate error. *)
Theorem duplicate_orphans_original r sid ctx mt timeout now resp l :
  reachable r -> pending r !! registryKey sid mt = Some l ->
  let '(r1, l') := Register r sid ctx mt timeout now in
  let r2 := Complete r1 sid mt resp in
  (exists c, chans r2 !! l = Some c /\ rc_buf c = None) /\ l ∉ sends r2
  /\ pending r2 !! registryKey sid mt = None /\ l' <> l /\ l' ∈ sends r2.
Proof.
  intros Hr%reachable_inv E. destruct (inv_pending _ Hr _ _ E) as (c & Hc & _ & Hb & Hs).
  assert (Hn : (l < next r)%positive) by (apply (inv_alloc _ Hr); by eexists).
  unfold Register. rewrite E. unfold Complete. simpl. rewrite lookup_delete_eq. simpl.
  rewrite lookup_delete_eq, lookup_insert_ne by lia. split_and!; eauto; [|lia|set_solver].
  rewrite elem_of_cons. intros [?|?]; [lia|done].
Qed.

Lemma duplicate_orphans_original_witness :
  let '(r1, l') := Register reg1 "s" "ctx" "ASR" 10 1 in
  let r2 := Complete r1 "s" "ASR" answer in
  (exists c, chans r2 !! 1%positive = Some c /\ rc_buf c = None) /\ 1%positive ∉ sends r2
  /\ pending r2 !! registryKey "s" "ASR" = None /\ l' <> 1%positive /\ l' ∈ sends r2.
Proof.
  apply (duplicate_orphans_original reg1 "s" "ctx" "ASR" 10 1 answer 1); [apply reg1_reachable|reflexivity].
Defined.

(** Stale expiry: the original waiter's timeout deletes a later registration of
    the same key, whose answer is then lost. *)
Lemma stale_expiry_drops_newer :
  let r2 := fst (Register reg1 "s" "ctx" "ASR" 10 1) in
  let r3 := fst (Register r2 "s" "ctx" "ASR" 10 2) in
  let c1 := mkChan "ctx" "s" "ASR" None 10 in
  pending r3 !! "s:ASR" = Some 3%positive
  /\ chans r3 !! 1%positive = Some c1
  /\ pending (Wait_timeout r3 1 c1) !! "s:ASR" = None.
Proof. vm_compute. done. Qed.
