(* ===== verification/RadiusGateway.v ===== *)
(** * RADIUS in the AAA gateway

    internal/radius/adapter/client.go (legacy attributes to a layeh request),
    the request construction of internal/radius/layeh/client.go,
    internal/radius/layeh/gen/vendor_3gpp.go (NSSAI), and
    internal/aaa/gateway/radius_forward.go and radius_handler.go.

    The third-party package layeh.com/radius is a parameter: its constructors of
    attribute values, which fail on values that do not fit, and the exchange with
    the server.  HMAC-MD5 is a parameter as in [Radius]. *)
From S2P Require Import Prelude Regex Common Types Encoding Radius.
Import Validator MessageAuth.
Local Open Scope string_scope.
Local Open Scope Z_scope.
Local Open Scope list_scope.

(** ** vendor_3gpp.go *)
Record NSSAI : Type := mkNSSAI { N_SST : Z; N_SD : bytes }.
Definition zero_NSSAI : NSSAI := mkNSSAI 0 [0; 0; 0].

Definition NSSAI_Pack (n : NSSAI) : bytes := N_SST n :: N_SD n.
Definition NSSAI_Unpack (n : NSSAI) (b : bytes) : option NSSAI :=
  match b with
  | [] => None
  | sst :: rest =>
      if 4 <=? len b then Some (mkNSSAI sst (take 3 rest))
      else if 1 <? len b then Some (mkNSSAI sst [0; 0; 0])
      else Some (mkNSSAI sst (N_SD n))
  end.

Lemma NSSAI_roundtrip n m :
  length (N_SD n) = 3%nat -> NSSAI_Unpack m (NSSAI_Pack n) = Some n.
Proof.
  intros H. destruct n as [sst [|a [|b [|c [|d t]]]]]; try (simpl in H; lia). done.
Qed.

(** ** adapter/client.go *)
Record AccessRequest : Type := mkReq {
  UserName : string;
  rNSSAI : NSSAI;
  NASIdentifier : string;
  CallingStationID : string;
  rState : bytes;
  EAPMessage : bytes;
}.

(** The [switch] on one legacy attribute. *)
Definition translate (req : AccessRequest) (attr : Attribute) : AccessRequest :=
  let v := AValue attr in
  if AType attr =? AttrUserName then
    mkReq (string_of_bytes v) (rNSSAI req) (NASIdentifier req) (CallingStationID req) (rState req)
      (EAPMessage req)
  else if AType attr =? AttrCallingStationID then
    mkReq (UserName req) (rNSSAI req) (NASIdentifier req) (string_of_bytes v) (rState req)
      (EAPMessage req)
  else if AType attr =? AttrNASIdentifier then
    mkReq (UserName req) (rNSSAI req) (string_of_bytes v) (CallingStationID req) (rState req)
      (EAPMessage req)
  else if AType attr =? AttrState then
    mkReq (UserName req) (rNSSAI req) (NASIdentifier req) (CallingStationID req) v (EAPMessage req)
  else if AType attr =? AttrEAPMessage then
    mkReq (UserName req) (rNSSAI req) (NASIdentifier req) (CallingStationID req) (rState req)
      (EAPMessage req ++ v)
  else if AType attr =? Attr3GPPSNSSAI then
    let '(sst, sd) := match DecodeSnssaiVSA v with Ok p => p | _ => (0, estr) end in
    let sdBytes :=
      if is_empty sd then [0; 0; 0]
      else match Hex.DecodeString sd with
      | Some b => if 3 <=? len b then take 3 b else [0; 0; 0]
      | None => [0; 0; 0]
      end in
    mkReq (UserName req) (mkNSSAI sst sdBytes) (NASIdentifier req) (CallingStationID req)
      (rState req) (EAPMessage req)
  else req.

Definition to_request (attrs : list Attribute) : AccessRequest :=
  foldl translate (mkReq estr zero_NSSAI estr estr [] []) attrs.

(** ** layeh/client.go: construction of the Access-Request *)
Inductive forward_error : Type :=
| ErrClientNotConfigured
| ErrAttribute (name : string)
| ErrExchange (msg : string).

Section Layeh.
(** [radius.NewBytes]/[NewString]: the attribute value, or an error. *)
Context (NewBytes : bytes -> option bytes).
(** The attribute [ThreeGPPSNSSAI_Add] builds from the packed value. *)
Context (vendor_snssai : bytes -> option Attribute).
(** Message-Authenticator patching, encoding and the exchange with the server. *)
Context (exchange : list Attribute -> result forward_error bytes).

Definition add (name : string) (t : Z) (v : bytes) (pkt : list Attribute)
  : result forward_error (list Attribute) :=
  match NewBytes v with Some a => Ok (pkt ++ [mkAttr t a]) | None => Err (ErrAttribute name) end.

Definition AccessRequest_send (req : AccessRequest) : result forward_error bytes :=
  let? pkt := add "UserName" AttrUserName (bytes_of_string (UserName req)) [] in
  let? pkt := (if is_empty (NASIdentifier req) then Ok pkt
               else add "NASIdentifier" AttrNASIdentifier (bytes_of_string (NASIdentifier req)) pkt) in
  let? pkt := (if is_empty (CallingStationID req) then Ok pkt
               else add "CallingStationID" AttrCallingStationID
                      (bytes_of_string (CallingStationID req)) pkt) in
  let? pkt := (if 0 <? len (rState req) then add "State" AttrState (rState req) pkt else Ok pkt) in
  let? pkt := (if 0 <? len (EAPMessage req)
               then add "EAPMessage" AttrEAPMessage (EAPMessage req) pkt else Ok pkt) in
  let? pkt := (match vendor_snssai (NSSAI_Pack (rNSSAI req)) with
               | Some a => Ok (pkt ++ [a]) | None => Err (ErrAttribute "AddNSSAIAttribute") end) in
  let? pkt := add "MessageAuthenticator" AttrMessageAuthenticator (zeros 16) pkt in
  exchange pkt.

Definition SendAccessRequest (attrs : list Attribute) : result forward_error bytes :=
  AccessRequest_send (to_request attrs).

(** ** radius_forward.go *)
Definition forward_attrs (eapFrags : list bytes) (sst : Z) (sd gpsi : string) : list Attribute :=
  [MakeStringAttribute AttrUserName gpsi; MakeStringAttribute AttrCallingStationID gpsi;
   MakeIntegerAttribute AttrServiceType ServiceTypeAuthenticateOnly;
   MakeIntegerAttribute AttrNASPortType NASPortTypeVirtual;
   Make3GPPSNSSAIAttribute sst sd]
  ++ map (MakeAttribute AttrEAPMessage) eapFrags.

Definition Forward (configured : bool) (eapPayload : bytes) (sst : Z) (sd gpsi : string)
  : result forward_error bytes :=
  if negb configured then Err ErrClientNotConfigured
  else match FragmentEAPMessage eapPayload 253 with
  | Ok eapFrags => SendAccessRequest (forward_attrs eapFrags sst sd gpsi)
  | _ => Panic
  end.
End Layeh.

Lemma to_request_eap fs req :
  foldl translate req (map (MakeAttribute AttrEAPMessage) fs) =
  mkReq (UserName req) (rNSSAI req) (NASIdentifier req) (CallingStationID req) (rState req)
    (EAPMessage req ++ concat fs).
Proof.
  revert req. induction fs as [|f fs IH]; intros req; simpl.
  - rewrite app_nil_r. by destruct req.
  - rewrite IH. simpl. by rewrite app_assoc.
Qed.

Lemma to_request_forward fs sst sd gpsi :
  to_request (forward_attrs fs sst sd gpsi) = mkReq gpsi zero_NSSAI estr gpsi [] (concat fs).
Proof.
  unfold to_request, forward_attrs. rewrite foldl_app, to_request_eap. simpl.
  by rewrite !string_bytes_roundtrip.
Qed.

(** What reaches the layeh request of a forwarded payload. *)
Lemma forward_request payload sst sd gpsi :
  exists fs, FragmentEAPMessage payload 253 = Ok fs
    /\ to_request (forward_attrs fs sst sd gpsi) = mkReq gpsi zero_NSSAI estr gpsi [] payload.
Proof.
  unfold FragmentEAPMessage. destruct (len payload <=? 253) eqn:E.
  - eexists. split; [done|]. rewrite to_request_forward. simpl. by rewrite app_nil_r.
  - eexists. split; [done|]. rewrite to_request_forward.
    destruct (frag_loop_concat (length payload) payload 253) as [-> _]; [lia|done|done].
Qed.

(** The slice is lost on the RADIUS path: for any two slices the
    Access-Request is the same, with SST 0 and SD 000000, because the attribute is
    built as a vendor attribute (type 26) and the adapter only looks for type 200;
    the identity and the EAP payload do arrive. *)
Theorem radius_forward_drops_snssai payload sst sd sst' sd' gpsi :
  exists fs, FragmentEAPMessage payload 253 = Ok fs
    /\ to_request (forward_attrs fs sst sd gpsi) = to_request (forward_attrs fs sst' sd' gpsi)
    /\ rNSSAI (to_request (forward_attrs fs sst sd gpsi)) = zero_NSSAI
    /\ UserName (to_request (forward_attrs fs sst sd gpsi)) = gpsi
    /\ EAPMessage (to_request (forward_attrs fs sst sd gpsi)) = payload.
Proof.
  destruct (forward_request payload sst sd gpsi) as (fs & Hf & Hr).
  exists fs. rewrite Hr. split; [done|]. split; [|done].
  rewrite to_request_forward in *. by rewrite <- Hr.
Qed.

(** A long EAP message cannot be sent over RADIUS: the adapter joins the
    253-byte chunks again and adds them as one attribute, and an attribute value
    constructor that refuses more than 253 bytes then fails every such request,
    whatever the server would answer. *)
Theorem radius_forward_long_fails NewBytes vendor exchange payload sst sd gpsi :
  (forall v, 253 < len v -> NewBytes v = None) -> 253 < len payload ->
  exists name, Forward NewBytes vendor exchange true payload sst sd gpsi = Err (ErrAttribute name).
Proof.
  intros HN Hl. destruct (forward_request payload sst sd gpsi) as (fs & Hf & Hr).
  unfold Forward. rewrite Hf. cbn [negb]. unfold SendAccessRequest. rewrite Hr.
  unfold AccessRequest_send, add. cbn [UserName NASIdentifier CallingStationID rState EAPMessage].
  destruct (NewBytes (bytes_of_string gpsi)); cbn [rbind is_empty]; [|eauto].
  destruct (is_empty gpsi); cbn [rbind len length Z.of_nat Z.ltb Z.compare]; simpl;
    (destruct (0 <? len payload) eqn:E; [|zsolve]); rewrite HN by done; simpl; eauto.
Qed.

Lemma radius_forward_long_fails_witness :
  exists name, Forward (fun v => if 253 <? len v then None else Some v)
    (fun v => Some (EncodeVSA VendorID3GPP VendorTypeSNSSAI v)) (fun _ => Ok [2]) true
    (repeat 1 300) 1 "000001" "msisdn-12345" = Err (ErrAttribute name).
Proof.
  apply radius_forward_long_fails.
  - intros v H. apply Z.ltb_lt in H. by rewrite H.
  - vm_compute. reflexivity.
Defined.

(** ** layeh/client.go: patchMessageAuthenticator

    On the encoded packet; the loop advances by the attribute's length byte, so a
    zero length byte never terminates ([None]). *)
Fixpoint patch_find (fuel : nat) (wire : bytes) (i : Z) : option Z :=
  match fuel with
  | O => None
  | S fuel =>
      if i + 1 <? len wire then
        let attrLen := byte_at wire (i + 1) in
        if (byte_at wire i =? AttrMessageAuthenticator) && (attrLen =? 18) then Some i
        else patch_find fuel wire (i + attrLen)
      else Some (-1)
  end.

(** The wire image after the HMAC has been copied into the attribute; [Err]: no
    Message-Authenticator attribute. *)
Definition patchMessageAuthenticator (hmac : bytes -> bytes -> bytes) (secret wire : bytes)
  : result forward_error bytes :=
  match patch_find (S (length wire)) wire 20 with
  | Some maOffset =>
      if maOffset <? 0 then Err (ErrAttribute "ErrMAUnset")
      else
        let zeroed := overwrite (maOffset + 2) (zeros 16) wire in
        Ok (overwrite (maOffset + 2) (take 16 (hmac secret zeroed)) wire)
  | None => Panic
  end.

Lemma patch_find_appended attrs pre tail fuel :
  Forall (fun a => attr_ok a /\ AType a <> AttrMessageAuthenticator) attrs ->
  (length (EncodeAttributes attrs) < fuel)%nat ->
  patch_find fuel (pre ++ EncodeAttributes attrs ++ AttrMessageAuthenticator :: 18 :: tail) (len pre)
  = Some (len pre + len (EncodeAttributes attrs)).
Proof.
  revert pre fuel. induction attrs as [|a attrs IH]; intros pre fuel Hok Hf;
    (destruct fuel as [|fuel]; [simpl in Hf; lia|]); cbn [patch_find];
    assert (Hp := len_nonneg pre); assert (Hn := len_nonneg tail).
  - destruct (_ <? _) eqn:E.
    + rewrite byte_at_app0, byte_at_app by lia. simpl. f_equal. change (len (EncodeAttributes [])) with 0. lia.
    + rewrite len_app in E. change (EncodeAttributes []) with (@nil Z) in E.
      autorewrite with go in E. zbool. lia.
  - inversion Hok as [|? ? [(Hty & Hb & Hl) Hne] Hoks]; subst.
    change (EncodeAttributes (a :: attrs)) with (encode_attr a ++ EncodeAttributes attrs) in *.
    assert (Hv := len_nonneg (AValue a)). assert (Hn' := len_nonneg (EncodeAttributes attrs)).
    destruct (_ <? _) eqn:E; [|unfold encode_attr in E; autorewrite with go in E; zbool; lia].
    rewrite byte_at_app0, byte_at_app by lia.
    set (T := AttrMessageAuthenticator :: 18 :: tail) in *.
    change (byte_at ((encode_attr a ++ EncodeAttributes attrs) ++ T) 0) with (AType a).
    change (byte_at ((encode_attr a ++ EncodeAttributes attrs) ++ T) 1) with (u8 (2 + len (AValue a))).
    rewrite u8_small by (unfold in_u8; lia).
    destruct (AType a =? AttrMessageAuthenticator) eqn:E3; [zsolve|]. cbn [andb].
    replace (len pre + (2 + len (AValue a))) with (len (pre ++ encode_attr a))
      by (unfold encode_attr; autorewrite with go; lia).
    rewrite <- app_assoc, app_assoc. unfold T. rewrite IH; [|done|].
    + f_equal. autorewrite with go. lia.
    + rewrite length_app in Hf. simpl in Hf. lia.
Qed.

(** Access-Requests are properly signed: for an encoded packet of a 20-byte
    header, well-formed attributes and the 16-byte Message-Authenticator placeholder,
    patching succeeds and the patched packet passes [VerifyMessageAuthenticator]
    with the same secret. *)
Theorem patched_request_verifies hmac secret hdr attrs post :
  (forall k m, length (hmac k m) = 16%nat) -> bytes_ok hdr -> bytes_ok post ->
  length hdr = 20%nat ->
  Forall (fun a => attr_ok a /\ AType a <> AttrMessageAuthenticator) attrs ->
  let wire := hdr ++ EncodeAttributes attrs ++ AttrMessageAuthenticator :: 18 :: zeros 16 ++ post in
  exists p, patchMessageAuthenticator hmac secret wire = Ok p
    /\ VerifyMessageAuthenticator hmac p secret = true.
Proof.
  intros Hh Hbh Hbp Hl Hok wire. set (r := len hdr + len (EncodeAttributes attrs)).
  assert (F : patch_find (S (length wire)) wire 20 = Some r).
  { unfold wire. replace 20 with (len hdr) by (unfold len; lia). apply patch_find_appended; [done|].
    rewrite !length_app. lia. }
  assert (G : FindMessageAuthenticator wire = r).
  { unfold FindMessageAuthenticator, wire. replace 20 with (len hdr) by (unfold len; lia).
    apply find_appended; [done| |rewrite length_app; unfold zeros; simpl; lia].
    rewrite !length_app. simpl. lia. }
  assert (Hr : 0 <= r) by (unfold r; assert (A := len_nonneg hdr); assert (B := len_nonneg (EncodeAttributes attrs)); lia).
  assert (Lw : r + 18 <= len wire).
  { unfold wire, r. autorewrite with go. assert (A := len_nonneg post). change (len (zeros 16)) with 16. lia. }
  assert (Hz : forall z, length z = 16%nat -> overwrite (r + 2) z (overwrite (r + 2) (zeros 16) wire) = overwrite (r + 2) z wire).
  { intros z Hz. apply overwrite_overwrite; [lia|by rewrite length_zeros|change (len (zeros 16)) with 16; lia]. }
  unfold patchMessageAuthenticator. rewrite F. destruct (r <? 0) eqn:E; [zsolve|].
  eexists. split; [done|].
  eapply (Verify_replaced hmac Hh wire secret).
  - unfold wire. rewrite !bytes_ok_app. split; [done|]. split.
    + by apply EncodeAttributes_ok; eapply Forall_impl; [exact Hok|intros ? [? _]].
    + do 2 (constructor; [unfold in_u8, AttrMessageAuthenticator; lia|]).
      apply bytes_ok_app. split; [|done]. apply bytes_okb_spec. reflexivity.
  - unfold HasMessageAuthenticator. rewrite G. lia.
  - unfold AddMessageAuthenticator. rewrite G. destruct (0 <=? r) eqn:E1; [|zsolve].
    destruct (len wire <? r + 18) eqn:E2; [zsolve|]. f_equal. apply Hz.
    rewrite length_take, Hh. done.
Qed.

Lemma patched_request_verifies_witness :
  exists p, patchMessageAuthenticator toy_mac [9]
      (header ++ EncodeAttributes [mkAttr 1 [97]] ++ AttrMessageAuthenticator :: 18 :: zeros 16 ++ []) = Ok p
    /\ VerifyMessageAuthenticator toy_mac p [9] = true.
Proof.
  apply (patched_request_verifies toy_mac [9] header [mkAttr 1 [97]] []).
  - reflexivity.
  - apply bytes_okb_spec. reflexivity.
  - constructor.
  - reflexivity.
  - repeat constructor; unfold in_u8; simpl; try lia; vm_compute; discriminate.
Defined.

(** ** radius_forward.go: address and session helpers *)

(** From the end: digits, then a colon. *)
Fixpoint contains_port_rev (cs : list char) : bool :=
  match cs with
  | [] => false
  | c :: t => if ascii_code c =? 58 then true
              else if negb (is_digit c) then false else contains_port_rev t
  end.
Definition containsPort (addr : string) : bool := contains_port_rev (rev (chars addr)).

Fixpoint span_not (sep : Z) (cs : list char) : option (list char) :=
  match cs with
  | [] => None
  | c :: t => if ascii_code c =? sep then Some []
              else match span_not sep t with Some r => Some (c :: r) | None => None end
  end.
(** The text after the last semicolon, the whole id when there is none. *)
Definition extractAuthID (sessionID : string) : string :=
  match span_not 59 (rev (chars sessionID)) with
  | Some r => String.string_of_list_ascii (rev r)
  | None => sessionID
  end.

Lemma span_not_spec sep cs rest c :
  forallb (fun c => negb (ascii_code c =? sep)) cs = true -> ascii_code c = sep ->
  span_not sep (cs ++ c :: rest) = Some cs.
Proof.
  intros Hf Hc. induction cs as [|d cs IH]; simpl in *.
  - by rewrite Hc, Z.eqb_refl.
  - apply andb_true_iff in Hf as [Hd Hf]. apply negb_true_iff in Hd. rewrite Hd, IH by done. done.
Qed.

(** The auth context id is recovered from the gateway's session ids
    ([nssAAF;time;authCtxID]) when it contains no semicolon. *)
Lemma extractAuthID_spec t id :
  forallb (fun c => negb (ascii_code c =? 59)) (chars id) = true ->
  extractAuthID ("nssAAF;" +:+ t +:+ ";" +:+ id) = id.
Proof.
  intros H. unfold extractAuthID. rewrite !chars_app, !rev_app_distr, <- !app_assoc. simpl.
  rewrite span_not_spec; [|rewrite forallb_forall in *; intros x Hx; by apply H, in_rev|done].
  rewrite rev_involutive. apply chars_inj. by rewrite chars_of_list.
Qed.

(** ** radius_handler.go *)
Definition radiusCoARequest : Z := 43.
Definition radiusCoAACK : Z := 44.
Definition radiusCoANAK : Z := 45.
Definition radiusDisconnectRequest : Z := 40.

Fixpoint session_loop (fuel : nat) (rest : bytes) : string :=
  match fuel, rest with
  | S fuel, attrType :: attrLen :: body =>
      if (attrLen <? 2) || (len rest <? attrLen) then estr
      else if attrType =? AttrState then string_of_bytes (take (Z.to_nat (attrLen - 2)) body)
      else session_loop fuel (drop (Z.to_nat (attrLen - 2)) body)
  | _, _ => estr
  end.
Definition extractSessionID (raw : bytes) : string :=
  if len raw <? 20 then estr else session_loop (length raw) (drop 20 raw).

(** On well-formed attributes it is the first State attribute. *)
Lemma session_loop_spec fuel rest attrs :
  (length rest <= fuel)%nat -> decode_loop fuel rest = Ok attrs ->
  session_loop fuel rest = GetString (GetAttribute attrs AttrState).
Proof.
  revert rest attrs. induction fuel as [|fuel IH]; intros rest attrs Hf E.
  { destruct rest; simpl in *; [by simplify_eq|lia]. }
  destruct rest as [|t [|l body]]; simpl in E; [by simplify_eq|done|].
  destruct (l <? 2) eqn:E1; [done|]. destruct (len _ <? l) eqn:E2; [done|].
  destruct (decode_loop fuel _) as [attrs'| |] eqn:Er; simpl in E; [|done..]. injection E as <-.
  cbn [session_loop]. rewrite E1, E2. simpl. unfold GetAttribute. simpl.
  destruct (t =? AttrState) eqn:Et; [done|]. apply IH; [|done].
  rewrite length_drop. simpl in Hf. lia.
Qed.

(** What the handler does with a packet: nothing, or register, forward to a Biz
    Pod under this session id and message type, and answer. *)
Inductive reaction : Type := Drop | Process (sessionID msgType : string).

Section Handler.
Context (hmac : bytes -> bytes -> bytes) (sharedSecret : string).

Definition handleServerInitiated (raw : bytes) : reaction :=
  let sessionID := extractSessionID raw in
  if is_empty sessionID then Drop
  else
    let msgType := if byte_at raw 0 =? radiusCoARequest then "COA" else "DM" in
    if is_empty sharedSecret then Process sessionID msgType
    else if negb (HasMessageAuthenticator raw) then Drop
    else if negb (VerifyMessageAuthenticator hmac raw (bytes_of_string sharedSecret)) then Drop
    else Process sessionID msgType.

Definition handlePacket (raw : bytes) : reaction :=
  if len raw <? 4 then Drop
  else
    let msgType := byte_at raw 0 in
    if (msgType =? 2) || (msgType =? 3) || (msgType =? 11) then Drop
    else if (msgType =? radiusCoARequest) || (msgType =? radiusDisconnectRequest) then
      handleServerInitiated raw
    else Drop.

(** C13: only authenticated server-initiated requests are processed: with a shared
    secret configured, a packet is acted upon only if it is a CoA or Disconnect
    request, names a session in a State attribute, and its Message-Authenticator
    is the MAC of the packet under the secret. *)
Theorem coa_authenticated raw sid mt :
  sharedSecret <> estr -> handlePacket raw = Process sid mt ->
  (byte_at raw 0 = radiusCoARequest /\ mt = "COA" \/ byte_at raw 0 = radiusDisconnectRequest /\ mt = "DM")
  /\ sid = extractSessionID raw /\ sid <> estr
  /\ let off := FindMessageAuthenticator raw in
     0 <= off /\ off + 18 <= len raw
     /\ slice (off + 2) (off + 18) raw =
        take 16 (hmac (bytes_of_string sharedSecret) (overwrite (off + 2) (zeros 16) raw)).
Proof.
  intros Hs. unfold handlePacket, handleServerInitiated.
  destruct (len raw <? 4); [done|].
  destruct ((byte_at raw 0 =? 2) || (byte_at raw 0 =? 3) || (byte_at raw 0 =? 11)); [done|].
  destruct ((byte_at raw 0 =? radiusCoARequest) || (byte_at raw 0 =? radiusDisconnectRequest))
    eqn:E2; [|done].
  destruct (is_empty (extractSessionID raw)) eqn:E3; [done|].
  destruct (is_empty sharedSecret) eqn:E4; [by apply is_empty_true in E4|].
  destruct (HasMessageAuthenticator raw); [|done]. cbn [negb].
  destruct (VerifyMessageAuthenticator _ _ _) eqn:E5; [|done]. cbn [negb]. intros [= <- <-].
  split; [|split; [done|split]].
  - apply orb_true_iff in E2 as [E2|E2]; zbool; rewrite E2; [left|right]; done.
  - intros H. rewrite H in E3. done.
  - unfold VerifyMessageAuthenticator in E5. cbv zeta in E5.
    destruct (FindMessageAuthenticator raw <? 0) eqn:E6; [done|].
    destruct (len raw <? _) eqn:E7; [done|]. apply bool_decide_eq_true in E5.
    zbool. cbv zeta. split; [lia|]. split; [lia|exact E5].
Qed.
End Handler.

Lemma coa_authenticated_witness :
  match AddMessageAuthenticator toy_mac signed_packet (bytes_of_string "k") with
  | Ok raw => "a" = extractSessionID raw /\ "a" <> estr
  | _ => False
  end.
Proof.
  destruct (AddMessageAuthenticator toy_mac signed_packet (bytes_of_string "k")) as [raw| |] eqn:E;
    [|vm_compute in E; discriminate..].
  vm_compute in E. injection E as <-.
  edestruct (coa_authenticated toy_mac "k") as (_ & H1 & H2 & _);
    [discriminate | | split; [exact H1|exact H2]].
  vm_compute. reflexivity.
Defined.

(** *** sendCoAResponse *)

(** The search for the Message-Authenticator in the request, which reads two-byte
    little-endian codes and lengths; [None] while it has not ended. *)
Definition get_le16 (bs : bytes) (i : Z) : Z := byte_at bs i + byte_at bs (i + 1) * 256.
Fixpoint coa_find (fuel : nat) (reqRaw : bytes) (i : Z) : option (option Z) :=
  match fuel with
  | O => None
  | S fuel =>
      if i <=? len reqRaw - 26 then
        if get_le16 reqRaw i =? 80 then Some (Some i)
        else coa_find fuel reqRaw (i + get_le16 reqRaw (i + 2))
      else Some None
  end.

Section CoAResponse.
Context (hmac : bytes -> bytes -> bytes) (md5 : bytes -> bytes) (sharedSecret : bytes).

(** The response packet, when the search ends within [fuel] steps.  The result
    code 0 selects CoA-ACK. *)
Definition sendCoAResponse (fuel : nat) (reqRaw : bytes) (resultCode : Z) : option bytes :=
  if len reqRaw <? 20 then Some []
  else
    let code := if resultCode =? 0 then radiusCoAACK else radiusCoANAK in
    let respPkt := overwrite 0 [code] reqRaw in
    let reqAuth := slice 4 20 reqRaw in
    let patched :=
      if HasMessageAuthenticator reqRaw then
        let computedMA := hmac sharedSecret
          ([code; byte_at respPkt 1] ++ slice 2 4 respPkt ++ [0; 0; 0; 0] ++ reqAuth
             ++ drop 20 reqRaw) in
        match coa_find fuel reqRaw 20 with
        | None => None
        | Some None => Some respPkt
        | Some (Some i) => Some (overwrite (i + 6) (take 16 computedMA) respPkt)
        end
      else Some respPkt in
    match patched with
    | None => None
    | Some respPkt =>
        if 0 <? len sharedSecret then
          Some (overwrite 4 (take 16 (md5 ([code; byte_at respPkt 1] ++ slice 2 4 respPkt
                  ++ reqAuth ++ drop 20 respPkt ++ sharedSecret))) respPkt)
        else Some respPkt
    end.

Lemma coa_find_stuck fuel raw i :
  i <= len raw - 26 -> get_le16 raw i <> 80 -> get_le16 raw (i + 2) = 0 ->
  coa_find fuel raw i = None.
Proof.
  intros Hi Hc Hz. induction fuel as [|fuel IH]; [done|]. simpl.
  destruct (i <=? len raw - 26) eqn:E; [|zsolve].
  destruct (get_le16 raw i =? 80) eqn:E2; [zsolve|]. by rewrite Hz, Z.add_0_r.
Qed.

(** The answer to a CoA request may never be sent: when the two bytes after
    the first attribute's header are zero (and that header is not 80, 0), the search
    for the Message-Authenticator makes no progress, so for no number of
    iterations does [sendCoAResponse] produce a packet, although the request is
    well-formed and authenticated. *)
Theorem coa_response_diverges fuel reqRaw resultCode :
  46 <= len reqRaw -> HasMessageAuthenticator reqRaw = true ->
  get_le16 reqRaw 20 <> 80 -> byte_at reqRaw 22 = 0 -> byte_at reqRaw 23 = 0 ->
  sendCoAResponse fuel reqRaw resultCode = None.
Proof.
  intros Hl Hm Hc H22 H23. unfold sendCoAResponse.
  destruct (len reqRaw <? 20) eqn:E; [zsolve|]. rewrite Hm.
  rewrite coa_find_stuck; [done|lia|done|].
  change (20 + 2) with 22. unfold get_le16. change (22 + 1) with 23. rewrite H22, H23. done.
Qed.

End CoAResponse.

(** A CoA request for the session id made of two NUL bytes, with a valid
    Message-Authenticator. *)
Definition nul_session_coa : bytes :=
  [43; 1; 0; 42] ++ repeat 7 16 ++ [24; 4; 0; 0] ++ [1; 4; 97; 98] ++ [80; 18] ++ repeat 0 16.

Lemma coa_response_diverges_witness :
  extractSessionID nul_session_coa <> estr
  /\ sendCoAResponse toy_mac (fun b => take 16 b) [1] 1000 nul_session_coa 0 = None.
Proof.
  split; [vm_compute; discriminate|].
  apply coa_response_diverges; try (vm_compute; discriminate); vm_compute; reflexivity.
Defined.

(** On an ordinary request (a State attribute with the session id, then the
    Message-Authenticator) the search runs past the end, and the answer repeats the
    request's Message-Authenticator instead of a fresh one. *)
Lemma coa_response_stale_ma :
  let req := [43; 1; 0; 45] ++ repeat 7 16 ++ EncodeAttributes [mkAttr 24 (bytes_of_string "nssAAF;1;c")]
               ++ [80; 18] ++ repeat 5 16 in
  match sendCoAResponse toy_mac (fun b => repeat 3 16) [1] 100 req 0 with
  | Some resp => byte_at resp 0 = radiusCoAACK /\ drop 20 resp = drop 20 req
  | None => False
  end.
Proof. vm_compute. split; reflexivity. Qed.
