(* ===== verification/Gateway.v ===== *)
(** * internal/aaa/gateway: forwarding, routing to Biz Pods, dead-letter queue

    gateway.go and dlq.go.  Redis is a store of values with expiry plus the
    answers of the commands that can fail; HTTP calls and the two protocol
    forwarders are parameters.  Times are nanoseconds. *)
From S2P Require Import Prelude Regex Common Types Encoding EapSession.
Import Validator.
Local Open Scope string_scope.
Local Open Scope Z_scope.
Local Open Scope list_scope.

(** ** internal/proto *)
Definition TransportRADIUS : string := "RADIUS".
Definition TransportDIAMETER : string := "DIAMETER".
Definition DefaultPayloadTTL : Z := 600 * second.
Definition BizPodEntryTTL : Z := 60 * second.

Record AaaForwardRequest : Type := mkFwdReq {
  f_Version : string; f_SessionID : string; f_AuthCtxID : string; f_GPSI : string;
  f_TransportType : string; f_Sst : Z; f_Sd : string; f_Direction : string; f_Payload : bytes }.
Record AaaForwardResponse : Type := mkFwdResp {
  fr_Version : string; fr_SessionID : string; fr_AuthCtxID : string; fr_Payload : bytes }.
Record AaaServerInitiatedRequest : Type := mkSIReq {
  si_Version : string; si_SessionID : string; si_AuthCtxID : string; si_TransportType : string;
  si_MessageType : string; si_Payload : bytes }.
Record SessionCorrEntry : Type := mkCorr {
  ce_AuthCtxID : string; ce_GPSI : string; ce_PodID : string; ce_Sst : Z; ce_Sd : string;
  ce_CreatedAt : Z }.
Record BizPodEntry : Type := mkPod { bp_URL : string; bp_LastSeen : Z }.

Definition SessionCorrKey (sessionID : string) : string := "nssaa:session:" +:+ sessionID.
Definition BizPodsKey (podID : string) : string := "nssaa:biz:pod:" +:+ podID.

(** ** Session correlation *)

(** The correlation entries in Redis with their expiry times. *)
Abbreviation corr_store := (gmap string (SessionCorrEntry * Z)).

Definition writeSessionCorr (now : Z) (st : corr_store) (sessionID : string)
  (entry : SessionCorrEntry) : corr_store :=
  <[SessionCorrKey sessionID := (entry, now + DefaultPayloadTTL)]> st.
Definition getSessionCorr (now : Z) (st : corr_store) (sessionID : string)
  : option SessionCorrEntry :=
  match st !! SessionCorrKey sessionID with
  | Some (e, expiry) => if now <? expiry then Some e else None
  | None => None
  end.

(** ** ForwardEAP *)
Inductive gateway_error : Type :=
| ErrWriteCorr
| ErrUnknownTransport (t : string)
| ErrForward (msg : string).

Section Forward.
(** The two forwarders' [Forward] methods; [None] is a nil RADIUS forwarder. *)
Context (radius : option (bytes -> string -> Z -> string -> string -> bytes + string)).
Context (diameter : bytes -> string -> Z -> string -> string -> bytes + string).
Context (version hostname : string).

(** [redis_up] says whether the SET command succeeds.  Calling a method of a nil
    [*radiusForwarder] that reads a field panics. *)
Definition ForwardEAP (redis_up : bool) (now : Z) (st : corr_store) (req : AaaForwardRequest)
  : corr_store * result gateway_error AaaForwardResponse :=
  let entry := mkCorr (f_AuthCtxID req) (f_GPSI req) hostname (f_Sst req) (f_Sd req) (now / second) in
  if negb redis_up then (st, Err ErrWriteCorr)
  else
    let st := writeSessionCorr now st (f_SessionID req) entry in
    let finish (r : bytes + string) :=
      match r with
      | inl response =>
          Ok (mkFwdResp version (f_SessionID req) (f_AuthCtxID req) response)
      | inr e => Err (ErrForward e)
      end in
    if str_eqb (f_TransportType req) TransportRADIUS then
      match radius with
      | None => (st, Panic)
      | Some fwd => (st, finish (fwd (f_Payload req) (f_SessionID req) (f_Sst req) (f_Sd req) (f_GPSI req)))
      end
    else if str_eqb (f_TransportType req) TransportDIAMETER then
      (st, finish (diameter (f_Payload req) (f_SessionID req) (f_Sst req) (f_Sd req) (f_GPSI req)))
    else (st, Err (ErrUnknownTransport (f_TransportType req))).

(** C15: every forwarded session can be found again: when [ForwardEAP] answers,
    the answer carries the request's session and context ids, and for the next ten
    minutes a server-initiated message for that session finds its auth context; the
    entries of other sessions are untouched.  The pod id it records is the
    gateway's own host name, whatever Biz Pod sent the request. *)
Theorem ForwardEAP_correlates redis_up now st req st' resp t :
  ForwardEAP redis_up now st req = (st', Ok resp) -> t < now + DefaultPayloadTTL ->
  fr_SessionID resp = f_SessionID req /\ fr_AuthCtxID resp = f_AuthCtxID req
  /\ (exists e, getSessionCorr t st' (f_SessionID req) = Some e
       /\ ce_AuthCtxID e = f_AuthCtxID req /\ ce_PodID e = hostname)
  /\ forall sid, sid <> f_SessionID req -> getSessionCorr t st' sid = getSessionCorr t st sid.
Proof.
  unfold ForwardEAP. intros E Ht. destruct redis_up; [|done]. cbn [negb] in E.
  assert (Hst : st' = writeSessionCorr now st (f_SessionID req)
            (mkCorr (f_AuthCtxID req) (f_GPSI req) hostname (f_Sst req) (f_Sd req) (now / second))).
  { repeat case_match; by simplify_eq. }
  assert (Hr : fr_SessionID resp = f_SessionID req /\ fr_AuthCtxID resp = f_AuthCtxID req).
  { repeat case_match; by simplify_eq. }
  destruct Hr as [Hr1 Hr2]. split; [done|]. split; [done|]. subst st'.
  unfold getSessionCorr, writeSessionCorr. split.
  - rewrite lookup_insert_eq. destruct (t <? now + DefaultPayloadTTL) eqn:El; [|zsolve]. eauto.
  - intros sid Hne. rewrite lookup_insert_ne; [done|]. intros H. by simplify_eq/=.
Qed.
End Forward.

Lemma ForwardEAP_correlates_witness :
  let req := mkFwdReq "1.0" "nssAAF;1;ctx" "ctx" "g" "RADIUS" 1 "000001" "CLIENT_INITIATED" [1] in
  let r := ForwardEAP (Some (fun _ _ _ _ _ => inl [2])) (fun _ _ _ _ _ => inr "down") "1.0" "gw-0"
             true 0 ∅ req in
  exists e, getSessionCorr 5 (fst r) "nssAAF;1;ctx" = Some e /\ ce_AuthCtxID e = "ctx" /\ ce_PodID e = "gw-0".
Proof.
  intros req r.
  edestruct (ForwardEAP_correlates (Some (fun _ _ _ _ _ => inl [2])) (fun _ _ _ _ _ => inr "down")
    "1.0" "gw-0" true 0 ∅ req (fst r)) as (_ & _ & H & _).
  - reflexivity.
  - instantiate (1 := 5). vm_compute. reflexivity.
  - exact H.
Defined.

(** ** Choice of a Biz Pod *)

(** Answers of Redis during one selection: [GET] of a pod entry ([Ok None]: no
    such key), the pages of the [SCAN], and [GET] during the scan. *)
Record pod_view : Type := mkView {
  v_get : string -> result string (option BizPodEntry);
  v_scan : list (result string (list string));
  v_now : Z;
}.

Definition getBizPodURL (v : pod_view) (podID : string) : result string string :=
  if is_empty podID then Ok estr
  else match v_get v (BizPodsKey podID) with
  | Ok None => Ok estr
  | Ok (Some entry) => Ok (bp_URL entry)
  | Err e => Err e
  | Panic => Panic
  end.

Fixpoint scan_pages (pages : list (result string (list string))) : result string (list string) :=
  match pages with
  | [] => Ok []
  | p :: pages => let? keys := p in let? rest := scan_pages pages in Ok (keys ++ rest)
  end.

Definition live_url (v : pod_view) (cutoff : Z) (key : string) : option string :=
  match v_get v key with
  | Ok (Some entry) =>
      if (cutoff <=? bp_LastSeen entry) && negb (is_empty (bp_URL entry))
      then Some (bp_URL entry) else None
  | _ => None
  end.

(** [BizPodEntryTTL] of the configuration, 60 s when zero. *)
Definition pickRandomLiveBizURL (v : pod_view) (cfg_ttl : Z) : result string string :=
  let ttl := if cfg_ttl =? 0 then BizPodEntryTTL else cfg_ttl in
  let cutoff := (v_now v - ttl) / second in
  let? keys := scan_pages (v_scan v) in
  let livePods := omap (live_url v cutoff) keys in
  if len livePods =? 0 then Ok estr
  else match livePods !! Z.to_nat (v_now v mod len livePods) with
  | Some url => Ok url
  | None => Panic
  end.

(** A fallback on error or on an empty URL. *)
Definition usable (r : result string string) : option string :=
  match r with Ok url => if is_empty url then None else Some url | _ => None end.

Definition selectTargetBizURL (v : pod_view) (cfg_ttl : Z) (static podID : string) : string :=
  match (if is_empty podID then None else usable (getBizPodURL v podID)) with
  | Some url => url
  | None =>
      match usable (pickRandomLiveBizURL v cfg_ttl) with
      | Some url => url
      | None => static
      end
  end.

Lemma pickRandomLive_live v ttl url :
  0 <= v_now v -> pickRandomLiveBizURL v ttl = Ok url -> url <> estr ->
  exists keys key e, scan_pages (v_scan v) = Ok keys /\ key ∈ keys
    /\ v_get v key = Ok (Some e) /\ bp_URL e = url
    /\ (v_now v - (if ttl =? 0 then BizPodEntryTTL else ttl)) / second <= bp_LastSeen e.
Proof.
  intros Hn. unfold pickRandomLiveBizURL. destruct (scan_pages _) as [keys| |] eqn:Es; simpl; [|done..].
  destruct (_ =? 0); [by intros [= <-]|].
  destruct (omap _ keys !! _) as [u|] eqn:El; [|done]. intros [= <-] _.
  apply list_elem_of_lookup_2, list_elem_of_omap in El as (key & Hk & Hl).
  unfold live_url in Hl. destruct (v_get v key) as [[e|]| |] eqn:Eg; [|done..].
  destruct (_ && _) eqn:Eb; [|done]. injection Hl as <-. zbool. exists keys, key, e. done.
Qed.

Lemma pickRandomLive_no_panic v ttl :
  Forall (fun p => p <> Panic) (v_scan v) -> pickRandomLiveBizURL v ttl <> Panic.
Proof.
  intros Hp. unfold pickRandomLiveBizURL.
  assert (Hs : scan_pages (v_scan v) <> Panic).
  { induction Hp as [|p ps Hp1 Hp2 IH]; [done|]. simpl. destruct p; [|done..]. simpl.
    by destruct (scan_pages ps). }
  destruct (scan_pages _) as [keys| |]; simpl; [|done..].
  set (l := omap _ keys). destruct (len l =? 0) eqn:E; [done|].
  destruct (l !! _) eqn:El; [done|]. exfalso. apply lookup_ge_None in El.
  assert (H := len_nonneg l). zbool. assert (B : 0 <= v_now v mod len l < len l) by (apply Z.mod_pos_bound; lia).
  unfold len in *. lia.
Qed.

(** The target of a server-initiated message: the URL used is the one
    registered for the requested pod if there is one; otherwise that of some pod
    found by the scan whose last heartbeat is within the liveness window; otherwise
    the static service URL. *)
Theorem selectTargetBizURL_priority v ttl static podID :
  0 <= v_now v ->
  let url := selectTargetBizURL v ttl static podID in
  (podID <> estr /\ (exists e, v_get v (BizPodsKey podID) = Ok (Some e) /\ bp_URL e = url) /\ url <> estr)
  \/ (exists keys key e, scan_pages (v_scan v) = Ok keys /\ key ∈ keys
        /\ v_get v key = Ok (Some e) /\ bp_URL e = url /\ url <> estr
        /\ (v_now v - (if ttl =? 0 then BizPodEntryTTL else ttl)) / second <= bp_LastSeen e)
  \/ (url = static /\ usable (getBizPodURL v podID) = None
      /\ usable (pickRandomLiveBizURL v ttl) = None).
Proof.
  intros Hn url. subst url. unfold selectTargetBizURL.
  assert (Hg : usable (getBizPodURL v podID) = (if is_empty podID then None else usable (getBizPodURL v podID))).
  { destruct (is_empty podID) eqn:E; [|done]. unfold getBizPodURL. by rewrite E. }
  rewrite <- Hg. destruct (usable (getBizPodURL v podID)) as [url|] eqn:E1.
  - left. unfold usable, getBizPodURL in E1. destruct (is_empty podID) eqn:Ep; [done|].
    assert (podID <> estr) by (intros ->; done). split; [done|].
    destruct (v_get v _) as [[e|]| |]; [|done..].
    destruct (is_empty (bp_URL e)) eqn:Eu; [done|]. injection E1 as <-.
    split; [eauto|]. intros H'. by rewrite H' in Eu.
  - right. destruct (usable (pickRandomLiveBizURL v ttl)) as [url|] eqn:E2; [left|by right].
    unfold usable in E2. destruct (pickRandomLiveBizURL v ttl) as [u| |] eqn:E3; [|done..].
    destruct (is_empty u) eqn:Eu; [done|]. injection E2 as <-.
    assert (u <> estr) by (intros ->; done).
    destruct (pickRandomLive_live v ttl u Hn E3) as (keys & key & e & ? & ? & ? & ? & ?); [done|].
    eauto 12.
Qed.

Definition one_pod : pod_view :=
  mkView (fun k => if str_eqb k "nssaa:biz:pod:b" then Ok (Some (mkPod "http://b" 100)) else Ok None)
    [Ok ["nssaa:biz:pod:b"]] (100 * second).

Lemma selectTargetBizURL_priority_witness :
  selectTargetBizURL one_pod 0 "http://static" "a" = "http://b"
  /\ exists keys key e, scan_pages (v_scan one_pod) = Ok keys /\ key ∈ keys
        /\ v_get one_pod key = Ok (Some e) /\ bp_URL e = "http://b".
Proof.
  split; [vm_compute; reflexivity|].
  destruct (selectTargetBizURL_priority one_pod 0 "http://static" "a")
    as [(_ & (e & He & _) & _) | [(keys & key & e & H1 & H2 & H3 & H4 & _) | (H & _)]].
  - vm_compute. discriminate.
  - vm_compute in He. discriminate.
  - exists keys, key, e. rewrite H4. split; [exact H1|]. split; [exact H2|].
    split; [exact H3|vm_compute; reflexivity].
  - vm_compute in H. discriminate.
Defined.

(** ** forwardToBiz *)

(** How an HTTP call ends: a connection-level error ([isConnectionError]), another
    error, or a status. *)
Inductive http_outcome : Type := ConnError | OtherError | Status (code : Z).

(** [isConnectionError] on the error chain: a [*net.OpError] with its operation, a
    context error, or anything else. *)
Inductive net_error : Type := OpError (op : string) | DeadlineExceeded | Canceled | OtherNetError.
Definition isConnectionError (err : option net_error) : bool :=
  match err with
  | None => false
  | Some (OpError op) => str_eqb op "dial" || str_eqb op "read" || str_eqb op "write"
  | Some DeadlineExceeded | Some Canceled => true
  | Some OtherNetError => false
  end.

Record DLQMessage : Type := mkDLQ {
  d_SessionID : string; d_TransportType : string; d_MessageType : string;
  d_Payload : AaaServerInitiatedRequest; d_AttemptCount : Z; d_QueuedAt : Z }.

Definition serverInitMaxRetries : nat := 3.
Definition serverInitRetryBase : Z := 1 * second.
Definition serverInitRetryMax : Z := 3 * second.
Definition retry_sleep (attempt : nat) : Z :=
  Z.min (Z.of_nat attempt * serverInitRetryBase) serverInitRetryMax.

(** What a run did: the URLs posted to, the pauses, whether a Biz Pod answered
    200, and the message pushed to the dead-letter queue. *)
Record delivery : Type := mkDelivery {
  posted : list string; paused : list Z; delivered : bool; pushed : option DLQMessage }.

Section ForwardToBiz.
(** The environment of each attempt: the Redis view, whether the request can be
    built for a URL, and the outcome of the call. *)
Context (view : nat -> pod_view) (request_ok : string -> bool)
        (http : nat -> string -> http_outcome).
Context (cfg_ttl : Z) (static version : string).

(** The retry loop; the result says whether the message was delivered. *)
Fixpoint retry_loop (podID : string) (attempt fuel : nat) (posts : list string) (pauses : list Z)
  : list string * list Z * bool :=
  match fuel with
  | O => (posts, pauses, false)
  | S fuel =>
      let pauses := if (0 <? attempt)%nat then pauses ++ [retry_sleep attempt] else pauses in
      let targetURL := selectTargetBizURL (view attempt) cfg_ttl static podID in
      if negb (request_ok targetURL) then retry_loop podID (S attempt) fuel posts pauses
      else
        let posts := posts ++ [targetURL] in
        match http attempt targetURL with
        | ConnError => retry_loop podID (S attempt) fuel posts pauses
        | OtherError => (posts, pauses, false)
        | Status code => (posts, pauses, code =? 200)
        end
  end.

Definition forwardToBiz (now : Z) (corr : option SessionCorrEntry)
  (sessionID transportType messageType : string) (raw : bytes) : delivery :=
  match corr with
  | None => mkDelivery [] [] false None
  | Some entry =>
      let body := mkSIReq version sessionID (ce_AuthCtxID entry) transportType messageType raw in
      let '(posts, pauses, ok) := retry_loop (ce_PodID entry) 0 serverInitMaxRetries [] [] in
      if ok then mkDelivery posts pauses true None
      else mkDelivery posts pauses false
             (Some (mkDLQ sessionID transportType messageType body 0 (now / second)))
  end.

Lemma retry_loop_bound podID a fuel posts pauses :
  let '(posts', _, _) := retry_loop podID a fuel posts pauses in
  (length posts' <= length posts + fuel)%nat.
Proof.
  revert a posts pauses. induction fuel as [|fuel IH]; intros a posts pauses; simpl; [lia|].
  set (u := selectTargetBizURL _ _ _ _). destruct (request_ok u); simpl.
  - destruct (http a u); simpl; [|rewrite length_app; simpl; lia..].
    specialize (IH (S a) (posts ++ [u]) (if (0 <? a)%nat then pauses ++ [retry_sleep a] else pauses)).
    destruct (retry_loop _ _ _ _ _) as [[? ?] ?]. rewrite length_app in IH. simpl in IH. lia.
  - specialize (IH (S a) posts (if (0 <? a)%nat then pauses ++ [retry_sleep a] else pauses)).
    destruct (retry_loop _ _ _ _ _) as [[? ?] ?]. lia.
Qed.

Lemma retry_loop_delivered podID a fuel posts pauses :
  let '(posts', _, ok) := retry_loop podID a fuel posts pauses in
  ok = true -> exists k url, last posts' = Some url /\ (a <= k < a + fuel)%nat
                /\ http k url = Status 200.
Proof.
  revert a posts pauses. induction fuel as [|fuel IH]; intros a posts pauses; simpl; [done|].
  set (p := if (0 <? a)%nat then _ else _). set (u := selectTargetBizURL _ _ _ _).
  destruct (request_ok u); simpl.
  - destruct (http a u) as [| |code] eqn:Eh; [|done|].
    + specialize (IH (S a) (posts ++ [u]) p). destruct (retry_loop _ _ _ _ _) as [[? ?] ?].
      intros H. destruct (IH H) as (k & url & ? & ? & ?). exists k, url. split; [done|]. split; [lia|done].
    + intros H. apply Z.eqb_eq in H. subst code. exists a, u. rewrite last_snoc. split; [done|]. split; [lia|done].
  - specialize (IH (S a) posts p). destruct (retry_loop _ _ _ _ _) as [[? ?] ?].
    intros H. destruct (IH H) as (k & url & ? & ? & ?). exists k, url. split; [done|]. split; [lia|done].
Qed.


End ForwardToBiz.

(** ** dlq.go *)
Section DLQ.
Context (MaxRetries : Z).

Inductive dlq_step : Type := Discard | Delivered | Requeue (m : DLQMessage).

Definition requeueDLQ (m : DLQMessage) : DLQMessage :=
  mkDLQ (d_SessionID m) (d_TransportType m) (d_MessageType m) (d_Payload m)
    (d_AttemptCount m + 1) (d_QueuedAt m).

(** [target] is the selected URL, [request_ok] whether the request can be built. *)
Definition processDLQMessage (target : string) (request_ok : bool) (http : http_outcome)
  (m : DLQMessage) : dlq_step :=
  if MaxRetries <=? d_AttemptCount m then Discard
  else if is_empty target then Requeue (requeueDLQ m)
  else if negb request_ok then Requeue (requeueDLQ m)
  else match http with
  | Status code => if code =? 200 then Delivered else Requeue (requeueDLQ m)
  | _ => Requeue (requeueDLQ m)
  end.

(** The Redis list: [RPush] appends at the end, [BRPop] takes from the end. *)
Definition RPush (q : list DLQMessage) (m : DLQMessage) : list DLQMessage := q ++ [m].
Definition BRPop (q : list DLQMessage) : option (list DLQMessage * DLQMessage) :=
  match last q with Some m => Some (removelast q, m) | None => None end.

(** One tick of the consumer with its environment. *)
Definition processDLQOne (env : string * bool * http_outcome) (q : list DLQMessage)
  : list DLQMessage :=
  match BRPop q with
  | None => q
  | Some (q, m) =>
      let '(target, ok, http) := env in
      match processDLQMessage target ok http m with
      | Requeue m' => RPush q m'
      | _ => q
      end
  end.
Definition run_dlq (envs : list (string * bool * http_outcome)) (q : list DLQMessage)
  : list DLQMessage := foldl (fun q e => processDLQOne e q) q envs.

(** What is left to do for a message: its remaining attempts and its removal. *)
Definition work (m : DLQMessage) : nat := S (Z.to_nat (MaxRetries - d_AttemptCount m)).
Definition total_work (q : list DLQMessage) : nat := sum_list_with work q.

Lemma BRPop_app q m : BRPop (q ++ [m]) = Some (q, m).
Proof. unfold BRPop. by rewrite last_snoc, removelast_last. Qed.

Lemma processDLQOne_work env q :
  q <> [] -> (total_work (processDLQOne env q) < total_work q)%nat.
Proof.
  intros Hq. destruct q as [|m q _] using rev_ind; [done|]. clear Hq.
  unfold processDLQOne. rewrite BRPop_app. destruct env as [[target ok] http].
  unfold total_work. rewrite sum_list_with_app. cbn [sum_list_with].
  assert (Hp : (0 < work m)%nat) by (unfold work; lia).
  assert (Hw : d_AttemptCount m < MaxRetries -> (work (requeueDLQ m) < work m)%nat)
    by (unfold work; simpl; lia).
  unfold processDLQMessage. destruct (MaxRetries <=? d_AttemptCount m) eqn:E; [lia|].
  zbool. specialize (Hw E).
  repeat case_match; simplify_eq; unfold RPush; rewrite ?sum_list_with_app; cbn [sum_list_with]; lia.
Qed.


(** The queue is a stack: the message pushed last is taken first, and a requeued
    message is the next one taken, before all older ones. *)
Lemma dlq_lifo q m : BRPop (RPush q m) = Some (q, m).
Proof. apply BRPop_app. Qed.
End DLQ.

