(* ===== verification/HttpClient.v ===== *)
(** * internal/httpclient/native_aaa.go: the Biz Pod's client of the AAA gateway

    [NativeAAAClient.ForwardEAP] composes the circuit breaker and the retry loop
    of [Resilience] around one HTTP POST.  The POST and the JSON decoding of the
    answer are parameters: the [k]-th POST of a call gives an error or a body with
    its status. *)
From S2P Require Import Prelude EapSession Gateway Resilience.
Import Resilience.Retry.
Local Open Scope string_scope.
Local Open Scope Z_scope.

(** The settings the constructor forces. *)
Definition aaa_retryCfg (baseDelay : Z) : RetryConfig :=
  mkRetry 2 (if baseDelay =? 0 then 500 * 1000000 else baseDelay) (10 * second).
Definition aaa_breaker : CircuitBreaker := NewCircuitBreaker 3 (15 * second) 2.

Inductive client_error : Type :=
| ErrCircuitOpen
| ErrPost (msg : string)
| ErrRetryableStatus (status : Z)
| ErrUnmarshal
| ErrNil.

Section Client.
Context (baseDelay : Z).
(** The outcome of the [k]-th POST of this call, and whether the caller's context
    ends during the back-off after it. *)
Context (post : nat -> bytes * Z + string) (cancelled : nat -> bool).
Context (unmarshal : bytes -> option AaaForwardResponse).

(** The closure passed to [resilience.Do]: its error at the [k]-th call. *)
Definition attempt_error (k : nat) : option client_error :=
  match post k with
  | inr e => Some (ErrPost e)
  | inl (_, status) =>
      if (400 <=? status) && (status <? 500) then None
      else if IsRetryable status then Some (ErrRetryableStatus status)
      else None
  end.

(** [lastErr] after [n] calls of the closure. *)
Definition lastErr (n : nat) : option client_error :=
  match n with O => None | S k => attempt_error k end.
(** [lastBody] after [n] calls: the body of the last POST that was answered. *)
Fixpoint lastBody (n : nat) : bytes :=
  match n with
  | O => []
  | S k => match post k with inl (b, _) => b | inr _ => lastBody k end
  end.

(** The call at time [now] (breaker check) to [now'] (outcome recorded): the
    breaker afterwards, the number of POSTs, and the result. *)
Definition ForwardEAP (now now' : Z) (cb : CircuitBreaker)
  : CircuitBreaker * nat * (AaaForwardResponse + client_error) :=
  let '(cb, ok) := Allow cb now in
  if negb ok then (cb, 0%nat, inr ErrCircuitOpen)
  else
    let d := Do attempt_error cancelled (aaa_retryCfg baseDelay) in
    match result_of d with
    | Some _ =>
        (RecordFailure cb now', calls d, inr (default ErrNil (lastErr (calls d))))
    | None =>
        match unmarshal (lastBody (calls d)) with
        | None => (RecordSuccess cb, calls d, inr ErrUnmarshal)
        | Some resp => (RecordSuccess cb, calls d, inl resp)
        end
    end.

(** The two-attempt loop, spelled out. *)
Lemma Do_two :
  let d := Do attempt_error cancelled (aaa_retryCfg baseDelay) in
  (attempt_error 0 = None /\ result_of d = None /\ calls d = 1%nat)
  \/ (attempt_error 0 <> None /\ cancelled 0%nat = true /\ result_of d <> None /\ calls d = 1%nat)
  \/ (attempt_error 0 <> None /\ attempt_error 1 = None /\ result_of d = None /\ calls d = 2%nat)
  \/ (attempt_error 0 <> None /\ attempt_error 1 <> None /\ result_of d <> None /\ calls d = 2%nat).
Proof.
  unfold Do, with_defaults, aaa_retryCfg. cbn [MaxAttempts default_if_zero Z.eqb Z.to_nat Pos.to_nat].
  set (cfg := mkRetry _ _ _). change (Z.to_nat 2) with 2%nat || idtac.
  cbn [Pos.iter_op Init.Nat.add attempts]. destruct (attempt_error 0) eqn:E0; [|by left].
  cbn [MaxAttempts cfg]. simpl. destruct (cancelled 0%nat) eqn:Ec; [right; left; done|].
  destruct (attempt_error 1) eqn:E1; simpl; [|right; right; left; done].
  right; right; right. done.
Qed.

(** Calls to the AAA gateway under failure: with an open breaker nothing is
    sent; otherwise at most two POSTs are made; the breaker records a success
    exactly when a POST was accepted and a failure exactly when all attempts
    failed; and every failure is reported with its error, never as an empty
    success. *)
Theorem ForwardEAP_guarded now now' cb :
  let '(cb', n, r) := ForwardEAP now now' cb in
  let cb1 := fst (Allow cb now) in
  (snd (Allow cb now) = false /\ n = 0%nat /\ r = inr ErrCircuitOpen /\ cb' = cb)
  \/ (snd (Allow cb now) = true /\ (1 <= n <= 2)%nat
      /\ ((cb' = RecordSuccess cb1 /\ attempt_error (n - 1) = None
           /\ r = match unmarshal (lastBody n) with Some x => inl x | None => inr ErrUnmarshal end)
          \/ (cb' = RecordFailure cb1 now' /\ exists e, attempt_error (n - 1) = Some e /\ r = inr e))).
Proof.
  unfold ForwardEAP. destruct (Allow cb now) as [cb1 ok] eqn:Ea. destruct ok; cbn [negb fst snd].
  - assert (T := Do_two). cbv zeta in T.
    destruct (Do attempt_error cancelled (aaa_retryCfg baseDelay)) as [r n ds] eqn:Ed.
    cbn [result_of calls] in *.
    destruct T as [(A & -> & ->)|[(A & _ & B & ->)|[(_ & A & -> & ->)|(_ & A & B & ->)]]];
      simpl in *; unfold lastErr.
    1,3: destruct (unmarshal _) eqn:Eu; right; split; try done; split; try lia; left; simpl; rewrite Eu; done.
    1: destruct (attempt_error 0) eqn:E0; [|done].
    2: destruct (attempt_error 1) eqn:E0; [|done].
    all: destruct r; [|done]; right; split; [done|]; split; [lia|]; right; split; [done|]; by eexists.
  - unfold Allow in Ea. left. destruct (state cb); try done. destruct (_ <=? _); [done|]. by simplify_eq.
Qed.

End Client.

(** A gateway that answers 503 to both POSTs. *)
Lemma ForwardEAP_503 :
  ForwardEAP 0 (fun _ => inl ([], 503)) (fun _ => false) (fun _ => None) 0 1 aaa_breaker
  = (RecordFailure aaa_breaker 1, 2%nat, inr (ErrRetryableStatus 503)).
Proof. reflexivity. Qed.

(** 429 is listed as retryable but never retried here: the 4xx test comes first. *)
Lemma too_many_requests_not_retried post :
  post 0%nat = inl ([], 429) -> IsRetryable 429 = true /\ attempt_error post 0 = None.
Proof. intros H. unfold attempt_error. rewrite H. done. Qed.
