(* ===== verification/Storage.v ===== *)
(** * internal/storage: persisted sessions, their stores, the write-through cache

    types.go and store.go give the two kinds of persisted sessions and the
    repository interface their handlers use; [Repo] is that interface and
    [LawfulRepo] what its clients rely on, with the in-memory store of
    internal/api/aiw as an implementation.  [WriteThrough] is bridge.go: a session
    cache in front of an audit store, itself a lawful [SessionStore].  Times are
    nanoseconds since Go's zero time, so [IsZero] is equality with [0]. *)
From S2P Require Import Prelude Regex Common Types Encoding EapSession.
Import Validator.
Local Open Scope string_scope.
Local Open Scope Z_scope.
Local Open Scope list_scope.

Record NssaaSession : Type := mkNssaa {
  n_AuthCtxID : string; n_GPSI : string; n_SnssaiSST : Z; n_SnssaiSD : string;
  n_AmfInstance : string; n_ReauthURI : string; n_RevocURI : string; n_EapPayload : bytes;
  n_Status : string; n_CallbackOwner : string; n_HasAIWContext : bool;
  n_CreatedAt : Z; n_UpdatedAt : Z; n_ExpiresAt : Z }.

Record AiwSession : Type := mkAiw {
  a_AuthCtxID : string; a_Supi : string; a_EapPayload : bytes; a_TtlsInner : bytes;
  a_MSK : bytes; a_PvsInfo : bytes; a_AusfID : string; a_SupportedFeatures : string;
  a_Status : string; a_AuthResult : string;
  a_CreatedAt : Z; a_UpdatedAt : Z; a_ExpiresAt : Z; a_CompletedAt : option Z }.

(** The assignments the program makes to loaded sessions. *)
Definition nssaa_update (status : string) (payload : bytes) (now : Z) (s : NssaaSession)
  : NssaaSession :=
  mkNssaa (n_AuthCtxID s) (n_GPSI s) (n_SnssaiSST s) (n_SnssaiSD s) (n_AmfInstance s)
    (n_ReauthURI s) (n_RevocURI s) payload status (n_CallbackOwner s) (n_HasAIWContext s)
    (n_CreatedAt s) now (n_ExpiresAt s).
Definition aiw_set_payload (payload : bytes) (s : AiwSession) : AiwSession :=
  mkAiw (a_AuthCtxID s) (a_Supi s) payload (a_TtlsInner s) (a_MSK s) (a_PvsInfo s) (a_AusfID s)
    (a_SupportedFeatures s) (a_Status s) (a_AuthResult s) (a_CreatedAt s) (a_UpdatedAt s)
    (a_ExpiresAt s) (a_CompletedAt s).
Definition aiw_complete (status : string) (now : Z) (s : AiwSession) : AiwSession :=
  mkAiw (a_AuthCtxID s) (a_Supi s) (a_EapPayload s) (a_TtlsInner s) (a_MSK s) (a_PvsInfo s)
    (a_AusfID s) (a_SupportedFeatures s) status (a_AuthResult s) (a_CreatedAt s) now
    (a_ExpiresAt s) (Some now).

(** ** The repository interface *)
Class Keyed (A : Type) : Type := key_of : A -> string.
#[global] Instance nssaa_keyed : Keyed NssaaSession := n_AuthCtxID.
#[global] Instance aiw_keyed : Keyed AiwSession := a_AuthCtxID.

Class Repo (S A : Type) : Type := {
  load : S -> string -> result store_error A;
  save : S -> A -> S * option string;
  remove : S -> string -> S * option string }.

(** A saved session is found under its key and a removed one no longer, other
    keys are untouched, and a failed write changes nothing. *)
Class LawfulRepo (S A : Type) `{Keyed A} `{Repo S A} : Type := {
  load_key s k a : load s k = Ok a -> key_of a = k;
  save_same s s' a : save s a = (s', None) -> load s' (key_of a) = Ok a;
  save_other s a k : k <> key_of a -> load (fst (save s a)) k = load s k;
  save_failed s s' a e : save s a = (s', Some e) -> load s' = load s;
  remove_same s s' k : remove s k = (s', None) -> load s' k = Err ErrSessionNotFound;
  remove_other s k k' : k' <> k -> load (fst (remove s k)) k' = load s k' }.

(** The map of sessions of the in-memory store ([aiw.InMemoryStore]): every
    session under its own identifier, which [Save] maintains.  The Go store hands
    out the pointer it holds, so an assignment to a loaded session is visible at
    once; its clients save the same session right after assigning, and this [Save]
    cannot fail, so both views agree when the call returns. *)
Module InMemory.
Section Store.
Context {A : Type} `{Keyed A}.

Record InMemoryStore : Type := mkStore {
  data : gmap string A;
  data_keys : map_Forall (fun k a => key_of a = k) data }.

Definition Load_ (s : InMemoryStore) (id : string) : result store_error A :=
  match data s !! id with Some a => Ok a | None => Err ErrSessionNotFound end.
Definition NewInMemoryStore : InMemoryStore := mkStore ∅ (map_Forall_empty _).
Lemma insert_keys (s : InMemoryStore) a :
  map_Forall (fun k a => key_of a = k) (<[key_of a := a]> (data s)).
Proof. apply map_Forall_insert_2; [done|apply data_keys]. Qed.
Definition Save (s : InMemoryStore) (a : A) : InMemoryStore := mkStore _ (insert_keys s a).
Lemma delete_keys (s : InMemoryStore) id :
  map_Forall (fun k a => key_of a = k) (delete id (data s)).
Proof. apply map_Forall_delete, data_keys. Qed.
Definition Delete (s : InMemoryStore) (id : string) : InMemoryStore := mkStore _ (delete_keys s id).

#[global] Instance inmem_repo : Repo InMemoryStore A := {
  load := Load_; save s a := (Save s a, None); remove s id := (Delete s id, None) }.

#[global] Program Instance inmem_lawful : LawfulRepo InMemoryStore A.
Next Obligation.
  intros s k a. simpl. unfold Load_. destruct (data s !! k) as [b|] eqn:E; intros; simplify_eq.
  by apply (data_keys s k a).
Qed.
Next Obligation. intros s s' a. simpl. intros [= <-]. unfold Load_. simpl. by rewrite lookup_insert_eq. Qed.
Next Obligation. intros s a k Hk. simpl. unfold Load_. simpl. by rewrite lookup_insert_ne. Qed.
Next Obligation. done. Qed.
Next Obligation. intros s s' k. simpl. intros [= <-]. unfold Load_. simpl. by rewrite lookup_delete_eq. Qed.
Next Obligation. intros s k k' Hk. simpl. unfold Load_. simpl. by rewrite lookup_delete_ne. Qed.
End Store.
Arguments InMemoryStore A {_}.
End InMemory.

(** ** bridge.go: the write-through store *)
Module WriteThrough.

(** The fields of [AuthSession] that [toAuthSession] sets; the others keep their
    zero values. *)
Record AuthSession : Type := mkAuth {
  as_AuthCtxID : string; as_GPSI : string; as_Supi : string; as_SnssaiSST : Z; as_SnssaiSD : string;
  as_EAPRounds : Z; as_MaxEAPRounds : Z; as_CreatedAt : Z; as_UpdatedAt : Z }.

(** [strings.SplitN(key, sep, 2)] for a one-byte separator: the text before the
    first separator and, when there is one, the text after it. *)
Fixpoint split2 (sep : Z) (cs : list char) : list char * option (list char) :=
  match cs with
  | [] => ([], None)
  | c :: t =>
      if ascii_code c =? sep then ([], Some t)
      else let '(a, b) := split2 sep t in (c :: a, b)
  end.

(** [strconv.ParseUint(s, 10, 8)] *)
Definition ParseUint8 (cs : list char) : option Z :=
  if (length cs =? 0)%nat || negb (forallb is_digit cs) || (255 <? digits_value cs) then None
  else Some (digits_value cs).

Definition decodeSnssaiKey (key : string) : Z * string :=
  if is_empty key then (0, estr)
  else
    let '(p0, p1) := split2 45 (chars key) in
    match ParseUint8 p0 with
    | None => (0, estr)
    | Some sst =>
        match p1 with
        | None => (sst, estr)
        | Some sd => (sst, String.string_of_list_ascii sd)
        end
    end.

Definition toAuthSession (s : Session) : AuthSession :=
  let '(sst, sd) := decodeSnssaiKey (s_SnssaiKey s) in
  mkAuth (s_AuthCtxID s) (s_Gpsi s) (s_Supi s) sst sd (s_Rounds s) (s_MaxRounds s)
    (s_CreatedAt s) (s_LastActivity s).

Section Store.
Context {C P : Type} `{LawfulStore C}.
(** The audit store: [SaveAuthSession] returns its new state and maybe an error. *)
Context (SaveAuthSession : P -> AuthSession -> P * option string).

Record WriteThroughStore : Type := mkWT { cache : C; persist : P }.

Definition Put (now : Z) (w : WriteThroughStore) (x : Session) : WriteThroughStore * option store_error :=
  let '(c, err) := store_put now (cache w) x in
  match err with
  | Some e => (mkWT c (persist w), Some e)
  | None => (mkWT c (fst (SaveAuthSession (persist w) (toAuthSession x))), None)
  end.
Definition Get (now : Z) (w : WriteThroughStore) (id : string) : result store_error Session :=
  store_get now (cache w) id.
Definition Delete (w : WriteThroughStore) (id : string) : WriteThroughStore * option store_error :=
  let '(c, err) := store_delete (cache w) id in (mkWT c (persist w), err).
Definition Size (w : WriteThroughStore) : nat := store_Size (cache w).

#[global] Instance wt_store : SessionStore WriteThroughStore := {
  store_get := Get; store_put := Put; store_delete := Delete; store_Size := Size }.

Lemma Put_cache now w x :
  cache (fst (Put now w x)) = fst (store_put now (cache w) x)
  /\ snd (Put now w x) = snd (store_put now (cache w) x).
Proof. unfold Put. by destruct (store_put _ _ _) as [c [e|]]. Qed.
Lemma Delete_cache w id :
  cache (fst (Delete w id)) = fst (store_delete (cache w) id)
  /\ snd (Delete w id) = snd (store_delete (cache w) id).
Proof. unfold Delete. by destruct (store_delete _ _). Qed.

(** The engine may run on a write-through store: it keeps every promise of its
    cache, whatever the audit store does. *)
#[global] Program Instance wt_lawful : LawfulStore WriteThroughStore := {
  store_wf w := store_wf (cache w);
  store_live w := store_live (cache w);
  store_image := store_image }.
Next Obligation. apply image_spec. Qed.
Next Obligation. intros t s x ?. simpl. rewrite (proj1 (Put_cache _ _ _)). by apply wf_put. Qed.
Next Obligation. intros s id ?. simpl. rewrite (proj1 (Delete_cache _ _)). by apply wf_delete. Qed.
Next Obligation. intros t s id x ?. simpl. unfold Get. by apply get_id. Qed.
Next Obligation.
  intros t t' s s' x E L. simpl in *. unfold Get. destruct (Put_cache t s x) as [Hc He].
  rewrite E in Hc, He. simpl in *. apply (get_put_eq t _ (cache s)); [|done].
  rewrite Hc. rewrite (surjective_pairing (store_put _ _ _)). by rewrite <- He.
Qed.
Next Obligation.
  intros t t' s s' x y E. simpl in *. unfold Get. destruct (Put_cache t s x) as [Hc He].
  rewrite E in Hc, He. simpl in *. apply (get_put_some t _ (cache s)).
  rewrite Hc. rewrite (surjective_pairing (store_put _ _ _)). by rewrite <- He.
Qed.
Next Obligation. intros t t' s id x y. simpl. unfold Get. apply get_time. Qed.
Next Obligation.
  intros t t' s x id ?. simpl. unfold Get. rewrite (proj1 (Put_cache _ _ _)). by apply get_put_ne.
Qed.
Next Obligation.
  intros t s s' id E. simpl in *. unfold Get. destruct (Delete_cache s id) as [Hc He].
  rewrite E in Hc, He. simpl in *. apply (get_delete_eq t (cache s)).
  rewrite Hc. rewrite (surjective_pairing (store_delete _ _)). by rewrite <- He.
Qed.
Next Obligation.
  intros t s id id' ?. simpl. unfold Get. rewrite (proj1 (Delete_cache _ _)). by apply get_delete_ne.
Qed.

End Store.

(** The digits before a colon never contain the separator, so the first part of
    the split key contains the colon. *)
Lemma split2_colon ds rest :
  forallb is_digit ds = true ->
  In (Ascii.ascii_of_N 58) (fst (split2 45 (ds ++ Ascii.ascii_of_N 58 :: rest))).
Proof.
  induction ds as [|c ds IH]; simpl.
  - destruct (split2 45 rest). simpl. by left.
  - intros [Hc Hds]%andb_prop. destruct (ascii_code c =? 45) eqn:E.
    + unfold is_digit, in_range in Hc. zbool. exfalso. lia.
    + destruct (split2 45 _) eqn:Es. simpl. right. by apply IH.
Qed.

(** The audit record of an EAP session: a write through the store reports
    exactly the cache's outcome, is recorded in the audit store exactly when the
    cache accepted it, and the record carries the session's identities and round
    counters; but for every key the program builds, [sst:sd], the slice is recorded
    as SST 0 with no SD, because the decoder expects [sst-sd]. *)
Theorem audit_record {C P} `{LawfulStore C} (SaveAuthSession : P -> AuthSession -> P * option string)
    now w x sst sd :
  in_u8 sst -> s_SnssaiKey x = show_uint sst +:+ ":" +:+ sd ->
  let '(w', err) := Put SaveAuthSession now w x in
  let '(c, e) := store_put now (cache w) x in
  let rec := mkAuth (s_AuthCtxID x) (s_Gpsi x) (s_Supi x) 0 estr (s_Rounds x) (s_MaxRounds x)
    (s_CreatedAt x) (s_LastActivity x) in
  cache w' = c /\ err = e
  /\ persist w' = match e with None => fst (SaveAuthSession (persist w) rec) | Some _ => persist w end.
Proof.
  intros Hs Hk. unfold Put. destruct (store_put _ _ _) as [c e].
  assert (D : decodeSnssaiKey (s_SnssaiKey x) = (0, estr)).
  { rewrite Hk. unfold decodeSnssaiKey. destruct (is_empty _); [done|].
    rewrite !chars_app. change (chars ":" ++ chars sd) with (Ascii.ascii_of_N 58 :: chars sd).
    assert (I := split2_colon _ (chars sd) (show_u8_digits sst Hs)).
    destruct (split2 45 _) as [p0 p1]. simpl in I. unfold ParseUint8.
    replace (forallb is_digit p0) with false; [by rewrite orb_true_r|].
    symmetry. apply not_true_iff_false. rewrite forallb_forall. intros F. by specialize (F _ I). }
  destruct e; simpl; [done|]. unfold toAuthSession. by rewrite D.
Qed.

Lemma audit_record_witness :
  let x := WithSnssai (NewSession "c" "g" 5) "1:000001" in
  let w := mkWT (Mem.newSessionManager 100) [] in
  persist (fst (Put (fun p a => (a :: p, None)) 6 w x)) = [mkAuth "c" "g" estr 0 estr 0 20 5 5].
Proof.
  intros x w.
  assert (H := audit_record (fun p a => (a :: p, None)) 6 w x 1 "000001").
  destruct H as (_ & _ & H); [done|reflexivity|]. exact H.
Defined.
End WriteThrough.
