(* ===== verification/Biz.v ===== *)
(** * internal/biz and the Biz Pod's AAA client: routing and reverse flows

    router.go (route decisions), correlation.go, adapters.go and
    server_initiated.go (the coordinator of AAA server-initiated messages), and
    cmd/biz/http_aaa_client.go (the request sent to the AAA gateway).  The session
    repositories are any [Repo]; Redis, the notifier of the AMF and the HTTP call
    are parameters. *)
From S2P Require Import Prelude Regex Common Types Encoding EapCodec EapSession Gateway Resilience HttpClient Storage.
Import Validator.
Local Open Scope string_scope.
Local Open Scope Z_scope.
Local Open Scope list_scope.

(** ** router.go *)
Inductive Protocol : Type := ProtocolRADIUS | ProtocolDIAMETER.
Record ServerConfig : Type := mkServer {
  sc_Protocol : Protocol; sc_Host : string; sc_Port : Z; sc_SharedSecret : string;
  sc_TLSCert : string; sc_TLSKey : string; sc_TLSCA : string; sc_Timeout : Z; sc_Weight : Z }.
Record SnssaiConfig : Type := mkSC {
  Exact : option ServerConfig; SST_ : option ServerConfig; Default : option ServerConfig }.
Inductive ProxyMode : Type := ProxyModeDirect | ProxyModeProxy.
Record RouteDecision : Type := mkRoute {
  rd_Mode : ProxyMode; rd_Protocol : Protocol; rd_Host : string; rd_Port : Z; rd_Timeout : Z }.

Definition ResolveRoute (cfg : SnssaiConfig) (sst : Z) (sd : string) : option RouteDecision :=
  let c := match Exact cfg with Some c => Some c | None => None end in
  let c := match c, SST_ cfg with None, Some c => Some c | _, _ => c end in
  let c := match c with None => Default cfg | _ => c end in
  match c with
  | None => None
  | Some c =>
      let timeout := if sc_Timeout c =? 0 then 10 * second else sc_Timeout c in
      Some (mkRoute ProxyModeDirect (sc_Protocol c) (sc_Host c) (sc_Port c) timeout)
  end.

Definition CurrentVersion : string := "1.0".
Definition DirectionClientInitiated : string := "CLIENT_INITIATED".
(** [fmt.Sprintf("nssAAF;%d;%s", nanos, authCtxID)] *)
Definition forward_session_id (nanos : Z) (authCtxID : string) : string :=
  "nssAAF;" +:+ show_uint nanos +:+ ";" +:+ authCtxID.

Definition BuildForwardRequest (cfg : SnssaiConfig) (nanos : Z) (authCtxID gpsi : string)
  (eapPayload : bytes) (sst : Z) (sd : string) : result string AaaForwardRequest :=
  match ResolveRoute cfg sst sd with
  | None => Err ("biz: no route configured for sst=" +:+ show_uint sst +:+ " sd=" +:+ sd)
  | Some decision =>
      let transportType :=
        match rd_Protocol decision with
        | ProtocolDIAMETER => TransportDIAMETER
        | ProtocolRADIUS => TransportRADIUS
        end in
      Ok (mkFwdReq CurrentVersion (forward_session_id nanos authCtxID) authCtxID gpsi transportType
            sst sd DirectionClientInitiated eapPayload)
  end.

(** ** cmd/biz/http_aaa_client.go *)
Record SnssaiRouteEntry : Type := mkEntry {
  re_SST : Z; re_SD : string; re_Protocol : string; re_Host : string; re_Port : Z;
  re_SharedSecret : string; re_Timeout : option string }.
Record SnssaiRoutingConfig : Type := mkRouting {
  routeDefault : option SnssaiRouteEntry; routeSST : list SnssaiRouteEntry;
  routeExact : list SnssaiRouteEntry }.

Definition resolveTransportType (cfg : option SnssaiRoutingConfig) (sst : Z) (sd : string) : string :=
  match cfg with
  | None => TransportRADIUS
  | Some cfg =>
      let entry := List.find (fun e => (re_SST e =? sst) && str_eqb (re_SD e) sd) (routeExact cfg) in
      let entry := match entry with None => List.find (fun e => re_SST e =? sst) (routeSST cfg) | _ => entry end in
      let entry := match entry with None => routeDefault cfg | _ => entry end in
      match entry with
      | None => TransportRADIUS
      | Some e => if str_eqb (re_Protocol e) "DIAMETER" then TransportDIAMETER else TransportRADIUS
      end
  end.

(** The request [SendEAP] builds for a session and payload at time [nanos]. *)
Definition sendeap_request (version : string) (cfg : option SnssaiRoutingConfig) (nanos : Z)
  (session : Session) (eapPayload : bytes) : AaaForwardRequest :=
  let '(sst, sd) := DecodeSnssaiKey session in
  mkFwdReq version (forward_session_id nanos (s_AuthCtxID session)) (s_AuthCtxID session)
    (s_Gpsi session) (resolveTransportType cfg sst sd) 0 estr DirectionClientInitiated eapPayload.

Definition SendEAP (version : string) (cfg : option SnssaiRoutingConfig)
  (forward : AaaForwardRequest -> AaaForwardResponse + client_error)
  (nanos : Z) (session : Session) (eapPayload : bytes) : bytes + client_error :=
  match forward (sendeap_request version cfg nanos session eapPayload) with
  | inr err => inr err
  | inl resp => inl (fr_Payload resp)
  end.

Lemma span_app p cs rest :
  forallb p cs = true -> match rest with c :: _ => p c = false | [] => True end ->
  span p (cs ++ rest) = (cs, rest).
Proof.
  intros H Hr. induction cs as [|c cs IH]; simpl in *.
  - destruct rest as [|c rest]; simpl; [done|]. by rewrite Hr.
  - apply andb_prop in H as [-> H]. by rewrite (IH H).
Qed.

Lemma show_u8_value sst :
  in_u8 sst -> digits_value (chars (show_uint sst)) = sst /\ chars (show_uint sst) <> [].
Proof.
  intros Hs. pose proof (all_below_spec 256 (fun z =>
    (digits_value (chars (show_uint z)) =? z) && negb (length (chars (show_uint z)) =? 0)%nat) sst) as A.
  assert (B : (digits_value (chars (show_uint sst)) =? sst)
              && negb (length (chars (show_uint sst)) =? 0)%nat = true) by (by apply A; [vm_compute|]).
  apply andb_prop in B as [B C]. split; [by apply Z.eqb_eq|]. by destruct (chars (show_uint sst)).
Qed.

Lemma digit_not_space c : is_digit c = true -> is_nl c = false /\ is_space c = false.
Proof.
  unfold is_digit, in_range, is_nl, is_space. intros H. zbool. split.
  - apply Z.eqb_neq. lia.
  - apply orb_false_intro; [|apply Z.eqb_neq; lia]. apply andb_false_intro2, Z.leb_gt. lia.
Qed.

Lemma skip_space_digits ds rest :
  ds <> [] -> forallb is_digit ds = true -> skip_space (ds ++ rest) = Some (ds ++ rest).
Proof.
  destruct ds as [|c t]; [done|]. simpl. intros _ [H _]%andb_prop.
  destruct (digit_not_space c H) as [-> ->]. done.
Qed.

(** A digit run read back by [Sscanf]. *)
Lemma show_u8_scan sst rest :
  in_u8 sst -> match rest with c :: _ => is_digit c = false | [] => True end ->
  scan_u8 (chars (show_uint sst) ++ rest) = sst.
Proof.
  intros Hs Hr. destruct (show_u8_value sst Hs) as [E Hne]. assert (D := show_u8_digits sst Hs).
  unfold scan_u8. rewrite (skip_space_digits _ _ Hne D), (span_app _ _ _ D Hr). simpl. rewrite E.
  destruct (length (chars (show_uint sst)) =? 0)%nat eqn:L.
  - apply Nat.eqb_eq, length_zero_iff_nil in L. done.
  - destruct (255 <? sst) eqn:G; [zsolve|done].
Qed.

Lemma span_prefix p cs rest :
  forallb p cs = true -> fst (span p (cs ++ rest)) = cs ++ fst (span p rest).
Proof.
  intros H. induction cs as [|c cs IH]; simpl in *; [done|]. apply andb_prop in H as [-> H].
  destruct (span p (cs ++ rest)) eqn:E. simpl. simpl in IH. by rewrite (IH H).
Qed.

Lemma scan_pair_token cs tok rest : scan_s cs = Some (tok, rest) -> fst (scan_pair cs) = tok.
Proof.
  unfold scan_pair. intros ->. destruct rest as [|c rest]; [done|].
  destruct (_ =? 58); [|done]. by destruct (scan_s rest) as [[? ?]|].
Qed.

Definition colon : char := Ascii.Ascii false true false true true true false false.
Lemma scan_s_key ds sd :
  ds <> [] -> forallb is_digit ds = true ->
  exists more rest, scan_s (ds ++ colon :: sd) = Some (ds ++ colon :: more, rest).
Proof.
  intros Hne D. unfold scan_s. rewrite (skip_space_digits _ _ Hne D).
  destruct (span (fun c => negb (is_space c)) (ds ++ colon :: sd)) as [tok rest] eqn:Es.
  assert (F := span_prefix (fun c => negb (is_space c)) ds (colon :: sd)).
  rewrite Es in F. simpl in F.
  destruct (span (fun c => negb (is_space c)) sd) as [more r]. simpl in F. exists more, rest.
  rewrite F.
  - by destruct ds.
  - apply forallb_forall. intros c Hc. rewrite forallb_forall in D.
    by destruct (digit_not_space c (D c Hc)) as [_ ->].
Qed.

(** What the key of a slice decodes to: the SST comes back, the SD never does. *)
Lemma DecodeSnssaiKey_built x sst sd :
  in_u8 sst -> s_SnssaiKey x = show_uint sst +:+ ":" +:+ sd -> DecodeSnssaiKey x = (sst, estr).
Proof.
  intros Hs Hk. rewrite (surjective_pairing (DecodeSnssaiKey x)).
  f_equal; [|apply DecodeSnssaiKey_drops_sd].
  destruct (show_u8_value sst Hs) as [_ Hne]. assert (D := show_u8_digits sst Hs).
  unfold DecodeSnssaiKey. rewrite Hk, !chars_app.
  replace (is_empty (show_uint sst +:+ ":" +:+ sd)) with false by (by destruct (show_uint sst)).
  destruct (scan_s_key _ (chars sd) Hne D) as (more & rest & Hs_).
  change (chars ":" ++ chars sd) with (colon :: chars sd).
  assert (G := scan_pair_token _ _ _ Hs_). destruct (scan_pair _) as [t1 t2]. simpl in *. subst t1.
  rewrite (show_u8_scan sst (colon :: more) Hs eq_refl).
  by destruct (chars (show_uint sst)).
Qed.

Section SendEAP.
Context (version : string) (cfg : option SnssaiRoutingConfig).
Context (forward : AaaForwardRequest -> AaaForwardResponse + client_error).

(** What reaches the AAA gateway for a message of a slice's session: one
    request with the session's context, subscriber and payload unchanged, under a
    session id that ends in the context id; the gateway's payload or error is
    returned as it is.  The transport is chosen by the SST alone (an exact route
    with an SD is never used), and the request's slice fields are always empty. *)
Theorem SendEAP_forwards nanos x sst sd payload :
  in_u8 sst -> s_SnssaiKey x = show_uint sst +:+ ":" +:+ sd ->
  exists req,
    SendEAP version cfg forward nanos x payload
      = match forward req with inl resp => inl (fr_Payload resp) | inr err => inr err end
    /\ f_AuthCtxID req = s_AuthCtxID x /\ f_GPSI req = s_Gpsi x /\ f_Payload req = payload
    /\ f_SessionID req = forward_session_id nanos (s_AuthCtxID x)
    /\ f_TransportType req = resolveTransportType cfg sst estr
    /\ f_Sst req = 0 /\ f_Sd req = estr.
Proof.
  intros Hs Hk. exists (sendeap_request version cfg nanos x payload). unfold SendEAP.
  split; [by destruct (forward _)|].
  unfold sendeap_request. rewrite (DecodeSnssaiKey_built x sst sd Hs Hk). done.
Qed.
End SendEAP.

Definition routing_example : SnssaiRoutingConfig :=
  let entry sst sd protocol := mkEntry sst sd protocol "aaa.example" 1812 "secret" None in
  mkRouting (Some (entry 0 estr "RADIUS")) [entry 1 estr "RADIUS"] [entry 1 "0000AB" "DIAMETER"].

Lemma SendEAP_forwards_witness :
  resolveTransportType (Some routing_example) 1 "0000AB" = TransportDIAMETER
  /\ exists req,
    SendEAP "1.0" (Some routing_example) (fun r => inl (mkFwdResp "1.0" (f_SessionID r) (f_AuthCtxID r) [3])) 7
      (WithSnssai (NewSession "c" "g" 0) "1:0000AB") [1; 2] = inl [3]
    /\ f_TransportType req = TransportRADIUS /\ f_Sst req = 0.
Proof.
  split; [reflexivity|].
  destruct (SendEAP_forwards "1.0" (Some routing_example)
    (fun r => inl (mkFwdResp "1.0" (f_SessionID r) (f_AuthCtxID r) [3])) 7
    (WithSnssai (NewSession "c" "g" 0) "1:0000AB") 1 "0000AB" [1; 2]) as (req & E & _ & _ & _ & _ & T & S & _).
  - done.
  - reflexivity.
  - exists req. split; [exact E|]. split; [exact T|exact S].
Defined.

(** The three-level lookup: an exact entry wins over an SST entry, which wins over
    the default; without any, RADIUS. *)
Lemma resolveTransportType_levels c sst sd :
  let protocol e := if str_eqb (re_Protocol e) "DIAMETER" then TransportDIAMETER else TransportRADIUS in
  (exists e, e ∈ routeExact c /\ re_SST e = sst /\ re_SD e = sd
     /\ resolveTransportType (Some c) sst sd = protocol e)
  \/ ((forall e, e ∈ routeExact c -> ~ (re_SST e = sst /\ re_SD e = sd))
      /\ ((exists e, e ∈ routeSST c /\ re_SST e = sst /\ resolveTransportType (Some c) sst sd = protocol e)
          \/ ((forall e, e ∈ routeSST c -> re_SST e <> sst)
              /\ resolveTransportType (Some c) sst sd
                  = match routeDefault c with Some e => protocol e | None => TransportRADIUS end))).
Proof.
  intros protocol. unfold resolveTransportType.
  destruct (List.find _ (routeExact c)) as [e|] eqn:E1.
  - left. exists e. apply find_some in E1 as [Hin H]. apply andb_prop in H as [H1 H2].
    split; [by apply list_elem_of_In|]. apply str_eqb_true in H2. split; [lia|]. done.
  - right. split.
    { intros e He [H1 H2]. apply list_elem_of_In in He. apply (find_none _ _ E1) in He.
      rewrite H1, H2, str_eqb_refl, Z.eqb_refl in He. done. }
    destruct (List.find _ (routeSST c)) as [e|] eqn:E2.
    + left. exists e. apply find_some in E2 as [Hin H]. split; [by apply list_elem_of_In|]. split; [lia|done].
    + right. split; [|done]. intros e He H1. apply list_elem_of_In in He. apply (find_none _ _ E2) in He. lia.
Qed.

(** ** Reverse flows: correlation.go, adapters.go, server_initiated.go *)
Module Coordinator.

Record NssaaSessionContext : Type := mkCtx {
  c_AuthCtxID : string; c_SessionID : string; c_GPSI : string; c_Supi : string;
  c_ReauthNotifURI : string; c_RevocNotifURI : string; c_CallbackOwner : string;
  c_HasAIWContext : bool }.

Inductive Completion : Type := CompletionStateOnly | CompletionAMFNotified | CompletionAIWLinked.
Record AaaServerInitiatedResponse : Type := mkSIResp {
  sr_Version : string; sr_SessionID : string; sr_AuthCtxID : string; sr_MessageType : string;
  sr_ResultCode : Z; sr_Payload : bytes; sr_ErrorCause : string }.
Record ServerInitiatedResult : Type := mkResult {
  r_Response : AaaServerInitiatedResponse; r_Completion : Completion }.
Definition r_SessionID (r : ServerInitiatedResult) : string := sr_SessionID (r_Response r).
Definition r_AuthCtxID (r : ServerInitiatedResult) : string := sr_AuthCtxID (r_Response r).

Inductive biz_error : Type :=
| ErrCorrelation (msg : string)
| ErrUnresolved
| ErrLoad (e : store_error)
| ErrNoOwner
| ErrUnsupported (mt : string)
| ErrSave (msg : string)
| ErrNotify (msg : string)
| ErrNoLinker
| ErrEmptyPayload.

(** A notification posted to the AMF. *)
Inductive notification : Type :=
| ReAuth (uri authCtxID : string) (payload : bytes)
| Revocation (uri authCtxID : string) (payload : bytes).

Section Coordinator.
Context {N A : Type} `{!Repo N NssaaSession, !LawfulRepo N NssaaSession}
  `{!Repo A AiwSession, !LawfulRepo A AiwSession}.
(** Redis: the correlation entry of a session id, if any, or an error. *)
Context (corr : string -> result string (option SessionCorrEntry)).
(** The AMF client's answer to a notification: [None] is success. *)
Context (notifier : notification -> option string).
Context (has_linker : bool) (now : Z).

Record world : Type := mkWorld { nssaa : N; aiw : A; outbox : list notification }.

(** A step of the coordinator on the stores and the outbox. *)
Definition M (X : Type) : Type := world -> world * result biz_error X.
Definition ret {X} (x : X) : M X := fun w => (w, Ok x).
Definition fail {X} (e : biz_error) : M X := fun w => (w, Err e).
Definition bind {X Y} (m : M X) (k : X -> M Y) : M Y := fun w =>
  match m w with
  | (w', Ok x) => k x w'
  | (w', Err e) => (w', Err e)
  | (w', Panic) => (w', Panic)
  end.
Local Notation "'do!' x := m 'in' k" := (bind m (fun x => k)) (at level 10, x name, m at level 100, k at level 200).

Definition loadN (id : string) : M NssaaSession := fun w =>
  (w, map_err ErrLoad (load (nssaa w) id)).
Definition saveN (s : NssaaSession) : M unit := fun w =>
  let '(n, err) := save (nssaa w) s in
  (mkWorld n (aiw w) (outbox w), match err with None => Ok tt | Some e => Err (ErrSave e) end).
Definition loadA (id : string) : M AiwSession := fun w =>
  (w, map_err ErrLoad (load (aiw w) id)).
Definition saveA (s : AiwSession) : M unit := fun w =>
  let '(a, err) := save (aiw w) s in
  (mkWorld (nssaa w) a (outbox w), match err with None => Ok tt | Some e => Err (ErrSave e) end).
Definition notify (n : notification) : M unit := fun w =>
  match notifier n with
  | Some e => (w, Err (ErrNotify e))
  | None => (mkWorld (nssaa w) (aiw w) (outbox w ++ [n]), Ok tt)
  end.

(** NssaaSessionResolver.load *)
Definition LoadAuthContext (authCtxID : string) : M NssaaSessionContext :=
  do! s := loadN authCtxID in
  ret (mkCtx (n_AuthCtxID s) estr (n_GPSI s) estr (n_ReauthURI s) (n_RevocURI s)
         (n_CallbackOwner s) (n_HasAIWContext s)).

(** CorrelationResolver.Resolve: first the auth context id, then the session. *)
Definition resolve_id (sessionID authCtxID : string) : result biz_error string :=
  if is_empty sessionID then Ok authCtxID
  else match corr sessionID with
  | Err e => Err (ErrCorrelation e)
  | Ok (Some entry) => Ok (if is_empty authCtxID then ce_AuthCtxID entry else authCtxID)
  | Ok None => Ok authCtxID
  | Panic => Panic
  end.
Definition Resolve (sessionID authCtxID : string) : M NssaaSessionContext :=
  do! resolved := (fun w => (w, resolve_id sessionID authCtxID)) in
  if is_empty resolved then fail ErrUnresolved
  else
    do! c := LoadAuthContext resolved in
    ret (mkCtx resolved sessionID (c_GPSI c) (c_Supi c) (c_ReauthNotifURI c) (c_RevocNotifURI c)
           (c_CallbackOwner c) (c_HasAIWContext c)).

(** ReverseFlowStateWriter *)
Definition MarkReauthPending (id : string) : M unit :=
  do! s := loadN id in saveN (nssaa_update "PENDING" (n_EapPayload s) now s).
Definition MarkRevoked (id : string) : M unit :=
  do! s := loadN id in saveN (nssaa_update "REVOKED" (n_EapPayload s) now s).
Definition ApplyCoA (id : string) (payload : bytes) : M unit :=
  do! s := loadN id in saveN (nssaa_update "AUTHORIZED" payload now s).

(** AIWCompletionLinker *)
Definition MarkAIWLinked (id : string) : M unit :=
  do! s := loadA id in
  saveA (aiw_complete (if is_empty (a_Status s) then "PENDING" else a_Status s) now s).

Definition link_aiw (c : NssaaSessionContext) (completion : Completion) : M Completion :=
  if str_eqb (c_CallbackOwner c) "ausf" && c_HasAIWContext c then
    if negb has_linker then fail ErrNoLinker
    else do! _ := MarkAIWLinked (c_AuthCtxID c) in ret CompletionAIWLinked
  else ret completion.

Definition notify_amf (c : NssaaSessionContext) (uri : string) (n : notification) : M Completion :=
  if str_eqb (c_CallbackOwner c) "amf" && negb (is_empty uri) then
    do! _ := notify n in ret CompletionAMFNotified
  else ret CompletionStateOnly.

(** ServerInitiatedResult.Validate *)
Definition Validate (r : ServerInitiatedResult) : option biz_error :=
  if len (sr_Payload (r_Response r)) =? 0 then Some ErrEmptyPayload else None.
(** The result; the fields the composite literal leaves out are zero.
    [return result, result.Validate()] *)
Definition finish (req : AaaServerInitiatedRequest) (c : NssaaSessionContext) (payload : bytes)
  (completion : Completion) : M ServerInitiatedResult :=
  let result := mkResult (mkSIResp CurrentVersion (si_SessionID req) (c_AuthCtxID c) estr 0 payload estr)
    completion in
  match Validate result with Some e => fail e | None => ret result end.

Definition handleRAR (req : AaaServerInitiatedRequest) (c : NssaaSessionContext) : M ServerInitiatedResult :=
  do! _ := MarkReauthPending (c_AuthCtxID c) in
  do! k := notify_amf c (c_ReauthNotifURI c)
         (ReAuth (c_ReauthNotifURI c) (c_AuthCtxID c) (si_Payload req)) in
  do! k := link_aiw c k in
  finish req c [2; 0; 0; 12] k.
Definition handleASR (req : AaaServerInitiatedRequest) (c : NssaaSessionContext) : M ServerInitiatedResult :=
  do! _ := MarkRevoked (c_AuthCtxID c) in
  do! k := notify_amf c (c_RevocNotifURI c)
         (Revocation (c_RevocNotifURI c) (c_AuthCtxID c) (si_Payload req)) in
  do! k := link_aiw c k in
  finish req c [1] k.
Definition handleCoA (req : AaaServerInitiatedRequest) (c : NssaaSessionContext) : M ServerInitiatedResult :=
  do! _ := ApplyCoA (c_AuthCtxID c) (si_Payload req) in
  do! k := link_aiw c CompletionStateOnly in
  finish req c [2; 0; 0; 12] k.

Definition Handle (req : AaaServerInitiatedRequest) : M ServerInitiatedResult :=
  do! c := Resolve (si_SessionID req) (si_AuthCtxID req) in
  if is_empty (c_CallbackOwner c) then fail ErrNoOwner
  else if str_eqb (si_MessageType req) "RAR" then handleRAR req c
  else if str_eqb (si_MessageType req) "ASR" then handleASR req c
  else if str_eqb (si_MessageType req) "COA" then handleCoA req c
  else fail (ErrUnsupported (si_MessageType req)).

(** *** What the steps do *)
Lemma bind_Ok {X Y} (m : M X) (k : X -> M Y) w w' y :
  bind m k w = (w', Ok y) -> exists w1 x, m w = (w1, Ok x) /\ k x w1 = (w', Ok y).
Proof. unfold bind. destruct (m w) as [w1 [x|e|]]; [eauto|done..]. Qed.
Lemma bind_Err {X Y} (m : M X) (k : X -> M Y) w w' e :
  bind m k w = (w', Err e) ->
  m w = (w', Err e) \/ exists w1 x, m w = (w1, Ok x) /\ k x w1 = (w', Err e).
Proof. unfold bind. destruct (m w) as [w1 [x|e'|]]; [eauto|naive_solver|done]. Qed.

(** The two worlds hold the same sessions and the same outbox. *)
Definition same_world (w w' : world) : Prop :=
  load (nssaa w') = load (nssaa w) /\ load (aiw w') = load (aiw w) /\ outbox w' = outbox w.
(** The slice session [id] went from [s] to [s'] and nothing else changed. *)
Definition rewritten (w w' : world) (id : string) (s s' : NssaaSession) : Prop :=
  load (nssaa w) id = Ok s /\ load (nssaa w') id = Ok s'
  /\ (forall k, k <> id -> load (nssaa w') k = load (nssaa w) k)
  /\ aiw w' = aiw w /\ outbox w' = outbox w.

Lemma update_nssaa id (f : NssaaSession -> NssaaSession) w w' r :
  (forall s, n_AuthCtxID (f s) = n_AuthCtxID s) ->
  bind (loadN id) (fun s => saveN (f s)) w = (w', r) ->
  match r with
  | Ok _ => exists s, rewritten w w' id s (f s)
  | Err _ | Panic => same_world w w'
  end.
Proof.
  intros Hf. unfold bind, loadN. destruct (load (nssaa w) id) as [s|e|] eqn:E; simpl.
  2,3: by intros [= <- <-].
  assert (Hk : key_of (f s) = id) by (rewrite <- (load_key _ _ _ E); apply Hf).
  unfold saveN. destruct (save (nssaa w) (f s)) as [n [e|]] eqn:Es; intros [= <- <-].
  - split; [|done]. by apply (save_failed _ _ _ e Es).
  - exists s. split; [done|]. simpl. assert (F := save_same _ _ _ Es). rewrite Hk in F.
    split; [done|]. split; [|done]. intros k Hne. assert (G := save_other (nssaa w) (f s) k).
    rewrite Es, Hk in G. by apply G.
Qed.

(** The writer's effect, by message type. *)
Definition written (req : AaaServerInitiatedRequest) (s : NssaaSession) : NssaaSession :=
  let mt := si_MessageType req in
  if str_eqb mt "RAR" then nssaa_update "PENDING" (n_EapPayload s) now s
  else if str_eqb mt "ASR" then nssaa_update "REVOKED" (n_EapPayload s) now s
  else nssaa_update "AUTHORIZED" (si_Payload req) now s.
(** The notifications owed to the AMF. *)
Definition owed (req : AaaServerInitiatedRequest) (id : string) (s : NssaaSession) : list notification :=
  let mt := si_MessageType req in
  if negb (str_eqb (n_CallbackOwner s) "amf") then []
  else if str_eqb mt "RAR" && negb (is_empty (n_ReauthURI s)) then [ReAuth (n_ReauthURI s) id (si_Payload req)]
  else if str_eqb mt "ASR" && negb (is_empty (n_RevocURI s)) then [Revocation (n_RevocURI s) id (si_Payload req)]
  else [].
Definition supported (mt : string) : bool :=
  str_eqb mt "RAR" || str_eqb mt "ASR" || str_eqb mt "COA".

Lemma notify_amf_spec c uri n w w' r :
  notify_amf c uri n w = (w', r) ->
  match r with
  | Ok k =>
      (str_eqb (c_CallbackOwner c) "amf" && negb (is_empty uri) = true /\ k = CompletionAMFNotified
       /\ w' = mkWorld (nssaa w) (aiw w) (outbox w ++ [n]))
      \/ (str_eqb (c_CallbackOwner c) "amf" && negb (is_empty uri) = false
          /\ k = CompletionStateOnly /\ w' = w)
  | Err _ | Panic => w' = w
  end.
Proof.
  unfold notify_amf. destruct (_ && _) eqn:E; [|intros [= <- <-]; by right].
  unfold bind, notify. destruct (notifier n); intros [= <- <-]; [done|by left].
Qed.

(** Linking needs an AUSF-owned session, so it never follows a notification. *)
Lemma link_aiw_spec c k w w' r :
  link_aiw c k w = (w', r) ->
  nssaa w' = nssaa w /\ outbox w' = outbox w /\
  match r with
  | Ok k' =>
      (str_eqb (c_CallbackOwner c) "ausf" && c_HasAIWContext c = false /\ w' = w /\ k' = k)
      \/ (str_eqb (c_CallbackOwner c) "ausf" && c_HasAIWContext c = true /\ k' = CompletionAIWLinked
          /\ exists a, load (aiw w) (c_AuthCtxID c) = Ok a
             /\ load (aiw w') (c_AuthCtxID c)
                 = Ok (aiw_complete (if is_empty (a_Status a) then "PENDING" else a_Status a) now a)
             /\ forall id, id <> c_AuthCtxID c -> load (aiw w') id = load (aiw w) id)
  | Err _ | Panic =>
      str_eqb (c_CallbackOwner c) "ausf" = true /\ load (aiw w') = load (aiw w)
  end.
Proof.
  unfold link_aiw. destruct (_ && _) eqn:Eo; [|intros [= <- <-]; by auto 6].
  apply andb_prop in Eo as Eo'. destruct Eo' as [Eo1 _].
  destruct has_linker; simpl; [|by intros [= <- <-]].
  unfold bind at 1, MarkAIWLinked, bind, loadA.
  destruct (load (aiw w) (c_AuthCtxID c)) as [a|e|] eqn:E; simpl; try by intros [= <- <-].
  set (a' := aiw_complete _ _ _).
  assert (Hk : key_of a' = c_AuthCtxID c) by (rewrite <- (load_key _ _ _ E); done).
  unfold saveA. destruct (save (aiw w) a') as [x [e|]] eqn:Es; simpl; intros [= <- <-]; simpl.
  - split_and!; try done. by apply (save_failed _ _ _ e Es).
  - split_and!; try done. right. split_and!; try done. exists a. split; [done|].
    assert (F := save_same _ _ _ Es). rewrite Hk in F. split; [done|].
    intros id Hne. assert (G := save_other (aiw w) a' id). rewrite Es, Hk in G. by apply G.
Qed.

Lemma resolve_id_given sid aid id : resolve_id sid aid = Ok id -> aid <> estr -> id = aid.
Proof.
  unfold resolve_id. intros E Hne. destruct aid; [done|]. simpl in E. by repeat case_match; simplify_eq.
Qed.

(** The context a request resolves to, with the stored session behind it. *)
Lemma Resolve_spec sid aid w w' r :
  Resolve sid aid w = (w', r) ->
  w' = w /\
  forall c, r = Ok c ->
    exists s, load (nssaa w) (c_AuthCtxID c) = Ok s
      /\ c = mkCtx (c_AuthCtxID c) sid (n_GPSI s) estr (n_ReauthURI s) (n_RevocURI s)
              (n_CallbackOwner s) (n_HasAIWContext s)
      /\ (aid <> estr -> c_AuthCtxID c = aid).
Proof.
  unfold Resolve, bind at 1. destruct (resolve_id sid aid) as [id|e|] eqn:Ei.
  2,3: by intros [= <- <-].
  destruct (is_empty id); [by intros [= <- <-]|].
  unfold LoadAuthContext, loadN, bind, ret.
  destruct (load (nssaa w) id) as [s|e|] eqn:El; simpl; intros [= <- <-]; split; try done.
  intros c [= <-]. simpl. exists s. split; [done|]. split; [done|]. by apply resolve_id_given with sid.
Qed.

(** The common shape of the three handlers. *)
Definition notify_step (req : AaaServerInitiatedRequest) (c : NssaaSessionContext) : M Completion :=
  if str_eqb (si_MessageType req) "RAR" then
    notify_amf c (c_ReauthNotifURI c) (ReAuth (c_ReauthNotifURI c) (c_AuthCtxID c) (si_Payload req))
  else if str_eqb (si_MessageType req) "ASR" then
    notify_amf c (c_RevocNotifURI c) (Revocation (c_RevocNotifURI c) (c_AuthCtxID c) (si_Payload req))
  else ret CompletionStateOnly.
Definition answer_payload (mt : string) : bytes := if str_eqb mt "ASR" then [1] else [2; 0; 0; 12].
Definition flow (req : AaaServerInitiatedRequest) (c : NssaaSessionContext) : M ServerInitiatedResult :=
  do! _ := bind (loadN (c_AuthCtxID c)) (fun s => saveN (written req s)) in
  do! k := notify_step req c in
  do! k := link_aiw c k in
  finish req c (answer_payload (si_MessageType req)) k.

Lemma Handle_flow req w :
  Handle req w =
    bind (Resolve (si_SessionID req) (si_AuthCtxID req)) (fun c =>
      if is_empty (c_CallbackOwner c) then fail ErrNoOwner
      else if supported (si_MessageType req) then flow req c
      else fail (ErrUnsupported (si_MessageType req))) w.
Proof.
  unfold Handle. cbv beta delta [bind]. destruct (Resolve _ _ w) as [w1 [c|e|]]; [|done..].
  destruct (is_empty (c_CallbackOwner c)); [done|].
  unfold supported, flow, notify_step, answer_payload, written.
  destruct (str_eqb (si_MessageType req) "RAR") eqn:E1.
  - apply str_eqb_true in E1. rewrite E1. done.
  - destruct (str_eqb (si_MessageType req) "ASR") eqn:E2; [done|].
    by destruct (str_eqb (si_MessageType req) "COA") eqn:E3.
Qed.

Lemma notify_step_spec req c s w w' r :
  c_CallbackOwner c = n_CallbackOwner s -> c_ReauthNotifURI c = n_ReauthURI s ->
  c_RevocNotifURI c = n_RevocURI s ->
  notify_step req c w = (w', r) ->
  match r with
  | Ok k => w' = mkWorld (nssaa w) (aiw w) (outbox w ++ owed req (c_AuthCtxID c) s)
            /\ (k = CompletionAMFNotified <-> owed req (c_AuthCtxID c) s <> [])
  | Err _ | Panic => w' = w
  end.
Proof.
  intros Ho Hr Hv. unfold notify_step, owed. rewrite <- Ho, <- Hr, <- Hv.
  destruct (str_eqb (si_MessageType req) "RAR") eqn:E1.
  2: destruct (str_eqb (si_MessageType req) "ASR") eqn:E2.
  - intros E%notify_amf_spec. apply str_eqb_true in E1. rewrite E1. destruct r; try done.
    destruct (str_eqb (c_CallbackOwner c) "amf"), (is_empty (c_ReauthNotifURI c)); simpl in *;
      destruct w; naive_solver (by rewrite ?app_nil_r).
  - intros E%notify_amf_spec. destruct r; try done.
    destruct (str_eqb (c_CallbackOwner c) "amf"), (is_empty (c_RevocNotifURI c)); simpl in *;
      destruct w; naive_solver (by rewrite ?app_nil_r).
  - intros [= <- <-]. simpl. destruct w, (negb _); simpl; by rewrite app_nil_r.
Qed.

Lemma finish_answer req c mt k w :
  finish req c (answer_payload mt) k w
  = (w, Ok (mkResult (mkSIResp CurrentVersion (si_SessionID req) (c_AuthCtxID c) estr 0
             (answer_payload mt) estr) k)).
Proof. unfold finish, answer_payload. by destruct (str_eqb mt "ASR"). Qed.

(** Whether the flow ends in the AIW store. *)
Definition links (s : NssaaSession) : bool :=
  str_eqb (n_CallbackOwner s) "ausf" && n_HasAIWContext s.

(** C6: what a completed server-initiated message has done: the stored session of
    the context named by the request got the status and payload of the message
    type; every notification owed to an AMF owner was accepted, once, and no other
    was sent; an AUSF-owned session with an AIW context was marked complete there;
    nothing else changed in either store, and the answer names the request's session
    and context. *)
Theorem Handle_completes req w w' r :
  Handle req w = (w', Ok r) ->
  let id := r_AuthCtxID r in
  exists s, load (nssaa w) id = Ok s
    /\ supported (si_MessageType req) = true /\ n_CallbackOwner s <> estr
    /\ (si_AuthCtxID req <> estr -> id = si_AuthCtxID req) /\ r_SessionID r = si_SessionID req
    /\ load (nssaa w') id = Ok (written req s)
    /\ (forall k, k <> id -> load (nssaa w') k = load (nssaa w) k /\ load (aiw w') k = load (aiw w) k)
    /\ outbox w' = outbox w ++ owed req id s
    /\ (if links s then exists a, load (aiw w) id = Ok a
          /\ load (aiw w') id
              = Ok (aiw_complete (if is_empty (a_Status a) then "PENDING" else a_Status a) now a)
        else aiw w' = aiw w)
    /\ (r_Completion r = CompletionAMFNotified <-> owed req id s <> []).
Proof.
  rewrite Handle_flow. intros (w0 & c & Er & E)%bind_Ok.
  apply Resolve_spec in Er as [-> Hc]. destruct (Hc c eq_refl) as (s & Hl & Ec & Hid).
  destruct (is_empty (c_CallbackOwner c)) eqn:Eo; [done|].
  destruct (supported _) eqn:Es; [|done].
  unfold flow in E. apply bind_Ok in E as (w1 & [] & E1 & E).
  apply (update_nssaa (c_AuthCtxID c) (written req)) in E1; [|intros; unfold written; by repeat case_match].
  destruct E1 as (s' & Hl' & Hw & Hf & Ha & Hob). rewrite Hl in Hl'. injection Hl' as <-.
  apply bind_Ok in E as (w2 & k & E2 & E).
  apply (notify_step_spec req c s) in E2; [|by rewrite Ec..]. destruct E2 as [-> Hk].
  apply bind_Ok in E as (w3 & k' & E3 & E). apply link_aiw_spec in E3 as (Hn & Ho & E3).
  rewrite finish_answer in E. injection E as <- <-. unfold r_AuthCtxID, r_SessionID. simpl in *. exists s. rewrite Hn, Ho, Hob.
  assert (Hown : c_CallbackOwner c = n_CallbackOwner s /\ c_HasAIWContext c = n_HasAIWContext s)
    by (by rewrite Ec).
  destruct Hown as [Hown Hctx]. unfold links. rewrite Hown, Hctx in *.
  assert (n_CallbackOwner s <> estr) by (by intros X; rewrite X in Eo).
  destruct E3 as [(Hlk & -> & ->)|(Hlk & -> & a & Ha1 & Ha2 & Ha3)]; rewrite Hlk; simpl in *; rewrite Ha in *.
  - split_and!; try done. intros k0 Hne. by split; [apply Hf|].
  - assert (Hamf : owed req (c_AuthCtxID c) s = []).
    { unfold owed. apply andb_prop in Hlk as [Hlk _]. apply str_eqb_true in Hlk. by rewrite Hlk. }
    rewrite Hamf. split_and!; try done; [|eauto]. intros k0 Hne. by split; [apply Hf|apply Ha3].
Qed.


(** Disconnect requests are not served: for every message type other than
    RAR, ASR and COA, in particular the DM and STR the gateway forwards, the
    coordinator fails without changing a store or sending a notification. *)
Theorem unsupported_rejected req w :
  supported (si_MessageType req) = false ->
  fst (Handle req w) = w /\ forall r, snd (Handle req w) <> Ok r.
Proof.
  intros Hs. rewrite Handle_flow. destruct (Resolve (si_SessionID req) (si_AuthCtxID req) w) as [w1 r] eqn:Er.
  unfold bind. rewrite Er. apply Resolve_spec in Er as [-> _].
  destruct r as [c|e|]; [rewrite Hs; by destruct (is_empty _)|done|done].
Qed.

End Coordinator.

(** An AMF-owned session in memory, and an abort request for it. *)
Definition stored : NssaaSession :=
  mkNssaa "ctx" "msisdn-12345" 1 "000001" "amf-1" "http://amf/reauth" "http://amf/revoc" [9] "PENDING"
    "amf" false 1 1 100.
Definition w_example : @world (InMemory.InMemoryStore NssaaSession) (InMemory.InMemoryStore AiwSession) :=
  mkWorld (InMemory.Save InMemory.NewInMemoryStore stored) InMemory.NewInMemoryStore [].
Definition asr : AaaServerInitiatedRequest := mkSIReq "1.0" "sid" "ctx" "DIAMETER" "ASR" [7].
Definition run_example (notifier : notification -> option string) (req : AaaServerInitiatedRequest) :=
  Handle (fun _ => Ok None) notifier true 50 req w_example.

Lemma Handle_completes_witness :
  exists w' r, run_example (fun _ => None) asr = (w', Ok r)
    /\ outbox w' = [Revocation "http://amf/revoc" "ctx" [7]]
    /\ load (nssaa w') "ctx" = Ok (nssaa_update "REVOKED" [9] 50 stored).
Proof.
  destruct (run_example (fun _ => None) asr) as [w' [r|e|]] eqn:E; [|exfalso; vm_compute in E; discriminate E..].
  exists w', r. split; [done|]. assert (Hid : r_AuthCtxID r = "ctx") by (vm_compute in E; by injection E as _ <-).
  destruct (Handle_completes (fun _ => Ok None) (fun _ => None) true 50 asr w_example w' r E)
    as (s & Hs & _ & _ & _ & _ & Hn & _ & Ho & _).
  rewrite Hid in *. vm_compute in Hs. injection Hs as <-. by split.
Defined.


Lemma unsupported_rejected_witness :
  let dm := mkSIReq "1.0" "sid" "ctx" "RADIUS" "DM" [] in
  fst (run_example (fun _ => None) dm) = w_example
  /\ forall r, snd (run_example (fun _ => None) dm) <> Ok r.
Proof. apply unsupported_rejected. reflexivity. Defined.
End Coordinator.
