(* ===== verification/Notify.v ===== *)
(** * internal/amf and the AMF dead-letter queue

    amf.go sends re-authentication and revocation notifications with retries and
    puts a notification that could not be delivered on a Redis list
    (internal/cache/redis/dlq.go), whose consumer posts it again.  The HTTP calls,
    the reachability of Redis and the validity of a payload as raw JSON (on which
    [json.Marshal] of a [json.RawMessage] depends) are parameters. *)
From S2P Require Import Prelude Regex Common Resilience.
Import Validator Resilience.Retry.
Local Open Scope string_scope.
Local Open Scope Z_scope.
Local Open Scope list_scope.

Record AMFDLQItem : Type := mkItem {
  i_ID : string; i_Type : string; i_URI : string; i_Payload : bytes; i_AuthCtxID : string;
  i_Attempt : Z; i_MaxAttempts : Z; i_CreatedAt : Z; i_LastError : string }.

(** ** extractBaseURLAndPath *)

(** [strings.Index]: the text before the first occurrence of the separator, and
    the text from it on. *)
Fixpoint is_prefix (p cs : list char) : bool :=
  match p, cs with
  | [], _ => true
  | a :: p, b :: cs => (ascii_code a =? ascii_code b) && is_prefix p cs
  | _ :: _, [] => false
  end.
Fixpoint index_split (sep cs : list char) : option (list char * list char) :=
  if is_prefix sep cs then Some ([], cs)
  else match cs with
  | [] => None
  | c :: t =>
      match index_split sep t with Some (a, b) => Some (c :: a, b) | None => None end
  end.

Definition extractBaseURLAndPath (uri : string) : result string (string * string) :=
  if is_empty uri then Err "empty uri"
  else match index_split (chars "://") (chars uri) with
  | None => Err ("no scheme in uri: " +:+ uri)
  | Some (scheme, tail) =>
      let rest := drop 3 tail in
      match index_split (chars "/") rest with
      | None => Ok (uri, "/")
      | Some (host, path) =>
          Ok (String.string_of_list_ascii (scheme ++ take 3 tail ++ host),
              String.string_of_list_ascii path)
      end
  end.

Lemma index_split_app sep cs a b : index_split sep cs = Some (a, b) -> a ++ b = cs.
Proof.
  revert a b. induction cs as [|c t IH]; intros a b; simpl.
  - destruct (is_prefix sep []); [|done]. intros. by simplify_eq.
  - destruct (is_prefix sep (c :: t)); [intros; by simplify_eq|].
    destruct (index_split sep t) as [[x y]|]; [|done]. intros. simplify_eq. simpl. by rewrite (IH x b).
Qed.

(** The two parts make up the URI again, with "/" for a missing path. *)
Lemma extractBaseURLAndPath_parts uri base path :
  extractBaseURLAndPath uri = Ok (base, path) ->
  (base +:+ path = uri) \/ (base = uri /\ path = "/").
Proof.
  unfold extractBaseURLAndPath. destruct (is_empty uri); [done|].
  destruct (index_split (chars "://") (chars uri)) as [[scheme tail]|] eqn:E1; [|done].
  destruct (index_split (chars "/") (drop 3 tail)) as [[host p]|] eqn:E2; intros; simplify_eq; [left|by right].
  apply chars_inj. rewrite chars_app, !chars_of_list.
  apply index_split_app in E1, E2. by rewrite <- E1, <- !app_assoc, E2, take_drop.
Qed.

(** ** sendNotification *)
Inductive notify_error : Type :=
| EUri (msg : string)
| ESend (msg : string)
| EServer (status : Z)
| EClient (status : Z).

Section Send.
Context (retryCfg : RetryConfig).
(** The [k]-th [factory.Do] of the call: a status or an error; whether the context
    ends in the back-off after it; whether the payload is valid raw JSON; whether
    the LPUSH succeeds. *)
Context (post : nat -> Z + string) (cancelled : nat -> bool).
Context (valid_json : bytes -> bool) (redis_up : bool).
Context (show_error : option (retry_error notify_error) -> string).

Definition notify_attempt (uri : string) (k : nat) : option notify_error :=
  match extractBaseURLAndPath uri with
  | Err e => Some (EUri e)
  | Panic => None
  | Ok _ =>
      match post k with
      | inr e => Some (ESend e)
      | inl status =>
          if 500 <=? status then Some (EServer status)
          else if 400 <=? status then Some (EClient status)
          else None
      end
  end.

(** [DLQ.Enqueue]: [LPUSH] at the head of the list.  The texts stand for the
    errors of the marshaller and of the client. *)
Definition Enqueue (q : list AMFDLQItem) (item : AMFDLQItem) : list AMFDLQItem * option string :=
  if negb (valid_json (i_Payload item)) then (q, Some "dlq: marshal")
  else if negb redis_up then (q, Some "redis")
  else (item :: q, None).

(** The item queued after the retry loop [d] gave up. *)
Definition failed_item (typ uri authCtxID : string) (payload : bytes) (now : Z)
  (d : retry_run notify_error) : AMFDLQItem :=
  mkItem (authCtxID +:+ "-" +:+ show_uint now) typ uri payload authCtxID (Z.of_nat (calls d))
    (MaxAttempts retryCfg) now (show_error (result_of d)).

Definition sendNotification (typ uri authCtxID : string) (payload : bytes) (now : Z)
  (q : list AMFDLQItem) : list AMFDLQItem * option string :=
  let d := Do (notify_attempt uri) cancelled retryCfg in
  match result_of d with
  | None => (q, None)
  | Some _ => Enqueue q (failed_item typ uri authCtxID payload now d)
  end.

(** No notification disappears without an error: when [sendNotification]
    returns nil, either one of the at most [MaxAttempts] posts was answered with a
    status below 400, or every post failed and exactly one item with the
    notification's address and payload is on the queue; when it returns an error
    the queue is unchanged. *)
Theorem sendNotification_accounts typ uri ctx payload now q :
  let n := Z.to_nat (MaxAttempts (with_defaults retryCfg)) in
  let '(q', err) := sendNotification typ uri ctx payload now q in
  (err = None /\ q' = q /\ exists k, (k < n)%nat /\ notify_attempt uri k = None)
  \/ (err = None /\ (exists item, q' = item :: q /\ i_URI item = uri /\ i_Payload item = payload
                       /\ i_AuthCtxID item = ctx /\ i_Type item = typ)
      /\ ~ exists k, succeeds_at (notify_attempt uri) cancelled n k)
  \/ (err <> None /\ q' = q).
Proof.
  intros n. unfold sendNotification.
  destruct (attempts_spec (notify_attempt uri) cancelled (with_defaults retryCfg) n 0 None [])
    as [_ Hs]; [done|lia|]. change (attempts _ _ (with_defaults retryCfg) 0 n None [])
    with (Do (notify_attempt uri) cancelled retryCfg) in Hs. simpl in Hs.
  destruct (result_of _) as [e|] eqn:Er.
  - unfold Enqueue, failed_item. simpl.
    destruct (valid_json payload); simpl; [|by right; right]. destruct redis_up; simpl; [|by right; right].
    right; left. split; [done|]. split; [by eexists|]. rewrite <- Hs. done.
  - left. destruct Hs as [Hs _]. destruct (Hs eq_refl) as (k & Hk & Hn & _). eauto.
Qed.

(** A loop that was not cancelled made every attempt. *)
Lemma attempts_exhausted cfg fuel a last sl e :
  result_of (attempts (notify_attempt e) cancelled cfg a fuel last sl) <> None ->
  result_of (attempts (notify_attempt e) cancelled cfg a fuel last sl) <> Some ErrContext ->
  calls (attempts (notify_attempt e) cancelled cfg a fuel last sl) = (a + fuel)%nat.
Proof.
  revert a last sl. induction fuel as [|fuel IH]; intros a last sl; simpl; [lia|].
  replace (a + S fuel)%nat with (S a + fuel)%nat by lia.
  destruct (notify_attempt e a); [|done]. destruct (_ <? _); [|apply IH].
  destruct (cancelled a); [done|apply IH].
Qed.
End Send.

(** ** The consumer *)
Inductive dlq_outcome : Type :=
| Idle
| Exhausted (item : AMFDLQItem)
| DeliveredAt (uri : string) (item : AMFDLQItem)
| Requeued (uri : string) (item : AMFDLQItem)
| Lost (uri : string) (item : AMFDLQItem).

Definition bump (e : string) (it : AMFDLQItem) : AMFDLQItem :=
  mkItem (i_ID it) (i_Type it) (i_URI it) (i_Payload it) (i_AuthCtxID it) (i_Attempt it + 1)
    (i_MaxAttempts it) (i_CreatedAt it) e.

(** One pass of the loop of [DLQ.Process]: [BRPOP] from the tail, then discard,
    deliver, or put back.  [http] is the outcome of the post to a URI (the status,
    or the error [deliverToAMF] gives when no answer was received), [requeue_ok]
    whether one of the up to six [LPUSH] attempts succeeds. *)
Definition Process_one (http : string -> Z + string) (requeue_ok : bool) (q : list AMFDLQItem)
  : list AMFDLQItem * dlq_outcome :=
  match rev q with
  | [] => (q, Idle)
  | item :: rest =>
      let q := rev rest in
      if (0 <? i_MaxAttempts item) && (i_MaxAttempts item <=? i_Attempt item) then (q, Exhausted item)
      else
        match http (i_URI item) with
        | inl status =>
            if (200 <=? status) && (status <? 300) then (q, DeliveredAt (i_URI item) item)
            else
              let item := bump ("dlq: non-2xx status: " +:+ show_uint status) item in
              if requeue_ok then (item :: q, Requeued (i_URI item) item) else (q, Lost (i_URI item) item)
        | inr e =>
            let item := bump e item in
            if requeue_ok then (item :: q, Requeued (i_URI item) item) else (q, Lost (i_URI item) item)
        end
  end.

(** A notification that went to the dead-letter queue is never delivered:
    after the retries are exhausted the queued item already carries [MaxAttempts]
    attempts, so the consumer discards it unposted even when the AMF would accept
    it, although [sendNotification] reported success. *)
Theorem dead_letter_discarded retryCfg post cancelled valid_json show_error typ uri ctx payload now http ok :
  0 < MaxAttempts retryCfg -> valid_json payload = true ->
  (forall k, notify_attempt post uri k <> None) -> (forall k, cancelled k = false) ->
  exists item,
    sendNotification retryCfg post cancelled valid_json true show_error typ uri ctx payload now []
      = ([item], None)
    /\ Process_one http ok [item] = ([], Exhausted item).
Proof.
  intros Hm Hv Hp Hc. unfold sendNotification, Enqueue.
  set (d := Do (notify_attempt post uri) cancelled retryCfg).
  assert (Hn : MaxAttempts (with_defaults retryCfg) = MaxAttempts retryCfg).
  { unfold with_defaults, default_if_zero. simpl. destruct (MaxAttempts retryCfg =? 0) eqn:E; [zbool; lia|done]. }
  assert (Hr : result_of d <> None /\ result_of d <> Some ErrContext).
  { unfold d, Do. generalize (Z.to_nat (MaxAttempts (with_defaults retryCfg))) as fuel.
    generalize 0%nat as a, (@None notify_error) as last, (@nil Z) as sl.
    intros a last sl fuel. revert a last sl. induction fuel as [|fuel IH]; intros; simpl; [done|].
    destruct (notify_attempt post uri a) eqn:E; [|by destruct (Hp a)].
    rewrite Hc. destruct (_ <? _); apply IH. }
  destruct Hr as [Hr1 Hr2].
  assert (Hcalls := attempts_exhausted post cancelled (with_defaults retryCfg)
    (Z.to_nat (MaxAttempts (with_defaults retryCfg))) 0 None [] uri Hr1 Hr2).
  destruct (result_of d); [|done]. simpl. rewrite Hv. simpl. eexists. split; [done|].
  unfold Process_one. simpl in *. change (calls _) with (calls d) in *. rewrite Hcalls, Hn.
  rewrite Z2Nat.id by lia. replace (0 <? MaxAttempts retryCfg) with true by (symmetry; by apply Z.ltb_lt).
  by rewrite Z.leb_refl.
Qed.

Lemma dead_letter_discarded_witness :
  exists item,
    sendNotification DefaultRetryConfig (fun _ => inl 503) (fun _ => false) (fun _ => true) true
      (fun _ => "max retries exceeded") "SLICE_REVOC" "http://amf/cb" "ctx" [123; 125] 7 [] = ([item], None)
    /\ Process_one (fun _ => inl 200) true [item] = ([], Exhausted item).
Proof.
  apply dead_letter_discarded; [done|done| |done]. intros k. vm_compute. discriminate.
Defined.
