(* ===== verification/Handlers.v ===== *)
(** * internal/api/nssaa and internal/api/aiw: the two service handlers

    [Nssaa] models POST and PUT on slice authentications (N58), [Aiw] those on
    AIW authentications (N60).  A handler maps the decoded request and the state of
    its session repository to the new state, the messages sent to the AAA server
    and the HTTP response.  JSON decoding is represented by its outcome; the rate
    limiters, the AAA router and the generated context identifier are parameters;
    logging and metrics are left out. *)
From S2P Require Import Prelude Regex Common Types Encoding EapSession Storage.
Import Problem Validator.
Local Open Scope string_scope.
Local Open Scope Z_scope.
Local Open Scope list_scope.

(** The outcome of a rate-limit check: a decision or a Redis error. *)
Abbreviation limiter := (string -> result string bool).
(** [AAARouter.SendEAP] for the routing context of the session. *)
Abbreviation aaa_router := (Session -> bytes -> bytes + string).

(** Errors of the limiter let the request through. *)
Definition limited (rl : option limiter) (key : string) : bool :=
  match rl with
  | None => false
  | Some allow => match allow key with Ok allowed => negb allowed | Err _ | Panic => false end
  end.

Definition minute : Z := 60 * second.
Definition hour : Z := 60 * minute.

(** [%q] on ASCII text without control characters. *)
Definition quote_char (c : char) : list char :=
  if (ascii_code c =? 34) || (ascii_code c =? 92) then [Ascii.ascii_of_N 92; c] else [c].
Definition quote (s : string) : string :=
  let q := Ascii.ascii_of_N 34 in
  String.string_of_list_ascii (q :: concat (map quote_char (chars s)) ++ [q]).

Module Nssaa.

Inductive response : Type :=
| RProblem (pd : ProblemDetails)
| RLimited (retryAfter : Z) (pd : ProblemDetails)
| RCreated (location authCtxID gpsi : string) (sst : Z) (sd eapMessage : string)
| RConfirmed (gpsi : string) (sst : Z) (sd eapMessage : string).

(** The generated [SliceAuthInfo] and [SliceAuthConfirmationData]: optional fields
    are pointers. *)
Record SliceAuthInfo : Type := mkInfo {
  b_Gpsi : string; b_Sst : Z; b_Sd : string; b_EapIdRsp : option string;
  b_AmfInstanceId : option string; b_ReauthNotifUri : option string;
  b_RevocNotifUri : option string }.
Record SliceAuthConfirmationData : Type := mkConf {
  cb_Gpsi : string; cb_Sst : Z; cb_Sd : string; cb_EapMessage : option string }.

Record AuthCtx : Type := mkAuthCtx {
  x_AuthCtxID : string; x_GPSI : string; x_SST : Z; x_SD : string; x_AmfInstance : string;
  x_ReauthURI : string; x_RevocURI : string; x_EapPayload : bytes }.

Definition authCtxToNssaaSession (now : Z) (a : AuthCtx) : NssaaSession :=
  mkNssaa (x_AuthCtxID a) (x_GPSI a) (x_SST a) (x_SD a) (x_AmfInstance a) (x_ReauthURI a)
    (x_RevocURI a) (x_EapPayload a) "PENDING" "amf" false 0 0 (now + 5 * minute).

Definition too_many : ProblemDetails :=
  NewProblem 429 "rate-limit-exceeded" "Rate limit exceeded for this request".
(** [write429] *)
Definition write429 (retryAfter : Z) : response := RLimited retryAfter too_many.

Section Handler.
Context {S : Type} `{!Repo S NssaaSession, !LawfulRepo S NssaaSession}.
Context (aaa : option aaa_router) (apiRoot : string).
Context (amfRateLimiter rateLimiter : option limiter).

Definition check (r : result ProblemDetails unit) : result response unit := map_err RProblem r.
Definition fail_field {A} (field reason : string) : result response A :=
  Err (RProblem (ValidationProblem field reason)).

(** A required base64 field. *)
Definition decode_eap (field : string) (v : option string) : result response bytes :=
  match v with
  | None => fail_field field (field +:+ " is required")
  | Some s =>
      if is_empty s then fail_field field (field +:+ " is required")
      else match Base64.DecodeString s with
      | None => fail_field field (field +:+ " must be valid base64-encoded data")
      | Some payload => Ok payload
      end
  end.

Definition deref (p : option string) : string := default estr p.

(** The message for the AAA server and what the client gets: the AAA server's
    answer, or its own message when there is no router or the call fails. *)
Definition forward (session : Session) (payload : bytes) : list (Session * bytes) * bytes :=
  match aaa with
  | None => ([], payload)
  | Some send =>
      ([(session, payload)], match send session payload with inl next => next | inr _ => payload end)
  end.

Definition eap_session (now : Z) (authCtxID gpsi : string) (sst : Z) (sd : string) : Session :=
  WithSnssai (NewSession authCtxID gpsi now) (show_uint sst +:+ ":" +:+ sd).

(** The checks of the create path, in order. *)
Definition create_checks (req : result string (SliceAuthInfo * bool))
  : result response (SliceAuthInfo * bytes) :=
  match req with
  | Panic => Panic
  | Err e => fail_field "body" e
  | Ok (body, snssaiPresent) =>
      let? _ := match b_AmfInstanceId body with
                | Some amf =>
                    if limited amfRateLimiter ("nssaa:ratelimit:amf:" +:+ amf)
                    then Err (write429 60) else Ok tt
                | None => Ok tt
                end in
      let? _ := check (ValidateGPSI (b_Gpsi body)) in
      let? _ := check (ValidateSnssai (b_Sst body) (b_Sd body) (negb snssaiPresent)) in
      let? payload := decode_eap "eapIdRsp" (b_EapIdRsp body) in
      Ok (body, payload)
  end.

Definition CreateSliceAuthenticationContext (now : Z) (uuid : string)
  (req : result string (SliceAuthInfo * bool)) (s : S) : S * list (Session * bytes) * option response :=
  match create_checks req with
  | Panic => (s, [], None)
  | Err resp => (s, [], Some resp)
  | Ok (body, payload) =>
      let authCtx := mkAuthCtx uuid (b_Gpsi body) (b_Sst body) (b_Sd body) (deref (b_AmfInstanceId body))
        (deref (b_ReauthNotifUri body)) (deref (b_RevocNotifUri body)) payload in
      let '(s, err) := save s (authCtxToNssaaSession now authCtx) in
      match err with
      | Some e =>
          (s, [], Some (RProblem (InternalServerProblem ("failed to create auth context: " +:+ e))))
      | None =>
          let '(sent, next) := forward (eap_session now uuid (b_Gpsi body) (b_Sst body) (b_Sd body)) payload in
          (s, sent, Some (RCreated (apiRoot +:+ "/nnssaaf-nssaa/v1/slice-authentications/" +:+ uuid)
            uuid (b_Gpsi body) (b_Sst body) (b_Sd body) (Base64.EncodeToString next)))
      end
  end.

Definition store_problem (authCtxId : string) (e : store_error) : response :=
  match e with
  | ErrSessionNotFound =>
      RProblem (NotFoundProblem ("slice authentication context " +:+ quote authCtxId +:+ " not found"))
  | ErrStore msg => RProblem (InternalServerProblem ("failed to load auth context: " +:+ msg))
  end.

(** The checks of the confirm path: the body, its payload and the stored session. *)
Definition confirm_checks (authCtxId : string) (req : result string (SliceAuthConfirmationData * bool))
  (s : S) : result response (SliceAuthConfirmationData * bytes * NssaaSession) :=
  let? _ := (if limited rateLimiter ("authctx:" +:+ authCtxId) then Err (write429 60) else Ok tt) in
  let? _ := map_err (fun pd => RProblem (ValidationProblem "authCtxId" (Error pd)))
              (ValidateAuthCtxID authCtxId) in
  match req with
  | Panic => Panic
  | Err e => fail_field "body" e
  | Ok (body, snssaiPresent) =>
      let? _ := check (ValidateGPSI (cb_Gpsi body)) in
      let? _ := check (ValidateSnssai (cb_Sst body) (cb_Sd body) (negb snssaiPresent)) in
      let? payload := decode_eap "eapMessage" (cb_EapMessage body) in
      let? dom := map_err (store_problem authCtxId) (load s authCtxId) in
      if negb (str_eqb (cb_Gpsi body) (n_GPSI dom)) then
        fail_field "gpsi" "GPSI does not match the authenticated GPSI for this session"
      else if negb (n_SnssaiSST dom =? cb_Sst body) || negb (str_eqb (n_SnssaiSD dom) (cb_Sd body)) then
        fail_field "snssai" "S-NSSAI does not match the original session"
      else Ok (body, payload, dom)
  end.

Definition ConfirmSliceAuthentication (now : Z) (authCtxId : string)
  (req : result string (SliceAuthConfirmationData * bool)) (s : S)
  : S * list (Session * bytes) * option response :=
  match confirm_checks authCtxId req s with
  | Panic => (s, [], None)
  | Err resp => (s, [], Some resp)
  | Ok (body, payload, dom) =>
      let '(sent, next) := forward (eap_session now authCtxId (cb_Gpsi body) (n_SnssaiSST dom)
                                      (n_SnssaiSD dom)) payload in
      let '(s, err) := save s (nssaa_update "CONFIRMED" next (n_UpdatedAt dom) dom) in
      match err with
      | Some e =>
          (s, sent, Some (RProblem (InternalServerProblem ("failed to update auth context: " +:+ e))))
      | None =>
          (s, sent, Some (RConfirmed (cb_Gpsi body) (cb_Sst body) (cb_Sd body)
            (Base64.EncodeToString next)))
      end
  end.
(** *** Properties *)
Lemma rbind_Ok {E A B} (r : result E A) (f : A -> result E B) b :
  rbind r f = Ok b -> exists a, r = Ok a /\ f a = Ok b.
Proof. destruct r; [eauto|done..]. Qed.
Lemma map_err_Ok {E E' A} (f : E -> E') (r : result E A) a : map_err f r = Ok a -> r = Ok a.
Proof. destruct r; simpl; intros; by simplify_eq. Qed.

Lemma decode_eap_Ok field v payload :
  decode_eap field v = Ok payload <->
  exists t, v = Some t /\ t <> estr /\ Base64.DecodeString t = Some payload.
Proof.
  unfold decode_eap, fail_field. split.
  - destruct v as [t|]; [|done]. destruct (is_empty t) eqn:Ee; [done|].
    destruct (Base64.DecodeString t) eqn:Ed; [|done]. intros. simplify_eq. exists t. split; [done|].
    split; [by intros ->|done].
  - intros (t & -> & Ht & ->). destruct t; done.
Qed.

(** What passes the confirm checks: a well-formed request, not limited, that names
    the subscriber and the slice of the stored session. *)
Lemma confirm_checks_Ok id req s body payload dom :
  confirm_checks id req s = Ok (body, payload, dom) ->
  exists p, req = Ok (body, p) /\ load s id = Ok dom
    /\ limited rateLimiter ("authctx:" +:+ id) = false
    /\ cb_Gpsi body = n_GPSI dom /\ cb_Sst body = n_SnssaiSST dom /\ cb_Sd body = n_SnssaiSD dom
    /\ gpsi_form (cb_Gpsi body) /\ in_u8 (cb_Sst body)
    /\ exists t, cb_EapMessage body = Some t /\ Base64.DecodeString t = Some payload.
Proof.
  unfold confirm_checks. intros ([] & E1 & ([] & E2 & E)%rbind_Ok)%rbind_Ok.
  destruct req as [[b p]|e|]; [|done..].
  apply rbind_Ok in E as ([] & E3%map_err_Ok & E). apply rbind_Ok in E as ([] & E4%map_err_Ok & E).
  apply rbind_Ok in E as (pl & E5%decode_eap_Ok & E). apply rbind_Ok in E as (d & E6%map_err_Ok & E).
  destruct (str_eqb (cb_Gpsi b) (n_GPSI d)) eqn:Eg; [|done].
  destruct (n_SnssaiSST d =? cb_Sst b) eqn:Ess; [|done].
  destruct (str_eqb (n_SnssaiSD d) (cb_Sd b)) eqn:Esd; [|done]. simpl in E. simplify_eq.
  apply str_eqb_true in Eg, Esd. apply validateGPSI_ok in E3. apply validateSnssai_ok in E4 as (_ & Hu & _).
  destruct (limited _ _); [done|]. destruct E5 as (t & Ht & _ & Hd).
  exists p. split_and!; try done; [lia|eauto].
Qed.

(** C4: a confirmation acts only on the session it names: the AAA server is
    contacted or a session changed only if the stored session of the context
    exists and has the request's GPSI and S-NSSAI; then the decoded message, and
    nothing else, is forwarded for exactly that subscriber and slice, and only that
    session changes.  Every other request is answered with an error, changes
    nothing and sends nothing. *)
Theorem confirm_bound now id req s s' sent resp :
  ConfirmSliceAuthentication now id req s = (s', sent, resp) ->
  (load s' = load s /\ sent = []
   /\ match resp with Some (RProblem _) | Some (RLimited _ _) | None => True | _ => False end)
  \/ exists body p payload dom next,
       req = Ok (body, p) /\ load s id = Ok dom
       /\ cb_Gpsi body = n_GPSI dom /\ cb_Sst body = n_SnssaiSST dom /\ cb_Sd body = n_SnssaiSD dom
       /\ (exists t, cb_EapMessage body = Some t /\ Base64.DecodeString t = Some payload)
       /\ (sent, next) = forward (eap_session now id (n_GPSI dom) (n_SnssaiSST dom) (n_SnssaiSD dom)) payload
       /\ (forall k, k <> id -> load s' k = load s k)
       /\ ((load s' = load s /\ exists pd, resp = Some (RProblem pd) /\ pd_status pd = 500)
           \/ (load s' id = Ok (nssaa_update "CONFIRMED" next (n_UpdatedAt dom) dom)
               /\ resp = Some (RConfirmed (n_GPSI dom) (n_SnssaiSST dom) (n_SnssaiSD dom)
                            (Base64.EncodeToString next)))).
Proof.
  unfold ConfirmSliceAuthentication.
  destruct (confirm_checks id req s) as [[[body payload] dom]|r|] eqn:Ec.
  - apply confirm_checks_Ok in Ec as (p & -> & Hl & _ & Hg & Hss & Hsd & _ & _ & Ht).
    rewrite Hg, Hss, Hsd.
    destruct (forward _ _) as [out next] eqn:Ef.
    set (dom' := nssaa_update _ _ _ _). assert (Hk : key_of dom' = id) by (by rewrite <- (load_key _ _ _ Hl)).
    assert (Ho := save_other s dom'). rewrite Hk in Ho.
    destruct (save s dom') as [s1 [e|]] eqn:Es; intros [= <- <- <-]; right;
      exists body, p, payload, dom, next; split_and!; try done; simpl in Ho.
    + left. split; [by apply (save_failed _ _ _ e Es)|]. by eexists.
    + right. split; [|done]. rewrite <- Hk. by apply save_same with s.
  - intros [= <- <- <-]. left. split_and!; try done.
    revert Ec. unfold confirm_checks, check, fail_field, decode_eap, store_problem, rbind, map_err, write429.
    intros Ec. repeat case_match; simplify_eq; done.
  - intros [= <- <- <-]. by left.
Qed.

Lemma create_checks_Ok req body payload :
  create_checks req = Ok (body, payload) ->
  exists p, req = Ok (body, p) /\ ValidateGPSI (b_Gpsi body) = Ok tt
    /\ ValidateSnssai (b_Sst body) (b_Sd body) false = Ok tt
    /\ decode_eap "eapIdRsp" (b_EapIdRsp body) = Ok payload.
Proof.
  unfold create_checks. destruct req as [[b p]|e|]; [|done..].
  intros ([] & E1 & E)%rbind_Ok.
  apply rbind_Ok in E as ([] & E3%map_err_Ok & E). apply rbind_Ok in E as ([] & E4%map_err_Ok & E).
  apply rbind_Ok in E as (pl & E5 & E). simplify_eq. exists p. split_and!; try done. by destruct p.
Qed.

(** What a 201 leaves, and how it can be confirmed. *)
Lemma created_confirms now uuid req s s1 sent loc id gpsi sst sd eap :
  CreateSliceAuthenticationContext now uuid req s = (s1, sent, Some (RCreated loc id gpsi sst sd eap)) ->
  id = uuid
  /\ (exists dom, load s1 id = Ok dom /\ n_GPSI dom = gpsi /\ n_SnssaiSST dom = sst /\ n_SnssaiSD dom = sd
        /\ n_Status dom = "PENDING" /\ gpsi_form gpsi /\ in_u8 sst)
  /\ (forall k, k <> id -> load s1 k = load s k)
  /\ forall now2 t payload s2,
       load s2 id = load s1 id -> ValidateAuthCtxID id = Ok tt ->
       limited rateLimiter ("authctx:" +:+ id) = false ->
       t <> estr -> Base64.DecodeString t = Some payload ->
       match snd (ConfirmSliceAuthentication now2 id (Ok (mkConf gpsi sst sd (Some t), true)) s2) with
       | Some (RConfirmed g a b _) => g = gpsi /\ a = sst /\ b = sd
       | Some (RProblem pd) => pd_status pd = 500
       | _ => False
       end.
Proof.
  unfold CreateSliceAuthenticationContext. intros E.
  destruct (create_checks req) as [[body payload]|r|] eqn:Ec; [| |done].
  2: { exfalso. revert Ec. simplify_eq.
       unfold create_checks, check, fail_field, decode_eap, rbind, map_err, write429.
       intros. repeat case_match; simplify_eq. }
  apply create_checks_Ok in Ec as (p & -> & Hg & Hs & _).
  set (dom := authCtxToNssaaSession _ _) in E.
  destruct (save s dom) as [s' [e|]] eqn:Es; [done|].
  destruct (forward _ payload) as [out next] eqn:Ef. injection E as <- <- <- <- <- <- <- <-.
  assert (Hl := save_same s s' dom Es). change (key_of dom) with uuid in Hl.
  assert (Hgf := Hg). apply validateGPSI_ok in Hgf.
  assert (Hu := Hs). apply validateSnssai_ok in Hu as (_ & Hu & _).
  split; [done|]. split; [by exists dom|].
  split. { intros k Hk. assert (Ho := save_other s dom k). rewrite Es in Ho. by apply Ho. }
  intros now2 t pl s2 H2 Hid Hlim Ht Hd.
  unfold ConfirmSliceAuthentication, confirm_checks. rewrite Hlim, Hid.
  cbn [rbind map_err cb_Gpsi cb_Sst cb_Sd cb_EapMessage negb check].
  unfold check. rewrite Hg. cbn [rbind map_err]. rewrite Hs. cbn [rbind map_err]. assert (Hde : decode_eap "eapMessage" (Some t) = Ok pl) by (apply decode_eap_Ok; eauto).
  rewrite Hde. simpl. rewrite H2, Hl. simpl. rewrite !str_eqb_refl, Z.eqb_refl. simpl.
  destruct (forward _ pl) as [o2 n2]. by destruct (save s2 _) as [s3 [e|]].
Qed.

(** C5: create, then confirm: after a 201 the session is stored as PENDING under
    the returned identifier with the request's validated subscriber, slice and
    decoded payload, and no other session changed; and in any later state that
    still holds it, a confirmation with that GPSI and S-NSSAI and a decodable message
    (not rate-limited) is accepted: it answers 200, or 500 when the store fails to
    write. *)
Theorem create_then_confirm now uuid req s s1 sent loc id gpsi sst sd eap :
  CreateSliceAuthenticationContext now uuid req s = (s1, sent, Some (RCreated loc id gpsi sst sd eap)) ->
  id = uuid
  /\ (exists dom, load s1 id = Ok dom /\ n_GPSI dom = gpsi /\ n_SnssaiSST dom = sst /\ n_SnssaiSD dom = sd
        /\ n_Status dom = "PENDING" /\ gpsi_form gpsi /\ in_u8 sst)
  /\ (forall k, k <> id -> load s1 k = load s k)
  /\ forall now2 t payload s2,
       load s2 id = load s1 id -> ValidateAuthCtxID id = Ok tt ->
       limited rateLimiter ("authctx:" +:+ id) = false ->
       t <> estr -> Base64.DecodeString t = Some payload ->
       match snd (ConfirmSliceAuthentication now2 id (Ok (mkConf gpsi sst sd (Some t), true)) s2) with
       | Some (RConfirmed g a b _) => g = gpsi /\ a = sst /\ b = sd
       | Some (RProblem pd) => pd_status pd = 500
       | _ => False
       end.
Proof. apply created_confirms. Qed.

(** The outcome of the authentication is not recorded: whatever the AAA server
    answered (a success, a rejection, or no answer at all), an accepted
    confirmation stores the session as CONFIRMED and its answer has no
    authentication result; when the AAA server failed, the client gets its own
    message back as the answer. *)
Theorem confirm_ignores_result send now id req s s' sent g a b eap :
  aaa = Some send ->
  ConfirmSliceAuthentication now id req s = (s', sent, Some (RConfirmed g a b eap)) ->
  exists session payload dom, sent = [(session, payload)] /\ load s' id = Ok dom
    /\ n_Status dom = "CONFIRMED" /\ s_AuthCtxID session = id
    /\ eap = Base64.EncodeToString (match send session payload with inl next => next | inr _ => payload end).
Proof.
  unfold ConfirmSliceAuthentication. intros Ha E.
  destruct (confirm_checks id req s) as [[[body payload] dom]|r|] eqn:Ec; [| |done].
  2: { exfalso. revert Ec. simplify_eq.
       unfold confirm_checks, check, fail_field, decode_eap, store_problem, rbind, map_err, write429.
       intros. repeat case_match; simplify_eq. }
  apply confirm_checks_Ok in Ec as (p & _ & Hl & _).
  unfold forward in E. rewrite Ha in E.
  set (x := eap_session _ _ _ _ _) in E.
  set (next := match send x payload with inl next => next | inr _ => payload end) in E.
  set (dom' := nssaa_update _ next _ _) in E.
  destruct (save s dom') as [s1 [e|]] eqn:Es; [done|]. injection E as <- <- _ _ _ <-.
  exists x, payload, dom'. split; [done|].
  assert (Hk : key_of dom' = id) by (by rewrite <- (load_key _ _ _ Hl)).
  split; [rewrite <- Hk; by apply save_same with s|]. done.
Qed.

End Handler.

(** A subscriber who is created and then confirms. *)
Definition info : SliceAuthInfo := mkInfo "msisdn-12345" 1 "000001" (Some "AgEABQE=") None None None.
Definition conf : SliceAuthConfirmationData := mkConf "msisdn-12345" 1 "000001" (Some "AgIABQE=").
Definition down : aaa_router := fun _ _ => inr "connection refused".
Definition st0 : InMemory.InMemoryStore NssaaSession := InMemory.NewInMemoryStore.
Definition created := CreateSliceAuthenticationContext (Some down) "https://h" None 5 "id-1" (Ok (info, true)) st0.
Definition st1 : InMemory.InMemoryStore NssaaSession := fst (fst created).
Definition confirmed := ConfirmSliceAuthentication (Some down) None 6 "id-1" (Ok (conf, true)) st1.

Lemma confirm_bound_witness :
  exists dom, load st1 "id-1" = Ok dom /\ n_GPSI dom = "msisdn-12345"
    /\ snd (fst confirmed) = [(eap_session 6 "id-1" "msisdn-12345" 1 "000001", [2; 2; 0; 5; 1])].
Proof.
  destruct (confirm_bound (Some down) None 6 "id-1" (Ok (conf, true)) st1 (fst (fst confirmed))
    (snd (fst confirmed)) (snd confirmed)) as [(_ & H & _)|H].
  - vm_compute. reflexivity.
  - vm_compute in H. discriminate H.
  - destruct H as (body & p & payload & dom & next & Hb & Hl & Hg & Hs & Hd & (t & Ht & Hp) & Hf & _).
    simplify_eq. exists dom. split; [done|]. split; [done|].
    injection Ht as <-. vm_compute in Hp. injection Hp as <-.
    apply (f_equal fst) in Hf. unfold forward, fst in Hf. unfold fst, snd in *. rewrite Hf.
    by rewrite <- Hg, <- Hs, <- Hd.
Defined.

Lemma create_then_confirm_witness :
  match snd confirmed with
  | Some (RConfirmed g a b _) => g = "msisdn-12345" /\ a = 1 /\ b = "000001"
  | Some (RProblem pd) => pd_status pd = 500
  | _ => False
  end.
Proof.
  destruct (create_then_confirm (Some down) "https://h" None None 5 "id-1" (Ok (info, true)) st0 st1
    (snd (fst created)) "https://h/nnssaaf-nssaa/v1/slice-authentications/id-1" "id-1" "msisdn-12345" 1
    "000001" "AgEABQE=") as (_ & _ & _ & H).
  - vm_compute. reflexivity.
  - apply (H 6 "AgIABQE=" [2; 2; 0; 5; 1] st1); try done; vm_compute; reflexivity.
Defined.

Lemma confirm_ignores_result_witness :
  exists dom, load (fst (fst confirmed)) "id-1" = Ok dom /\ n_Status dom = "CONFIRMED"
    /\ snd confirmed = Some (RConfirmed "msisdn-12345" 1 "000001" "AgIABQE=").
Proof.
  destruct (confirm_ignores_result (Some down) None down 6 "id-1" (Ok (conf, true)) st1 (fst (fst confirmed))
    (snd (fst confirmed)) "msisdn-12345" 1 "000001" "AgIABQE=") as (x & pl & dom & _ & Hl & Hs & _).
  - reflexivity.
  - vm_compute. reflexivity.
  - exists dom. split; [done|]. split; [done|]. vm_compute. reflexivity.
Defined.
End Nssaa.

Module Aiw.

Inductive response : Type :=
| RProblem (pd : ProblemDetails)
| RLimited (retryAfter : Z) (pd : ProblemDetails)
| RCreated (location authCtxID supi : string) (eapMessage : option bytes)
| RConfirmed (supi : string) (eapMessage : bytes).

(** Generated request bodies; [EapMessage] is a byte slice that JSON decodes. *)
Record AuthInfo : Type := mkInfo { b_Supi : string; b_EapIdRsp : option bytes }.
Record AuthConfirmationData : Type := mkConf { cb_Supi : string; cb_EapMessage : option bytes }.

Record AuthContext : Type := mkAC {
  x_AuthCtxID : string; x_Supi : string; x_EapPayload : bytes; x_TtlsInner : bytes; x_MSK : bytes;
  x_PvsInfo : bytes; x_AusfID : string; x_SupportedFeatures : string; x_Status : string;
  x_AuthResult : string; x_CreatedAt : Z; x_UpdatedAt : Z; x_ExpiresAt : Z; x_CompletedAt : option Z }.

Definition authContextToAiwSession (now : Z) (a : AuthContext) : AiwSession :=
  let expiresAt := if x_ExpiresAt a =? 0 then now + 24 * hour else x_ExpiresAt a in
  mkAiw (x_AuthCtxID a) (x_Supi a) (x_EapPayload a) (x_TtlsInner a) (x_MSK a) (x_PvsInfo a)
    (x_AusfID a) (x_SupportedFeatures a) (x_Status a) (x_AuthResult a) (x_CreatedAt a)
    (x_UpdatedAt a) expiresAt (x_CompletedAt a).

Definition eapPayloadFromPtr (p : option bytes) : bytes := default [] p.
Definition write429 (retryAfter : Z) : response := RLimited retryAfter Nssaa.too_many.

Section Handler.
Context {S : Type} `{!Repo S AiwSession, !LawfulRepo S AiwSession}.
Context (apiRoot : string) (rateLimiter : option limiter).

Definition fail_field {A} (field reason : string) : result response A :=
  Err (RProblem (ValidationProblem field reason)).

Definition create_checks (req : result string AuthInfo) : result response AuthInfo :=
  match req with
  | Panic => Panic
  | Err e => fail_field "body" e
  | Ok body =>
      let? _ := (if limited rateLimiter ("aiw:supi:" +:+ b_Supi body) then Err (write429 60) else Ok tt) in
      let? _ := map_err RProblem (ValidateSUPI (b_Supi body)) in
      Ok body
  end.

Definition CreateAuthenticationContext (now : Z) (uuid : string) (req : result string AuthInfo) (s : S)
  : S * option response :=
  match create_checks req with
  | Panic => (s, None)
  | Err resp => (s, Some resp)
  | Ok body =>
      let authCtx := mkAC uuid (b_Supi body) (eapPayloadFromPtr (b_EapIdRsp body)) [] [] [] estr estr
        "PENDING" estr 0 0 0 None in
      let '(s, err) := save s (authContextToAiwSession now authCtx) in
      match err with
      | Some e => (s, Some (RProblem (InternalServerProblem ("failed to create auth context: " +:+ e))))
      | None =>
          (s, Some (RCreated (apiRoot +:+ "/nnssaaf-aiw/v1/authentications/" +:+ uuid) uuid
                      (b_Supi body) (b_EapIdRsp body)))
      end
  end.

Definition store_problem (authCtxId : string) (e : store_error) : response :=
  match e with
  | ErrSessionNotFound =>
      RProblem (NotFoundProblem ("authentication context " +:+ quote authCtxId +:+ " not found"))
  | ErrStore msg => RProblem (InternalServerProblem ("failed to load auth context: " +:+ msg))
  end.

Definition confirm_checks (authCtxId : string) (req : result string AuthConfirmationData) (s : S)
  : result response (AuthConfirmationData * AiwSession) :=
  let? _ := map_err (fun pd => RProblem (ValidationProblem "authCtxId" (Error pd)))
              (ValidateAuthCtxID authCtxId) in
  let? _ := (if limited rateLimiter ("aiw:authctx:" +:+ authCtxId) then Err (write429 60) else Ok tt) in
  match req with
  | Panic => Panic
  | Err e => fail_field "body" e
  | Ok body =>
      let? _ := map_err RProblem (ValidateSUPI (cb_Supi body)) in
      let? _ := (if len (eapPayloadFromPtr (cb_EapMessage body)) =? 0
                 then fail_field "eapMessage" "eapMessage is required" else Ok tt) in
      let? dom := map_err (store_problem authCtxId) (load s authCtxId) in
      if negb (str_eqb (cb_Supi body) (a_Supi dom)) then
        fail_field "supi" "SUPI does not match the authenticated SUPI for this session"
      else Ok (body, dom)
  end.

Definition ConfirmAuthentication (authCtxId : string) (req : result string AuthConfirmationData) (s : S)
  : S * option response :=
  match confirm_checks authCtxId req s with
  | Panic => (s, None)
  | Err resp => (s, Some resp)
  | Ok (body, dom) =>
      let payload := eapPayloadFromPtr (cb_EapMessage body) in
      let '(s, err) := save s (aiw_set_payload payload dom) in
      match err with
      | Some e => (s, Some (RProblem (InternalServerProblem ("failed to update auth context: " +:+ e))))
      | None => (s, Some (RConfirmed (cb_Supi body) payload))
      end
  end.

Lemma aiw_confirm_checks_Ok id req s body dom :
  confirm_checks id req s = Ok (body, dom) ->
  req = Ok body /\ load s id = Ok dom /\ cb_Supi body = a_Supi dom /\ supi_form (cb_Supi body)
  /\ eapPayloadFromPtr (cb_EapMessage body) <> [].
Proof.
  unfold confirm_checks. intros ([] & _ & ([] & _ & E)%Nssaa.rbind_Ok)%Nssaa.rbind_Ok.
  destruct req as [b|e|]; [|done..].
  apply Nssaa.rbind_Ok in E as ([] & E1%Nssaa.map_err_Ok & E). apply Nssaa.rbind_Ok in E as ([] & E2 & E).
  apply Nssaa.rbind_Ok in E as (d & E3%Nssaa.map_err_Ok & E).
  destruct (str_eqb (cb_Supi b) (a_Supi d)) eqn:Eg; [|done]. simpl in E. simplify_eq.
  apply str_eqb_true in Eg. apply validateSUPI_ok in E1. split_and!; try done.
  intros Hn. by rewrite Hn in E2.
Qed.

(** AIW confirmations are bound to the subscriber and keep the context: a 200
    is given only for a stored context whose SUPI is the request's; it replaces the
    stored EAP payload by the request's and returns that same payload (no AAA
    server is contacted and the status does not change); every other answer
    changes no context. *)
Theorem aiw_confirm_bound id req s s' resp :
  ConfirmAuthentication id req s = (s', resp) ->
  match resp with
  | Some (RConfirmed supi eap) =>
      exists dom, load s id = Ok dom /\ a_Supi dom = supi /\ supi_form supi /\ eap <> []
        /\ load s' id = Ok (aiw_set_payload eap dom)
        /\ (forall k, k <> id -> load s' k = load s k)
  | Some (RCreated _ _ _ _) => False
  | _ => load s' = load s
  end.
Proof.
  unfold ConfirmAuthentication.
  destruct (confirm_checks id req s) as [[body dom]|r|] eqn:Ec.
  - apply aiw_confirm_checks_Ok in Ec as (-> & Hl & Hs & Hf & Hne).
    set (dom' := aiw_set_payload _ _). assert (Hk : key_of dom' = id) by (by rewrite <- (load_key _ _ _ Hl)).
    assert (Ho := save_other s dom'). rewrite Hk in Ho.
    destruct (save s dom') as [s1 [e|]] eqn:Es; intros [= <- <-].
    + by apply (save_failed _ _ _ e Es).
    + exists dom. rewrite <- Hk at 2. split_and!; try done. by apply save_same with s.
  - intros [= <- <-]. revert Ec.
    unfold confirm_checks, fail_field, store_problem, rbind, map_err, write429.
    intros. repeat case_match; simplify_eq; done.
  - by intros [= <- <-].
Qed.
End Handler.

Definition st1 : InMemory.InMemoryStore AiwSession :=
  fst (CreateAuthenticationContext "https://h" None 5 "id-1" (Ok (mkInfo "imsi-123456" (Some [2; 1; 0; 4])))
         InMemory.NewInMemoryStore).
Definition conf : AuthConfirmationData := mkConf "imsi-123456" (Some [2; 2; 0; 4]).

Lemma aiw_confirm_bound_witness :
  exists dom, load (fst (ConfirmAuthentication None "id-1" (Ok conf) st1)) "id-1"
    = Ok (aiw_set_payload [2; 2; 0; 4] dom) /\ a_Status dom = "PENDING".
Proof.
  assert (H := aiw_confirm_bound None "id-1" (Ok conf) st1
    (fst (ConfirmAuthentication None "id-1" (Ok conf) st1)) (Some (RConfirmed "imsi-123456" [2; 2; 0; 4]))).
  destruct H as (dom & Hl & _ & _ & _ & Hl' & _).
  - vm_compute. reflexivity.
  - exists dom. split; [exact Hl'|]. vm_compute in Hl. injection Hl as <-. reflexivity.
Defined.
End Aiw.
