(* ===== verification/Cache.v ===== *)
(** * internal/cache/redis: rate limiter, distributed lock, idempotency cache

    Redis is a map from keys to values with an expiry time; every command reads
    the clock that is its argument (milliseconds for the rate limiter, nanoseconds
    for the rest).  A command may fail as a whole, which changes nothing: the
    definitions describe the commands that reach Redis. *)
From S2P Require Import Prelude Regex Common Types Encoding EapSession.
Local Open Scope string_scope.
Local Open Scope Z_scope.
Local Open Scope list_scope.

(** A value and when it expires; an expired value is not seen. *)
Definition live {V} (now : Z) (e : option (V * Z)) : option V :=
  match e with Some (v, expiry) => if now <? expiry then Some v else None | None => None end.

(** ** ratelimit.go *)
Module RateLimit.

Record RateLimiter : Type := mkRL { window : Z; limit : Z }.

Definition gpsiKey (gpsiHash : string) : string := "nssaa:ratelimit:gpsi:" +:+ gpsiHash.
Definition amfKey (amfID : string) : string := "nssaa:ratelimit:amf:" +:+ amfID.

(** A sorted set whose members are their own scores. *)
Abbreviation zset := (gset Z).
Abbreviation store := (gmap string (zset * Z)).

(** The pipeline: ZREMRANGEBYSCORE 0 windowStart, ZCARD, ZADD now now, EXPIRE. *)
Definition allow (r : RateLimiter) (now : Z) (st : store) (key : string) : store * bool :=
  let windowStart := now - window r in
  let z := default ∅ (live now (st !! key)) in
  let z := filter (fun t => ~ (0 <= t /\ t <= windowStart)) z in
  let count := Z.of_nat (size z) in
  (<[key := ({[now]} ∪ z, now + window r + 1000)]> st, count <? limit r).
Definition AllowGPSI (r : RateLimiter) (now : Z) (st : store) (gpsiHash : string) : store * bool :=
  allow r now st (gpsiKey gpsiHash).
Definition AllowAMF (r : RateLimiter) (now : Z) (st : store) (amfID : string) : store * bool :=
  allow r now st (amfKey amfID).

(** ZCOUNT windowStart +inf *)
Definition GetCount (r : RateLimiter) (now : Z) (st : store) (key : string) : Z :=
  Z.of_nat (size (filter (fun t => now - window r <= t) (default ∅ (live now (st !! key))))).
Definition Reset (st : store) (key : string) : store := delete key st.

(** The store after requests for one key at the times [ts], in order. *)
Definition serve (r : RateLimiter) (key : string) (st : store) (ts : list Z) : store :=
  foldl (fun st t => fst (allow r t st key)) st ts.

(** Times in order, none after [now]. *)
Fixpoint ordered (last : Z) (ts : list Z) : Prop :=
  match ts with [] => True | t :: ts => last <= t /\ ordered t ts end.

(** The request times a limiter still counts at time [now]. *)
Definition recent (r : RateLimiter) (now : Z) (ts : list Z) : gset Z :=
  filter (fun t => now - window r < t) (list_to_set ts).

(** The set kept for a key whose last request was at [last]. *)
Definition kept (r : RateLimiter) (key : string) (ts : list Z) (last : Z) (st : store) : Prop :=
  match st !! key with
  | None => ts = []
  | Some (z, expiry) => z = recent r last ts /\ expiry = last + window r + 1000
  end.

Section Window.
Context (r : RateLimiter) (key : string).
Context (Hw : 0 < window r).

(** What [allow] counts and keeps, from a state that kept the history. *)
Lemma allow_counts ts last now st :
  Forall (fun t => 0 <= t <= last) ts -> last <= now -> 0 <= now -> kept r key ts last st ->
  snd (allow r now st key) = (Z.of_nat (size (recent r now ts)) <? limit r)
  /\ kept r key (ts ++ [now]) now (fst (allow r now st key)).
Proof.
  intros Hts Hl Hn Hk. unfold allow. cbn [fst snd].
  assert (E : filter (fun t => ~ (0 <= t /\ t <= now - window r)) (default ∅ (live now (st !! key)))
              = recent r now ts).
  { unfold kept in Hk. destruct (st !! key) as [[z expiry]|]; simpl.
    - destruct Hk as [-> ->]. unfold recent. rewrite Forall_forall in Hts.
      destruct (now <? last + window r + 1000) eqn:El; simpl; zbool;
        apply set_eq; intros x; rewrite !elem_of_filter, ?elem_of_list_to_set, ?elem_of_empty;
        split; intros H; destruct_and?; try done.
      + specialize (Hts x ltac:(done)). split; [lia|done].
      + specialize (Hts x ltac:(done)). split; [lia|]. split; [lia|done].
      + specialize (Hts x ltac:(done)). lia.
    - subst ts. by apply set_eq; intros x; rewrite !elem_of_filter; set_solver. }
  rewrite E. split; [done|]. unfold kept. rewrite lookup_insert_eq. split; [|done].
  apply set_eq. intros x. unfold recent. rewrite elem_of_union, elem_of_singleton, !elem_of_filter,
    !elem_of_list_to_set, elem_of_app, list_elem_of_singleton. intuition lia.
Qed.

Lemma serve_kept ts : forall done last st,
  0 <= last -> ordered last ts -> Forall (fun t => 0 <= t <= last) done -> kept r key done last st ->
  exists last', last <= last' /\ kept r key (done ++ ts) last' (serve r key st ts)
    /\ Forall (fun t => 0 <= t <= last') (done ++ ts) /\ (forall t, t ∈ ts -> t <= last')
    /\ (ts = [] -> last' = last) /\ (ts <> [] -> last' ∈ ts).
Proof.
  induction ts as [|t ts IH]; intros hist last st H0 Ho Hd Hk; simpl.
  - exists last. rewrite app_nil_r. split_and!; try done. intros t Ht. by apply elem_of_nil in Ht.
  - destruct Ho as [Hlt Ho]. destruct (allow_counts hist last t st Hd Hlt ltac:(lia) Hk) as [_ Hk'].
    destruct (IH (hist ++ [t]) t (fst (allow r t st key)) ltac:(lia) Ho) as (l & Hl & Hkl & Hf & Hm & Hn & Hne).
    + apply Forall_app. split; [|by repeat constructor; lia].
      eapply Forall_impl; [apply Hd|]. simpl. lia.
    + done.
    + exists l. rewrite <- app_assoc in *. simpl in *. split_and!; try done; try lia.
      * intros x [->|Hx]%elem_of_cons; [done|by apply Hm].
      * intros _. destruct ts as [|u ts]; [rewrite Hn by done; by left|right; by apply Hne].
Qed.
End Window.



(** Requests within one millisecond count once: with a limit of at least two,
    every one of any number of requests at the same instant is admitted, because
    the sorted set's member is the time itself. *)
Theorem ratelimit_burst r key now (n : nat) :
  0 < window r -> 0 <= now -> 2 <= limit r ->
  snd (allow r now (serve r key ∅ (repeat now n)) key) = true.
Proof.
  intros Hw Hn Hl.
  destruct (serve_kept r key Hw (repeat now n) [] 0 ∅) as (last & Hl' & Hk & Hf & Hm & Hz & Hne);
    [lia| |constructor|done|].
  { assert (O : forall n, ordered now (repeat now n)) by (clear; induction n; simpl; auto with lia).
    destruct n; simpl; auto. }
  assert (Hlast : last <= now).
  { destruct n; [rewrite Hz by done; lia|].
    assert (I : last ∈ repeat now (S n)) by (by apply Hne).
    apply list_elem_of_In, repeat_spec in I. lia. }
  destruct (allow_counts r key Hw _ last now _ Hf Hlast Hn Hk) as [-> _]. apply Z.ltb_lt.
  assert (Hsz : (size (recent r now (repeat now n)) <= size ({[now]} : gset Z))%nat).
  { apply subseteq_size. intros x. unfold recent. rewrite elem_of_filter, elem_of_list_to_set.
    intros [_ Hx]. apply list_elem_of_In, repeat_spec in Hx. set_solver. }
  rewrite size_singleton in Hsz. simpl. lia.
Qed.

Lemma ratelimit_burst_witness :
  snd (allow (mkRL 1000 2) 7 (serve (mkRL 1000 2) "k" ∅ (repeat 7 50)) "k") = true.
Proof. apply (ratelimit_burst (mkRL 1000 2) "k" 7 50); simpl; lia. Defined.
End RateLimit.

(** ** lock.go *)
Module Lock.

Record DistributedLock : Type := mkLock { ttl : Z }.
Definition NewDistributedLock (t : Z) : DistributedLock := mkLock (if t =? 0 then 30 * second else t).
Definition lockKey (resource : string) : string := "nssaa:lock:session:" +:+ resource.
Abbreviation store := (gmap string (string * Z)).

Section Ops.
Context (l : DistributedLock).

(** SET NX EX; the token is freshly generated.  [None]: the lock is held. *)
Definition Lock (now : Z) (st : store) (resource token : string) : store * option string :=
  match live now (st !! lockKey resource) with
  | Some _ => (st, None)
  | None => (<[lockKey resource := (token, now + ttl l)]> st, Some token)
  end.
(** The two scripts: act only if the stored token is the caller's. *)
Definition held_by (now : Z) (st : store) (resource token : string) : bool :=
  match live now (st !! lockKey resource) with Some t => str_eqb t token | None => false end.
Definition Unlock (now : Z) (st : store) (resource token : string) : store :=
  if held_by now st resource token then delete (lockKey resource) st else st.
Definition Extend (now : Z) (st : store) (resource token : string) : store * option string :=
  if held_by now st resource token then
    (<[lockKey resource := (token, now + ttl l / 1000000 * 1000000)]> st, None)
  else (st, Some "lock not held or token mismatch").
Definition IsLocked (now : Z) (st : store) (resource : string) : bool :=
  match live now (st !! lockKey resource) with Some _ => true | None => false end.

(** [TryLock]: the attempts at the ticks [(now, token)] until one succeeds, the
    deadline has passed or the context is cancelled (the ticks end). *)
Fixpoint TryLock (deadline : Z) (ticks : list (Z * string)) (st : store) (resource : string)
  : store * option string :=
  match ticks with
  | [] => (st, None)
  | (now, token) :: ticks =>
      match Lock now st resource token with
      | (st, Some token) => (st, Some token)
      | (st, None) => if deadline <? now then (st, None) else TryLock deadline ticks st resource
      end
  end.

(** What the clients of a lock do. *)
Inductive op : Type :=
| OLock (resource token : string)
| OUnlock (resource token : string)
| OExtend (resource token : string).
Definition op_token (o : op) : string :=
  match o with OLock _ t | OUnlock _ t | OExtend _ t => t end.
Definition step (st : store) (o : Z * op) : store :=
  match o with
  | (now, OLock r t) => fst (Lock now st r t)
  | (now, OUnlock r t) => Unlock now st r t
  | (now, OExtend r t) => fst (Extend now st r t)
  end.

Lemma lockKey_inj a b : lockKey a = lockKey b -> a = b.
Proof. unfold lockKey. intros H. by simplify_eq/=. Qed.

Lemma held_other now st r token token' exp :
  st !! lockKey r = Some (token, exp) -> token' <> token -> held_by now st r token' = false.
Proof.
  intros E Hne. unfold held_by, live. rewrite E. destruct (now <? exp); [|done].
  by apply not_true_iff_false; rewrite str_eqb_true.
Qed.

(** A held lock survives every operation of the other clients. *)
Lemma step_keeps st r token exp now o :
  st !! lockKey r = Some (token, exp) -> now < exp -> op_token o <> token ->
  step st (now, o) !! lockKey r = Some (token, exp).
Proof.
  intros E Hn Ht. destruct o as [r' t|r' t|r' t]; simpl in *;
    destruct (decide (r' = r)) as [->|Hr].
  - unfold Lock, live. rewrite E. replace (now <? exp) with true by (symmetry; by apply Z.ltb_lt). done.
  - unfold Lock. destruct (live _ _); [done|]. simpl. rewrite lookup_insert_ne; [done|].
    by intros H%lockKey_inj.
  - unfold Unlock. by rewrite (held_other _ _ _ _ _ _ E Ht).
  - unfold Unlock. destruct (held_by _ _ _ _); [|done]. rewrite lookup_delete_ne; [done|].
    by intros H%lockKey_inj.
  - unfold Extend. by rewrite (held_other _ _ _ _ _ _ E Ht).
  - unfold Extend. destruct (held_by _ _ _ _); [|done]. simpl. rewrite lookup_insert_ne; [done|].
    by intros H%lockKey_inj.
Qed.
End Ops.

(** C10: mutual exclusion: once a client has locked a resource at [t], until its
    time to live has passed no operation of other clients (with other tokens) on
    this or other resources releases or takes the lock: every other attempt to
    lock it is refused, it is reported as locked, and the holder can still extend
    it. *)
Theorem lock_exclusive l t st resource token st1 ops now token' :
  Lock l t st resource token = (st1, Some token) ->
  Forall (fun o => fst o < t + ttl l /\ op_token (snd o) <> token) ops ->
  now < t + ttl l ->
  let st2 := foldl (step l) st1 ops in
  Lock l now st2 resource token' = (st2, None)
  /\ IsLocked now st2 resource = true
  /\ snd (Extend l now st2 resource token) = None.
Proof.
  intros E Hops Hn. cbv zeta.
  assert (K : foldl (step l) st1 ops !! lockKey resource = Some (token, t + ttl l)).
  { assert (K1 : st1 !! lockKey resource = Some (token, t + ttl l)).
    { unfold Lock in E. destruct (live _ _); [done|]. injection E as <-. by rewrite lookup_insert_eq. }
    clear E. revert st1 K1. induction Hops as [|[u o] ops [Hu Ho] _ IH]; intros st1 K1; [done|].
    simpl. apply IH. by apply step_keeps. }
  unfold Lock, IsLocked, Extend, held_by, live. rewrite K.
  replace (now <? t + ttl l) with true by (symmetry; by apply Z.ltb_lt).
  by rewrite str_eqb_refl.
Qed.

Lemma lock_exclusive_witness :
  let st1 := fst (Lock (mkLock 30) 0 ∅ "r" "a") in
  let st2 := foldl (step (mkLock 30)) st1 [(5, OUnlock "r" "b"); (6, OLock "q" "c"); (7, OExtend "r" "c")] in
  Lock (mkLock 30) 9 st2 "r" "b" = (st2, None) /\ IsLocked 9 st2 "r" = true.
Proof.
  intros st1 st2.
  destruct (lock_exclusive (mkLock 30) 0 ∅ "r" "a" st1
    [(5, OUnlock "r" "b"); (6, OLock "q" "c"); (7, OExtend "r" "c")] 9 "b") as (H1 & H2 & _).
  - reflexivity.
  - repeat constructor; simpl; (lia || done).
  - simpl. lia.
  - split; [exact H1|exact H2].
Defined.

(** A lock that was released or has expired can be taken again. *)
Lemma lock_available l t st resource token st1 now token' :
  Lock l t st resource token = (st1, Some token) ->
  (t + ttl l <= now -> snd (Lock l now st1 resource token') = Some token')
  /\ (t < t + ttl l -> snd (Lock l now (Unlock t st1 resource token) resource token') = Some token').
Proof.
  unfold Lock. destruct (live t _); [done|]. intros [= <-].
  unfold Unlock, held_by, live. rewrite !lookup_insert_eq. split; intros H.
  - by replace (now <? t + ttl l) with false by (symmetry; by apply Z.ltb_ge).
  - replace (t <? t + ttl l) with true by (symmetry; by apply Z.ltb_lt). rewrite str_eqb_refl.
    by rewrite lookup_delete_eq.
Qed.
End Lock.

(** ** idempotency.go *)
Module Idempotency.

Record IdempotencyCache : Type := mkIC { ttl : Z }.
Definition NewIdempotencyCache (t : Z) : IdempotencyCache := mkIC (if t =? 0 then 3600 * second else t).
Abbreviation store := (gmap string (bytes * Z)).

Section Cache.
Context (c : IdempotencyCache) (sha256 : bytes -> bytes).

Definition idempotencyKey (ctxID msgHash : string) : string :=
  "nssaa:idempotency:" +:+ ctxID +:+ ":" +:+ msgHash.
Definition hashPayload (authCtxID : string) (payload : bytes) : string :=
  Hex.EncodeToString (sha256 (bytes_of_string authCtxID ++ payload)).
Definition key (authCtxID : string) (payload : bytes) : string :=
  idempotencyKey authCtxID (hashPayload authCtxID payload).

Definition Check_ (now : Z) (st : store) (authCtxID : string) (payload : bytes) : bool :=
  match live now (st !! key authCtxID payload) with Some _ => true | None => false end.
Definition Record_ (now : Z) (st : store) (authCtxID : string) (payload response : bytes) : store :=
  <[key authCtxID payload := (response, now + ttl c)]> st.
Definition GetResponse (now : Z) (st : store) (authCtxID : string) (payload : bytes) : option bytes :=
  live now (st !! key authCtxID payload).
Definition Invalidate (st : store) (authCtxID : string) (payload : bytes) : store :=
  delete (key authCtxID payload) st.

(** A recorded request is answered from the cache until its time to live is over,
    and no longer after it is invalidated. *)
Lemma recorded_answer t now st ctx payload response :
  now < t + ttl c ->
  let st' := Record_ t st ctx payload response in
  Check_ now st' ctx payload = true /\ GetResponse now st' ctx payload = Some response
  /\ GetResponse now (Invalidate st' ctx payload) ctx payload = None.
Proof.
  intros H. unfold Check_, Record_, GetResponse, Invalidate, live. rewrite lookup_insert_eq, lookup_delete_eq.
  by replace (now <? t + ttl c) with true by (symmetry; by apply Z.ltb_lt).
Qed.
End Cache.
End Idempotency.
