(* ===== verification/Auth.v ===== *)
(** * internal/auth: token validation, JWKS cache, middleware

    auth.go, cache.go and middleware.go.  The JWT library is a parameter: reading
    the key id of an unverified token, the token's algorithm, and verifying the
    signature and the time claims of a token under a key.  The HTTP exchange with
    the JWKS endpoint is its outcome.  Scopes are ASCII text, as OAuth 2 requires. *)
From S2P Require Import Prelude Regex Common Types Encoding EapSession.
Import Validator.
Local Open Scope string_scope.
Local Open Scope Z_scope.
Local Open Scope list_scope.

(** ** JWKS keys: cache.go *)
Record JWKSKey : Type := mkJWK {
  k_Kty : string; k_Kid : string; k_Use : string; k_Alg : string; k_N : string; k_E : string;
  k_Crv : string; k_X : string; k_Y : string }.

Inductive PublicKey : Type :=
| RSAKey (n e : Z)
| ECKey (curve : string) (x y : Z).

(** [strings.ReplaceAll] for single bytes. *)
Definition replace_byte (a b : Z) (cs : list char) : list char :=
  map (fun c => if ascii_code c =? a then Ascii.ascii_of_N (Z.to_N b) else c) cs.
Definition base64URLDecode (s : string) : option bytes :=
  let cs := replace_byte 95 47 (replace_byte 45 43 (chars s)) in
  let eq := Ascii.ascii_of_N 61 in
  let cs := match (length cs mod 4)%nat with
            | 2%nat => cs ++ [eq; eq]
            | 3%nat => cs ++ [eq]
            | _ => cs
            end in
  Base64.DecodeString (String.string_of_list_ascii cs).

(** [big.Int.SetBytes] and the conversion of the exponent to a 64-bit [int]. *)
Definition be_value (bs : bytes) : Z := foldl (fun acc b => acc * 256 + b) 0 bs.
Definition int64_of (x : Z) : Z := (x + 2 ^ 63) mod 2 ^ 64 - 2 ^ 63.

Definition parseRSAKey (k : JWKSKey) : option PublicKey :=
  match base64URLDecode (k_N k), base64URLDecode (k_E k) with
  | Some n, Some e => Some (RSAKey (be_value n) (int64_of (be_value e)))
  | _, _ => None
  end.
Definition parseECKey (k : JWKSKey) : option PublicKey :=
  if is_empty (k_Crv k) || is_empty (k_X k) || is_empty (k_Y k) then None
  else if negb (str_eqb (k_Crv k) "P-256" || str_eqb (k_Crv k) "P-384" || str_eqb (k_Crv k) "P-521")
  then None
  else match base64URLDecode (k_X k), base64URLDecode (k_Y k) with
  | Some x, Some y => Some (ECKey (k_Crv k) (be_value x) (be_value y))
  | _, _ => None
  end.
Definition parse_key (k : JWKSKey) : option PublicKey :=
  if str_eqb (k_Kty k) "RSA" then parseRSAKey k
  else if str_eqb (k_Kty k) "EC" then parseECKey k
  else None.

Record JWKSFetcher : Type := mkFetcher {
  entries : gmap string PublicKey; fetchedAt : Z; ttl : Z }.
Definition NewJWKSFetcher (t : Z) : JWKSFetcher :=
  mkFetcher ∅ 0 (if t =? 0 then 15 * 60 * second else t).

(** The keys of a document, later ones overwriting earlier ones of the same id. *)
Definition parse_keys (ks : list JWKSKey) : gmap string PublicKey :=
  foldl (fun m k => match parse_key k with Some key => <[k_Kid k := key]> m | None => m end) ∅ ks.

Inductive auth_error : Type :=
| ErrInvalidToken
| ErrInvalidClaims
| ErrTokenExpired
| ErrInvalidIssuer
| ErrInvalidAudience
| ErrInsufficientScope
| ErrInvalidNfType
| ErrJWKSFetch
| ErrKeyNotFound.

(** [fetch]: the keys of the document the endpoint returns, [None] on any failure. *)
Definition refreshLocked (fetch : option (list JWKSKey)) (now : Z) (f : JWKSFetcher)
  : JWKSFetcher * option auth_error :=
  if (now - fetchedAt f <=? ttl f) && negb (size (entries f) =? 0)%nat then (f, None)
  else match fetch with
  | None => (f, Some ErrJWKSFetch)
  | Some ks => (mkFetcher (parse_keys ks) now (ttl f), None)
  end.

(** Both checks of the double-checked locking read the same state here, since the
    steps in between are atomic. *)
Definition GetKey (fetch : option (list JWKSKey)) (now : Z) (f : JWKSFetcher) (kid : string)
  : JWKSFetcher * (auth_error + PublicKey) :=
  match entries f !! kid with
  | Some key => if now - fetchedAt f <=? ttl f then (f, inr key)
                else match refreshLocked fetch now f with
                | (f, Some e) => (f, inl e)
                | (f, None) => (f, match entries f !! kid with Some key => inr key | None => inl ErrKeyNotFound end)
                end
  | None => match refreshLocked fetch now f with
            | (f, Some e) => (f, inl e)
            | (f, None) => (f, match entries f !! kid with Some key => inr key | None => inl ErrKeyNotFound end)
            end
  end.

(** A key handed out is in the cache, and the cache was filled no longer than
    [ttl] ago; when it was refreshed, it holds exactly the fetched document. *)
Lemma GetKey_fresh fetch now f kid f' key :
  0 <= ttl f -> GetKey fetch now f kid = (f', inr key) ->
  entries f' !! kid = Some key /\ now - fetchedAt f' <= ttl f'
  /\ (f' = f \/ exists ks, fetch = Some ks /\ f' = mkFetcher (parse_keys ks) now (ttl f)).
Proof.
  intros Ht. unfold GetKey, refreshLocked. intros E.
  destruct (entries f !! kid) as [k|] eqn:Ek;
    repeat (case_match; simplify_eq; try done); zbool; simpl in *; split_and!; eauto; lia.
Qed.

(** ** auth.go *)
Record TokenClaims : Type := mkClaims {
  c_Issuer : string; c_Audience : list string; c_Scope : string; c_ClientID : string;
  c_NfType : string; c_NfID : string; c_CN : string }.

Record TokenValidator : Type := mkValidator {
  issuer : string; audiences : list string; allowedNfTypes : list string; allowedScopes : list string }.
Definition NewTokenValidator (jwksURL iss : string) (auds nfTypes scopes : list string)
  : result auth_error TokenValidator :=
  if is_empty jwksURL then Panic
  else if is_empty iss then Panic
  else
    let or_default l d := match l with [] => d | _ => l end in
    Ok (mkValidator iss (or_default auds ["nnssaaf-nssaa"; "nnssaaf-aiw"])
      (or_default nfTypes ["AMF"; "AUSF"]) (or_default scopes ["nnssaaf-nssaa"; "nnssaaf-aiw"])).

(** [TokenCache] *)
Abbreviation TokenCache := (gmap string TokenClaims).
Definition cache_Get (c : TokenCache) (tokenHash : string) : option TokenClaims := c !! tokenHash.
Definition cache_Set (c : TokenCache) (tokenHash : string) (claims : TokenClaims) : TokenCache :=
  <[tokenHash := claims]> c.
Definition cache_Remove (c : TokenCache) (tokenHash : string) : TokenCache := delete tokenHash c.

(** [strings.Fields]: the maximal runs of non-blank characters. *)
Fixpoint fields_loop (cs word : list char) : list (list char) :=
  match cs with
  | [] => match word with [] => [] | _ => [word] end
  | c :: t =>
      if is_space c then
        match word with [] => fields_loop t [] | _ => word :: fields_loop t [] end
      else fields_loop t (word ++ [c])
  end.
Definition Fields (s : string) : list string := map String.string_of_list_ascii (fields_loop (chars s) []).

Definition mem (x : string) (l : list string) : bool := existsb (str_eqb x) l.

Section Validate.
(** The key id of an unverified token ([None]: it does not parse; [Some None]: no
    id), its algorithm, and the verification under a key. *)
Context (kid_of : string -> option (option string)) (alg_of : string -> string).
Context (verify : PublicKey -> string -> (string + TokenClaims)).
Context (is_expired_error : string -> bool).

Definition accepted_alg (alg : string) : bool :=
  mem alg ["RS256"; "RS384"; "RS512"; "ES256"; "ES384"; "ES512"].

Definition check_claims (v : TokenValidator) (requiredScope : string) (c : TokenClaims)
  : (auth_error + TokenClaims) :=
  if negb (str_eqb (c_Issuer c) (issuer v)) then inl ErrInvalidIssuer
  else if negb (existsb (fun aud => mem aud (audiences v)) (c_Audience c)) then inl ErrInvalidAudience
  else if negb (mem requiredScope (Fields (c_Scope c))) then inl ErrInsufficientScope
  else if negb (mem (c_NfType c) (allowedNfTypes v)) then inl ErrInvalidNfType
  else inr c.

Definition Validate (fetch : option (list JWKSKey)) (now : Z) (v : TokenValidator) (f : JWKSFetcher)
  (token requiredScope : string) : JWKSFetcher * (auth_error + TokenClaims) :=
  match kid_of token with
  | None => (f, inl ErrInvalidToken)
  | Some kid =>
      let kid := default estr kid in
      if is_empty kid then (f, inl ErrInvalidToken)
      else match GetKey fetch now f kid with
      | (f, inl _) => (f, inl ErrInvalidToken)
      | (f, inr key) =>
          if negb (accepted_alg (alg_of token)) then (f, inl ErrInvalidToken)
          else match verify key token with
          | inl e => (f, inl (if is_expired_error e then ErrTokenExpired else ErrInvalidToken))
          | inr c => (f, check_claims v requiredScope c)
          end
      end
  end.

(** ** middleware.go *)
Inductive verdict : Type := Next (claims : option TokenClaims) | Unauthorized (detail : string).

(** [strings.HasPrefix(h, "Bearer ")] with the rest. *)
Definition bearer (h : string) : option string :=
  let p := chars "Bearer " in
  if bool_decide (take (length p) (chars h) = p)
  then Some (String.string_of_list_ascii (drop (length p) (chars h))) else None.

Definition NewAuthMiddleware (disabled env_disabled : bool) (fetch : option (list JWKSKey)) (now : Z)
  (v : TokenValidator) (f : JWKSFetcher) (authHeader : string) : JWKSFetcher * verdict :=
  if disabled || env_disabled then (f, Next None)
  else if is_empty authHeader then (f, Unauthorized "missing authorization header")
  else match bearer authHeader with
  | None => (f, Unauthorized "invalid authorization scheme")
  | Some token =>
      if is_empty token then (f, Unauthorized "empty token")
      else match Validate fetch now v f token estr with
      | (f, inr c) => (f, Next (Some c))
      | (f, inl _) => (f, Unauthorized "invalid token")
      end
  end.

(** The required scope of the options is not used. *)
Definition MiddlewareWithOptions (requiredScope : string) (skipPaths : list string) (env_disabled : bool)
  (fetch : option (list JWKSKey)) (now : Z) (v : TokenValidator) (f : JWKSFetcher) (path authHeader : string)
  : JWKSFetcher * verdict :=
  if mem path skipPaths then (f, Next None)
  else NewAuthMiddleware false env_disabled fetch now v f authHeader.

(** *** Properties *)
Lemma mem_spec x l : mem x l = true <-> x ∈ l.
Proof.
  unfold mem. rewrite existsb_exists. split.
  - intros (y & Hy & E%str_eqb_true). subst y. by apply list_elem_of_In.
  - intros H. exists x. split; [by apply list_elem_of_In|apply str_eqb_refl].
Qed.

Lemma fields_loop_nonempty cs : forall word, Forall (fun w => w <> []) (fields_loop cs word).
Proof.
  induction cs as [|c t IH]; intros word; simpl.
  - destruct word; repeat constructor; done.
  - destruct (is_space c); [|apply IH]. destruct word; [apply IH|]. constructor; [done|apply IH].
Qed.
Lemma Fields_nonempty s w : w ∈ Fields s -> w <> estr.
Proof.
  unfold Fields. rewrite list_elem_of_In, in_map_iff. intros (cs & <- & Hcs).
  assert (F := fields_loop_nonempty (chars s) []). rewrite List.Forall_forall in F. specialize (F cs Hcs).
  by destruct cs.
Qed.

(** C21: what an accepted token proves: it names a key of the current JWKS document
    (not older than its time to live), is signed with an accepted algorithm and
    verifies under that key, comes from the configured issuer, is meant for one of the
    configured audiences, grants the required scope and belongs to an allowed
    network function type. *)
Theorem Validate_sound fetch now v f token scope f' c :
  0 <= ttl f -> Validate fetch now v f token scope = (f', inr c) ->
  exists kid key, kid_of token = Some (Some kid) /\ entries f' !! kid = Some key
    /\ now - fetchedAt f' <= ttl f' /\ accepted_alg (alg_of token) = true /\ verify key token = inr c
    /\ c_Issuer c = issuer v /\ (exists aud, aud ∈ c_Audience c /\ aud ∈ audiences v)
    /\ scope ∈ Fields (c_Scope c) /\ c_NfType c ∈ allowedNfTypes v.
Proof.
  intros Ht. unfold Validate. destruct (kid_of token) as [kid|]; [|done].
  destruct (is_empty (default estr kid)) eqn:Ek; [done|].
  destruct kid as [kid|]; [|done]. simpl in *.
  destruct (GetKey fetch now f kid) as [f1 [e|key]] eqn:Eg; [done|].
  destruct (GetKey_fresh _ _ _ _ _ _ Ht Eg) as (He & Hf & _).
  destruct (accepted_alg (alg_of token)) eqn:Ea; [|done]. simpl.
  destruct (verify key token) as [e|cl] eqn:Ev; [done|]. intros [= -> E].
  unfold check_claims in E.
  destruct (str_eqb (c_Issuer cl) (issuer v)) eqn:Ei; [|done]. simpl in E.
  destruct (existsb _ (c_Audience cl)) eqn:Eaud; [|done]. simpl in E.
  destruct (mem scope _) eqn:Es; [|done]. simpl in E.
  destruct (mem (c_NfType cl) _) eqn:En; [|done]. simpl in E. injection E as <-.
  apply str_eqb_true in Ei. apply mem_spec in Es, En.
  apply existsb_exists in Eaud as (aud & Hin & Haud%mem_spec). apply list_elem_of_In in Hin.
  exists kid, key. split_and!; eauto.
Qed.

(** The middleware admits no token at all: it asks for the empty scope, which no
    scope list contains, so with validation enabled every request is answered 401,
    whatever token it carries. *)
Theorem middleware_rejects_all fetch now v f header :
  exists detail, snd (NewAuthMiddleware false false fetch now v f header) = Unauthorized detail.
Proof.
  unfold NewAuthMiddleware. simpl. destruct (is_empty header); [by eexists|].
  destruct (bearer header) as [token|]; [|by eexists]. destruct (is_empty token); [by eexists|].
  destruct (Validate fetch now v f token estr) as [f1 [e|c]] eqn:E; [by eexists|].
  exfalso. unfold Validate in E. repeat (case_match; simplify_eq; try done).
  unfold check_claims in *. repeat (case_match; simplify_eq; try done).
  match goal with H : negb (mem estr ?l) = false |- _ =>
    apply negb_false_iff, mem_spec, Fields_nonempty in H; done end.
Qed.
End Validate.

(** A key set with one RSA key and a token signed by it. *)
Definition jwk : JWKSKey := mkJWK "RSA" "k1" "sig" "RS256" "AQAB" "AQAB" estr estr estr.
Definition claims : TokenClaims := mkClaims "nrf" ["nnssaaf-nssaa"] "openid nnssaaf-nssaa" "amf" "AMF" "id" "cn".

Definition validator : TokenValidator :=
  mkValidator "nrf" ["nnssaaf-nssaa"; "nnssaaf-aiw"] ["AMF"; "AUSF"] ["nnssaaf-nssaa"; "nnssaaf-aiw"].
Lemma validator_default : NewTokenValidator "http://nrf/jwks" "nrf" [] [] [] = Ok validator.
Proof. reflexivity. Qed.

Lemma Validate_sound_witness :
  exists kid key, kid = "k1" /\ key = RSAKey 65537 65537
    /\ snd (Validate (fun _ => Some (Some "k1")) (fun _ => "RS256") (fun _ _ => inr claims) (fun _ => false)
         (Some [jwk]) (10 ^ 18) validator (NewJWKSFetcher 0) "t" "nnssaaf-nssaa") = inr claims
    /\ "nnssaaf-nssaa" ∈ Fields (c_Scope claims).
Proof.
  destruct (Validate (fun _ => Some (Some "k1")) (fun _ => "RS256") (fun _ _ => inr claims) (fun _ => false)
         (Some [jwk]) (10 ^ 18) validator (NewJWKSFetcher 0) "t" "nnssaaf-nssaa")
    as [f' r] eqn:E.
  assert (Hr : r = inr claims) by (vm_compute in E; by injection E as _ <-). subst r.
  apply Validate_sound in E; [|done].
  destruct E as (kid & key & _ & _ & _ & _ & _ & _ & _ & Hs & _).
  exists "k1", (RSAKey 65537 65537). split_and!; [done|done| |exact Hs]. vm_compute. reflexivity.
Defined.
