(* ===== verification/Crypto.v ===== *)
(** * internal/crypto: envelope encryption, key manager, secrets

    encrypt.go, aead.go, envelope.go, secret.go, the software key manager of kms.go
    and the input checks of kdf.go.  AES-256-GCM and HKDF are parameters: sealing and
    opening with a 32-byte key and a 12-byte nonce, the tag being the last 16 bytes
    of what [Seal] returns.  Random bytes are arguments.  The [KeyManager] interface
    is a type class with its law; secrets are verified against the law and the
    software key manager is an instance; the Vault manager is another, in [KeyVault]. *)
From S2P Require Import Prelude Regex Common Types Encoding EapSession.
Local Open Scope string_scope.
Local Open Scope Z_scope.
Local Open Scope list_scope.

Inductive crypto_error : Type :=
| ErrKeyLength
| ErrNonceLength
| ErrTagLength
| ErrOpen
| ErrEnvelopeTooShort (n : Z)
| ErrEnvelopeMalformed
| ErrDEKUnwrapFailed
| ErrDecryptFailed
| ErrEmptyIKM
| ErrLength
| ErrMasterKey
| ErrVaultStage (stage : string)
| ErrNotImplemented.

Record EncryptedData : Type := mkED { Ciphertext : bytes; Nonce : bytes; Tag : bytes }.
Record Envelope : Type := mkEnv {
  e_Ciphertext : bytes; e_EncryptedDEK : bytes; e_Nonce : bytes; e_DataTag : bytes;
  e_DEKTag : bytes; e_KEKVersion : Z }.

(** ** The key manager interface *)
Class KeyManager (K : Type) : Type := {
  Wrap : K -> bytes -> bytes -> result crypto_error (bytes * Z);  (* random nonce, DEK *)
  Unwrap : K -> bytes -> result crypto_error bytes;
  GetKeyVersion : K -> result crypto_error Z }.
(** What wrapping promises: with a usable key manager, a key it can take and a 12-byte
    nonce, the wrapped key is unwrapped again, and the version is the one reported. *)
Class LawfulKeyManager (K : Type) `{KeyManager K} : Type := {
  km_ok : K -> Prop;
  km_dek : K -> bytes -> Prop;
  unwrap_wrap k nonce dek : km_ok k -> km_dek k dek -> length nonce = 12%nat ->
    exists w ver, Wrap k nonce dek = Ok (w, ver) /\ GetKeyVersion k = Ok ver /\ Unwrap k w = Ok dek }.

Section AEAD.
Context (Seal : bytes -> bytes -> bytes -> bytes -> bytes).
Context (Open : bytes -> bytes -> bytes -> bytes -> option bytes).
Context (seal_length : forall k n p a, length (Seal k n p a) = (length p + 16)%nat).
Context (open_seal : forall k n p a, Open k n (Seal k n p a) a = Some p).

(** ** encrypt.go *)
Definition Encrypt (plaintext key aad nonce : bytes) : result crypto_error EncryptedData :=
  if negb (len key =? 32) then Err ErrKeyLength
  else
    let sealed := Seal key nonce plaintext aad in
    let ctLen := len sealed - 16 in
    let ctLen := if ctLen <? 0 then 0 else ctLen in
    Ok (mkED (slice 0 ctLen sealed) nonce (suffix_from ctLen sealed)).

Definition Decrypt (ed : EncryptedData) (key aad : bytes) : result crypto_error bytes :=
  if negb (len key =? 32) then Err ErrKeyLength
  else if negb (len (Nonce ed) =? 12) then Err ErrNonceLength
  else if negb (len (Tag ed) =? 16) then Err ErrTagLength
  else match Open key (Nonce ed) (Ciphertext ed ++ Tag ed) aad with
  | Some p => Ok p
  | None => Err ErrOpen
  end.

(** ** aead.go: nonce || ciphertext || tag *)
Definition EncryptConcat (plaintext key nonce : bytes) : result crypto_error bytes :=
  if negb (len key =? 32) then Err ErrKeyLength else Ok (nonce ++ Seal key nonce plaintext []).
Definition DecryptConcat (ciphertext key : bytes) : result crypto_error bytes :=
  if negb (len key =? 32) then Err ErrKeyLength
  else if len ciphertext <? 12 + 16 then Err ErrDecryptFailed
  else match Open key (slice 0 12 ciphertext) (suffix_from 12 ciphertext) [] with
  | Some p => Ok p
  | None => Err ErrDecryptFailed
  end.

(** ** envelope.go.  [dek] and the two nonces are the random bytes. *)
Definition EnvelopeEncrypt (plaintext kek : bytes) (kekVersion : Z) (dek n1 n2 : bytes)
  : result crypto_error Envelope :=
  let? dekEnc := Encrypt dek kek [] n1 in
  let? dataEnc := Encrypt plaintext dek [] n2 in
  let encDEK := Nonce dekEnc ++ Ciphertext dekEnc ++ Tag dekEnc in
  Ok (mkEnv (Ciphertext dataEnc) encDEK (Nonce dataEnc) (Tag dataEnc) (Tag dekEnc) kekVersion).

(** nonce(12) || ciphertext || tag(16), taken apart. *)
Definition split_wrapped (w : bytes) : EncryptedData :=
  mkED (slice 12 (len w - 16) w) (slice 0 12 w) (suffix_from (len w - 16) w).

Definition EnvelopeDecrypt (env : Envelope) (kek : bytes) : result crypto_error bytes :=
  let w := e_EncryptedDEK env in
  if len w <? 28 then Err (ErrEnvelopeTooShort (len w))
  else
    match Decrypt (split_wrapped w) kek [] with
    | Ok dek => Decrypt (mkED (e_Ciphertext env) (e_Nonce env) (e_DataTag env)) dek []
    | Err _ => Err ErrDEKUnwrapFailed
    | Panic => Panic
    end.

(** [previousKEK] may be nil. *)
Definition EnvelopeDecryptMulti (env : Envelope) (currentKEK : bytes) (previousKEK : option bytes)
  : result crypto_error bytes :=
  match EnvelopeDecrypt env currentKEK with
  | Ok pt => Ok pt
  | Panic => Panic
  | Err e =>
      match previousKEK with
      | None => Err e
      | Some k => EnvelopeDecrypt env k
      end
  end.

(** ** kdf.go *)
Definition DeriveKey (hkdf : bytes -> bytes -> bytes -> Z -> bytes) (ikm : bytes) (salt : option bytes)
  (info : bytes) (length : Z) : result crypto_error bytes :=
  if len ikm =? 0 then Err ErrEmptyIKM
  else if (length <=? 0) || (255 <? length) then Err ErrLength
  else Ok (hkdf ikm (default (repeat 0 32) salt) info length).

(** ** kms.go: SoftKeyManager *)
Record SoftKeyManager : Type := mkSoft {
  masterKey : bytes; currentVer : Z; kekOverlap : Z; previousKey : option bytes }.

Definition NewSoftKeyManager (masterKeyHex : string) : result crypto_error SoftKeyManager :=
  if negb (slen masterKeyHex =? 64) then Err ErrMasterKey
  else match Hex.DecodeString masterKeyHex with
  | None => Err ErrMasterKey
  | Some key => Ok (mkSoft key 1 30 None)
  end.

Definition soft_Wrap (m : SoftKeyManager) (nonce dek : bytes) : result crypto_error (bytes * Z) :=
  let? enc := Encrypt dek (masterKey m) [] nonce in
  Ok (Nonce enc ++ Ciphertext enc ++ Tag enc, currentVer m).
Definition unwrapWithKey (wrappedDEK key : bytes) : result crypto_error bytes :=
  if len wrappedDEK <? 28 then Err ErrEnvelopeMalformed else Decrypt (split_wrapped wrappedDEK) key [].
Definition soft_Unwrap (m : SoftKeyManager) (wrappedDEK : bytes) : result crypto_error bytes :=
  match unwrapWithKey wrappedDEK (masterKey m) with
  | Ok dek => Ok dek
  | Panic => Panic
  | Err _ =>
      match previousKey m with
      | None => Err ErrDEKUnwrapFailed
      | Some key =>
          match unwrapWithKey wrappedDEK key with Ok dek => Ok dek | Err _ => Err ErrDEKUnwrapFailed | Panic => Panic end
      end
  end.
Definition Rotate (hkdf : bytes -> bytes -> bytes -> Z -> bytes) (m : SoftKeyManager)
  : result crypto_error SoftKeyManager :=
  let? newKey := DeriveKey hkdf (masterKey m) None
    (bytes_of_string ("nssaa-kek-rotation:v" +:+ show_uint (currentVer m + 1))) 32 in
  Ok (mkSoft newKey (currentVer m + 1) (kekOverlap m) (Some (masterKey m))).

#[export] Instance soft_manager : KeyManager SoftKeyManager := {
  Wrap := soft_Wrap; Unwrap := soft_Unwrap; GetKeyVersion := fun m => Ok (currentVer m) }.

(** *** Lemmas: what is sealed comes back *)
Lemma Encrypt_ok p key aad nonce :
  length key = 32%nat ->
  exists ct tag, Encrypt p key aad nonce = Ok (mkED ct nonce tag) /\ length tag = 16%nat
    /\ length ct = length p /\ ct ++ tag = Seal key nonce p aad.
Proof.
  intros Hk. unfold Encrypt, len at 1. rewrite Hk. simpl.
  assert (L := seal_length key nonce p aad).
  replace (len (Seal key nonce p aad) - 16 <? 0) with false by (symmetry; apply Z.ltb_ge; unfold len; lia).
  exists (take (length p) (Seal key nonce p aad)), (drop (length p) (Seal key nonce p aad)).
  unfold slice, suffix_from, len. rewrite L.
  replace (Z.to_nat (Z.of_nat (length p + 16) - 16)) with (length p) by lia.
  replace (Z.to_nat (Z.of_nat (length p + 16) - 16 - 0)) with (length p) by lia.
  split; [done|]. rewrite length_drop, length_take, take_drop. split_and!; [lia|lia|done].
Qed.

Lemma Decrypt_sealed p key aad nonce ct tag :
  length key = 32%nat -> length nonce = 12%nat -> length tag = 16%nat ->
  ct ++ tag = Seal key nonce p aad -> Decrypt (mkED ct nonce tag) key aad = Ok p.
Proof.
  intros Hk Hn Ht E. unfold Decrypt, len. simpl. rewrite Hk, Hn, Ht, E, open_seal. done.
Qed.

Lemma split_wrapped_app nonce ct tag :
  length nonce = 12%nat -> length tag = 16%nat ->
  split_wrapped (nonce ++ ct ++ tag) = mkED ct nonce tag /\ (28 <= len (nonce ++ ct ++ tag)).
Proof.
  intros Hn Ht. unfold split_wrapped, slice, suffix_from, len. rewrite !length_app, Hn, Ht.
  split; [|lia].
  replace (Z.to_nat (Z.of_nat (12 + (length ct + 16)) - 16)) with (length nonce + length ct)%nat by lia.
  replace (Z.to_nat (Z.of_nat (12 + (length ct + 16)) - 16 - 12)) with (length ct) by lia.
  change (Z.to_nat (12 - 0)) with 12%nat. change (Z.to_nat 12) with 12%nat. change (Z.to_nat 0) with 0%nat.
  rewrite <- Hn. rewrite drop_0, take_app_length, drop_app_length, take_app_length.
  f_equal. rewrite <- drop_drop, drop_app_length, drop_app_length. done.
Qed.

(** A wrapped key is unwrapped by the key that wrapped it. *)
Lemma unwrap_wrapped dek key nonce ct tag :
  length key = 32%nat -> length nonce = 12%nat -> length tag = 16%nat ->
  ct ++ tag = Seal key nonce dek [] ->
  unwrapWithKey (nonce ++ ct ++ tag) key = Ok dek.
Proof.
  intros Hk Hn Ht E. unfold unwrapWithKey. destruct (split_wrapped_app nonce ct tag Hn Ht) as [-> Hl].
  replace (_ <? 28) with false by (symmetry; by apply Z.ltb_ge). by apply Decrypt_sealed.
Qed.

Definition soft_ok (m : SoftKeyManager) : Prop := length (masterKey m) = 32%nat.

#[export] Program Instance soft_lawful : LawfulKeyManager SoftKeyManager := {
  km_ok := soft_ok; km_dek := fun _ _ => True }.
Next Obligation.
  intros m nonce dek Hk _ Hn. simpl. unfold soft_Wrap.
  destruct (Encrypt_ok dek (masterKey m) [] nonce Hk) as (ct & tag & -> & Ht & _ & E). simpl.
  eexists _, _. split; [done|]. split; [done|]. unfold soft_Unwrap. by rewrite (unwrap_wrapped dek (masterKey m) nonce ct tag).
Qed.

(** Envelope round trip: what is sealed in an envelope under a 32-byte key
    comes out under that key, also as the previous key after a rotation when the
    current key does not open the wrapped data key; and both framings (separate
    fields and one concatenated string) agree on it. *)
Theorem envelope_roundtrip p kek ver dek n1 n2 current :
  length kek = 32%nat -> length dek = 32%nat -> length n1 = 12%nat -> length n2 = 12%nat ->
  Open current n1 (Seal kek n1 dek []) [] = None ->
  exists env, EnvelopeEncrypt p kek ver dek n1 n2 = Ok env
    /\ EnvelopeDecrypt env kek = Ok p
    /\ EnvelopeDecryptMulti env kek None = Ok p
    /\ EnvelopeDecryptMulti env current (Some kek) = Ok p
    /\ (exists c, EncryptConcat p kek n1 = Ok c /\ DecryptConcat c kek = Ok p).
Proof.
  intros Hk Hd H1 H2 Hc. unfold EnvelopeEncrypt.
  destruct (Encrypt_ok dek kek [] n1 Hk) as (c1 & t1 & -> & Ht1 & _ & E1).
  destruct (Encrypt_ok p dek [] n2 Hd) as (c2 & t2 & E & Ht2 & _ & E2). simpl. rewrite E. simpl.
  eexists. split; [done|]. set (env := mkEnv _ _ _ _ _ _).
  destruct (split_wrapped_app n1 c1 t1 H1 Ht1) as [Hs Hl].
  assert (D : EnvelopeDecrypt env kek = Ok p).
  { unfold EnvelopeDecrypt. simpl. replace (_ <? 28) with false by (symmetry; by apply Z.ltb_ge).
    rewrite Hs, (Decrypt_sealed dek kek [] n1 c1 t1); try done. by apply Decrypt_sealed. }
  assert (D' : exists e, EnvelopeDecrypt env current = Err e).
  { unfold EnvelopeDecrypt. simpl. replace (_ <? 28) with false by (symmetry; by apply Z.ltb_ge).
    rewrite Hs. unfold Decrypt at 1. simpl. destruct (negb (len current =? 32)); [by eexists|].
    unfold len. rewrite H1, Ht1, E1, Hc. simpl. by eexists. }
  split; [done|]. unfold EnvelopeDecryptMulti. rewrite D. split; [done|].
  destruct D' as [e ->]. split; [done|]. unfold EncryptConcat, DecryptConcat, len. rewrite Hk. simpl.
  eexists. split; [done|]. rewrite length_app, seal_length.
  replace (_ <? 28) with false by (symmetry; apply Z.ltb_ge; lia).
  unfold slice, suffix_from. change (Z.to_nat (12 - 0)) with 12%nat. change (Z.to_nat 12) with 12%nat.
  change (Z.to_nat 0) with 0%nat. rewrite drop_0, <- H1, take_app_length, drop_app_length. by rewrite open_seal.
Qed.

(** ** secret.go *)
Record EncryptedSecret : Type := mkSecret {
  es_Ciphertext : bytes; es_Nonce : bytes; es_Tag : bytes; es_EncryptedDEK : bytes;
  es_DEKVersion : Z; es_Version : Z; es_CreatedAt : Z; es_ExpiresAt : Z; es_IsActive : bool }.

Section Secrets.
Context {K : Type} `{LawfulKeyManager K}.

Definition EncryptSecret (now : Z) (plaintextSecret : string) (km : K) (dek n1 n2 : bytes)
  : result crypto_error EncryptedSecret :=
  let? ver := GetKeyVersion km in
  let? dataEnc := Encrypt (bytes_of_string plaintextSecret) dek [] n1 in
  let? wrapped := Wrap km n2 dek in
  Ok (mkSecret (Ciphertext dataEnc) (Nonce dataEnc) (Tag dataEnc) (fst wrapped) ver 1 now
        (now + 90 * 24 * 3600 * second) true).
Definition DecryptSecret (es : EncryptedSecret) (km : K) : result crypto_error string :=
  let? dek := Unwrap km (es_EncryptedDEK es) in
  let? raw := Decrypt (mkED (es_Ciphertext es) (es_Nonce es) (es_Tag es)) dek [] in
  Ok (string_of_bytes raw).

(** With any lawful key manager a secret is recovered. *)
Lemma secret_roundtrip now text km dek n1 n2 :
  km_ok km -> km_dek km dek -> length dek = 32%nat -> length n1 = 12%nat -> length n2 = 12%nat ->
  exists es, EncryptSecret now text km dek n1 n2 = Ok es
    /\ Unwrap km (es_EncryptedDEK es) = Ok dek /\ DecryptSecret es km = Ok text
    /\ forall km' : K, Unwrap km' (es_EncryptedDEK es) = Ok dek -> DecryptSecret es km' = Ok text.
Proof.
  intros Hkm Hdek Hd H1 H2. unfold EncryptSecret.
  destruct (unwrap_wrap km n2 dek Hkm Hdek H2) as (w & ver & -> & -> & Hw). simpl.
  destruct (Encrypt_ok (bytes_of_string text) dek [] n1 Hd) as (ct & tag & -> & Ht & _ & E). simpl. eexists. split; [done|].
  assert (G : forall km' : K, Unwrap km' w = Ok dek ->
    DecryptSecret (mkSecret ct n1 tag w ver 1 now (now + 90 * 24 * 3600 * second) true) km' = Ok text).
  { intros km' Hu. unfold DecryptSecret. simpl. rewrite Hu. simpl.
    rewrite (Decrypt_sealed (bytes_of_string text)); try done. simpl. by rewrite string_bytes_roundtrip. }
  split; [done|]. split; [by apply G|done].
Qed.
End Secrets.

(** A key that does not authenticate the wrapping is refused. *)
Lemma unwrap_refused dek key key' nonce ct tag :
  length nonce = 12%nat -> length tag = 16%nat -> ct ++ tag = Seal key nonce dek [] ->
  Open key' nonce (Seal key nonce dek []) [] = None ->
  exists e, unwrapWithKey (nonce ++ ct ++ tag) key' = Err e.
Proof.
  intros Hn Ht E Ho. unfold unwrapWithKey. destruct (split_wrapped_app nonce ct tag Hn Ht) as [-> Hl].
  replace (_ <? 28) with false by (symmetry; by apply Z.ltb_ge).
  unfold Decrypt. destruct (negb (len key' =? 32)); [by eexists|]. unfold len. simpl.
  rewrite Hn, Ht, E, Ho. simpl. by eexists.
Qed.

Lemma Rotate_keys hkdf m m' : Rotate hkdf m = Ok m' -> previousKey m' = Some (masterKey m).
Proof.
  unfold Rotate. destruct (DeriveKey _ _ _ _ _); simpl; intros; by simplify_eq.
Qed.

(** C22: a secret survives exactly one rotation of the software key manager: it
    is recovered under the key that wrapped it and after one rotation, and is lost
    after two, because only one previous key is kept (unless a later key happens to
    authenticate the old wrapping). *)
Theorem secret_rotation hkdf now text m m1 m2 dek n1 n2 :
  length (masterKey m) = 32%nat -> length dek = 32%nat -> length n1 = 12%nat -> length n2 = 12%nat ->
  Rotate hkdf m = Ok m1 -> Rotate hkdf m1 = Ok m2 ->
  Open (masterKey m1) n2 (Seal (masterKey m) n2 dek []) [] = None ->
  Open (masterKey m2) n2 (Seal (masterKey m) n2 dek []) [] = None ->
  exists es, EncryptSecret now text m dek n1 n2 = Ok es
    /\ DecryptSecret es m = Ok text /\ DecryptSecret es m1 = Ok text
    /\ DecryptSecret es m2 = Err ErrDEKUnwrapFailed.
Proof.
  intros Hk Hd H1 H2 R1 R2 O1 O2. apply Rotate_keys in R1, R2.
  assert (Hok : km_ok m) by exact Hk.
  destruct (secret_roundtrip now text m dek n1 n2 Hok I Hd H1 H2) as (es & E & Hu & Hm & Hall).
  exists es. split; [done|]. split; [done|].
  assert (W : exists ct tag, es_EncryptedDEK es = n2 ++ ct ++ tag /\ length tag = 16%nat
              /\ ct ++ tag = Seal (masterKey m) n2 dek []).
  { unfold EncryptSecret in E. destruct (Encrypt (bytes_of_string text) dek [] n1) as [x|x|]; [|done..].
    simpl in E. unfold soft_Wrap in E.
    destruct (Encrypt_ok dek (masterKey m) [] n2 Hk) as (ct & tag & Ew & Ht & _ & Es).
    rewrite Ew in E. injection E as <-. simpl. eauto. }
  destruct W as (ct & tag & Hw & Ht & Es).
  assert (U := unwrap_wrapped dek (masterKey m) n2 ct tag Hk H2 Ht Es).
  destruct (unwrap_refused dek _ _ n2 ct tag H2 Ht Es O1) as [e1 F1].
  destruct (unwrap_refused dek _ _ n2 ct tag H2 Ht Es O2) as [e2 F2]. rewrite <- Hw in *. split.
  - apply Hall. simpl. unfold soft_Unwrap. by rewrite F1, R1, U.
  - unfold DecryptSecret. simpl. unfold soft_Unwrap. by rewrite F2, R2, F1.
Qed.
End AEAD.

(** A toy AEAD for the examples: the tag is a checksum of the key. *)
Definition checksum (k : bytes) : bytes := repeat (u8 (foldl Z.add 0 k)) 16.
Definition toy_seal (k n p a : bytes) : bytes := p ++ checksum k.
Definition toy_open (k n c a : bytes) : option bytes :=
  let p := take (length c - 16) c in
  if bool_decide (drop (length c - 16) c = checksum k) then Some p else None.
Lemma toy_length k n p a : length (toy_seal k n p a) = (length p + 16)%nat.
Proof. unfold toy_seal, checksum. by rewrite length_app, repeat_length. Qed.
Lemma toy_open_seal k n p a : toy_open k n (toy_seal k n p a) a = Some p.
Proof.
  unfold toy_open. rewrite toy_length. replace (length p + 16 - 16)%nat with (length p) by lia.
  unfold toy_seal. rewrite drop_app_length, take_app_length. by rewrite bool_decide_eq_true_2.
Qed.
Definition toy_hkdf (ikm salt info : bytes) (n : Z) : bytes := repeat (u8 (foldl Z.add 1 ikm)) 32.

Lemma envelope_roundtrip_witness :
  exists env, EnvelopeEncrypt toy_seal [1; 2; 3] (repeat 5 32) 1 (repeat 6 32) (repeat 0 12) (repeat 1 12) = Ok env
    /\ EnvelopeDecryptMulti toy_open env (repeat 9 32) (Some (repeat 5 32)) = Ok [1; 2; 3].
Proof.
  destruct (envelope_roundtrip toy_seal toy_open toy_length toy_open_seal [1; 2; 3] (repeat 5 32) 1
    (repeat 6 32) (repeat 0 12) (repeat 1 12) (repeat 9 32)) as (env & E & _ & _ & D & _);
    [reflexivity..|]. by exists env.
Defined.

Lemma secret_rotation_witness :
  let m := mkSoft (repeat 3 32) 1 30 None in
  exists m1 m2 es, Rotate toy_hkdf m = Ok m1 /\ Rotate toy_hkdf m1 = Ok m2
    /\ @EncryptSecret toy_seal SoftKeyManager (soft_manager toy_seal toy_open) 7 "secret" m (repeat 6 32)
         (repeat 0 12) (repeat 1 12) = Ok es
    /\ @DecryptSecret toy_open SoftKeyManager (soft_manager toy_seal toy_open) es m1 = Ok "secret"
    /\ @DecryptSecret toy_open SoftKeyManager (soft_manager toy_seal toy_open) es m2 = Err ErrDEKUnwrapFailed.
Proof.
  intros m.
  set (m1 := mkSoft (toy_hkdf (repeat 3 32) [] [] 32) 2 30 (Some (repeat 3 32))).
  set (m2 := mkSoft (toy_hkdf (masterKey m1) [] [] 32) 3 30 (Some (masterKey m1))).
  destruct (secret_rotation toy_seal toy_open toy_length toy_open_seal toy_hkdf 7 "secret" m m1 m2
    (repeat 6 32) (repeat 0 12) (repeat 1 12)) as (es & E & _ & D1 & D2); [reflexivity..|].
  exists m1, m2, es. by split_and!.
Defined.
