(* ===== verification/Alarm.v ===== *)
(** * internal/nrm: the alarm store and the alarm manager

    alarm.go and alarm_manager.go.  Generated identifiers and clock readings are
    arguments.  The store's alarms are changed only through its methods, so they
    are values of the map; the two-phase check of [Save] under its locks is one
    step.  The floating-point failure rate enters as the outcome of its comparison
    with the threshold.  A history is a sequence of steps in which identifiers are
    fresh. *)
From S2P Require Import Prelude Regex Common Types Encoding EapSession.
From stdpp Require Import sorting.
Local Open Scope string_scope.
Local Open Scope Z_scope.
Local Open Scope list_scope.

Record Alarm : Type := mkAlarm {
  AlarmID : string; AlarmType : string; ProbableCause : string; SpecificProblem : string;
  Severity : string; PerceivedSeverity : string; BackupObject : string;
  CorrelatedAlarms : list string; ProposedRepairActions : string; EventTime : Z;
  Acked : bool; AckedBy : string; AckedAt : option Z }.

Definition set_id (id : string) (a : Alarm) : Alarm :=
  mkAlarm id (AlarmType a) (ProbableCause a) (SpecificProblem a) (Severity a) (PerceivedSeverity a)
    (BackupObject a) (CorrelatedAlarms a) (ProposedRepairActions a) (EventTime a) (Acked a) (AckedBy a)
    (AckedAt a).
Definition set_time (t : Z) (a : Alarm) : Alarm :=
  mkAlarm (AlarmID a) (AlarmType a) (ProbableCause a) (SpecificProblem a) (Severity a)
    (PerceivedSeverity a) (BackupObject a) (CorrelatedAlarms a) (ProposedRepairActions a) t (Acked a)
    (AckedBy a) (AckedAt a).
Definition set_ack (acked : bool) (by_ : string) (now : Z) (a : Alarm) : Alarm :=
  mkAlarm (AlarmID a) (AlarmType a) (ProbableCause a) (SpecificProblem a) (Severity a)
    (PerceivedSeverity a) (BackupObject a) (CorrelatedAlarms a) (ProposedRepairActions a) (EventTime a)
    acked by_ (Some now).

(** [dedupKey] and [dedupInfo] *)
Abbreviation dedupKey := (string * string)%type.
Definition key_of (a : Alarm) : dedupKey := (AlarmType a, BackupObject a).
Record AlarmStore : Type := mkStore {
  alarms : gmap string Alarm; dedup : gmap dedupKey (string * Z) }.
Definition NewAlarmStore : AlarmStore := mkStore ∅ ∅.

(** [EventTime] zero means not set. *)
Definition Save (now : Z) (uuid : string) (s : AlarmStore) (alarm : Alarm) : AlarmStore * string :=
  let alarm := if is_empty (AlarmID alarm) then set_id uuid alarm else alarm in
  let key := key_of alarm in
  let store (s : AlarmStore) :=
    let alarm := if EventTime alarm =? 0 then set_time now alarm else alarm in
    (mkStore (<[AlarmID alarm := alarm]> (alarms s))
       (<[key := (AlarmID alarm, EventTime alarm + 5 * 60 * second)]> (dedup s)), AlarmID alarm) in
  if is_empty (BackupObject alarm) then store s
  else match dedup s !! key with
  | Some (id, deadline) =>
      if now <? deadline then (s, id)
      else store (mkStore (delete id (alarms s)) (delete key (dedup s)))
  | None => store s
  end.

Definition newest (a b : Alarm) : Prop := EventTime b <= EventTime a.
#[global] Instance newest_dec a b : Decision (newest a b).
Proof. unfold newest. apply _. Defined.
(** Alarms of the same time come in an unspecified order; this is one of them. *)
Definition List_ (s : AlarmStore) : list Alarm := merge_sort newest (map snd (map_to_list (alarms s))).
Definition Get (s : AlarmStore) (id : string) : option Alarm := alarms s !! id.
Definition Clear (s : AlarmStore) (id : string) : AlarmStore * bool :=
  match alarms s !! id with
  | None => (s, false)
  | Some a => (mkStore (delete id (alarms s)) (delete (key_of a) (dedup s)), true)
  end.
Definition Count (s : AlarmStore) : nat := size (alarms s).
Definition UpdateAck (now : Z) (s : AlarmStore) (id : string) (acked : bool) (ackedBy : string)
  : AlarmStore * bool :=
  match alarms s !! id with
  | None => (s, false)
  | Some a => (mkStore (<[id := set_ack acked ackedBy now a]> (alarms s)) (dedup s), true)
  end.

(** ** alarm_manager.go *)
Definition AlarmAAAUnreachable : string := "NSSAA_AAA_SERVER_UNREACHABLE".
Definition AlarmSessionTableFull : string := "NSSAA_SESSION_TABLE_FULL".
Definition AlarmDBUnreachable : string := "NSSAA_DB_UNREACHABLE".
Definition AlarmRedisUnreachable : string := "NSSAA_REDIS_UNREACHABLE".
Definition AlarmNRFUnreachable : string := "NSSAA_NRF_UNREACHABLE".
Definition AlarmHighAuthFailureRate : string := "NSSAA_HIGH_AUTH_FAILURE_RATE".
Definition AlarmCircuitBreakerOpen : string := "NSSAA_CIRCUIT_BREAKER_OPEN".

Definition probableCause (t : string) : string :=
  if str_eqb t AlarmAAAUnreachable then "AAA_SERVER_UNREACHABLE"
  else if str_eqb t AlarmSessionTableFull then "RESOURCE_CAPACITY_EXCEEDED"
  else if str_eqb t AlarmDBUnreachable then "DATABASE_UNAVAILABLE"
  else if str_eqb t AlarmRedisUnreachable then "CACHING_SERVER_UNAVAILABLE"
  else if str_eqb t AlarmNRFUnreachable then "NETWORK_FUNCTION_REGISTRY_UNAVAILABLE"
  else if str_eqb t AlarmHighAuthFailureRate then "AUTHENTICATION_FAILURE_RATE_HIGH"
  else if str_eqb t AlarmCircuitBreakerOpen then "CIRCUIT_BREAKER_OPEN"
  else "UNKNOWN".
Definition proposedRepairAction (t : string) : string :=
  if str_eqb t AlarmAAAUnreachable then "Check AAA server connectivity and configuration"
  else if str_eqb t AlarmSessionTableFull then "Increase session table capacity or reduce load"
  else if str_eqb t AlarmDBUnreachable then "Check PostgreSQL connectivity and configuration"
  else if str_eqb t AlarmRedisUnreachable then "Check Redis connectivity and configuration"
  else if str_eqb t AlarmNRFUnreachable then "Check NRF connectivity and registration"
  else if str_eqb t AlarmHighAuthFailureRate then "Investigate authentication failures and AAA server logs"
  else if str_eqb t AlarmCircuitBreakerOpen then "Check AAA server health and network connectivity"
  else "Contact network operations team".

Record AlarmManager : Type := mkManager {
  store : AlarmStore; cbState : gmap string bool; authTotal : Z; authFailures : Z }.
Definition set_store (m : AlarmManager) (s : AlarmStore) : AlarmManager :=
  mkManager s (cbState m) (authTotal m) (authFailures m).

Definition RaiseAlarm (now : Z) (uuid : string) (s : AlarmStore) (eventType backupObject specificProblem severity : string)
  : AlarmStore * string :=
  Save now uuid s (mkAlarm uuid eventType (probableCause eventType) specificProblem severity severity
    backupObject [] (proposedRepairAction eventType) now false estr None).

Definition matches (t obj : string) (a : Alarm) : bool :=
  str_eqb (AlarmType a) t && str_eqb (BackupObject a) obj.
Definition ClearByType (s : AlarmStore) (alarmType backupObject : string) : AlarmStore :=
  foldl (fun s a => if matches alarmType backupObject a then fst (Clear s (AlarmID a)) else s)
    s (List_ s).

Section Evaluate.
(** [float64(failures) / float64(total) * 100 > threshold], and the text of the
    rate. *)
Context (rate_exceeds : Z -> Z -> bool) (rate_text : Z -> Z -> string).

Definition raise_in (now : Z) (uuid : string) (m : AlarmManager) (t obj problem severity : string) : AlarmManager :=
  set_store m (fst (RaiseAlarm now uuid (store m) t obj problem severity)).

(** The two halves of the CIRCUIT_BREAKER_OPEN case: between them
    [takeAlarmSnapshot] releases the manager's lock and lists the store. *)
Definition open_mark (m : AlarmManager) (target : string) : AlarmManager :=
  mkManager (store m) (<[target := true]> (cbState m)) (authTotal m) (authFailures m).
Definition open_raise (now : Z) (uuid : string) (snapshot : list Alarm) (m : AlarmManager) (target : string)
  : AlarmManager :=
  if existsb (matches AlarmCircuitBreakerOpen target) snapshot then m
  else raise_in now uuid m AlarmCircuitBreakerOpen target
         ("circuit breaker open for AAA server: " +:+ target) "MAJOR".

Definition Evaluate (now : Z) (uuid : string) (m : AlarmManager) (eventType target : string) : AlarmManager :=
  if str_eqb eventType "AUTH_SUCCESS" then
    mkManager (store m) (cbState m) (authTotal m + 1) (authFailures m)
  else if str_eqb eventType "AUTH_FAILURE" then
    let m := mkManager (store m) (cbState m) (authTotal m + 1) (authFailures m + 1) in
    if (0 <? authTotal m) && rate_exceeds (authFailures m) (authTotal m) then
      if existsb (fun a => str_eqb (AlarmType a) AlarmHighAuthFailureRate) (List_ (store m)) then m
      else raise_in now uuid m AlarmHighAuthFailureRate "global"
             (rate_text (authFailures m) (authTotal m)) "MAJOR"
    else m
  else if str_eqb eventType "CIRCUIT_BREAKER_OPEN" then
    let m := open_mark m target in
    open_raise now uuid (List_ (store m)) m target
  else if str_eqb eventType "CIRCUIT_BREAKER_CLOSED" then
    match cbState m !! target with
    | Some true =>
        mkManager (ClearByType (store m) AlarmCircuitBreakerOpen target) (<[target := false]> (cbState m))
          (authTotal m) (authFailures m)
    | _ => m
    end
  else if str_eqb eventType "AAA_UNREACHABLE" then
    raise_in now uuid m AlarmAAAUnreachable target ("AAA server unreachable: " +:+ target) "CRITICAL"
  else if str_eqb eventType "DB_UNREACHABLE" then
    raise_in now uuid m AlarmDBUnreachable "postgres" target "CRITICAL"
  else if str_eqb eventType "REDIS_UNREACHABLE" then
    raise_in now uuid m AlarmRedisUnreachable "redis" target "MAJOR"
  else if str_eqb eventType "NRF_UNREACHABLE" then
    raise_in now uuid m AlarmNRFUnreachable "nrf" target "MAJOR"
  else m.

Definition ResetAuthMetrics (m : AlarmManager) : AlarmManager := mkManager (store m) (cbState m) 0 0.

(** ** Histories *)
Definition fresh (uuid : string) (s : AlarmStore) : Prop :=
  uuid <> estr /\ alarms s !! uuid = None.

(** Besides whole evaluations, the halves of those that release the lock in the
    middle, with whatever snapshot they took. *)
Inductive step : AlarmManager -> AlarmManager -> Prop :=
| step_event m now uuid e target :
    fresh uuid (store m) -> step m (Evaluate now uuid m e target)
| step_open_mark m target : step m (open_mark m target)
| step_open_raise m now uuid snapshot target :
    fresh uuid (store m) -> step m (open_raise now uuid snapshot m target)
| step_raise m now uuid t obj problem severity :
    fresh uuid (store m) -> step m (raise_in now uuid m t obj problem severity)
| step_clear m id : step m (set_store m (fst (Clear (store m) id)))
| step_ack m now id by_ : step m (set_store m (fst (UpdateAck now (store m) id true by_)))
| step_reset m : step m (ResetAuthMetrics m).
Inductive reachable : AlarmManager -> Prop :=
| reach_init : reachable (mkManager NewAlarmStore ∅ 0 0)
| reach_step m m' : reachable m -> step m m' -> reachable m'.

(** An alarm about an object and its deduplication entry belong together. *)
Record store_inv (s : AlarmStore) : Prop := {
  inv_id id a : alarms s !! id = Some a -> AlarmID a = id;
  inv_dedup id a : alarms s !! id = Some a -> BackupObject a <> estr ->
    exists dl, dedup s !! key_of a = Some (id, dl);
  inv_alarm k id dl : dedup s !! k = Some (id, dl) -> snd k <> estr ->
    exists a, alarms s !! id = Some a /\ key_of a = k }.

Lemma Clear_inv s id : store_inv s -> store_inv (fst (Clear s id)).
Proof.
  intros [Hid Hd Ha]. unfold Clear. destruct (alarms s !! id) as [a|] eqn:E; [|done].
  split; cbn.
  - intros i b [_ Hb]%lookup_delete_Some. eauto.
  - intros i b [Hne Hb]%lookup_delete_Some Ho. destruct (Hd _ _ Hb Ho) as [dl Hdl].
    exists dl. apply lookup_delete_Some. split; [|done]. intros Hk.
    destruct (Hd _ _ E) as [dl' Hdl']; [|rewrite Hk in Hdl'; congruence].
    unfold key_of in Hk. congruence.
  - intros k i dl [Hne Hk]%lookup_delete_Some Ho. destruct (Ha _ _ _ Hk Ho) as (b & Hb & Hkb).
    exists b. split; [|done]. apply lookup_delete_Some. split; [|done]. congruence.
Qed.

(** Storing an alarm under a free identifier, its key not being in use. *)
Lemma store_new_inv s a id dl :
  store_inv s -> alarms s !! id = None -> AlarmID a = id ->
  (BackupObject a <> estr -> dedup s !! key_of a = None) ->
  store_inv (mkStore (<[id := a]> (alarms s)) (<[key_of a := (id, dl)]> (dedup s))).
Proof.
  intros [Hid Hd Ha] Hf <- Hk. split; cbn.
  - intros i b [[<- <-]|[_ Hb]]%lookup_insert_Some; eauto.
  - intros i b [[<- <-]|[Hne Hb]]%lookup_insert_Some Ho; [exists dl; apply lookup_insert_eq|].
    destruct (Hd _ _ Hb Ho) as [d Hdd]. exists d. rewrite lookup_insert_ne; [done|].
    intros He. rewrite <- He, Hk in Hdd; [done|]. unfold key_of in He. congruence.
  - intros k i d [[<- [= <- <-]]|[Hne Hb]]%lookup_insert_Some Ho;
      [exists a; split; [apply lookup_insert_eq|done]|].
    destruct (Ha _ _ _ Hb Ho) as (b & Hb' & Hkb). exists b. split; [|done].
    rewrite lookup_insert_ne; congruence.
Qed.

Lemma delete_key_inv s k id dl :
  store_inv s -> snd k <> estr -> dedup s !! k = Some (id, dl) ->
  store_inv (mkStore (delete id (alarms s)) (delete k (dedup s))).
Proof.
  intros Hi Hk Hd. destruct (inv_alarm _ Hi _ _ _ Hd Hk) as (a & Ha & <-).
  generalize (Clear_inv s id Hi). unfold Clear. by rewrite Ha.
Qed.

Lemma Save_inv now uuid s a :
  store_inv s -> AlarmID a = uuid -> fresh uuid s -> store_inv (fst (Save now uuid s a)).
Proof.
  intros Hi <- [Hne Hf]. unfold Save.
  assert (is_empty (AlarmID a) = false) as -> by (by destruct (AlarmID a)).
  assert (Hst : forall s', store_inv s' -> alarms s' !! AlarmID a = None ->
    (BackupObject a <> estr -> dedup s' !! key_of a = None) ->
    let a' := if EventTime a =? 0 then set_time now a else a in
    store_inv (mkStore (<[AlarmID a' := a']> (alarms s'))
      (<[key_of a := (AlarmID a', EventTime a' + 5 * 60 * second)]> (dedup s')))).
  { intros s' Hs' Hf' Hk'. cbv zeta.
    replace (key_of a) with (key_of (if EventTime a =? 0 then set_time now a else a)) by (by destruct (_ =? _)).
    apply store_new_inv; [done| | |]; by destruct (_ =? _). }
  destruct (is_empty (BackupObject a)) eqn:Eo.
  - apply Hst; [done..|]. by destruct (BackupObject a).
  - assert (Ho : BackupObject a <> estr) by (by destruct (BackupObject a)).
    destruct (dedup s !! key_of a) as [[id dl]|] eqn:Ed; [|by apply Hst].
    destruct (now <? dl); [done|]. apply Hst; cbn.
    + eapply delete_key_inv; eauto.
    + rewrite lookup_delete_None. by right.
    + intros _. apply lookup_delete_eq.
Qed.

Lemma UpdateAck_inv now s id acked by_ : store_inv s -> store_inv (fst (UpdateAck now s id acked by_)).
Proof.
  intros [Hid Hd Ha]. unfold UpdateAck. destruct (alarms s !! id) as [a|] eqn:E; [|done]. split; cbn.
  - intros i b [[<- <-]|[_ Hb]]%lookup_insert_Some; cbn; eauto.
  - intros i b [[<- <-]|[_ Hb]]%lookup_insert_Some Ho; [|eauto]. exact (Hd _ _ E Ho).
  - intros k i dl Hk Ho. destruct (Ha _ _ _ Hk Ho) as (b & Hb & <-).
    destruct (decide (i = id)) as [->|Hn]; [|exists b; by rewrite lookup_insert_ne].
    exists (set_ack acked by_ now a). rewrite lookup_insert_eq. split; [done|].
    rewrite E in Hb. by injection Hb as ->.
Qed.

Lemma ClearByType_inv s t obj : store_inv s -> store_inv (ClearByType s t obj).
Proof.
  unfold ClearByType. generalize (List_ s) as l. intros l. revert s.
  induction l as [|a l IH]; intros s Hi; [done|]. cbn. apply IH.
  destruct (matches _ _ _); [by apply Clear_inv|done].
Qed.

Lemma raise_inv now uuid m t obj problem severity :
  store_inv (store m) -> fresh uuid (store m) ->
  store_inv (store (raise_in now uuid m t obj problem severity)).
Proof. intros Hi Hf. by apply Save_inv. Qed.
Create HintDb alarm_db.
#[local] Hint Resolve Clear_inv UpdateAck_inv ClearByType_inv raise_inv : alarm_db.

Lemma Evaluate_inv now uuid m e target :
  store_inv (store m) -> fresh uuid (store m) -> store_inv (store (Evaluate now uuid m e target)).
Proof.
  intros Hi Hf. unfold Evaluate, open_raise.
  repeat case_match; cbn [store]; eauto with alarm_db.
Qed.

Lemma alarm_reachable_inv m : reachable m -> store_inv (store m).
Proof.
  induction 1 as [|m m' _ IH Hs]; [split; cbn; intros *; by rewrite lookup_empty|].
  destruct Hs; [by apply Evaluate_inv|done|..|done]; [|by apply raise_inv|cbn; eauto with alarm_db..].
  unfold open_raise. case_match; eauto with alarm_db.
Qed.

(** ** What is active *)
Definition active (s : AlarmStore) (t obj : string) : Prop :=
  exists id a, alarms s !! id = Some a /\ AlarmType a = t /\ BackupObject a = obj.

Lemma matches_true t obj a : matches t obj a = true <-> AlarmType a = t /\ BackupObject a = obj.
Proof. unfold matches. by rewrite andb_true_iff, !str_eqb_true. Qed.

Lemma elem_List s a : a ∈ List_ s <-> exists id, alarms s !! id = Some a.
Proof.
  unfold List_. rewrite merge_sort_Permutation, list_elem_of_fmap. split.
  - intros ([i b] & -> & Hi%elem_of_map_to_list). by exists i.
  - intros [i Hi]. exists (i, a). split; [done|]. by apply elem_of_map_to_list.
Qed.

Lemma existsb_active s t obj : existsb (matches t obj) (List_ s) = true <-> active s t obj.
Proof.
  rewrite existsb_exists. unfold active. split.
  - intros (a & [id Hid]%list_elem_of_In%elem_List & Hm%matches_true). eauto.
  - intros (id & a & Ha & Hm%matches_true). exists a. split; [|done].
    apply list_elem_of_In, elem_List. eauto.
Qed.

Lemma lookup_Clear s id i :
  alarms (fst (Clear s id)) !! i = if decide (i = id) then None else alarms s !! i.
Proof.
  unfold Clear. destruct (alarms s !! id) eqn:E; cbn; case_decide; subst;
    rewrite ?lookup_delete_eq, ?lookup_delete_ne; congruence.
Qed.

(** Clearing the matching alarms of a listing removes their identifiers and
    nothing else. *)
Lemma lookup_clear_fold t obj l : forall s i,
  alarms (foldl (fun s a => if matches t obj a then fst (Clear s (AlarmID a)) else s) s l) !! i =
  if existsb (fun a => matches t obj a && str_eqb (AlarmID a) i) l then None else alarms s !! i.
Proof.
  induction l as [|a l IH]; intros s i; [done|]. cbn. rewrite IH.
  destruct (matches t obj a); cbn; [|done]. rewrite lookup_Clear.
  destruct (str_eqb (AlarmID a) i) eqn:E.
  - apply str_eqb_true in E. rewrite decide_True by done. by destruct (existsb _ l).
  - rewrite decide_False; [done|]. intros ->. by rewrite (proj2 (str_eqb_true _ _) eq_refl) in E.
Qed.

Lemma lookup_ClearByType s t obj i :
  store_inv s ->
  alarms (ClearByType s t obj) !! i =
  match alarms s !! i with Some a => if matches t obj a then None else Some a | None => None end.
Proof.
  intros Hi. unfold ClearByType. rewrite lookup_clear_fold.
  destruct (existsb _ _) eqn:E.
  - apply existsb_exists in E as (a & [j Hj]%list_elem_of_In%elem_List & [Hm He%str_eqb_true]%andb_true_iff).
    rewrite (inv_id _ Hi _ _ Hj) in He. subst j. by rewrite Hj, Hm.
  - destruct (alarms s !! i) as [a|] eqn:Ea; [|done]. destruct (matches t obj a) eqn:Em; [|done].
    exfalso. apply not_true_iff_false in E. apply E, existsb_exists. exists a.
    rewrite <- list_elem_of_In, elem_List, Em. split; [eauto|]. by apply str_eqb_true, (inv_id _ Hi).
Qed.

Lemma ClearByType_inactive s t obj : store_inv s -> ~ active (ClearByType s t obj) t obj.
Proof.
  intros Hi (id & a & Ha & Hm%matches_true). rewrite lookup_ClearByType in Ha by done.
  destruct (alarms s !! id) as [b|]; [|done]. destruct (matches t obj b) eqn:Eb; congruence.
Qed.

Lemma Save_active now uuid s a :
  store_inv s -> active (fst (Save now uuid s a)) (AlarmType a) (BackupObject a).
Proof.
  intros Hi. unfold Save. set (a' := if is_empty (AlarmID a) then _ else a).
  assert (Hk : AlarmType a' = AlarmType a /\ BackupObject a' = BackupObject a)
    by (subst a'; by destruct (is_empty _)).
  destruct Hk as [<- <-].
  assert (Hst : forall (s' : AlarmStore) b d, AlarmType b = AlarmType a' -> BackupObject b = BackupObject a' ->
    active (mkStore (<[AlarmID b := b]> (alarms s')) d) (AlarmType a') (BackupObject a')).
  { intros s' b d Ht Ho. exists (AlarmID b), b. cbn. by rewrite lookup_insert_eq. }
  destruct (is_empty (BackupObject a')) eqn:Eo; [apply Hst; by destruct (_ =? _)|].
  destruct (dedup s !! key_of a') as [[id dl]|] eqn:Ed; [|apply Hst; by destruct (_ =? _)].
  destruct (now <? dl); [|apply Hst; by destruct (_ =? _)].
  destruct (inv_alarm _ Hi _ _ _ Ed) as (b & Hb & [= Ht Ho]);
    [unfold key_of; cbn; intros He; by rewrite He in Eo|].
  by exists id, b.
Qed.

Lemma open_raise_active now uuid m target :
  store_inv (store m) ->
  active (store (open_raise now uuid (List_ (store m)) m target)) AlarmCircuitBreakerOpen target.
Proof.
  intros Hi. unfold open_raise. destruct (existsb _ _) eqn:E; [by apply existsb_active|].
  by apply Save_active.
Qed.

Lemma cbState_open_raise now uuid l m target : cbState (open_raise now uuid l m target) = cbState m.
Proof. unfold open_raise. by case_match. Qed.

Lemma Evaluate_closed now uuid m target (b : bool) :
  cbState m !! target = Some b ->
  Evaluate now uuid m "CIRCUIT_BREAKER_CLOSED" target =
  if b then mkManager (ClearByType (store m) AlarmCircuitBreakerOpen target)
              (<[target := false]> (cbState m)) (authTotal m) (authFailures m)
  else m.
Proof.
  intros H. unfold Evaluate.
  change (match cbState m !! target with
    | Some true => mkManager (ClearByType (store m) AlarmCircuitBreakerOpen target)
        (<[target := false]> (cbState m)) (authTotal m) (authFailures m)
    | _ => m end = if b then mkManager (ClearByType (store m) AlarmCircuitBreakerOpen target)
        (<[target := false]> (cbState m)) (authTotal m) (authFailures m) else m).
  rewrite H. by destruct b.
Qed.

(** ** Theorems *)

(** The deduplication of alarms: in every state the alarm manager can reach,
    whatever the interleaving of evaluations, clears and acknowledgements, two
    active alarms of one type about one (named) object are the same alarm; and a
    condition raised again within five minutes of the alarm that was stored for it
    changes nothing and returns that alarm's identifier. *)
Theorem alarm_unique m t obj :
  reachable m -> obj <> estr ->
  (forall i j a b, alarms (store m) !! i = Some a -> alarms (store m) !! j = Some b ->
     key_of a = (t, obj) -> key_of b = (t, obj) -> i = j) /\
  (forall now uuid now' uuid' p p' sev sev' s id,
     dedup (store m) !! (t, obj) = None -> fresh uuid (store m) -> now <> 0 ->
     RaiseAlarm now uuid (store m) t obj p sev = (s, id) ->
     id = uuid /\ active s t obj /\
     (now' < now + 5 * 60 * second -> RaiseAlarm now' uuid' s t obj p' sev' = (s, id))).
Proof.
  intros Hr Ho. pose proof (alarm_reachable_inv _ Hr) as Hi. split.
  - intros i j a b Ha Hb Hka Hkb.
    assert (HO : forall c, key_of c = (t, obj) -> BackupObject c <> estr) by (intros c [= _ ->]; done).
    destruct (inv_dedup _ Hi _ _ Ha (HO _ Hka)) as [d Hd], (inv_dedup _ Hi _ _ Hb (HO _ Hkb)) as [d' Hd'].
    congruence.
  - intros now uuid now' uuid' p p' sev sev' s id Hd [Hu Hf] Hn HR.
    pose proof (Save_active now uuid (store m) (mkAlarm uuid t (probableCause t) p sev sev obj []
      (proposedRepairAction t) now false estr None) Hi) as Hact.
    fold (RaiseAlarm now uuid (store m) t obj p sev) in Hact. rewrite HR in Hact. cbn in Hact.
    assert (Eu : is_empty uuid = false) by (by destruct uuid).
    assert (Eo : is_empty obj = false) by (by destruct obj).
    unfold RaiseAlarm, Save in HR. cbn in HR. rewrite Eu in HR. cbn in HR. unfold key_of in HR.
    cbn in HR. rewrite Eo, Hd in HR. destruct (now =? 0) eqn:En; [lia|]. cbn in HR.
    injection HR as <- <-.
    split; [done|]. split; [done|]. intros Hw. unfold RaiseAlarm, Save. cbn. unfold key_of.
    destruct (is_empty uuid'); cbn; rewrite Eo, lookup_insert_eq; cbn;
      (destruct (now' <? _) eqn:El; [done|unfold second in *; lia]).
Qed.

(** The circuit breaker alarm follows the breaker when its events are evaluated
    one after the other: after an open event an alarm for that server is active, and
    after a close event of a server recorded as open none is, the alarms of other
    servers and types being left as they were. *)
Theorem breaker_alarm_follows m now uuid target :
  reachable m -> fresh uuid (store m) ->
  let opened := Evaluate now uuid m "CIRCUIT_BREAKER_OPEN" target in
  let closed := Evaluate now uuid m "CIRCUIT_BREAKER_CLOSED" target in
  active (store opened) AlarmCircuitBreakerOpen target /\ cbState opened !! target = Some true /\
  (cbState m !! target = Some true ->
     ~ active (store closed) AlarmCircuitBreakerOpen target /\
     forall t obj, (t, obj) <> (AlarmCircuitBreakerOpen, target) ->
       active (store closed) t obj <-> active (store m) t obj).
Proof.
  intros Hr Hf. pose proof (alarm_reachable_inv _ Hr) as Hi. cbv zeta. split_and!.
  - apply (open_raise_active now uuid (open_mark m target)). exact Hi.
  - etrans; [|exact (lookup_insert_eq (cbState m) target true)].
    exact (f_equal (lookup target) (cbState_open_raise now uuid _ (open_mark m target) target)).
  - intros Ho. rewrite (Evaluate_closed _ _ _ _ true) by done. cbn [store].
    split; [by apply ClearByType_inactive|].
    intros t obj Hne. unfold active. apply exist_proper. intros id. apply exist_proper. intros a.
    rewrite lookup_ClearByType by done. destruct (alarms (store m) !! id) as [b|]; [|done].
    destruct (matches _ _ b) eqn:Em; [|done]. apply matches_true in Em as [? ?].
    split; intros ([= ->] & <- & <-); congruence.
Qed.

(** The manager's lock is released while an open event lists the alarms, and
    the order of breaker events is lost there: when the close event of the same
    server is evaluated in that window, the run ends with the breaker recorded as
    closed and its alarm active, and no later close event removes that alarm. *)
Theorem breaker_alarm_race m now uuid uuid' target :
  reachable m -> fresh uuid (store m) ->
  let m1 := open_mark m target in
  let m2 := Evaluate now uuid' m1 "CIRCUIT_BREAKER_CLOSED" target in
  let m3 := open_raise now uuid (List_ (store m2)) m2 target in
  cbState m3 !! target = Some false /\ active (store m3) AlarmCircuitBreakerOpen target /\
  forall now' id, Evaluate now' id m3 "CIRCUIT_BREAKER_CLOSED" target = m3.
Proof.
  intros Hr Hf. pose proof (alarm_reachable_inv _ Hr) as Hi. cbv zeta.
  set (m2 := Evaluate now uuid' _ _ _).
  assert (Hm2 : store_inv (store m2) /\ cbState m2 !! target = Some false).
  { subst m2. rewrite (Evaluate_closed _ _ _ _ true) by apply lookup_insert_eq.
    split; [by apply ClearByType_inv|apply lookup_insert_eq]. }
  destruct Hm2 as [Hi2 Hc2].
  assert (Hc3 : cbState (open_raise now uuid (List_ (store m2)) m2 target) !! target = Some false)
    by (by rewrite cbState_open_raise).
  split; [done|]. split; [by apply open_raise_active|].
  intros now' id. by rewrite (Evaluate_closed _ _ _ _ false).
Qed.
End Evaluate.

Section Witness.
Let never (_ _ : Z) : bool := false.
Let text (_ _ : Z) : string := "rate".
Let m0 : AlarmManager := mkManager NewAlarmStore ∅ 0 0.
Let m1 : AlarmManager := Evaluate never text 1000 "u1" m0 "CIRCUIT_BREAKER_OPEN" "aaa1".

Lemma m1_reachable : reachable never text m1.
Proof. eapply reach_step; [apply reach_init|]. constructor. by split. Defined.

Lemma alarm_unique_witness :
  snd (RaiseAlarm 2000 "u3" (fst (RaiseAlarm 1500 "u2" (store m1) AlarmAAAUnreachable "aaa1" "p" "MAJOR"))
    AlarmAAAUnreachable "aaa1" "p" "MAJOR") = "u2".
Proof.
  destruct (RaiseAlarm 1500 "u2" (store m1) AlarmAAAUnreachable "aaa1" "p" "MAJOR") as [s id] eqn:E.
  destruct (alarm_unique never text m1 AlarmAAAUnreachable "aaa1" m1_reachable ltac:(done)) as [_ H].
  destruct (H 1500 "u2" 2000 "u3" "p" "p" "MAJOR" "MAJOR" s id) as (-> & _ & H');
    [by vm_compute|by split; vm_compute|lia|done|].
  cbn [fst]. rewrite H' by (unfold second; lia). reflexivity.
Defined.

Lemma breaker_alarm_follows_witness :
  cbState m1 !! "aaa1" = Some true /\
  ~ active (store (Evaluate never text 2000 "u2" m1 "CIRCUIT_BREAKER_CLOSED" "aaa1")) AlarmCircuitBreakerOpen "aaa1".
Proof.
  split; [by vm_compute|].
  apply (breaker_alarm_follows never text m1 2000 "u2" "aaa1" m1_reachable); [by split; vm_compute|by vm_compute].
Defined.

Lemma breaker_alarm_race_witness :
  let m3 := open_raise 2000 "u2" (List_ (store (Evaluate never text 2000 "u4" (open_mark m1 "aaa2")
              "CIRCUIT_BREAKER_CLOSED" "aaa2"))) (Evaluate never text 2000 "u4" (open_mark m1 "aaa2")
              "CIRCUIT_BREAKER_CLOSED" "aaa2") "aaa2" in
  cbState m3 !! "aaa2" = Some false /\ active (store m3) AlarmCircuitBreakerOpen "aaa2".
Proof.
  destruct (breaker_alarm_race never text m1 2000 "u2" "u4" "aaa2" m1_reachable) as (H & H' & _);
    [by split; vm_compute|]. by split.
Defined.
End Witness.
