(* ===== verification/Diameter.v ===== *)
(** * internal/diameter: AVPs, typed messages, requests

    snssai_avp.go, eap_avp.go, messages/, aaa_router.go and the request builders of
    client.go and of internal/aaa/gateway/diameter_forward.go.  The message and AVP
    structs of the go-diameter library are records with the fields the sources
    access; the library's own functions are parameters: whether adding an AVP to a
    message fails, and the dictionary-driven search [FindAVPs], which either fails or
    returns the AVPs of the message with that code and vendor, in order. *)
From S2P Require Import Prelude Regex Common Types Encoding EapSession EapEngine Radius Storage.
Import Validator.
Local Open Scope string_scope.
Local Open Scope Z_scope.
Local Open Scope list_scope.

(** ** Messages of the library *)
Inductive avp_data : Type :=
| UTF8String (s : string)
| OctetString (b : bytes)
| Unsigned32 (n : Z)
| DiameterIdentity (s : string)
| OtherData.
Record AVP : Type := mkAVP { a_Code : Z; a_Flags : Z; a_VendorID : Z; a_Data : avp_data }.
Record Message : Type := mkMsg {
  m_Command : Z; m_AppID : Z; m_HopByHopID : Z; m_EndToEndID : Z; m_AVP : list AVP }.
#[global] Instance avp_data_eq_dec : EqDecision avp_data.
Proof. solve_decision. Defined.
#[global] Instance AVP_eq_dec : EqDecision AVP.
Proof. solve_decision. Defined.
#[global] Instance Message_eq_dec : EqDecision Message.
Proof. solve_decision. Defined.

Definition AddAVP (m : Message) (a : AVP) : Message :=
  mkMsg (m_Command m) (m_AppID m) (m_HopByHopID m) (m_EndToEndID m) (m_AVP m ++ [a]).
Definition set_hop (h : Z) (m : Message) : Message :=
  mkMsg (m_Command m) (m_AppID m) h (m_EndToEndID m) (m_AVP m).
Definition set_e2e (e : Z) (m : Message) : Message :=
  mkMsg (m_Command m) (m_AppID m) (m_HopByHopID m) e (m_AVP m).

(** avp.Mbit and avp.Vbit of the library, and its AVP codes. *)
Definition Mbit : Z := 64.
Definition Vbit : Z := 128.
Definition UserName : Z := 1.
Definition AuthApplicationID : Z := 258.
Definition SessionID : Z := 263.
Definition OriginHost : Z := 264.
Definition ResultCode : Z := 268.
Definition AuthRequestType : Z := 274.
Definition AuthSessionState : Z := 277.
Definition OriginStateID : Z := 278.
Definition DestinationRealm : Z := 283.
Definition ReAuthRequestType : Z := 285.
Definition DestinationHost : Z := 293.
Definition TerminationCause : Z := 295.
Definition OriginRealm : Z := 296.
Definition ExperimentalResult : Z := 297.

(** ** snssai_avp.go *)
Definition AVP3GPP_S_NSSAI : Z := 200.
Definition AVPCodeEAPPayload : Z := 209.

Inductive dia_error : Type :=
| ErrInvalidSD
| ErrInvalidSST
| ErrAVP (e : string)
| ErrFindAVPs
| ErrUnexpectedType
| ErrTooShort.

Definition parseSDToBytes (sd : string) : result dia_error bytes :=
  if negb (slen sd =? 6) then Err ErrInvalidSD
  else match Hex.DecodeString sd with
  | None => Err ErrInvalidSD
  | Some b => if negb (len b =? 3) then Err ErrInvalidSD else Ok b
  end.

Definition EncodeSnssaiAVP (sst : Z) (sd : string) : result dia_error AVP :=
  let mk data := mkAVP AVP3GPP_S_NSSAI (Z.lor Mbit Vbit) VendorID3GPP (OctetString data) in
  if is_empty sd then Ok (mk [sst])
  else let? sdBytes := parseSDToBytes sd in Ok (mk (sst :: sdBytes)).

Definition EncodeEapPayloadAVP (eapPayload : bytes) : AVP := mkAVP 209 0 0 (OctetString eapPayload).
Definition EncodeUserNameAVP (userName : string) : AVP := mkAVP UserName Mbit 0 (UTF8String userName).
Definition EncodeSessionIDAVP (sessionID : string) : AVP := mkAVP SessionID Mbit 0 (UTF8String sessionID).

(** ** eap_avp.go: decoding *)
Definition hexChar (v : Z) : char := nth (Z.to_nat v) (chars "0123456789ABCDEF") (Ascii.ascii_of_N 0).
Definition encodeHex (b : bytes) : string :=
  String.string_of_list_ascii
    (flat_map (fun v => [hexChar (Z.shiftr v 4); hexChar (Z.land v 15)]) b).

Definition is_avp (code vendor : Z) (a : AVP) : bool := (a_Code a =? code) && (a_VendorID a =? vendor).

Definition DecodeEapPayloadAVP (m : Message) : result dia_error (option bytes) :=
  match List.find (is_avp AVPCodeEAPPayload 0) (m_AVP m) with
  | None => Ok None
  | Some a => match a_Data a with OctetString os => Ok (Some os) | _ => Err ErrUnexpectedType end
  end.

Section Library.
(** The error of [Message.NewAVP], if it reports one, and [Message.FindAVPs]. *)
Context (avp_error : AVP -> option string) (FindAVPs : Message -> Z -> Z -> option (list AVP)).

Definition NewAVP (m : Message) (code flags vendor : Z) (data : avp_data) : result dia_error Message :=
  let a := mkAVP code flags vendor data in
  match avp_error a with Some e => Err (ErrAVP e) | None => Ok (AddAVP m a) end.

Definition DecodeSnssaiAVP (m : Message) : result dia_error (Z * string) :=
  match FindAVPs m AVP3GPP_S_NSSAI VendorID3GPP with
  | None => Err ErrFindAVPs
  | Some [] => Ok (0, estr)
  | Some (a :: _) =>
      match a_Data a with
      | OctetString [] => Err ErrTooShort
      | OctetString (sst :: os) =>
          Ok (sst, if 4 <=? len (sst :: os) then encodeHex (take 3 os) else estr)
      | _ => Err ErrUnexpectedType
      end
  end.

Definition first_u32 (m : Message) (code : Z) : option Z :=
  match FindAVPs m code 0 with
  | Some (a :: _) => match a_Data a with Unsigned32 n => Some n | _ => None end
  | _ => None
  end.
Definition DecodeResultCodeAVP (m : Message) : Z := default 0 (first_u32 m ResultCode).
Definition DecodeAuthApplicationID (m : Message) : Z := default 0 (first_u32 m AuthApplicationID).

(** ** messages/: typed messages *)
Record SNSSAI : Type := mkSNSSAI { SST : Z; SD : bytes; HasSD : bool }.

(** [sst] is an 8-bit value, so the range check never fires. *)
Definition NewSNSSAI (sst : Z) (sd : string) : result dia_error SNSSAI :=
  if 255 <? sst then Err ErrInvalidSST
  else if is_empty sd then Ok (mkSNSSAI sst [0; 0; 0] false)
  else let? b := parseSDToBytes sd in Ok (mkSNSSAI sst b true).
Definition MarshalBinary (s : SNSSAI) : bytes := if HasSD s then SST s :: SD s else [SST s].
Definition UnmarshalBinary (s : SNSSAI) (data : bytes) : result dia_error SNSSAI :=
  match data with
  | [] => Err ErrTooShort
  | sst :: rest => Ok (if 4 <=? len data then mkSNSSAI sst (take 3 rest) true else mkSNSSAI sst (SD s) (HasSD s))
  end.
Definition SDString (s : SNSSAI) : string := if HasSD s then Hex.EncodeToString (SD s) else estr.
Definition SNSSAI_String (s : SNSSAI) : string :=
  if HasSD s then show_uint (SST s) +:+ "-" +:+ SDString s else show_uint (SST s).

Definition CmdDiameterEAP : Z := 268.
Definition CmdAbortSession : Z := 274.
Definition CmdReAuth : Z := 258.
Definition CmdSessionTermination : Z := 275.

(** [diam.NewRequest]: the library chooses the two identifiers. *)
Context (NewRequest : Z -> Z -> Message).
Definition addM (code vendor : Z) (data : avp_data) (m : Message) : result dia_error Message :=
  NewAVP m code Mbit vendor data.
Definition opt (b : bool) (f : Message -> result dia_error Message) (m : Message) : result dia_error Message :=
  if b then f m else Ok m.

Record DER : Type := mkDER {
  d_SessionID : string; d_OriginHost : string; d_OriginRealm : string; d_DestinationHost : string;
  d_DestinationRealm : string; d_AuthApplicationID : Z; d_AuthRequestType : Z; d_AuthSessionState : Z;
  d_OriginStateID : Z; d_UserName : string; d_CallingStationID : string; d_ExternalIdentifier : string;
  d_EAPPayload : bytes; d_SNSSAI : option SNSSAI }.
Definition NewDER (originHost originRealm destRealm : string) : DER :=
  mkDER estr originHost originRealm estr destRealm 5 2 1 0 estr estr estr [] None.

Definition DER_Encode (d : DER) : result dia_error Message :=
  let m := NewRequest CmdDiameterEAP (d_AuthApplicationID d) in
  let? m := addM SessionID 0 (UTF8String (d_SessionID d)) m in
  let? m := addM AuthApplicationID 0 (Unsigned32 (d_AuthApplicationID d)) m in
  let? m := addM AuthRequestType 0 (Unsigned32 (d_AuthRequestType d)) m in
  let? m := addM AuthSessionState 0 (Unsigned32 (d_AuthSessionState d)) m in
  let? m := addM OriginHost 0 (DiameterIdentity (d_OriginHost d)) m in
  let? m := addM OriginRealm 0 (DiameterIdentity (d_OriginRealm d)) m in
  let? m := addM OriginStateID 0 (Unsigned32 (u32 (d_OriginStateID d))) m in
  let? m := opt (negb (is_empty (d_DestinationHost d)))
              (addM DestinationHost 0 (DiameterIdentity (d_DestinationHost d))) m in
  let? m := addM DestinationRealm 0 (DiameterIdentity (d_DestinationRealm d)) m in
  let? m := opt (negb (is_empty (d_UserName d))) (addM UserName 0 (UTF8String (d_UserName d))) m in
  let? m := opt (negb (is_empty (d_CallingStationID d))) (addM 31 0 (UTF8String (d_CallingStationID d))) m in
  let? m := opt (negb (is_empty (d_ExternalIdentifier d)))
              (addM 606 10415 (UTF8String (d_ExternalIdentifier d))) m in
  let? m := opt (0 <? len (d_EAPPayload d)) (addM 209 0 (OctetString (d_EAPPayload d))) m in
  match d_SNSSAI d with
  | None => Ok m
  | Some s => addM 200 10415 (OctetString (MarshalBinary s)) m
  end.

Definition AddSNSSAI (d : DER) (sst : Z) (sd : string) : result dia_error DER :=
  let? s := NewSNSSAI sst sd in
  Ok (mkDER (d_SessionID d) (d_OriginHost d) (d_OriginRealm d) (d_DestinationHost d) (d_DestinationRealm d)
        (d_AuthApplicationID d) (d_AuthRequestType d) (d_AuthSessionState d) (d_OriginStateID d)
        (d_UserName d) (d_CallingStationID d) (d_ExternalIdentifier d) (d_EAPPayload d) (Some s)).
Definition AddEAPPayload (d : DER) (payload : bytes) : DER :=
  mkDER (d_SessionID d) (d_OriginHost d) (d_OriginRealm d) (d_DestinationHost d) (d_DestinationRealm d)
    (d_AuthApplicationID d) (d_AuthRequestType d) (d_AuthSessionState d) (d_OriginStateID d)
    (d_UserName d) (d_CallingStationID d) (d_ExternalIdentifier d) payload (d_SNSSAI d).

(** Reading the first AVP of a code when it has the expected type, otherwise
    leaving the field at its old value. *)
Definition get_utf8 (m : Message) (code : Z) (old : string) : string :=
  match FindAVPs m code 0 with
  | Some (a :: _) => match a_Data a with UTF8String s => s | _ => old end
  | _ => old
  end.
Definition get_u32 (m : Message) (code : Z) (old : Z) : Z :=
  match FindAVPs m code 0 with
  | Some (a :: _) => match a_Data a with Unsigned32 n => n | _ => old end
  | _ => old
  end.
Definition get_identity (m : Message) (code : Z) (old : string) : string :=
  match FindAVPs m code 0 with
  | Some (a :: _) => match a_Data a with DiameterIdentity s => s | _ => old end
  | _ => old
  end.
Definition get_octets (m : Message) (code : Z) (old : bytes) : bytes :=
  match FindAVPs m code 0 with
  | Some (a :: _) => match a_Data a with OctetString b => b | _ => old end
  | _ => old
  end.

Record DEA : Type := mkDEA {
  da_SessionID : string; da_AuthApplicationID : Z; da_AuthRequestType : Z; da_ResultCode : Z;
  da_AuthSessionState : Z; da_OriginHost : string; da_OriginRealm : string; da_UserName : string;
  da_EAPPayload : bytes }.
Definition NewDEA : DEA := mkDEA estr 0 0 0 0 estr estr estr [].
Definition DEA_Decode (d : DEA) (m : Message) : DEA :=
  mkDEA (get_utf8 m SessionID (da_SessionID d)) (get_u32 m AuthApplicationID (da_AuthApplicationID d))
    (get_u32 m AuthRequestType (da_AuthRequestType d)) (get_u32 m ResultCode (da_ResultCode d))
    (get_u32 m AuthSessionState (da_AuthSessionState d)) (get_identity m OriginHost (da_OriginHost d))
    (get_identity m OriginRealm (da_OriginRealm d)) (get_utf8 m UserName (da_UserName d))
    (get_octets m 209 (da_EAPPayload d)).
Definition DEA_IsSuccess (d : DEA) : bool := (da_ResultCode d =? 2001) || (da_ResultCode d =? 2002).

Record ASR : Type := mkASR {
  as_SessionID : string; as_OriginHost : string; as_OriginRealm : string; as_DestinationHost : string;
  as_DestinationRealm : string; as_AuthApplicationID : Z; as_UserName : string }.
Definition NewASR (originHost originRealm destRealm : string) : ASR :=
  mkASR estr originHost originRealm estr destRealm 5 estr.
Definition ASR_Encode (a : ASR) : result dia_error Message :=
  let m := NewRequest CmdAbortSession 0 in
  let? m := addM SessionID 0 (UTF8String (as_SessionID a)) m in
  let? m := addM OriginHost 0 (DiameterIdentity (as_OriginHost a)) m in
  let? m := addM OriginRealm 0 (DiameterIdentity (as_OriginRealm a)) m in
  let? m := addM DestinationRealm 0 (DiameterIdentity (as_DestinationRealm a)) m in
  let? m := opt (negb (is_empty (as_DestinationHost a)))
              (addM DestinationHost 0 (DiameterIdentity (as_DestinationHost a))) m in
  let? m := opt (negb (as_AuthApplicationID a =? 0))
              (addM AuthApplicationID 0 (Unsigned32 (as_AuthApplicationID a))) m in
  opt (negb (is_empty (as_UserName a))) (addM UserName 0 (UTF8String (as_UserName a))) m.

Record RAR : Type := mkRAR {
  ra_SessionID : string; ra_OriginHost : string; ra_OriginRealm : string; ra_DestinationHost : string;
  ra_DestinationRealm : string; ra_ReAuthRequestType : Z; ra_UserName : string }.
Definition NewRAR (originHost originRealm destRealm : string) : RAR :=
  mkRAR estr originHost originRealm estr destRealm 1 estr.
Definition RAR_Encode (r : RAR) : result dia_error Message :=
  let m := NewRequest CmdReAuth 0 in
  let? m := addM SessionID 0 (UTF8String (ra_SessionID r)) m in
  let? m := addM OriginHost 0 (DiameterIdentity (ra_OriginHost r)) m in
  let? m := addM OriginRealm 0 (DiameterIdentity (ra_OriginRealm r)) m in
  let? m := addM DestinationRealm 0 (DiameterIdentity (ra_DestinationRealm r)) m in
  let? m := opt (negb (is_empty (ra_DestinationHost r)))
              (addM DestinationHost 0 (DiameterIdentity (ra_DestinationHost r))) m in
  let? m := addM ReAuthRequestType 0 (Unsigned32 (ra_ReAuthRequestType r)) m in
  opt (negb (is_empty (ra_UserName r))) (addM UserName 0 (UTF8String (ra_UserName r))) m.

Record STR : Type := mkSTR {
  st_SessionID : string; st_OriginHost : string; st_OriginRealm : string; st_DestinationHost : string;
  st_DestinationRealm : string; st_AuthApplicationID : Z; st_TerminationCause : Z; st_UserName : string }.
Definition NewSTR (originHost originRealm destRealm : string) : STR :=
  mkSTR estr originHost originRealm estr destRealm 5 0 estr.
Definition STR_Encode (s : STR) : result dia_error Message :=
  let m := NewRequest CmdSessionTermination 0 in
  let? m := addM SessionID 0 (UTF8String (st_SessionID s)) m in
  let? m := addM OriginHost 0 (DiameterIdentity (st_OriginHost s)) m in
  let? m := addM OriginRealm 0 (DiameterIdentity (st_OriginRealm s)) m in
  let? m := addM AuthApplicationID 0 (Unsigned32 (st_AuthApplicationID s)) m in
  let? m := addM TerminationCause 0 (Unsigned32 (st_TerminationCause s)) m in
  let? m := opt (negb (is_empty (st_DestinationHost s)))
              (addM DestinationHost 0 (DiameterIdentity (st_DestinationHost s))) m in
  let? m := opt (negb (is_empty (st_DestinationRealm s)))
              (addM DestinationRealm 0 (DiameterIdentity (st_DestinationRealm s))) m in
  opt (negb (is_empty (st_UserName s))) (addM UserName 0 (UTF8String (st_UserName s))) m.

(** ASA, RAA and STA have the same fields that [Decode] fills. *)
Record Answer : Type := mkAnswer {
  an_SessionID : string; an_ResultCode : Z; an_OriginHost : string; an_OriginRealm : string }.
Definition ASA_Decode (a : Answer) (m : Message) : Answer :=
  mkAnswer (get_utf8 m SessionID (an_SessionID a)) (get_u32 m ResultCode (an_ResultCode a))
    (get_identity m OriginHost (an_OriginHost a)) (get_identity m OriginRealm (an_OriginRealm a)).
Definition RAA_Decode (r : Answer) (m : Message) : Answer :=
  mkAnswer (get_utf8 m SessionID (an_SessionID r)) (get_u32 m ResultCode (an_ResultCode r))
    (get_identity m OriginHost (an_OriginHost r)) (get_identity m OriginRealm (an_OriginRealm r)).
Definition STA_Decode (s : Answer) (m : Message) : Answer :=
  mkAnswer (get_utf8 m SessionID (an_SessionID s)) (get_u32 m ResultCode (an_ResultCode s))
    (get_identity m OriginHost (an_OriginHost s)) (get_identity m OriginRealm (an_OriginRealm s)).
Definition IsSuccess (a : Answer) : bool := an_ResultCode a =? 2001.

(** ** The request builders *)
(** client.go *)
Definition client_buildDERMessage (originHost originRealm destHost destRealm : string) (hopByHop : Z)
  (sessionID userName : string) (eapPayload : bytes) (sst : Z) (sd : string) : result dia_error Message :=
  let m := set_hop hopByHop (NewRequest 268 5) in
  let? m := addM SessionID 0 (UTF8String sessionID) m in
  let? m := addM AuthApplicationID 0 (Unsigned32 5) m in
  let? m := addM AuthRequestType 0 (Unsigned32 1) m in
  let? m := addM AuthSessionState 0 (Unsigned32 1) m in
  let? m := addM OriginHost 0 (DiameterIdentity originHost) m in
  let? m := addM OriginRealm 0 (DiameterIdentity originRealm) m in
  let? m := addM OriginStateID 0 (Unsigned32 1) m in
  let? m := addM DestinationHost 0 (DiameterIdentity destHost) m in
  let? m := addM DestinationRealm 0 (DiameterIdentity destRealm) m in
  let? m := addM UserName 0 (UTF8String userName) m in
  let? m := NewAVP m 209 0 0 (OctetString eapPayload) in
  let? a := EncodeSnssaiAVP sst sd in
  Ok (AddAVP m a).

(** diameter_forward.go: the fields of [diamForwarder] it reads. *)
Record diamForwarder : Type := mkForwarder {
  f_AuthApplicationID : Z; f_AuthRequestType : Z; f_originHost : string; f_originRealm : string;
  f_destHost : string; f_destRealm : string }.
(** The defaults of [newDiamForwarder]. *)
Definition newDiamForwarder (appID reqType : Z) (originHost originRealm destHost destRealm : string) : diamForwarder :=
  mkForwarder (if appID =? 0 then 5 else appID) (if reqType =? 0 then 2 else reqType)
    originHost originRealm destHost destRealm.

Definition buildDERMessage (df : diamForwarder) (originStateID hopByHop : Z) (sessionID : string)
  (eapPayload : bytes) (sst : Z) (sd gpsi : string) : result dia_error Message :=
  let m := set_hop hopByHop (NewRequest 268 (f_AuthApplicationID df)) in
  let? m := addM SessionID 0 (UTF8String sessionID) m in
  let? m := addM AuthApplicationID 0 (Unsigned32 (f_AuthApplicationID df)) m in
  let? m := addM AuthRequestType 0 (Unsigned32 (f_AuthRequestType df)) m in
  let? m := addM AuthSessionState 0 (Unsigned32 1) m in
  let? m := addM OriginHost 0 (DiameterIdentity (f_originHost df)) m in
  let? m := addM OriginRealm 0 (DiameterIdentity (f_originRealm df)) m in
  let? m := addM OriginStateID 0 (Unsigned32 (u32 originStateID)) m in
  let? m := addM DestinationHost 0 (DiameterIdentity (f_destHost df)) m in
  let? m := addM DestinationRealm 0 (DiameterIdentity (f_destRealm df)) m in
  let? m := addM UserName 0 (UTF8String gpsi) m in
  let? m := addM 209 0 (OctetString eapPayload) m in
  let? a := EncodeSnssaiAVP sst sd in
  Ok (AddAVP m a).

(** ** Reading a received message: diameter_forward.go *)
Definition session_of (a : AVP) : option string :=
  if a_Code a =? 263 then
    match a_Data a with UTF8String s => Some s | OctetString b => Some (string_of_bytes b) | _ => None end
  else None.
Fixpoint first_of {A} (f : AVP -> option A) (l : list AVP) : option A :=
  match l with
  | [] => None
  | a :: t => match f a with Some x => Some x | None => first_of f t end
  end.
Definition extractSessionIDFromMsg (m : Message) : string := default estr (first_of session_of (m_AVP m)).
Definition authctx_of (a : AVP) : option string :=
  if a_Code a =? 258 then
    match a_Data a with Unsigned32 n => Some (show_uint n) | UTF8String s => Some s | _ => None end
  else None.
Definition extractAuthCtxID (m : Message) : string := default estr (first_of authctx_of (m_AVP m)).
End Library.

(** ** aaa_router.go *)
Definition decodeSnssaiKey (key : string) : Z * string :=
  if is_empty key then (0, estr)
  else
    let '(p0, p1) := WriteThrough.split2 45 (chars key) in
    match WriteThrough.ParseUint8 p0 with
    | None => (0, estr)
    | Some sst => (sst, match p1 with None => estr | Some sd => String.string_of_list_ascii sd end)
    end.
Definition router_RoutingContext (s : Session) : RoutingContext :=
  let '(sst, sd) := decodeSnssaiKey (s_SnssaiKey s) in
  mkRC (s_Gpsi s) sst sd (s_AuthCtxID s).

(** ** Theorems *)
Lemma hexChar_upper v : 0 <= v < 16 -> upper_char (Hex.enc_char v) = hexChar v.
Proof.
  intros Hv. pose proof (all_below_spec 16 (fun v => Ascii.eqb (upper_char (Hex.enc_char v)) (hexChar v)) v) as H.
  apply Ascii.eqb_eq, H; [vm_compute; done|lia].
Qed.

Lemma encodeHex_upper bs : bytes_ok bs -> encodeHex bs = ToUpper (Hex.EncodeToString bs).
Proof.
  intros H. unfold encodeHex, ToUpper, Hex.EncodeToString. rewrite chars_of_list. f_equal.
  induction H as [|b t Hb Ht IH]; [done|]. unfold in_u8 in Hb. cbn [flat_map Hex.encode map].
  rewrite !hexChar_upper by (Z.to_euclidean_division_equations; lia).
  rewrite Z.shiftr_div_pow2 by lia. change 15 with (Z.ones 4). rewrite Z.land_ones by lia.
  cbn [app]. by rewrite <- IH.
Qed.

Lemma parseSD_valid sd :
  sd_form sd -> exists b, parseSDToBytes sd = Ok b /\ bytes_ok b /\ length b = 3%nat
    /\ encodeHex b = ToUpper sd.
Proof.
  intros [Hl Hx]. destruct (hex_decode_upper (chars sd)) as (b & D & O & L & M); [done|by rewrite Hl|].
  rewrite Hl in L. exists b. rewrite encodeHex_upper by done.
  assert (Hs : slen sd = 6) by (rewrite slen_chars, Hl; done).
  unfold parseSDToBytes, Hex.DecodeString. fold (chars sd). rewrite Hs, D.
  assert (Hb : length b = 3%nat) by lia. unfold len. rewrite Hb. split; [done|]. split; [done|].
  split; [done|]. unfold ToUpper, Hex.EncodeToString. by rewrite chars_of_list, M.
Qed.

(** What the library documents: a new request has the given command and
    application and no AVPs; a successful search returns the AVPs of that code and
    vendor in order; the dictionary the sources load (generated/nssaa_dict.go) has the
    S-NSSAI and the base protocol AVPs, so those searches do not fail. *)
Record library_laws (FindAVPs : Message -> Z -> Z -> option (list AVP)) (NewRequest : Z -> Z -> Message) : Prop := {
  law_request c a : m_Command (NewRequest c a) = c /\ m_AppID (NewRequest c a) = a /\ m_AVP (NewRequest c a) = [];
  law_find m c v l : FindAVPs m c v = Some l -> l = List.filter (is_avp c v) (m_AVP m);
  law_dict m c v : (c, v) = (AVP3GPP_S_NSSAI, VendorID3GPP) \/ v = 0 /\ c ∈ [UserName; SessionID; ResultCode; OriginHost; OriginRealm] ->
    is_Some (FindAVPs m c v) }.

Section Theorems.
Context (avp_error : AVP -> option string) (FindAVPs : Message -> Z -> Z -> option (list AVP))
  (NewRequest : Z -> Z -> Message) (laws : library_laws FindAVPs NewRequest).

Lemma find_known m c v :
  (c, v) = (AVP3GPP_S_NSSAI, VendorID3GPP) \/ v = 0 /\ c ∈ [UserName; SessionID; ResultCode; OriginHost; OriginRealm] ->
  FindAVPs m c v = Some (List.filter (is_avp c v) (m_AVP m)).
Proof.
  intros H. destruct (law_dict _ _ laws m c v H) as [l Hl]. rewrite Hl. f_equal.
  exact (law_find _ _ laws _ _ _ _ Hl).
Qed.

(** The AVPs of a request, in the order they are added. *)
Definition der_avps (df : diamForwarder) (osi : Z) (sid : string) (payload : bytes) (gpsi : string) : list AVP :=
  [mkAVP SessionID Mbit 0 (UTF8String sid);
   mkAVP AuthApplicationID Mbit 0 (Unsigned32 (f_AuthApplicationID df));
   mkAVP AuthRequestType Mbit 0 (Unsigned32 (f_AuthRequestType df));
   mkAVP AuthSessionState Mbit 0 (Unsigned32 1);
   mkAVP OriginHost Mbit 0 (DiameterIdentity (f_originHost df));
   mkAVP OriginRealm Mbit 0 (DiameterIdentity (f_originRealm df));
   mkAVP OriginStateID Mbit 0 (Unsigned32 (u32 osi));
   mkAVP DestinationHost Mbit 0 (DiameterIdentity (f_destHost df));
   mkAVP DestinationRealm Mbit 0 (DiameterIdentity (f_destRealm df));
   mkAVP UserName Mbit 0 (UTF8String gpsi);
   mkAVP 209 Mbit 0 (OctetString payload)].

Hypothesis no_error : forall a, avp_error a = None.

Lemma addM_ok c v d m : addM avp_error c v d m = Ok (AddAVP m (mkAVP c Mbit v d)).
Proof. unfold addM, NewAVP. by rewrite no_error. Qed.

Lemma buildDER_avps df osi hop sid payload sst sd gpsi a :
  EncodeSnssaiAVP sst sd = Ok a ->
  exists m, buildDERMessage avp_error NewRequest df osi hop sid payload sst sd gpsi = Ok m
    /\ m_Command m = 268 /\ m_AppID m = f_AuthApplicationID df /\ m_HopByHopID m = hop
    /\ m_AVP m = der_avps df osi sid payload gpsi ++ [a].
Proof.
  intros Ha. unfold buildDERMessage. rewrite !addM_ok. cbn [rbind].
  repeat (rewrite addM_ok; cbn [rbind]). rewrite Ha. cbn [rbind]. eexists. split; [done|].
  destruct (law_request _ _ laws 268 (f_AuthApplicationID df)) as (H1 & H2 & H3).
  cbn. by rewrite H3.
Qed.

(** What the AAA server reads in a Diameter-EAP-Request is what the caller gave:
    for a slice with no or a well-formed SD the request is built, has the command, the
    application and the hop-by-hop identifier of the caller, and decoding it gives
    back the session identifier, the GPSI as user name, the EAP payload and the slice
    (its SD in upper case); an SD that is not six hexadecimal digits is refused. *)
Theorem der_roundtrip df osi hop sid payload sst sd gpsi :
  (sd = estr \/ sd_form sd ->
   exists m, buildDERMessage avp_error NewRequest df osi hop sid payload sst sd gpsi = Ok m
     /\ m_Command m = 268 /\ m_AppID m = f_AuthApplicationID df /\ m_HopByHopID m = hop
     /\ extractSessionIDFromMsg m = sid /\ get_utf8 FindAVPs m UserName estr = gpsi
     /\ DecodeEapPayloadAVP m = Ok (Some payload)
     /\ DecodeSnssaiAVP FindAVPs m = Ok (sst, ToUpper sd))
  /\ (sd <> estr -> slen sd <> 6 \/ Hex.DecodeString sd = None ->
      buildDERMessage avp_error NewRequest df osi hop sid payload sst sd gpsi = Err ErrInvalidSD).
Proof.
  split.
  - intros Hsd.
    assert (Hs : exists b, EncodeSnssaiAVP sst sd = Ok (mkAVP AVP3GPP_S_NSSAI 192 VendorID3GPP (OctetString (sst :: b)))
      /\ (if 4 <=? len (sst :: b) then encodeHex (take 3 b) else estr) = ToUpper sd).
    { destruct Hsd as [->|Hsd]; [by exists []|].
      destruct (parseSD_valid sd Hsd) as (b & Hb & _ & Hl & HU). exists b.
      unfold EncodeSnssaiAVP. rewrite (sd_form_nonempty sd Hsd), Hb. split; [done|].
      rewrite len_cons. unfold len. rewrite Hl. simpl. by rewrite firstn_all2 by lia. }
    destruct Hs as (b & Ha & HU).
    destruct (buildDER_avps df osi hop sid payload sst sd gpsi _ Ha) as (m & Hm & H1 & H2 & H3 & Hav).
    exists m. split; [done|]. split; [done|]. split; [done|]. split; [done|].
    unfold extractSessionIDFromMsg, get_utf8, DecodeEapPayloadAVP, DecodeSnssaiAVP.
    rewrite !find_known by (set_solver). rewrite Hav. split; [done|]. split; [done|]. split; [done|].
    cbn -[len encodeHex ToUpper]. by rewrite HU.
  - intros Hne Hbad. unfold buildDERMessage. repeat (rewrite addM_ok; cbn [rbind]).
    unfold EncodeSnssaiAVP. destruct (is_empty sd) eqn:Ee; [by destruct sd|].
    unfold parseSDToBytes. destruct (slen sd =? 6) eqn:E6; [|done]. zbool.
    destruct Hbad as [?|Hd]; [done|]. by rewrite Hd.
Qed.

(** C31: the two encoders of the repository agree: for the same fields (destination
    host, user name and payload not empty) the typed message of messages/der.go and
    the request of the forwarder have the same AVPs in the same order, and differ
    only in the flags of the S-NSSAI AVP, where the typed message does not set the
    vendor bit. *)
Theorem der_encoders_agree df osi hop sid payload sst sd gpsi s :
  f_destHost df <> estr -> gpsi <> estr -> payload <> [] -> 0 <= sst < 256 ->
  NewSNSSAI sst sd = Ok s ->
  let d := mkDER sid (f_originHost df) (f_originRealm df) (f_destHost df) (f_destRealm df)
    (f_AuthApplicationID df) (f_AuthRequestType df) 1 osi gpsi estr estr payload (Some s) in
  exists m m' common,
    buildDERMessage avp_error NewRequest df osi hop sid payload sst sd gpsi = Ok m
    /\ DER_Encode avp_error NewRequest d = Ok m' /\ m_Command m = m_Command m' /\ m_AppID m = m_AppID m'
    /\ m_AVP m = common ++ [mkAVP 200 (Z.lor Mbit Vbit) 10415 (OctetString (MarshalBinary s))]
    /\ m_AVP m' = common ++ [mkAVP 200 Mbit 10415 (OctetString (MarshalBinary s))].
Proof.
  intros Hh Hg Hp Hst Hs d.
  assert (Ha : EncodeSnssaiAVP sst sd = Ok (mkAVP 200 (Z.lor Mbit Vbit) 10415 (OctetString (MarshalBinary s)))).
  { unfold NewSNSSAI in Hs. unfold EncodeSnssaiAVP. destruct (255 <? sst) eqn:E; [done|].
    destruct (is_empty sd); [by injection Hs as <-|].
    destruct (parseSDToBytes sd); [|done..]. by injection Hs as <-. }
  assert (is_empty (f_destHost df) = false) as Eh by (by destruct (f_destHost df)).
  assert (is_empty gpsi = false) as Eg by (by destruct gpsi).
  assert ((0 <? len payload) = true) as Ep by (by destruct payload).
  destruct (law_request _ _ laws 268 (f_AuthApplicationID df)) as (H1 & H2 & H3).
  do 3 eexists. split_and!.
  - unfold buildDERMessage. repeat (rewrite addM_ok; cbn [rbind]). rewrite Ha. done.
  - unfold DER_Encode, opt. subst d.
    cbn [d_SessionID d_OriginHost d_OriginRealm d_DestinationHost d_DestinationRealm d_AuthApplicationID
      d_AuthRequestType d_AuthSessionState d_OriginStateID d_UserName d_CallingStationID d_ExternalIdentifier
      d_EAPPayload d_SNSSAI].
    rewrite Eh, Eg, Ep. cbn [negb is_empty]. repeat (rewrite addM_ok; cbn [rbind]). done.
  - done.
  - done.
  - instantiate (1 := der_avps df osi sid payload gpsi). cbn. by rewrite H3.
  - cbn. unfold CmdDiameterEAP. by rewrite H3.
Qed.
End Theorems.

(** ** Witnesses: a library that satisfies the laws *)
Definition toy_find (m : Message) (c v : Z) : option (list AVP) := Some (List.filter (is_avp c v) (m_AVP m)).
Definition toy_request (c a : Z) : Message := mkMsg c a 77 78 [].
Lemma toy_laws : library_laws toy_find toy_request.
Proof. split; [done|by intros * [= <-]|by eexists]. Defined.
Definition toy_forwarder : diamForwarder := newDiamForwarder 0 0 "gw" "realm" "aaa" "aaa.realm".

Lemma der_roundtrip_witness :
  exists m, buildDERMessage (fun _ => None) toy_request toy_forwarder 1 9 "sid" [1; 2] 1 "0a1b2c" "msisdn-1" = Ok m
    /\ DecodeEapPayloadAVP m = Ok (Some [1; 2]) /\ DecodeSnssaiAVP toy_find m = Ok (1, "0A1B2C").
Proof.
  destruct (der_roundtrip (fun _ => None) toy_find toy_request toy_laws (fun _ => eq_refl) toy_forwarder 1 9 "sid"
    [1; 2] 1 "0a1b2c" "msisdn-1") as [(m & Hm & _ & _ & _ & _ & _ & Hp & Hs) _]; [right; by split|].
  exists m. split; [done|]. split; [done|]. exact Hs.
Defined.

Lemma der_encoders_agree_witness :
  exists m m', buildDERMessage (fun _ => None) toy_request toy_forwarder 1 9 "sid" [1; 2] 1 "0a1b2c" "msisdn-1" = Ok m
    /\ DER_Encode (fun _ => None) toy_request (mkDER "sid" "gw" "realm" "aaa" "aaa.realm" 5 2 1 1 "msisdn-1"
         estr estr [1; 2] (Some (mkSNSSAI 1 [10; 27; 44] true))) = Ok m' /\ length (m_AVP m) = length (m_AVP m').
Proof.
  destruct (der_encoders_agree (fun _ => None) toy_find toy_request toy_laws (fun _ => eq_refl) toy_forwarder 1 9
    "sid" [1; 2] 1 "0a1b2c" "msisdn-1" (mkSNSSAI 1 [10; 27; 44] true))
    as (m & m' & common & Hm & Hm' & _ & _ & Ha & Ha'); [done..|lia|by vm_compute|].
  exists m, m'. split; [done|]. split; [done|]. by rewrite Ha, Ha', !length_app.
Defined.
