(* ===== verification/DiameterForward.v ===== *)
(** * internal/aaa/gateway/diameter_forward.go: the Diameter leg of the gateway

    Requests in flight and their answers ([Pending]), the connection and its
    watchers ([Conn]), and server-initiated requests over the registry of
    [ServerInit] ([Inbound]).  The goroutines are transition systems whose steps are
    the critical sections and channel operations of the code; the channel of a call
    has one place and may hold nil.  client.go of internal/diameter has the same
    table of pending requests. *)
From S2P Require Import Prelude Regex Common Types Encoding Diameter ServerInit.
Local Open Scope string_scope.
Local Open Scope Z_scope.
Local Open Scope list_scope.

Module Pending.

Inductive fwd_error : Type :=
| ErrNoConnection (e : string)
| ErrBuild (e : dia_error)
| ErrSend (e : string)
| ErrContext
| ErrConnectionLost
| ErrSerialize.

(** How a call of [Forward] ends: with an answer or an error. *)
Inductive outcome : Type := Answered (m : Message) | Failed (e : fwd_error).

(** A call of [Forward] that has registered its channel. *)
Record call : Type := mkCall { c_hop : Z; c_result : option outcome }.
Definition finish (o : outcome) (c : call) : call := mkCall (c_hop c) (Some o).

(** [chans]: the buffers of the response channels, [None] empty, [Some None] nil.
    [inflight]: the DEA handlers that have looked a channel up and not yet sent. *)
Record state : Type := mkState {
  pending : gmap Z positive;
  chans : gmap positive (option (option Message));
  calls : gmap positive call;
  next : positive;
  hopByHopSeq : Z;
  inflight : list (positive * Message);
  messagesSent : Z;
  messagesRecv : Z }.
Definition init : state := mkState ∅ ∅ ∅ 1 0 [] 0 0.

Definition u64 (x : Z) : Z := x mod 2 ^ 64.
Definition nextHopByHopID (s : state) : Z := u32 (u64 (hopByHopSeq s + 1)).

Definition addPending (hop : Z) (ch : positive) (p : gmap Z positive) : gmap Z positive := <[hop := ch]> p.
Definition removePending (hop : Z) (p : gmap Z positive) : gmap Z positive := delete hop p.

(** [Forward] up to the wait: a channel, a hop-by-hop identifier, an entry. *)
Definition Forward_begin (s : state) : state * positive :=
  let hop := nextHopByHopID s in
  let l := next s in
  (mkState (addPending hop l (pending s)) (<[l := None]> (chans s))
     (<[l := mkCall hop None]> (calls s)) (Pos.succ l) (u64 (hopByHopSeq s + 1)) (inflight s)
     (messagesSent s) (messagesRecv s), l).
Definition count_sent (s : state) : state :=
  mkState (pending s) (chans s) (calls s) (next s) (hopByHopSeq s) (inflight s) (u64 (messagesSent s + 1))
    (messagesRecv s).

(** The end of a call, whatever the reason: the deferred [removePending]. *)
Definition end_call (s : state) (l : positive) (c : call) (o : outcome) : state :=
  mkState (removePending (c_hop c) (pending s)) (chans s) (<[l := finish o c]> (calls s)) (next s)
    (hopByHopSeq s) (inflight s) (messagesSent s) (messagesRecv s).
Definition set_chan (l : positive) (b : option (option Message)) (s : state) : state :=
  mkState (pending s) (<[l := b]> (chans s)) (calls s) (next s) (hopByHopSeq s) (inflight s)
    (messagesSent s) (messagesRecv s).

(** The receiving branch of the select. *)
Definition Forward_recv (s : state) (l : positive) : option state :=
  match calls s !! l, chans s !! l with
  | Some (mkCall hop None), Some (Some v) =>
      let o := match v with Some m => Answered m | None => Failed ErrConnectionLost end in
      Some (end_call (set_chan l None s) l (mkCall hop None) o)
  | _, _ => None
  end.
(** The other ways to end: no request could be built or sent, or the context ended. *)
Definition Forward_fail (s : state) (l : positive) (e : fwd_error) : option state :=
  match calls s !! l with
  | Some (mkCall hop None) => Some (end_call s l (mkCall hop None) (Failed e))
  | _ => None
  end.

(** What the caller gets; [Serialize] is the library's. *)
Definition Forward_value (Serialize : Message -> option bytes) (o : outcome) : result fwd_error bytes :=
  match o with
  | Failed e => Err e
  | Answered m => match Serialize m with Some data => Ok data | None => Err ErrSerialize end
  end.

(** [handleDEA], the lookup and then the blocking send. *)
Definition handleDEA (s : state) (m : Message) : state :=
  let recv := u64 (messagesRecv s + 1) in
  match pending s !! m_HopByHopID m with
  | None => mkState (pending s) (chans s) (calls s) (next s) (hopByHopSeq s) (inflight s) (messagesSent s) recv
  | Some ch => mkState (pending s) (chans s) (calls s) (next s) (hopByHopSeq s) ((ch, m) :: inflight s)
                 (messagesSent s) recv
  end.
Definition handler_send (s : state) (pre : list (positive * Message)) (ch : positive) (m : Message)
  (post : list (positive * Message)) : state :=
  mkState (pending s) (<[ch := Some (Some m)]> (chans s)) (calls s) (next s) (hopByHopSeq s) (pre ++ post)
    (messagesSent s) (messagesRecv s).

(** [clearPending]: a non-blocking nil to every pending channel. *)
Definition offer_nil (p : gmap Z positive) (l : positive) (b : option (option Message)) : option (option Message) :=
  match b with
  | None => if bool_decide (l ∈ (map_to_list p).*2) then Some None else None
  | Some v => Some v
  end.
Definition clearPending (s : state) : state :=
  mkState ∅ (map_imap (fun l b => Some (offer_nil (pending s) l b)) (chans s)) (calls s) (next s)
    (hopByHopSeq s) (inflight s) (messagesSent s) (messagesRecv s).

Inductive step : state -> state -> Prop :=
| step_begin s : step s (fst (Forward_begin s))
| step_sent s : step s (count_sent s)
| step_recv s l s' : Forward_recv s l = Some s' -> step s s'
| step_fail s l e s' : Forward_fail s l e = Some s' -> step s s'
| step_dea s m : step s (handleDEA s m)
| step_send s pre ch m post :
    inflight s = pre ++ (ch, m) :: post -> chans s !! ch = Some None -> step s (handler_send s pre ch m post)
| step_clear s : step s (clearPending s).
Inductive reachable : state -> Prop :=
| reach_init : reachable init
| reach_step s s' : reachable s -> step s s' -> reachable s'.

(** ** The invariant *)
Definition for_call (s : state) (l : positive) (m : Message) : Prop :=
  exists c, calls s !! l = Some c /\ c_hop c = m_HopByHopID m.
Record inv (s : state) : Prop := {
  inv_dom l : is_Some (calls s !! l) <-> (l < next s)%positive;
  inv_chans l : is_Some (chans s !! l) <-> (l < next s)%positive;
  inv_seq : hopByHopSeq s = u64 (Zpos (next s) - 1);
  inv_hop l c : calls s !! l = Some c -> c_hop c = u32 (Zpos l);
  inv_pending h l : pending s !! h = Some l -> exists c, calls s !! l = Some c /\ c_hop c = h /\ c_result c = None;
  inv_inflight l m : (l, m) ∈ inflight s -> for_call s l m;
  inv_buffer l m : chans s !! l = Some (Some (Some m)) -> for_call s l m;
  inv_result l c m : calls s !! l = Some c -> c_result c = Some (Answered m) -> c_hop c = m_HopByHopID m }.

Lemma u32_u64 x : u32 (u64 x) = u32 x.
Proof. unfold u32, u64. Z.to_euclidean_division_equations. lia. Qed.
Lemma u64_succ x : u64 (u64 x + 1) = u64 (x + 1).
Proof. unfold u64. by rewrite Z.add_mod_idemp_l. Qed.

Lemma for_call_ext s s' l m :
  (forall c, calls s !! l = Some c -> exists c', calls s' !! l = Some c' /\ c_hop c' = c_hop c) ->
  for_call s l m -> for_call s' l m.
Proof. intros H (c & Hc & Hm). destruct (H c Hc) as (c' & Hc' & He). exists c'. by rewrite He. Qed.

Lemma inv_init : inv init.
Proof.
  split; cbn; try (intros *; by rewrite lookup_empty).
  - intros l. rewrite lookup_empty. split; [by intros []|lia].
  - intros l. rewrite lookup_empty. split; [by intros []|lia].
  - done.
  - intros l m H. by apply elem_of_nil in H.
Qed.

Lemma begin_inv s : inv s -> inv (fst (Forward_begin s)).
Proof.
  intros [Hd Hc Hs Hh Hp Hi Hb Hr]. unfold Forward_begin. cbn.
  assert (Fr : calls s !! next s = None).
  { destruct (calls s !! next s) eqn:E; [|done]. assert (is_Some (calls s !! next s)) as ?%Hd by eauto. lia. }
  assert (Hhop : nextHopByHopID s = u32 (Zpos (next s))).
  { unfold nextHopByHopID. rewrite Hs, u64_succ, u32_u64. f_equal. lia. }
  assert (Hlt : forall l, (l < Pos.succ (next s))%positive <-> l = next s \/ (l < next s)%positive) by lia.
  assert (Hext : forall l m, for_call s l m ->
    exists c, <[next s := mkCall (nextHopByHopID s) None]> (calls s) !! l = Some c /\ c_hop c = m_HopByHopID m).
  { intros l m (c & Hcl & Hm). exists c. rewrite lookup_insert_ne; [done|congruence]. }
  split; cbn.
  - intros l. rewrite lookup_insert_is_Some', Hlt, Hd. split; intros [?|?]; auto.
  - intros l. rewrite lookup_insert_is_Some', Hlt, Hc. split; intros [?|?]; auto.
  - rewrite Hs, u64_succ. f_equal. lia.
  - intros l c [[<- <-]|[_ E]]%lookup_insert_Some; cbn; eauto.
  - unfold addPending. intros h l [[<- <-]|[_ E]]%lookup_insert_Some.
    + eexists. rewrite lookup_insert_eq. done.
    + destruct (Hp h l E) as (c & Hcl & Hhc). exists c. rewrite lookup_insert_ne; [done|congruence].
  - intros l m Hin. by apply Hext, Hi.
  - intros l m [[_ E]|[_ E]]%lookup_insert_Some; [done|]. by apply Hext, Hb.
  - intros l c m [[_ <-]|[_ E]]%lookup_insert_Some Hres; [done|]. eauto.
Qed.

(** Ending a call that is still waiting. *)
Lemma end_call_inv s l hop o :
  inv s -> calls s !! l = Some (mkCall hop None) ->
  (forall m, o = Answered m -> hop = m_HopByHopID m) -> inv (end_call s l (mkCall hop None) o).
Proof.
  intros [Hd Hc Hs Hh Hp Hi Hb Hr] Hl Ho. unfold end_call, finish. cbn.
  assert (Hext : forall l' m, for_call s l' m ->
    exists c, <[l := mkCall hop (Some o)]> (calls s) !! l' = Some c /\ c_hop c = m_HopByHopID m).
  { intros l' m (c & Hcl & Hm). destruct (decide (l' = l)) as [->|Hn].
    - exists (mkCall hop (Some o)). rewrite lookup_insert_eq. split; [done|]. rewrite Hl in Hcl. by injection Hcl as <-.
    - exists c. by rewrite lookup_insert_ne. }
  split; cbn; try done.
  - intros l'. rewrite lookup_insert_is_Some', Hd. split; [|by right]. intros [<-|?]; [|done]. apply Hd. eauto.
  - intros l' c [[<- <-]|[_ E]]%lookup_insert_Some; cbn; [|eauto]. by apply (Hh l (mkCall hop None)).
  - unfold removePending. intros h l' [Hne E]%lookup_delete_Some.
    destruct (Hp h l' E) as (c & Hcl & <- & Hn). exists c. rewrite lookup_insert_ne; [done|].
    intros <-. rewrite Hl in Hcl. injection Hcl as <-. by apply Hne.
  - intros l' m Hin. by apply Hext, Hi.
  - intros l' m E. by apply Hext, Hb.
  - intros l' c m [[<- <-]|[_ E]]%lookup_insert_Some Hres; [|eauto]. cbn in *. apply Ho. congruence.
Qed.

Lemma set_chan_inv s l b :
  inv s -> (l < next s)%positive -> (forall m, b = Some (Some m) -> for_call s l m) -> inv (set_chan l b s).
Proof.
  intros [Hd Hc Hs Hh Hp Hi Hb Hr] Hl Ho. split; cbn; try done.
  - intros l'. rewrite lookup_insert_is_Some', Hc. split; [|by right]. by intros [<-|?].
  - intros l' m [[<- ->]|[_ E]]%lookup_insert_Some; [by apply Ho|by apply Hb].
Qed.

Lemma Forward_recv_Some s l s' :
  Forward_recv s l = Some s' -> exists hop v, calls s !! l = Some (mkCall hop None) /\ chans s !! l = Some (Some v)
    /\ s' = end_call (set_chan l None s) l (mkCall hop None)
              (match v with Some m => Answered m | None => Failed ErrConnectionLost end).
Proof.
  unfold Forward_recv. destruct (calls s !! l) as [[hop [|]]|] eqn:El; [done| |done].
  destruct (chans s !! l) as [[v|]|] eqn:Ec; [|done..]. intros [= <-]. eauto.
Qed.
Lemma Forward_fail_Some s l e s' :
  Forward_fail s l e = Some s' -> exists hop, calls s !! l = Some (mkCall hop None)
    /\ s' = end_call s l (mkCall hop None) (Failed e).
Proof.
  unfold Forward_fail. destruct (calls s !! l) as [[hop [|]]|] eqn:El; [done| |done]. intros [= <-]. eauto.
Qed.

Lemma recv_inv s l s' : inv s -> Forward_recv s l = Some s' -> inv s'.
Proof.
  intros Hi (hop & v & El & Ec & ->)%Forward_recv_Some.
  assert (Hl : (l < next s)%positive) by (apply (inv_dom _ Hi); eauto).
  apply end_call_inv; [by apply set_chan_inv|done|].
  intros m Hm. destruct v as [m'|]; [|done]. injection Hm as ->.
  destruct (inv_buffer _ Hi l m Ec) as (c & Hc & Hh). rewrite El in Hc. by injection Hc as <-.
Qed.

Lemma fail_inv s l e s' : inv s -> Forward_fail s l e = Some s' -> inv s'.
Proof.
  intros Hi (hop & El & ->)%Forward_fail_Some. by apply end_call_inv.
Qed.

Lemma dea_inv s m : inv s -> inv (handleDEA s m).
Proof.
  intros [Hd Hc Hs Hh Hp Hi Hb Hr]. unfold handleDEA. destruct (pending s !! _) as [ch|] eqn:E; split; cbn; try done.
  intros l m' [[= -> ->]|Hin]%elem_of_cons; [|by apply Hi].
  destruct (Hp _ _ E) as (c & Hcl & Hhc & _). by exists c.
Qed.

Lemma send_inv s pre ch m post :
  inv s -> inflight s = pre ++ (ch, m) :: post -> inv (handler_send s pre ch m post).
Proof.
  intros H E. assert (Hf : for_call s ch m) by (apply (inv_inflight _ H); rewrite E; set_solver).
  assert (Hl : (ch < next s)%positive) by (destruct Hf as (c & Hc & _); apply (inv_dom _ H); eauto).
  destruct (set_chan_inv s ch (Some (Some m)) H Hl) as [Hd Hc Hs Hh Hp Hi Hb Hr]; [by intros ? [= <-]|].
  split; cbn in *; try done. intros l' m' Hin. apply Hi. rewrite E. set_solver.
Qed.

Lemma lookup_clear s l :
  chans (clearPending s) !! l = offer_nil (pending s) l <$> chans s !! l.
Proof. cbn. rewrite map_lookup_imap. by destruct (chans s !! l). Qed.

Lemma clear_inv s : inv s -> inv (clearPending s).
Proof.
  intros [Hd Hc Hs Hh Hp Hi Hb Hr]. split; try done.
  - intros l. rewrite lookup_clear, fmap_is_Some. done.
  - intros l m. rewrite lookup_clear. destruct (chans s !! l) as [[[m'|]|]|] eqn:E; cbn; try done.
    + intros [= ->]. by apply Hb.
    + by case_bool_decide.
Qed.

Lemma pending_step_inv s s' : inv s -> step s s' -> inv s'.
Proof.
  intros H Hs. destruct Hs as [s|s|s l s' E|s l e s' E|s m|s pre ch m post E _|s].
  - by apply begin_inv.
  - by destruct H; split.
  - by eapply recv_inv.
  - by eapply fail_inv.
  - by apply dea_inv.
  - by apply send_inv.
  - by apply clear_inv.
Qed.
Lemma pending_inv s : reachable s -> inv s.
Proof. induction 1; [apply inv_init|by eapply pending_step_inv]. Qed.

(** ** Theorems *)
Lemma u32_far a b : u32 a = u32 b -> a = b \/ 2 ^ 32 <= Z.abs (a - b).
Proof.
  unfold u32. intros H. assert ((a - b) mod 4294967296 = 0) by (rewrite Zminus_mod, H, Z.sub_diag; done).
  Z.to_euclidean_division_equations. lia.
Qed.

(** C12: answers are matched to requests: in every state the forwarder can reach,
    for every interleaving of calls, answers, time-outs and connection losses, the
    answer a call returns has the hop-by-hop identifier that call chose; and no other
    of the last 2^32 calls chose the same identifier. *)
Theorem Forward_own_answer s l c m :
  reachable s -> calls s !! l = Some c -> c_result c = Some (Answered m) ->
  m_HopByHopID m = c_hop c
  /\ forall l' c', calls s !! l' = Some c' -> c_hop c' = c_hop c -> l' = l \/ 2 ^ 32 <= Z.abs (Zpos l' - Zpos l).
Proof.
  intros Hi%pending_inv Hc Hr. split; [symmetry; by apply (inv_result _ Hi l)|].
  intros l' c' Hc' He. rewrite (inv_hop _ Hi _ _ Hc), (inv_hop _ Hi _ _ Hc') in He.
  destruct (u32_far _ _ He) as [?|?]; [left; lia|by right].
Qed.

(** While fewer than 2^32 calls were made, a waiting call has its entry or
    something in its channel. *)
Definition waiting (s : state) (l : positive) : Prop := exists hop, calls s !! l = Some (mkCall hop None).
Definition deliverable (s : state) (l : positive) : Prop := exists v, chans s !! l = Some (Some v).
Definition registered (s : state) (l : positive) : Prop :=
  exists hop, calls s !! l = Some (mkCall hop None) /\ pending s !! hop = Some l.

Lemma u32_pos_small l : Zpos l < 2 ^ 32 -> u32 (Zpos l) = Zpos l.
Proof. intros H. unfold u32. apply Z.mod_small. lia. Qed.

(** A call that can receive keeps that ability until it ends. *)
Lemma deliverable_step s s' l :
  inv s -> step s s' -> deliverable s l -> waiting s' l -> deliverable s' l.
Proof.
  intros Hinv Hs [v Hv] [hop' Hw]. assert (Hl : (l < next s)%positive) by (apply (inv_chans _ Hinv); eauto).
  destruct Hs as [s|s|s l' s' E|s l' e s' E|s m|s pre ch m post _ E|s].
  - exists v. cbn. rewrite lookup_insert_ne; [done|lia].
  - by exists v.
  - apply Forward_recv_Some in E as (hop & v' & _ & _ & ->).
    destruct (decide (l' = l)) as [->|Hn]; cbn in Hw; [by rewrite lookup_insert_eq in Hw|].
    exists v. cbn. by rewrite lookup_insert_ne.
  - apply Forward_fail_Some in E as (hop & _ & ->). by exists v.
  - exists v. unfold handleDEA. by case_match.
  - destruct (decide (ch = l)) as [->|Hn]; [exists (Some m); apply lookup_insert_eq|].
    exists v. cbn. by rewrite lookup_insert_ne.
  - exists v. by rewrite lookup_clear, Hv.
Qed.

Inductive steps : state -> state -> Prop :=
| steps_refl s : steps s s
| steps_cons s s' s'' : steps s s' -> step s' s'' -> steps s s''.

Lemma waiting_back s s' l : inv s -> step s s' -> (l < next s)%positive -> waiting s' l -> waiting s l.
Proof.
  intros Hinv Hs Hl [hop Hw].
  destruct Hs as [s|s|s l' s' E|s l' e s' E|s m|s pre ch m post _ E|s].
  - cbn in Hw. rewrite lookup_insert_ne in Hw by lia. by exists hop.
  - by exists hop.
  - apply Forward_recv_Some in E as (hop' & v' & _ & _ & ->).
    cbn in Hw. apply lookup_insert_Some in Hw as [[_ ?]|[_ Hw]]; [done|by exists hop].
  - apply Forward_fail_Some in E as (hop' & _ & ->).
    cbn in Hw. apply lookup_insert_Some in Hw as [[_ ?]|[_ Hw]]; [done|by exists hop].
  - exists hop. revert Hw. unfold handleDEA. by case_match.
  - by exists hop.
  - by exists hop.
Qed.

Lemma next_mono s s' : step s s' -> (next s <= next s')%positive.
Proof.
  intros Hs. destruct Hs as [s|s|s l' s' E|s l' e s' E|s m|s pre ch m post _ E|s]; cbn; try lia.
  - apply Forward_recv_Some in E as (hop' & v' & _ & _ & ->). cbn. lia.
  - apply Forward_fail_Some in E as (hop' & _ & ->). cbn. lia.
  - unfold handleDEA. case_match; cbn; lia.
Qed.

Lemma deliverable_steps s s' l :
  inv s -> steps s s' -> (l < next s)%positive -> deliverable s l ->
  inv s' /\ (next s <= next s')%positive /\ (waiting s' l -> deliverable s' l).
Proof.
  intros Hi Hs Hl Hd. induction Hs as [s|s s' s'' Hs IH Hst]; [by split_and!|].
  destruct (IH Hi Hl Hd) as (Hi' & Hn & Hd'). split_and!.
  - by eapply pending_step_inv.
  - apply next_mono in Hst. lia.
  - intros Hw. eapply deliverable_step; eauto. apply Hd'. eapply waiting_back; eauto. lia.
Qed.

(** The end of one call leaves the entries of the others. *)
Lemma registered_end s l l' h hop hop' o :
  inv s -> Zpos (next s) <= 2 ^ 32 -> calls s !! l' = Some (mkCall hop' None) ->
  calls s !! l = Some (mkCall h None) -> pending s !! h = Some l ->
  calls (end_call s l' (mkCall hop' None) o) !! l = Some (mkCall hop None) ->
  registered (end_call s l' (mkCall hop' None) o) l.
Proof.
  intros Hinv Hn El Hc Hp Hw. cbn in Hw. apply lookup_insert_Some in Hw as [[_ ?]|[Hne Hw]]; [done|].
  exists h. cbn. rewrite lookup_insert_ne by done. split; [done|]. unfold removePending. rewrite lookup_delete_ne; [done|].
  assert (Ha := inv_hop _ Hinv _ _ El). assert (is_Some (calls s !! l')) as Hlt%(inv_dom _ Hinv) by eauto.
  assert (is_Some (calls s !! l)) as Hlt'%(inv_dom _ Hinv) by eauto.
  assert (Hb := inv_hop _ Hinv _ _ Hc). cbn in Ha, Hb. rewrite u32_pos_small in Ha, Hb by lia. lia.
Qed.

Lemma waiting_registered s l :
  reachable s -> Zpos (next s) <= 2 ^ 32 -> waiting s l -> registered s l \/ deliverable s l.
Proof.
  intros Hr. induction Hr as [|s s' Hr IH Hs]; intros Hn [hop Hw]; [cbn in Hw; by rewrite lookup_empty in Hw|].
  assert (Hinv := pending_inv _ Hr). assert (Hmono := next_mono _ _ Hs).
  assert (Hl : (l < next s)%positive \/ registered s' l).
  { assert (H' := pending_step_inv _ _ Hinv Hs). assert (Hlt : (l < next s')%positive) by (apply (inv_dom _ H'); eauto).
    destruct Hs as [s|s|s l' s' E|s l' e s' E|s m|s pre ch m post _ E|s]; [|left; try done..].
    - destruct (decide (l = next s)) as [->|Hne]; [right|left; cbn in Hlt; lia].
      exists (nextHopByHopID s). cbn. unfold addPending. by rewrite !lookup_insert_eq.
    - by apply Forward_recv_Some in E as (hop' & v' & _ & _ & ->).
    - by apply Forward_fail_Some in E as (hop' & _ & ->).
    - revert Hlt. unfold handleDEA. by case_match. }
  destruct Hl as [Hl|?]; [|by left].
  assert (Hws := waiting_back _ _ _ Hinv Hs Hl (ex_intro _ hop Hw)).
  destruct (IH ltac:(lia) Hws) as [(h & Hc & Hp)|Hd];
    [|right; exact (deliverable_step _ _ _ Hinv Hs Hd (ex_intro _ hop Hw))].
  destruct Hs as [s|s|s l' s' E|s l' e s' E|s m|s pre ch m post _ E|s].
  - left. exists h. cbn. unfold addPending. rewrite !lookup_insert_ne; [done| |lia].
    assert (Hh := inv_hop _ Hinv _ _ Hc). cbn in Hh. subst h.
    unfold nextHopByHopID. rewrite (inv_seq _ Hinv), u64_succ, u32_u64. cbn in Hn, Hmono.
    replace (Zpos (next s) - 1 + 1) with (Zpos (next s)) by lia.
    rewrite !u32_pos_small; lia.
  - left. by exists h.
  - apply Forward_recv_Some in E as (hop' & v' & El & _ & ->). left.
    refine (registered_end s l l' h hop hop' _ Hinv _ El Hc Hp Hw). lia.
  - apply Forward_fail_Some in E as (hop' & El & ->). left.
    refine (registered_end s l l' h hop hop' _ Hinv _ El Hc Hp Hw). lia.
  - left. exists h. unfold handleDEA. by case_match.
  - left. by exists h.
  - right. destruct (inv_chans _ Hinv l) as [_ [b Hb]]; [done|]. unfold deliverable. rewrite lookup_clear, Hb. cbn.
    destruct b as [v|]; [by exists v|]. exists None. cbn. rewrite bool_decide_true; [done|].
    apply list_elem_of_fmap. exists (h, l). split; [done|]. by apply elem_of_map_to_list.
Qed.

(** A lost connection releases every waiter: among the first 2^32 calls, once
    the pending table is cleared after a loss, a call that was waiting can receive
    in every state that follows, whatever else happens, until it has ended: its next
    step ends it, with the answer that was already there or with the error that the
    connection is lost. *)
Theorem connection_loss_releases s l s' :
  reachable s -> Zpos (next s) <= 2 ^ 32 -> waiting s l -> steps (clearPending s) s' -> waiting s' l ->
  exists s'' c o, Forward_recv s' l = Some s'' /\ calls s'' !! l = Some c /\ c_result c = Some o
    /\ match o with Answered m => m_HopByHopID m = c_hop c | Failed e => e = ErrConnectionLost end.
Proof.
  intros Hr Hn Hw Hs Hw'. assert (Hinv := pending_inv _ Hr).
  assert (Hlt : (l < next s)%positive) by (destruct Hw as [hop Hc]; apply (inv_dom _ Hinv); eauto).
  assert (Hd : deliverable (clearPending s) l).
  { destruct (waiting_registered _ _ (reach_step _ _ Hr (step_clear s)) Hn Hw) as [(h & _ & Hp)|Hd]; [|done].
    cbn in Hp. by rewrite lookup_empty in Hp. }
  destruct (deliverable_steps _ _ l (clear_inv _ Hinv) Hs Hlt Hd) as (Hinv' & _ & Hd').
  destruct (Hd' Hw') as [v Hv]. destruct Hw' as [hop Hc].
  do 3 eexists. unfold Forward_recv. rewrite Hc, Hv. split; [done|]. cbn. rewrite lookup_insert_eq.
  split; [done|]. split; [done|]. destruct v as [m|]; [|done].
  destruct (inv_buffer _ Hinv' _ _ Hv) as (c & Hc' & Hm). rewrite Hc in Hc'. injection Hc' as <-. by symmetry.
Qed.

(** A handler that has looked up the channel of a call that has ended, when the
    channel is full, is blocked for ever: the send has no default case.  A second
    answer to the same request leaves such a handler. *)
Lemma duplicate_answer_blocks s s' l c o v m :
  inv s -> step s s' -> calls s !! l = Some c -> c_result c = Some o ->
  chans s !! l = Some (Some v) -> (l, m) ∈ inflight s ->
  calls s' !! l = Some c /\ (exists v', chans s' !! l = Some (Some v')) /\ (l, m) ∈ inflight s'.
Proof.
  intros Hinv Hs Hc Ho Hv Hin.
  assert (Hl : (l < next s)%positive) by (apply (inv_dom _ Hinv); eauto).
  destruct Hs as [s|s|s l' s' E|s l' e s' E|s m'|s pre ch m' post Ei E|s].
  - cbn. rewrite !lookup_insert_ne by lia. eauto.
  - eauto.
  - apply Forward_recv_Some in E as (hop & v' & Hc' & _ & ->).
    assert (l' <> l) by (intros ->; rewrite Hc in Hc'; by injection Hc' as ->). cbn.
    rewrite !lookup_insert_ne by done. eauto.
  - apply Forward_fail_Some in E as (hop & Hc' & ->).
    assert (l' <> l) by (intros ->; rewrite Hc in Hc'; by injection Hc' as ->). cbn.
    rewrite lookup_insert_ne by done. eauto.
  - unfold handleDEA. case_match; cbn; split_and!; eauto. by apply elem_of_cons; right.
  - assert (ch <> l) by congruence. cbn. rewrite lookup_insert_ne by done. split_and!; eauto.
    rewrite Ei in Hin. set_solver.
  - rewrite lookup_clear, Hv. cbn. eauto.
Qed.

(** ** Witnesses *)
Definition dea (hop : Z) : Message := mkMsg 268 5 hop 0 [].
Definition s1 : state := fst (Forward_begin init).
Definition s2 : state := handler_send (handleDEA s1 (dea 1)) [] 1 (dea 1) [].
Definition s3 : state := end_call (set_chan 1 None s2) 1 (mkCall 1 None) (Answered (dea 1)).
Lemma s1_reachable : reachable s1.
Proof. eapply reach_step; [apply reach_init|apply step_begin]. Qed.
Lemma s2_reachable : reachable s2.
Proof.
  eapply reach_step; [eapply reach_step; [apply s1_reachable|apply (step_dea _ (dea 1))]|].
  by apply step_send.
Qed.
Lemma s3_reachable : reachable s3.
Proof. eapply reach_step; [apply s2_reachable|]. by apply (step_recv _ 1). Qed.

Lemma Forward_own_answer_witness :
  calls s3 !! 1%positive = Some (mkCall 1 (Some (Answered (dea 1)))) /\ m_HopByHopID (dea 1) = 1.
Proof.
  split; [by vm_compute|].
  apply (Forward_own_answer s3 1 (mkCall 1 (Some (Answered (dea 1)))) (dea 1) s3_reachable); by vm_compute.
Defined.

Lemma connection_loss_releases_witness :
  exists s'', Forward_recv (clearPending s1) 1 = Some s''
    /\ calls s'' !! 1%positive = Some (mkCall 1 (Some (Failed ErrConnectionLost))).
Proof.
  destruct (connection_loss_releases s1 1 (clearPending s1) s1_reachable) as (s'' & c & o & H & Hc & Ho & _);
    [by vm_compute|by eexists|apply steps_refl|by eexists|].
  exists s''. split; [done|]. vm_compute in H. injection H as <-. by vm_compute.
Defined.
End Pending.

Module Conn.

(** The connection of the forwarder.  Connections are numbered in the order they are
    dialled; [starting] counts the watchDisconnect goroutines that have not read
    [conn] yet, [watchers] are those blocked on the close notification of a
    connection, [lost] the connections the peer has closed. *)
Record state : Type := mkState {
  conn : option nat; connected : bool; dialled : nat; originStateID : Z;
  starting : nat; watchers : list nat; lost : list nat }.

Definition with_conn (s : state) : state :=
  mkState (Some (dialled s)) true (S (dialled s)) (originStateID s) (starting s) (watchers s) (lost s).
Definition incrementOriginStateID (s : state) : state :=
  mkState (conn s) (connected s) (dialled s) (Pending.u64 (originStateID s + 1)) (starting s) (watchers s) (lost s).
Definition go_watch (s : state) : state :=
  mkState (conn s) (connected s) (dialled s) (originStateID s) (S (starting s)) (watchers s) (lost s).

(** [Connect], [monitorConnection] and [getConn] when the dial succeeds (a failed one
    changes nothing). *)
Definition Connect (s : state) : state := go_watch (incrementOriginStateID (with_conn s)).
Definition monitorConnection (s : state) : state := if connected s then s else go_watch (with_conn s).
Definition getConn (s : state) : state * nat :=
  match conn s with Some c => (s, c) | None => (with_conn s, dialled s) end.
(** [watchDisconnect]: reading the connection, and the notification. *)
Definition watch_start (s : state) : state :=
  match starting s with
  | O => s
  | S n => mkState (conn s) (connected s) (dialled s) (originStateID s) n
             (match conn s with Some c => c :: watchers s | None => watchers s end) (lost s)
  end.
Definition watch_fire (s : state) (pre : list nat) (c : nat) (post : list nat) : state :=
  let drop_ := match conn s with Some c' => (c' =? c)%nat | None => false end in
  mkState (if drop_ then None else conn s) (if drop_ then false else connected s) (dialled s)
    (originStateID s) (starting s) (pre ++ post) (lost s).
Definition Close (s : state) : state :=
  match conn s with
  | Some c => mkState None false (dialled s) (originStateID s) (starting s) (watchers s) (c :: lost s)
  | None => s
  end.
Definition peer_close (s : state) (c : nat) : state :=
  mkState (conn s) (connected s) (dialled s) (originStateID s) (starting s) (watchers s) (c :: lost s).

Definition init : state := Connect (mkState None false 0 0 0 [] []).
(** [dial]: whether [getConn] may dial.  [Close] is left out: it is called at
    shutdown. *)
Inductive step (dial : bool) : state -> state -> Prop :=
| step_monitor s : step dial s (monitorConnection s)
| step_get s : dial = true \/ is_Some (conn s) -> step dial s (fst (getConn s))
| step_watch s : step dial s (watch_start s)
| step_fire s pre c post : watchers s = pre ++ c :: post -> c ∈ lost s -> step dial s (watch_fire s pre c post)
| step_peer s c : step dial s (peer_close s c).
Inductive reachable (dial : bool) : state -> Prop :=
| reach_init : reachable dial init
| reach_step s s' : reachable dial s -> step dial s s' -> reachable dial s'.
Inductive steps (dial : bool) : state -> state -> Prop :=
| steps_refl s : steps dial s s
| steps_cons s s' s'' : steps dial s s' -> step dial s' s'' -> steps dial s s''.

(** The connection of the Diameter forwarder.  In every reachable state the flag
    and the connection agree; and as long as no request has to dial on its own, the
    loss of the current connection is noticed: a watcher waits for it or is about to. *)
Theorem connection_watched dial s :
  reachable dial s ->
  (connected s = true <-> is_Some (conn s))
  /\ (dial = false -> forall c, conn s = Some c -> c ∈ watchers s \/ (0 < starting s)%nat).
Proof.
  induction 1 as [|s s' _ [Hf Hw] Hs]; [split; [done|]; intros _ c [= <-]; right; cbn; lia|].
  destruct Hs as [s|s Hd|s|s pre c post E Hl|s c].
  - unfold monitorConnection. destruct (connected s) eqn:Ec; [by rewrite ?Ec in *|]. cbn. split; [done|]. intros. right. lia.
  - unfold getConn. destruct (conn s) eqn:Ec; cbn; [by rewrite ?Ec in *|]. split; [done|].
    intros ->. destruct Hd as [?|[? ?]]; done.
  - unfold watch_start. destruct (starting s) eqn:Es; [by rewrite ?Es in *|]. cbn. split; [done|].
    intros _ c ->. left. apply elem_of_cons. by left.
  - unfold watch_fire. destruct (conn s) as [c'|] eqn:Ec; cbn; [|rewrite ?Ec in *; by split].
    destruct (Nat.eqb_spec c' c) as [->|Hne]; cbn; [by split|]. rewrite ?Ec in *. split; [done|].
    intros Hd c0 [= <-]. destruct (Hw Hd c' eq_refl) as [Hin|?]; [|by right]. left.
    rewrite E in Hin. set_solver.
  - done.
Qed.

(** A request that dials on its own leaves the new connection without a watcher:
    once such a connection is lost and no watcher is starting, nothing the forwarder
    does replaces it; every later request is given the dead connection. *)
Theorem unwatched_loss_permanent s s' c :
  conn s = Some c -> connected s = true -> starting s = 0%nat -> c ∉ watchers s -> steps true s s' ->
  snd (getConn s') = c /\ conn s' = Some c.
Proof.
  intros Hc Hf Hs Hw Hst.
  assert (H : conn s' = Some c /\ connected s' = true /\ starting s' = 0%nat /\ c ∉ watchers s').
  { induction Hst as [s|s s' s'' _ IH Hst]; [done|]. destruct (IH Hc Hf Hs Hw) as (Hc' & Hf' & Hs' & Hw').
    destruct Hst as [s'|s' Hd|s'|s' pre d post E Hl|s' d].
    - unfold monitorConnection. by rewrite Hf'.
    - unfold getConn. by rewrite Hc'.
    - unfold watch_start. by rewrite Hs'.
    - unfold watch_fire. rewrite Hc'. cbn.
      assert (c <> d) by (intros ->; apply Hw'; rewrite E; set_solver).
      rewrite (proj2 (Nat.eqb_neq c d)) by done. split_and!; try done. rewrite E in Hw'. set_solver.
    - done. }
  unfold getConn. by rewrite (proj1 H).
Qed.

(** Only the first connection counts in the Origin-State-Id. *)
Lemma originStateID_constant dial s : reachable dial s -> originStateID s = 1.
Proof.
  induction 1 as [|s s' _ IH Hs]; [done|]. rewrite <- IH.
  destruct Hs as [s|s Hd|s|s pre c post E Hl|s c]; try done.
  - unfold monitorConnection. by destruct (connected s).
  - unfold getConn. by destruct (conn s).
  - unfold watch_start. by destruct (starting s).
Qed.

(** ** Witnesses: loss, a request that dials, loss again *)
Definition s_lost : state := watch_fire (peer_close (watch_start init) 0) [] 0 [].
Definition s_dialled : state := peer_close (fst (getConn s_lost)) 1.
Lemma s_dialled_reachable : reachable true s_dialled.
Proof.
  assert (H1 : reachable true (peer_close (watch_start init) 0)).
  { eapply reach_step; [eapply reach_step; [apply reach_init|apply step_watch]|apply step_peer]. }
  assert (H2 : reachable true s_lost).
  { eapply reach_step; [exact H1|]. apply step_fire; [done|]. set_solver. }
  eapply reach_step; [eapply reach_step; [exact H2|apply step_get; by left]|apply step_peer].
Qed.

Lemma connection_watched_witness :
  connected (watch_start init) = true /\ (0%nat ∈ watchers (watch_start init) \/ (0 < starting (watch_start init))%nat).
Proof.
  split; [done|]. apply (connection_watched false (watch_start init)); [|done|done].
  eapply reach_step; [apply reach_init|apply step_watch].
Defined.

Lemma unwatched_loss_permanent_witness :
  1%nat ∈ lost s_dialled /\ snd (getConn (monitorConnection s_dialled)) = 1%nat.
Proof.
  split; [set_solver|]. apply (unwatched_loss_permanent s_dialled (monitorConnection s_dialled) 1);
    [done|done|done|cbn; set_solver|].
  eapply steps_cons; [apply steps_refl|apply step_monitor].
Defined.
End Conn.

Module Inbound.

(** Requests of the AAA server on the forwarder's connection: abort, re-auth and
    session termination.  The handlers differ in the name they register under and in
    the AVP that carries the payload of the answer. *)
Inductive kind : Type := ASR | RAR | STR.
Definition kind_name (k : kind) : string :=
  match k with ASR => "ASR" | RAR => "RAR" | STR => "STR" end.

Section Handlers.
(** [Message.Serialize], [Message.Answer] and the errors of [NewAVP]. *)
Context (Serialize : Message -> option bytes) (Answer : Message -> Z -> Message) (avp_error : AVP -> option string).
Context (originHost originRealm : string).

(** [_, _ = ans.NewAVP(...)]: an error leaves the message as it is. *)
Definition try_avp (code : Z) (data : avp_data) (m : Message) : Message :=
  match NewAVP avp_error m code Mbit 0 data with Ok m' => m' | _ => m end.
Definition answer_head (req : Message) (resp : ServerInitiatedResponse) : Message :=
  try_avp OriginRealm (DiameterIdentity originRealm)
    (try_avp OriginHost (DiameterIdentity originHost)
       (set_e2e (m_EndToEndID req) (set_hop (m_HopByHopID req) (Answer req (r_ResultCode resp))))).
(** A nil payload adds nothing; nil and empty payloads are not distinguished. *)
Definition with_payload (code : Z) (resp : ServerInitiatedResponse) (m : Message) : Message :=
  match r_Payload resp with [] => m | p => try_avp code (OctetString p) m end.
Definition sendASAWithResult (req : Message) (resp : ServerInitiatedResponse) : Message :=
  with_payload ExperimentalResult resp (answer_head req resp).
Definition sendRAAWithResult (req : Message) (resp : ServerInitiatedResponse) : Message :=
  with_payload AVPCodeEAPPayload resp (answer_head req resp).
Definition sendSTAWithResult (req : Message) (resp : ServerInitiatedResponse) : Message :=
  with_payload AVPCodeEAPPayload resp (answer_head req resp).
Definition send_answer (k : kind) : Message -> ServerInitiatedResponse -> Message :=
  match k with ASR => sendASAWithResult | RAR => sendRAAWithResult | STR => sendSTAWithResult end.

(** What a handler does at once: an answer, or a registration whose goroutine
    forwards the raw message to the Biz Pod and waits on the channel. *)
Inductive reaction : Type :=
| Answered (ans : Message)
| Forwarded (ch : positive) (sessionID messageType : string) (raw : bytes).

Definition handle_request (k : kind) (r : registry) (now : Z) (m : Message) : registry * reaction :=
  let sid := extractSessionIDFromMsg m in
  let sid := if is_empty sid then "unknown" else sid in
  let authCtxID := extractAuthCtxID m in
  match Serialize m with
  | None => (r, Answered (send_answer k m (mkResp estr 3002 [] "serialize_failed")))
  | Some raw =>
      let '(r, ch) := Register r sid authCtxID (kind_name k) (10 * 1000000000) now in
      (r, Forwarded ch sid (kind_name k) raw)
  end.
Definition handleASR : registry -> Z -> Message -> registry * reaction := handle_request ASR.
Definition handleRAR : registry -> Z -> Message -> registry * reaction := handle_request RAR.
Definition handleSTR : registry -> Z -> Message -> registry * reaction := handle_request STR.

(** The result code an answer carries. *)
Definition result_of (a : AVP) : option Z :=
  if a_Code a =? ResultCode then match a_Data a with Unsigned32 n => Some n | _ => None end else None.
Definition result_code (m : Message) : option Z := first_of result_of (m_AVP m).
(** The library documents that an answer carries the given result code. *)
Hypothesis law_answer : forall req rc, result_code (Answer req rc) = Some rc.

Lemma first_of_app {A} (f : AVP -> option A) l l' x : first_of f l = Some x -> first_of f (l ++ l') = Some x.
Proof. induction l as [|a t IH]; [done|]. cbn. by destruct (f a). Qed.

Definition mirrors (req : Message) (rc : Z) (m : Message) : Prop :=
  m_HopByHopID m = m_HopByHopID req /\ m_EndToEndID m = m_EndToEndID req /\ result_code m = Some rc.
Lemma try_avp_mirrors req rc code data m : mirrors req rc m -> mirrors req rc (try_avp code data m).
Proof.
  unfold mirrors, try_avp, NewAVP. intros (H1 & H2 & H3). case_match; [|done..].
  case_match; simplify_eq. cbn. split; [done|]. split; [done|]. by apply first_of_app.
Qed.
Lemma send_answer_mirrors k req resp : mirrors req (r_ResultCode resp) (send_answer k req resp).
Proof.
  assert (H : mirrors req (r_ResultCode resp) (answer_head req resp)).
  { unfold answer_head. do 2 apply try_avp_mirrors. split; [done|]. split; [done|]. apply law_answer. }
  destruct k; cbn; unfold sendASAWithResult, sendRAAWithResult, sendSTAWithResult, with_payload;
    (case_match; [done|by apply try_avp_mirrors]).
Qed.

(** ** Over the registry *)
Inductive steps : registry -> registry -> Prop :=
| steps_refl r : steps r r
| steps_cons r r' r'' : steps r r' -> ServerInit.step r' r'' -> steps r r''.

Lemma step_chan r r' l c :
  reg_inv r -> ServerInit.step r r' -> ServerInit.chans r !! l = Some c ->
  exists c', ServerInit.chans r' !! l = Some c' /\ chan_key c' = chan_key c.
Proof.
  intros Hi Hs Hc. assert (Hl : (l < ServerInit.next r)%positive) by (apply (inv_alloc _ Hi); eauto).
  assert (Halt : forall f l', (forall c, chan_key (f c) = chan_key c) ->
    exists c', alter f l' (ServerInit.chans r) !! l = Some c' /\ chan_key c' = chan_key c).
  { intros f l' Hf. destruct (decide (l' = l)) as [->|Hn].
    - exists (f c). rewrite lookup_alter_eq, Hc. split; [done|apply Hf].
    - exists c. by rewrite lookup_alter_ne. }
  destruct Hs as [r sid ctx mt timeout now|r l' pre post Es _|r sid mt resp|r l' c' resp Hc' Hb Hres
    |r l' c' now Hc' He Hres]; cbn.
  - unfold Register. case_match; cbn; exists c; rewrite lookup_insert_ne by lia; done.
  - by apply Halt.
  - unfold Complete. case_match; cbn; [|by exists c]. apply Halt. intros c0. unfold try_send. by case_match.
  - by apply Halt.
  - by exists c.
Qed.

Lemma steps_chan r r' l c :
  reg_inv r -> steps r r' -> ServerInit.chans r !! l = Some c ->
  reg_inv r' /\ exists c', ServerInit.chans r' !! l = Some c' /\ chan_key c' = chan_key c.
Proof.
  intros Hi Hs. induction Hs as [r|r r' r'' _ IH Hs]; intros Hc; [eauto|].
  destruct (IH Hi Hc) as (Hi' & c' & Hc' & Hk'). split; [by eapply ServerInit.step_inv|].
  destruct (step_chan _ _ _ _ Hi' Hs Hc') as (c'' & Hc'' & Hk''). exists c''. by rewrite Hk''.
Qed.

(** C14: what the AAA server is told about its own request: when a handler has
    registered an abort, re-auth or termination request and its wait ends, in any later
    state of the registry and whatever else was registered, completed or timed out
    meanwhile, the message sent back repeats the hop-by-hop and end-to-end identifiers
    of the request and carries a result code that a Biz Pod gave for that session and
    that kind of request, or UNABLE_TO_DELIVER. *)
Theorem server_request_answered k r now m r1 ch sid mt raw r2 resp :
  ServerInit.reachable r -> handle_request k r now m = (r1, Forwarded ch sid mt raw) ->
  steps r1 r2 -> results r2 !! ch = Some resp ->
  let ans := send_answer k m resp in
  m_HopByHopID ans = m_HopByHopID m /\ m_EndToEndID ans = m_EndToEndID m
  /\ result_code ans = Some (r_ResultCode resp)
  /\ ((registryKey sid (kind_name k), resp) ∈ completed r2 \/ r_ResultCode resp = ResultCodeUnableToDeliver).
Proof.
  intros Hr%ServerInit.reachable_inv. unfold handle_request. destruct (Serialize m) as [raw'|]; [|done].
  generalize (if is_empty (extractSessionIDFromMsg m) then "unknown" else extractSessionIDFromMsg m) as sid'. intros sid'.
  destruct (Register _ _ _ _ _ _) as [r' l] eqn:ER. intros E Hs Hres. injection E as -> -> -> _ _.
  destruct (send_answer_mirrors k m resp) as (H1 & H2 & H3). split; [done|]. split; [done|]. split; [done|].
  assert (Hi : reg_inv r1).
  { generalize (Register_inv r sid (extractAuthCtxID m) (kind_name k) (10 * 1000000000) now Hr). by rewrite ER. }
  assert (Hc : exists c, ServerInit.chans r1 !! ch = Some c /\ chan_key c = registryKey sid (kind_name k)).
  { unfold Register in ER. case_match; injection ER as <- <-; eexists; (split; [apply lookup_insert_eq|done]). }
  destruct Hc as (c & Hc & Hk).
  destruct (steps_chan _ _ _ _ Hi Hs Hc) as (Hi2 & c2 & Hc2 & Hk2).
  destruct (inv_results _ Hi2 _ _ Hres) as (c3 & Hc3 & HL). replace c3 with c2 in HL by congruence.
  destruct HL as [[Hin| ->]| ->]; [left|by right..]. by rewrite <- Hk, <- Hk2.
Qed.

(** The authentication context a request is registered under is the number of its
    Diameter application, the same for all sessions. *)
Lemma authctx_is_application m n rest a :
  m_AVP m = a :: rest -> a_Code a = AuthApplicationID -> a_Data a = Unsigned32 n ->
  extractAuthCtxID m = show_uint n.
Proof. intros Hm Hc Hd. unfold extractAuthCtxID. rewrite Hm. cbn. unfold authctx_of. by rewrite Hc, Hd. Qed.
End Handlers.

Definition toy_answer (req : Message) (rc : Z) : Message :=
  mkMsg (m_Command req) (m_AppID req) 0 0 [mkAVP ResultCode Mbit 0 (Unsigned32 rc)].
Definition asr : Message := mkMsg 274 0 5 6 [mkAVP SessionID Mbit 0 (UTF8String "s")].
Lemma server_request_answered_witness :
  let ans := send_answer toy_answer (fun _ => None) "gw" "realm" ASR asr answer in
  m_HopByHopID ans = 5 /\ m_EndToEndID ans = 6 /\ result_code ans = Some 2001.
Proof.
  destruct (server_request_answered (fun _ => Some []) toy_answer (fun _ => None) "gw" "realm" (fun _ _ => eq_refl)
    ASR reg0 0 asr (fst (Register reg0 "s" estr "ASR" (10 * 1000000000) 0)) 1 "s" "ASR" []
    (Wait_recv (Complete (fst (Register reg0 "s" estr "ASR" (10 * 1000000000) 0)) "s" "ASR" answer) 1 answer) answer)
    as (H1 & H2 & H3 & _); [apply reach_init|done| |done|done].
  eapply steps_cons; [eapply steps_cons; [apply steps_refl|apply step_complete]|].
  eapply step_recv; reflexivity.
Defined.
End Inbound.
