(* ===== verification/BizClients.v ===== *)
(** * The HTTP gateway's way to the Biz Pods

    internal/httpclient native_biz.go, biz_registry.go and proxy.go,
    cmd/http-gateway/internal/proxy/proxy.go and the forwarding handler of
    cmd/http-gateway/main.go.  The HTTP exchange of the [k]-th attempt of a call and
    the pods Redis returns are parameters.  The closure passed to [resilience.Do]
    mutates variables of its caller and the breakers: the retry loop is here in
    state-passing form, equal to [Resilience.Retry.Do] when there is no state. *)
From S2P Require Import Prelude Regex EapSession Common Resilience Storage.
Import Resilience.Retry Validator.
Local Open Scope string_scope.
Local Open Scope Z_scope.
Local Open Scope list_scope.

(** ** resilience.Do over a state *)
Section DoState.
Context {S E : Type} (fn : nat -> S -> S * option E) (cancelled : nat -> bool).

Fixpoint attemptsS (cfg : RetryConfig) (attempt fuel : nat) (last : option E) (s : S)
  : S * option (retry_error E) * nat :=
  match fuel with
  | O => (s, Some (ErrMaxRetriesExceeded last), attempt)
  | Datatypes.S fuel' =>
      match fn attempt s with
      | (s, None) => (s, None, Datatypes.S attempt)
      | (s, Some err) =>
          if (Z.of_nat attempt <? MaxAttempts cfg - 1) && cancelled attempt
          then (s, Some ErrContext, Datatypes.S attempt)
          else attemptsS cfg (Datatypes.S attempt) fuel' (Some err) s
      end
  end.
Definition DoS (cfg : RetryConfig) (s : S) : S * option (retry_error E) * nat :=
  let cfg := with_defaults cfg in
  attemptsS cfg 0 (Z.to_nat (MaxAttempts cfg)) None s.

(** What every attempt preserves, and what its last call leaves behind: [P] holds
    between attempts, [Q] after a successful call, [R] after a failed one. *)
Lemma attemptsS_spec cfg (P Q R : S -> Prop) fuel : forall attempt last s,
  (forall k s, P s -> match fn k s with (s', None) => Q s' | (s', Some _) => P s' /\ R s' end) ->
  P s -> (fuel = O -> R s) ->
  let '(s', r, n) := attemptsS cfg attempt fuel last s in
  match r with None => Q s' | Some _ => R s' end /\ (n <= attempt + fuel)%nat.
Proof.
  induction fuel as [|fuel IH]; intros attempt last s Hstep HP HR; cbn; [split; [by apply HR|lia]|].
  assert (H := Hstep attempt s HP). destruct (fn attempt s) as [s1 [err|]]; [|split; [done|lia]].
  destruct H as [HP1 HR1]. destruct (_ && _); [split; [done|lia]|].
  assert (H := IH (Datatypes.S attempt) (Some err) s1 Hstep HP1 (fun _ => HR1)).
  destruct (attemptsS _ _ _ _ _) as [[s' r] n]. destruct H. split; [done|lia].
Qed.

Definition attempt_count (cfg : RetryConfig) : nat := Z.to_nat (MaxAttempts (with_defaults cfg)).
Lemma DoS_spec cfg (P Q R : S -> Prop) s :
  (0 < attempt_count cfg)%nat ->
  (forall k s, P s -> match fn k s with (s', None) => Q s' | (s', Some _) => P s' /\ R s' end) -> P s ->
  let '(s', r, n) := DoS cfg s in
  match r with None => Q s' | Some _ => R s' end /\ (n <= attempt_count cfg)%nat.
Proof.
  intros Hn Hstep HP. unfold DoS.
  exact (attemptsS_spec (with_defaults cfg) P Q R (attempt_count cfg) 0 None s Hstep HP ltac:(lia)).
Qed.
End DoState.

(** Without a state this is the loop of [Resilience]. *)
Lemma attemptsS_attempts {E} (fn : nat -> option E) cancelled cfg fuel : forall a lst sl,
  attemptsS (fun k (_ : unit) => (tt, fn k)) cancelled cfg a fuel lst tt =
  (tt, result_of (attempts fn cancelled cfg a fuel lst sl), calls (attempts fn cancelled cfg a fuel lst sl)).
Proof.
  induction fuel as [|fuel IH]; intros a lst sl; [done|]. cbn.
  destruct (fn a) as [err|]; [|done]. destruct (Z.of_nat a <? MaxAttempts cfg - 1); cbn; [|apply IH].
  destruct (cancelled a); [done|apply IH].
Qed.
Lemma DoS_Do {E} (fn : nat -> option E) cancelled cfg :
  DoS (fun k (_ : unit) => (tt, fn k)) cancelled cfg tt =
  (tt, result_of (Do fn cancelled cfg), calls (Do fn cancelled cfg)).
Proof. apply attemptsS_attempts. Qed.

(** ** One HTTP exchange *)
Inductive exchange : Type :=
| BadRequest (e : string)     (* http.NewRequestWithContext fails *)
| NoReply (e : string)        (* the transport fails *)
| BrokenBody (status : Z) (partial : bytes) (e : string)   (* the body cannot be read to its end *)
| Reply (status : Z) (body : bytes).

Inductive biz_error : Type :=
| ErrExchange (e : string)
| ErrStatus (status : Z)
| ErrCircuitOpen
| ErrNoLivePods.

(** [lastBody], [lastStatus], [lastErr] of the three clients. *)
Record last : Type := mkLast { l_body : bytes; l_status : Z; l_err : option biz_error }.
Definition last0 : last := mkLast [] 0 None.

Definition retry_config (attempts base max : Z) : RetryConfig :=
  mkRetry (if attempts =? 0 then MaxAttempts DefaultRetryConfig else attempts)
    (if base =? 0 then BaseDelay DefaultRetryConfig else base)
    (if max =? 0 then MaxDelay DefaultRetryConfig else max).

Definition is_4xx (status : Z) : bool := (400 <=? status) && (status <? 500).

(** ** native_biz.go *)
Module NativeBiz.
Definition newNativeBizClient_breaker (ft rt st : Z) : CircuitBreaker :=
  NewCircuitBreaker (if ft =? 0 then 5 else ft) (if rt =? 0 then 30 * second else rt) (if st =? 0 then 3 else st).

Definition doRequest (x : exchange) : bytes * Z * option biz_error :=
  match x with
  | BadRequest e => ([], 0, Some (ErrExchange e))
  | NoReply e => ([], 503, Some (ErrExchange e))
  | BrokenBody _ _ e => ([], 0, Some (ErrExchange e))
  | Reply status body => (body, status, None)
  end.

Section Client.
Context (http : nat -> exchange) (cancelled : nat -> bool).

Definition attempt (k : nat) (s : last) : last * option biz_error :=
  let '(body, status, err) := doRequest (http k) in
  match err with
  | Some e => (mkLast (l_body s) status (Some e), Some e)
  | None =>
      if is_4xx status then (mkLast body status None, None)
      else if IsRetryable status then
        (mkLast body status (Some (ErrStatus status)), Some (ErrStatus status))
      else (mkLast body status None, None)
  end.

(** The breaker afterwards, the number of requests sent, and body, status, error. *)
Definition ForwardRequest (cfg : RetryConfig) (now now' : Z) (cb : CircuitBreaker)
  : CircuitBreaker * nat * (bytes * Z * option biz_error) :=
  let '(cb, ok) := Allow cb now in
  if negb ok then (cb, 0%nat, ([], 503, Some ErrCircuitOpen))
  else match DoS attempt cancelled cfg last0 with
  | (l, Some _, n) => (RecordFailure cb now', n, (l_body l, l_status l, l_err l))
  | (l, None, n) => (RecordSuccess cb, n, (l_body l, l_status l, None))
  end.

Lemma attempt_step k (s : last) :
  match attempt k s with
  | (s', None) => l_err s' = None /\ IsRetryable (l_status s') && negb (is_4xx (l_status s')) = false
      /\ exists j, http j = Reply (l_status s') (l_body s')
  | (s', Some _) => True /\ l_err s' <> None
  end.
Proof.
  unfold attempt. destruct (http k) as [e|e|st pb e|status body] eqn:Eh; cbn; [by split..|].
  destruct (is_4xx status) eqn:E4; cbn; [rewrite E4, andb_false_r; eauto|].
  destruct (IsRetryable status) eqn:Er; cbn; [done|]. rewrite Er. eauto.
Qed.

(** The gateway's client of a Biz Pod: with an open breaker nothing is sent and
    the caller is told 503; otherwise at most the configured number of requests is
    sent, a result without error is a reply the Biz Pod really gave, with a status that
    is not to be retried, and is recorded as a success; everything else is reported
    with an error and recorded as a failure. *)
Theorem ForwardRequest_guarded cfg now now' cb :
  (0 < attempt_count cfg)%nat ->
  let '(cb', n, (body, status, err)) := ForwardRequest cfg now now' cb in
  let cb1 := fst (Allow cb now) in
  if snd (Allow cb now) then
    (n <= attempt_count cfg)%nat /\
    match err with
    | None => cb' = RecordSuccess cb1 /\ (exists k, http k = Reply status body)
              /\ IsRetryable status && negb (is_4xx status) = false
    | Some _ => cb' = RecordFailure cb1 now'
    end
  else n = 0%nat /\ status = 503 /\ err = Some ErrCircuitOpen /\ cb' = cb1.
Proof.
  intros Hn. unfold ForwardRequest. destruct (Allow cb now) as [cb1 [|]]; cbn; [|done].
  assert (H := DoS_spec attempt cancelled cfg (fun _ => True)
    (fun s => l_err s = None /\ IsRetryable (l_status s) && negb (is_4xx (l_status s)) = false
       /\ exists j, http j = Reply (l_status s) (l_body s)) (fun s => l_err s <> None) last0 Hn
    (fun k s _ => attempt_step k s) I).
  destruct (DoS attempt cancelled cfg last0) as [[l [r|]] n]; cbn; destruct H as [H Hc]; (split; [done|]).
  - by destruct (l_err l).
  - destruct H as (_ & Hr & Hh). done.
Qed.
End Client.

Lemma ForwardRequest_guarded_witness :
  let http k := match k with O => Reply 503 [] | _ => Reply 201 [7] end in
  ForwardRequest http (fun _ => false) (retry_config 0 0 0) 0 1 (newNativeBizClient_breaker 0 0 0)
    = (RecordSuccess (newNativeBizClient_breaker 0 0 0), 2%nat, ([7], 201, None))
  /\ exists k, http k = Reply 201 [7].
Proof.
  intros http. split; [by vm_compute|].
  assert (H := ForwardRequest_guarded http (fun _ => false) (retry_config 0 0 0) 0 1
    (newNativeBizClient_breaker 0 0 0) ltac:(vm_compute; lia)).
  vm_compute in H. destruct H as (_ & _ & H & _). exact H.
Defined.
End NativeBiz.

(** ** biz_registry.go *)
Module BizRegistry.
Import Resilience.Registry.

Definition BizPodsKeyPrefix : string := "nssaa:biz:pod:".
Record BizPodEntry : Type := mkEntry { URL : string; LastSeen : Z }.

(** The keys of the scan, with the entry when it can be read and parsed; [None] when
    the scan fails.  Times are in seconds. *)
Abbreviation pod_scan := (option (list (string * option BizPodEntry))).
Definition TrimPrefix (key : string) : string :=
  let p := chars BizPodsKeyPrefix in
  if bool_decide (take (length p) (chars key) = p)
  then String.string_of_list_ascii (drop (length p) (chars key)) else key.
Definition getLivePods (now : Z) (scan : pod_scan) : option (list (string * string)) :=
  match scan with
  | None => None
  | Some keys => Some (flat_map (fun '(key, entry) =>
      match entry with
      | Some e => if now - LastSeen e <? 60 then [(TrimPrefix key, URL e)] else []
      | None => []
      end) keys)
  end.
(** [rnd] is the value of [rand.Intn]. *)
Definition selectRandomLivePod (now : Z) (scan : pod_scan) (rnd : nat) : option string :=
  match getLivePods now scan with
  | None | Some [] => None
  | Some (p :: pods) => snd <$> ((p :: pods) !! (rnd mod length (p :: pods))%nat)
  end.

(** What the [k]-th attempt meets: the clock, the two scans and draws, the exchange
    with each target. *)
Record env : Type := mkEnv {
  e_unix : Z; e_now : Z; e_scan : pod_scan; e_rnd : nat; e_scan2 : pod_scan; e_rnd2 : nat;
  e_http : string -> exchange; e_now' : Z }.

(** [cbRegistry.Get(u).Allow()] *)
Definition allow_at (r : Registry) (u : string) (now : Z) : Registry * positive * bool :=
  let '(r, l) := Get r u in
  match heap r !! l with
  | Some cb => (update r l (EAllow now), l, snd (Allow cb now))
  | None => (r, l, false)
  end.
Definition fail_at (r : Registry) (u : string) (now : Z) : Registry :=
  let '(r, l) := Get r u in update r l (EFailure now).

Record state : Type := mkState { reg : Registry; lst : last; sent : list string }.

Section Client.
Context (staticURL : string) (envs : nat -> env) (cancelled : nat -> bool).

(** The target an attempt settles on, with the breaker [cb] of its first choice. *)
Definition choose (e : env) (r : Registry) : Registry * positive * option string :=
  let target := default staticURL (selectRandomLivePod (e_unix e) (e_scan e) (e_rnd e)) in
  let '(r, cb, ok) := allow_at r target (e_now e) in
  if ok then (r, cb, Some target)
  else match selectRandomLivePod (e_unix e) (e_scan2 e) (e_rnd2 e) with
  | None => (r, cb, None)
  | Some alt => let '(r, _, ok) := allow_at r alt (e_now e) in (r, cb, if ok then Some alt else None)
  end.

Definition attempt (k : nat) (s : state) : state * option biz_error :=
  let e := envs k in
  let '(r, cb, target) := choose e (reg s) in
  match target with
  | None => (mkState r (mkLast (l_body (lst s)) (l_status (lst s)) (Some ErrNoLivePods)) (sent s), Some ErrNoLivePods)
  | Some target =>
      let reply status body :=
        let l := mkLast body status (l_err (lst s)) in
        if is_4xx status then (mkState (update r cb ESuccess) l (sent s ++ [target]), None)
        else if IsRetryable status then
          (mkState (fail_at r target (e_now' e)) (mkLast body status (Some (ErrStatus status))) (sent s ++ [target]),
           Some (ErrStatus status))
        else (mkState (update r cb ESuccess) l (sent s ++ [target]), None) in
      match e_http e target with
      | BadRequest err => (mkState r (lst s) (sent s), Some (ErrExchange err))
      | NoReply err =>
          (mkState (fail_at r target (e_now' e))
             (mkLast (l_body (lst s)) (l_status (lst s)) (Some (ErrExchange err))) (sent s ++ [target]),
           Some (ErrExchange err))
      | BrokenBody status partial _ => reply status partial
      | Reply status body => reply status body
      end
  end.

Definition ForwardRequest (cfg : RetryConfig) (r : Registry) : state * (bytes * Z * option biz_error) :=
  match DoS attempt cancelled cfg (mkState r last0 []) with
  | (s, Some _, _) => (s, (l_body (lst s), l_status (lst s), l_err (lst s)))
  | (s, None, _) => (s, (l_body (lst s), l_status (lst s), None))
  end.

(** ** What a request may be sent to *)
Definition live_target (u : string) : Prop :=
  u = staticURL \/ exists k keys key e, (e_scan (envs k) = Some keys \/ e_scan2 (envs k) = Some keys)
    /\ (key, Some e) ∈ keys /\ e_unix (envs k) - LastSeen e < 60 /\ URL e = u.

Lemma select_live now scan rnd u :
  selectRandomLivePod now scan rnd = Some u ->
  exists keys key e, scan = Some keys /\ (key, Some e) ∈ keys /\ now - LastSeen e < 60 /\ URL e = u.
Proof.
  unfold selectRandomLivePod, getLivePods. destruct scan as [keys|]; [|done].
  destruct (flat_map _ keys) as [|p pods] eqn:Ef; [done|]. intros Hs.
  apply fmap_Some in Hs as ([id u'] & Hl%list_elem_of_lookup_2 & ->).
  rewrite <- Ef in Hl. apply list_elem_of_In, in_flat_map in Hl as ([key [e|]] & Hk & Hin); [|done].
  apply list_elem_of_In in Hk. destruct (now - LastSeen e <? 60) eqn:El; [|done]. zbool.
  destruct Hin as [[= <- <-]|[]]. exists keys, key, e. done.
Qed.

Lemma choose_live k r r' cb u : choose (envs k) r = (r', cb, Some u) -> live_target u.
Proof.
  unfold choose. destruct (allow_at r _ _) as [[r1 cb1] ok].
  destruct ok.
  - intros [= _ _ <-]. destruct (selectRandomLivePod _ (e_scan _) _) as [u|] eqn:E; cbn; [|by left].
    apply select_live in E as (keys & key & e & ? & ? & ? & ?). right. exists k, keys, key, e. auto.
  - destruct (selectRandomLivePod _ (e_scan2 _) _) as [alt|] eqn:E; [|done].
    destruct (allow_at r1 alt _) as [[r2 cb2] [|]]; [|done]. intros [= _ _ <-].
    apply select_live in E as (keys & key & e & ? & ? & ? & ?). right. exists k, keys, key, e. auto.
Qed.

Lemma attempt_sent k s s' r :
  attempt k s = (s', r) -> sent s' = sent s \/ exists u, sent s' = sent s ++ [u] /\ live_target u.
Proof.
  unfold attempt. destruct (choose (envs k) (reg s)) as [[r1 cb] [u|]] eqn:Ec; [|intros [= <- _]; by left].
  assert (Hu := choose_live _ _ _ _ _ Ec).
  destruct (e_http (envs k) u); repeat case_match; intros [= <- _]; cbn; eauto.
Qed.

(** A call without error ends with a reply that is not to be retried. *)
Definition answered (s : state) : Prop :=
  (exists k u, e_http (envs k) u = Reply (l_status (lst s)) (l_body (lst s))
     \/ exists e, e_http (envs k) u = BrokenBody (l_status (lst s)) (l_body (lst s)) e)
  /\ IsRetryable (l_status (lst s)) && negb (is_4xx (l_status (lst s))) = false.

Lemma attempt_answer k s :
  (forall k u e, e_http (envs k) u <> BadRequest e) ->
  match attempt k s with (s', None) => answered s' | (s', Some _) => l_err (lst s') <> None end.
Proof.
  intros Hb. unfold attempt. destruct (choose (envs k) (reg s)) as [[r1 cb] [u|]] eqn:Ec; [|done].
  destruct (e_http (envs k) u) as [e|e|st pb e|st b] eqn:Eh; [by apply Hb in Eh|done|..].
  all: destruct (is_4xx st) eqn:E4; [split; cbn; [eauto 6|by rewrite E4, andb_false_r]|].
  all: destruct (IsRetryable st) eqn:Er; [done|]; split; cbn; [eauto 6|by rewrite Er].
Qed.

End Client.

(** While every breaker is closed, an attempt that cannot build its request leaves
    no trace. *)
Definition all_closed (r : Registry) : Prop := forall l cb, heap r !! l = Some cb -> Resilience.state cb = StateClosed.
Lemma allow_at_closed r u now :
  reg_ok r -> all_closed r ->
  let '(r', _, ok) := allow_at r u now in ok = true /\ reg_ok r' /\ all_closed r'.
Proof.
  intros Hr Hc. unfold allow_at.
  assert (HG : all_closed (fst (Get r u)) /\ is_Some (heap (fst (Get r u)) !! snd (Get r u))).
  { unfold Get. destruct (breakers r !! u) as [l|] eqn:E; cbn; [split; [done|by apply (ro_alloc _ Hr _ _ E)]|].
    rewrite lookup_insert_eq. split; [|done]. intros l cb Hl. cbn in Hl.
    apply lookup_insert_Some in Hl as [[_ <-]|[_ Hl]]; [done|by apply (Hc l)]. }
  assert (Hr' := Get_ok r u Hr). destruct (Get r u) as [r1 l]. cbn in *. destruct HG as [Hc1 [cb Hcb]].
  rewrite Hcb. assert (Hs := Hc1 l cb Hcb). assert (Ha : Allow cb now = (cb, true)) by (unfold Allow; by rewrite Hs).
  rewrite Ha. split; [done|]. split; [by apply registry_update_ok|].
  intros l' cb' Hl'. cbn in Hl'.
  apply lookup_alter_Some in Hl' as [(-> & cb0 & Hcb0 & ->)|[_ Hl']]; [|by apply (Hc1 l')].
  rewrite Hcb in Hcb0. injection Hcb0 as <-. cbn. by rewrite Ha.
Qed.

(** A request that cannot be built (a path that is no valid URL) is reported as a
    success with status 0: the closure returns the error without keeping it, so the
    caller sees none, nothing is sent, and the gateway's handler panics when it writes
    that status. *)
Theorem unbuildable_request_panics staticURL envs cancelled cfg ft rt st :
  (0 < attempt_count cfg)%nat -> (forall k u, exists e, e_http (envs k) u = BadRequest e) ->
  let '(s, res) := ForwardRequest staticURL envs cancelled cfg (NewRegistry ft rt st) in
  sent s = [] /\ res = ([], 0, None).
Proof.
  intros Hn Hb. unfold ForwardRequest.
  unshelve epose proof (DoS_spec (attempt staticURL envs) cancelled cfg
    (fun s => reg_ok (reg s) /\ all_closed (reg s) /\ lst s = last0 /\ sent s = []) (fun _ => False)
    (fun s => lst s = last0 /\ sent s = []) (mkState (NewRegistry ft rt st) last0 []) Hn _ _) as H.
  - intros k s (Hr & Hc & Hl & Hs). unfold attempt, choose. set (target := default _ _).
    assert (Ha := allow_at_closed (reg s) target (e_now (envs k)) Hr Hc).
    destruct (allow_at _ _ _) as [[r1 cb] ok]. destruct Ha as (-> & Hr1 & Hc1).
    destruct (Hb k target) as [e ->]. by split_and!.
  - cbn. split_and!; [apply reg_ok_new|intros l cb; cbn; by rewrite lookup_empty|done|done].
  - destruct (DoS _ _ _ _) as [[s [r|]] n]; destruct H as [H _]; [|done]. destruct H as [-> ->]. done.
Qed.

(** When the breaker of the first choice is open and another pod answers, the success
    is recorded on the first breaker: that of the pod that answered is not told. *)
Lemma alternative_success_misattributed staticURL envs k s r cb u status body l ucb :
  choose staticURL (envs k) (reg s) = (r, cb, Some u) -> e_http (envs k) u = Reply status body ->
  is_4xx status = false -> IsRetryable status = false ->
  breakers r !! u = Some l -> l <> cb -> heap r !! l = Some ucb ->
  heap (reg (fst (attempt staticURL envs k s))) !! l = Some ucb.
Proof.
  intros Hc Hh H4 Hr Hl Hne Hu. unfold attempt. rewrite Hc, Hh, H4, Hr. cbn.
  by rewrite lookup_alter_ne.
Qed.

(** ** Witnesses: one live pod that answers 503, then 200; a path that is no URL *)
Definition one_pod : pod_scan := Some [("nssaa:biz:pod:a", Some (mkEntry "http://a" 100))].
Definition env_of (x : exchange) : env := mkEnv 120 0 one_pod 0 one_pod 0 (fun _ => x) 1.
Definition two_envs (k : nat) : env := env_of (match k with O => Reply 503 [] | _ => Reply 200 [9] end).


Lemma unbuildable_request_panics_witness :
  snd (ForwardRequest "http://static" (fun _ => env_of (BadRequest "invalid URL escape")) (fun _ => false)
    (retry_config 0 0 0) (NewRegistry 0 0 0)) = ([], 0, None).
Proof.
  assert (H := unbuildable_request_panics "http://static" (fun _ => env_of (BadRequest "invalid URL escape"))
    (fun _ => false) (retry_config 0 0 0) 0 0 0 ltac:(vm_compute; lia) ltac:(by eexists)).
  destruct (ForwardRequest _ _ _ _ _) as [s res]. by destruct H.
Defined.
End BizRegistry.

(** ** cmd/http-gateway/main.go: proxyToBiz, with the outcome of [ForwardRequest].
    [WriteHeader] panics on a status outside 100 to 999. *)
Inductive written : Type := Written (status : Z) (body : bytes).
Definition WriteHeader (status : Z) (body : bytes) : result string written :=
  if (status <? 100) || (999 <? status) then Panic else Ok (Written status body).
Definition proxyToBiz (res : bytes * Z * option biz_error) : result string written :=
  match res with
  | (_, _, Some _) => WriteHeader 503 (bytes_of_string "service unavailable")
  | (body, status, None) => WriteHeader status body
  end.

Lemma status0_panics : proxyToBiz ([], 0, None) = Panic.
Proof. reflexivity. Qed.

(** ** proxy.go: the clients of the gateway's NF proxy and of the network functions *)
Module Proxy.
Section Call.
Context (http : nat -> exchange) (cancelled : nat -> bool).
Definition attempt (k : nat) (s : last) : last * option biz_error :=
  let reply status body :=
    let l := mkLast body status (l_err s) in
    if is_4xx status then (l, None)
    else if 500 <=? status then (mkLast body status (Some (ErrStatus status)), Some (ErrStatus status))
    else (l, None) in
  match http k with
  | BadRequest e => (s, Some (ErrExchange e))
  | NoReply e => (mkLast (l_body s) (l_status s) (Some (ErrExchange e)), Some (ErrExchange e))
  | BrokenBody status partial _ => reply status partial
  | Reply status body => reply status body
  end.
Definition last_result (r : last * option (retry_error biz_error) * nat) : Z * bytes * option biz_error :=
  match r with
  | (l, Some _, _) => (l_status l, l_body l, l_err l)
  | (l, None, _) => (l_status l, l_body l, None)
  end.
(** [ProxyClient.call] and [nfClient.Do] have the same loop. *)
Definition call (cfg : RetryConfig) : Z * bytes * option biz_error := last_result (DoS attempt cancelled cfg last0).
Definition nfClient_Do (cfg : RetryConfig) : Z * bytes * option biz_error := last_result (DoS attempt cancelled cfg last0).
End Call.

(** [proxyRequest], with the outcome of [Do]. *)
Definition proxyRequest (res : Z * bytes * option biz_error) (message : biz_error -> bytes) : result string written :=
  match res with
  | (_, _, Some e) => WriteHeader 502 (message e)
  | (status, body, None) => WriteHeader status body
  end.

(** [strings.SplitN(path, "/", n)] *)
Fixpoint splitN (n : nat) (cs : list char) : list (list char) :=
  match n with
  | O => []
  | 1%nat => [cs]
  | S n' => match Storage.WriteThrough.split2 47 cs with (a, Some rest) => a :: splitN n' rest | (a, None) => [a] end
  end.
Definition extractProxyPath (path : string) : string :=
  match splitN 4 (chars path) with
  | [_; _; _; rest] => "/" +:+ String.string_of_list_ascii rest
  | _ => path
  end.

(** The path of the URL a [ProxyClient] calls, up to the query. *)
Definition call_path (targetNF path : string) : string := "/internal/" +:+ targetNF +:+ path.
Fixpoint until_query (cs : list char) : list char :=
  match cs with
  | [] => []
  | c :: t => if ascii_code c =? 63 then [] else c :: until_query t
  end.
(** What the handler reads as [r.URL.Path]: no query, no escapes. *)
Definition url_path (url : string) : string := String.string_of_list_ascii (until_query (chars url)).

Lemma until_query_app pre cs :
  forallb (fun c => negb (ascii_code c =? 63)) pre = true -> until_query (pre ++ cs) = pre ++ until_query cs.
Proof.
  induction pre as [|c t IH]; [done|]. cbn. intros [Hc Ht]%andb_true_iff.
  destruct (ascii_code c =? 63); [done|]. by rewrite IH.
Qed.
Lemma split_slash pre cs :
  forallb (fun c => negb (ascii_code c =? 47)) pre = true ->
  WriteThrough.split2 47 (pre ++ chars "/" ++ cs) = (pre, Some cs).
Proof.
  induction pre as [|c t IH]; [done|]. cbn [forallb app WriteThrough.split2]. intros [Hc Ht]%andb_true_iff.
  destruct (ascii_code c =? 47); [done|]. by rewrite IH.
Qed.

(** The detour over the gateway's proxy: the path a Biz Pod asks for at a network
    function reaches that function unchanged, but for its query, which the proxy
    handler drops. *)
Theorem proxy_path_roundtrip targetNF rest :
  targetNF ∈ ["nrf"; "udm"; "amf"] ->
  extractProxyPath (url_path (call_path targetNF ("/" +:+ rest))) = url_path ("/" +:+ rest).
Proof.
  intros H. unfold extractProxyPath, url_path, call_path. rewrite chars_of_list, !chars_app.
  generalize (chars rest) as cs. intros cs.
  assert (Hnf : forallb (fun c => negb (ascii_code c =? 63)) (chars targetNF) = true
    /\ forallb (fun c => negb (ascii_code c =? 47)) (chars targetNF) = true)
    by (repeat (apply elem_of_cons in H as [->|H]; [done|]); by apply elem_of_nil in H).
  destruct Hnf as [Hq Hs]. rewrite !until_query_app by done.
  change (chars "/internal/") with ([] ++ chars "/" ++ chars "internal" ++ chars "/"). rewrite <- !app_assoc.
  cbn [splitN]. rewrite !split_slash by done.
  apply chars_inj. by rewrite chars_app, !chars_of_list.
Qed.
Lemma proxy_path_roundtrip_witness :
  extractProxyPath (url_path (call_path "nrf" ("/" +:+ "nnrf-disc/v1/nf-instances?target-nf-type=UDM")))
  = "/nnrf-disc/v1/nf-instances".
Proof. rewrite proxy_path_roundtrip by set_solver. reflexivity. Defined.

(** A status below 500 is passed on as it is; after the attempts a 5xx becomes 502. *)
Lemma nf_reply_passed http cancelled cfg status body message :
  http 0%nat = Reply status body -> 100 <= status < 500 -> (0 < attempt_count cfg)%nat ->
  proxyRequest (nfClient_Do http cancelled cfg) message = Ok (Written status body).
Proof.
  intros Hh Hs Hn. unfold nfClient_Do, DoS. fold (attempt_count cfg). destruct (attempt_count cfg); [lia|]. cbn.
  unfold attempt. rewrite Hh. assert (500 <=? status = false) as -> by lia.
  destruct (is_4xx status); cbn; unfold WriteHeader;
    (destruct ((status <? 100) || (999 <? status)) eqn:E; [apply orb_true_iff in E; lia|done]).
Qed.
End Proxy.
