(* ===== verification/Nrf.v ===== *)
(** * internal/nrf and internal/nfclient: registration, heartbeat, discovery

    nfclient/factory.go (one request under a breaker), nrf/client.go (discovery cache
    and NRF operations), nrf/token.go and nrf/heartbeat.go.  The NRF's answers are
    parameters, JSON documents are the fields the code reads, and the clock is an
    argument.  The heartbeat manager, whose loops run in several goroutines, is a
    transition system. *)
From S2P Require Import Prelude Regex Common EapSession Encoding Resilience.
Import Validator.
Local Open Scope string_scope.
Local Open Scope Z_scope.
Local Open Scope list_scope.

(** ** nfclient/factory.go *)
Module Factory.
(** What the request meets: it cannot be built, the transport fails, the body cannot
    be read, or there is an answer. *)
Inductive outcome (B : Type) : Type :=
| NoRequest | NoAnswer | NoBody | Answer (status : Z) (body : B).
Arguments NoRequest {B}.
Arguments NoAnswer {B}.
Arguments NoBody {B}.
Arguments Answer {B} status body.

Inductive nf_error : Type := ErrCircuitOpen | ErrCreate | ErrDo | ErrReadBody.

(** [cb = None]: a factory without a breaker registry. *)
Definition Do {B} (now now' : Z) (cb : option CircuitBreaker) (o : outcome B)
  : option CircuitBreaker * (nf_error + Z * B) :=
  let '(cb, ok) := match cb with
                   | None => (None, true)
                   | Some c => let '(c, ok) := Allow c now in (Some c, ok)
                   end in
  let fail := (fun c => RecordFailure c now') <$> cb in
  if negb ok then (cb, inl ErrCircuitOpen)
  else match o with
  | NoRequest => (fail, inl ErrCreate)
  | NoAnswer => (fail, inl ErrDo)
  | NoBody => (cb, inl ErrReadBody)
  | Answer status body => (if 400 <=? status then fail else RecordSuccess <$> cb, inr (status, body))
  end.
End Factory.

(** ** client.go: the discovery cache *)
Module Discovery.
Record cacheEntry : Type := mkEntry { data : string; expiresAt : Z }.
Record NRFDiscoveryCache : Type := mkCache { cache : gmap string cacheEntry; ttl : Z }.
Definition Get (now : Z) (c : NRFDiscoveryCache) (key : string) (allowStale : bool) : option string :=
  match cache c !! key with
  | None => None
  | Some e => if now <? expiresAt e then Some (data e) else if allowStale then Some (data e) else None
  end.
Definition Set_ (now : Z) (c : NRFDiscoveryCache) (key v : string) : NRFDiscoveryCache :=
  mkCache (<[key := mkEntry v (now + ttl c)]> (cache c)) (ttl c).

(** A discovered instance: its services by name, each with its end points. *)
Abbreviation instance := (gmap string (list (string * Z))).

Inductive disc_error : Type := ErrRequest | ErrStatus (status : Z) | ErrDecode | ErrNotFound.

Section Client.
(** The answer to the discovery request: status, and the decoded document. *)
Context (nrf : option (Z * option (list instance))).
(** The first end point of the first instance that offers the service. *)
Definition first_endpoint (insts : list instance) : option (string * Z) :=
  let eps := flat_map (fun i => default [] (i !! "nudm-uem")) insts in
  match eps with ep :: _ => Some ep | [] => None end.
Definition endpoint_url (ep : string * Z) : string := "http://" +:+ fst ep +:+ ":" +:+ pretty (snd ep).
(** The flag says whether the NRF was asked. *)
Definition DiscoverUDM (now : Z) (c : NRFDiscoveryCache) (plmnID : string)
  : NRFDiscoveryCache * bool * (disc_error + string) :=
  let key := "udm:uem:" +:+ plmnID in
  match Get now c key true with
  | Some endpoint => (c, false, inr endpoint)
  | None =>
      match nrf with
      | None => (c, true, inl ErrRequest)
      | Some (status, doc) =>
          if negb (status =? 200) then (c, true, inl (ErrStatus status))
          else match doc with
          | None => (c, true, inl ErrDecode)
          | Some insts =>
              match first_endpoint insts with
              | None => (c, true, inl ErrNotFound)
              | Some ep => (Set_ now c key (endpoint_url ep), true, inr (endpoint_url ep))
              end
          end
      end
  end.
(** [amf]: status and the instance identifier in the document. *)
Definition DiscoverAMF (amf : option (Z * option string)) (now : Z) (c : NRFDiscoveryCache) (amfID : string)
  : NRFDiscoveryCache * bool * (disc_error + string) :=
  let key := "amf:" +:+ amfID in
  match Get now c key true with
  | Some endpoint => (c, false, inr endpoint)
  | None =>
      match amf with
      | None => (c, true, inl ErrRequest)
      | Some (status, doc) =>
          if negb (status =? 200) then (c, true, inl (ErrStatus status))
          else match doc with
          | None => (c, true, inl ErrDecode)
          | Some id => (Set_ now c key id, true, inr id)
          end
      end
  end.
End Client.

(** Once a UDM was discovered for a network, the NRF is never asked again for it:
    every later discovery returns that end point, however old it is and whatever the
    NRF would answer; the time to live of the cache has no effect. *)
Theorem discovery_never_refreshed nrf now c plmnID c' asked url nrf' now' :
  DiscoverUDM nrf now c plmnID = (c', asked, inr url) ->
  DiscoverUDM nrf' now' c' plmnID = (c', false, inr url).
Proof.
  unfold DiscoverUDM. destruct (Get now c _ true) as [e|] eqn:Eg.
  - intros [= <- <- <-]. unfold Get in *. destruct (cache c !! _) as [en|]; [|done].
    replace (if now' <? expiresAt en then Some (data en) else Some (data en)) with (Some (data en))
      by (by destruct (now' <? expiresAt en)).
    destruct (now <? expiresAt en); by injection Eg as ->.
  - destruct nrf as [[status doc]|]; [|done]. destruct (status =? 200); [|done]. cbn.
    destruct doc as [insts|]; [|done]. destruct (first_endpoint insts) as [ep|]; [|done].
    intros [= <- <- <-]. unfold Get, Set_. cbn. rewrite lookup_insert_eq. cbn. by destruct (now' <? _).
Qed.

Lemma discovery_never_refreshed_witness :
  let inst : instance := {["nudm-uem" := [("10.0.0.1", 8080)]]} in
  DiscoverUDM (Some (200, Some [inst])) 0 (mkCache ∅ 300) "00101"
    = (mkCache {["udm:uem:00101" := mkEntry "http://10.0.0.1:8080" 300]} 300, true, inr "http://10.0.0.1:8080")
  /\ DiscoverUDM None 1000000 (mkCache {["udm:uem:00101" := mkEntry "http://10.0.0.1:8080" 300]} 300) "00101"
    = (mkCache {["udm:uem:00101" := mkEntry "http://10.0.0.1:8080" 300]} 300, false, inr "http://10.0.0.1:8080").
Proof.
  intros inst.
  assert (H : DiscoverUDM (Some (200, Some [inst])) 0 (mkCache ∅ 300) "00101"
    = (mkCache {["udm:uem:00101" := mkEntry "http://10.0.0.1:8080" 300]} 300, true, inr "http://10.0.0.1:8080"))
    by (by vm_compute).
  split; [exact H|]. exact (discovery_never_refreshed _ _ _ _ _ _ _ None 1000000 H).
Defined.
End Discovery.

(** ** token.go *)
Module Token.
Record CachedToken : Type := mkToken { AccessToken : string; ExpiresAt : Z }.
(** The answer of the token endpoint: [None] when the exchange fails, else the status
    and the decoded token with its life in seconds. *)
Abbreviation answer := (option (Z * option (string * Z))).
Definition usable (now : Z) (t : option CachedToken) : option string :=
  match t with Some t => if 5 * 60 * second <? ExpiresAt t - now then Some (AccessToken t) else None | None => None end.
Definition fetchToken (now : Z) (a : answer) (c : option CachedToken) : option CachedToken * option string :=
  match a with
  | None => (c, None)
  | Some (status, doc) =>
      if negb (status =? 200) then (c, None)
      else match doc with
      | None => (c, None)
      | Some (tok, life) => (Some (mkToken tok (now + life * second)), Some tok)
      end
  end.
(** The second check inside the singleflight callback sees the same cache when no
    other refresh came in between, and is the fast path when one did. *)
Definition GetToken (now : Z) (a : answer) (c : option CachedToken) : option CachedToken * bool * option string :=
  match usable now c with
  | Some tok => (c, false, Some tok)
  | None => let '(c, r) := fetchToken now a c in (c, true, r)
  end.

(** A token that is handed out is the cached one, and unless it was fetched just now
    it is good for more than five minutes; a failed fetch leaves the cache. *)
Lemma GetToken_fresh now a c c' asked tok :
  GetToken now a c = (c', asked, Some tok) ->
  exists e, c' = Some (mkToken tok e) /\ (asked = false -> now + 5 * 60 * second < e).
Proof.
  unfold GetToken. destruct (usable now c) as [t|] eqn:E.
  - intros [= <- <- <-]. unfold usable in E. destruct c as [[t' e]|]; [|done]. cbn in E.
    destruct (5 * 60 * second <? e - now) eqn:El; [|done]. injection E as ->. zbool. exists e. split; [done|lia].
  - unfold fetchToken. destruct a as [[status [[t life]|]]|]; [| |done].
    + destruct (status =? 200); [|done]. cbn. intros [= <- <- <-]. by eexists.
    + by destruct (status =? 200).
Qed.
End Token.

(** ** heartbeat.go *)
Module Heartbeat.
Definition max_backoff : Z := 5 * 60 * second.
(** [1<<uint(attempt)] and the product at 64 bits; [jitter] is below a fifth. *)
Definition base_delay (attempt : Z) : Z :=
  let delay := Retry.i64 (5 * second * Retry.i64 (Z.shiftl 1 attempt)) in
  if (max_backoff <? delay) || (delay <=? 0) then max_backoff else delay.
Definition exponentialBackoff (attempt jitter : Z) : Z := base_delay attempt + jitter.

(** The delays grow from ten seconds to five minutes and never overflow, whatever
    the number of attempts. *)
Lemma backoff_bounds attempt jitter :
  0 <= attempt -> 0 <= jitter < base_delay attempt / 5 ->
  5 * second <= exponentialBackoff attempt jitter < 6 * 60 * second
  /\ base_delay attempt = Z.min max_backoff (5 * second * 2 ^ attempt).
Proof.
  intros Ha Hj.
  assert (Hb : base_delay attempt = Z.min max_backoff (5 * second * 2 ^ attempt)).
  { destruct (Z.lt_ge_cases attempt 64) as [Hl|Hl].
    - pose proof (all_below_spec 64 (fun a => base_delay a =? Z.min max_backoff (5 * second * 2 ^ a)) attempt) as H.
      apply Z.eqb_eq, H; [by vm_compute|lia].
    - unfold base_delay. rewrite Z.shiftl_1_l.
      assert (Hz : Retry.i64 (2 ^ attempt) = 0).
      { unfold Retry.i64. replace attempt with (64 + (attempt - 64)) by lia. rewrite Z.pow_add_r by lia.
        rewrite Z.mul_comm, <- Z.add_mod_idemp_l, Z.mod_mul by lia. done. }
      rewrite Hz. change (Retry.i64 (5 * second * 0)) with 0. cbn -[max_backoff second].
      assert (Hp : 18446744073709551616 <= 2 ^ attempt) by (apply (Z.pow_le_mono_r 2 64); lia).
      generalize dependent (2 ^ attempt). clear. intros p _ Hp. unfold max_backoff, second. rewrite orb_true_r. lia. }
  split; [|done]. unfold exponentialBackoff. rewrite Hb in *.
  assert (1 <= 2 ^ attempt) by (apply (Z.pow_le_mono_r 2 0); lia).
  unfold max_backoff, second in *. Z.to_euclidean_division_equations. lia.
Qed.

(** The manager and its goroutines: [loops] counts the running re-registration
    loops, [running] says whether the heartbeat loop is alive. *)
Record manager : Type := mkManager {
  registered : bool; heartbeatInterval : Z; consecutiveFailures : Z; etag : string;
  loops : nat; running : bool }.
Section Manager.
Context (AcceptNegotiated : bool) (MaxConsecutiveFailures InitialInterval : Z).

Definition NewHeartbeatManager : manager := mkManager false InitialInterval 0 estr 0 false.
(** [register]: the negotiated interval and the etag, or an error. *)
Definition register (m : manager) (r : option (Z * string)) : manager * bool :=
  match r with
  | None => (m, false)
  | Some (interval, tag) =>
      (mkManager true (if AcceptNegotiated && (0 <? interval) then interval else heartbeatInterval m)
         (consecutiveFailures m) tag (loops m) (running m), true)
  end.
Definition go_loop (m : manager) : manager :=
  mkManager (registered m) (heartbeatInterval m) (consecutiveFailures m) (etag m) (S (loops m)) (running m).
Definition Start (m : manager) (r : option (Z * string)) : manager :=
  let '(m, ok) := register m r in
  let m := if ok then m else go_loop m in
  mkManager (registered m) (heartbeatInterval m) (consecutiveFailures m) (etag m) (loops m) true.
Definition handleFailure (m : manager) : manager :=
  let n := consecutiveFailures m + 1 in
  let m := mkManager (registered m) (heartbeatInterval m) n (etag m) (loops m) (running m) in
  if MaxConsecutiveFailures <=? n then
    go_loop (mkManager false (heartbeatInterval m) n (etag m) (loops m) (running m))
  else m.
(** A tick of the loop; [hb] is the new etag or an error. *)
Definition tick (m : manager) (hb : option string) : manager :=
  match hb with
  | None => handleFailure m
  | Some tag => mkManager (registered m) (heartbeatInterval m) 0 tag (loops m) (running m)
  end.
(** One round of [reRegisterLoop]. *)
Definition reRegister (m : manager) (r : option (Z * string)) : manager :=
  let '(m, ok) := register m r in
  if ok then mkManager (registered m) (heartbeatInterval m) 0 (etag m) (Nat.pred (loops m)) (running m) else m.
(** The stop of the heartbeat loop, with the outcome of [Deregister]. *)
Definition deregister (m : manager) (ok : bool) : manager :=
  if registered m && ok
  then mkManager false (heartbeatInterval m) (consecutiveFailures m) (etag m) (loops m) (running m) else m.
Definition stop (m : manager) (ok : bool) : manager :=
  let m := deregister m ok in
  mkManager (registered m) (heartbeatInterval m) (consecutiveFailures m) (etag m) (loops m) false.

Inductive step : manager -> manager -> Prop :=
| step_tick m hb : running m = true -> step m (tick m hb)
| step_reregister m r : (0 < loops m)%nat -> step m (reRegister m r)
| step_stop m ok : running m = true -> step m (stop m ok).
Inductive reachable : manager -> Prop :=
| reach_start r : reachable (Start NewHeartbeatManager r)
| reach_step m m' : reachable m -> step m m' -> reachable m'.

(** The registration heals itself: in every state the manager can reach while its
    heartbeat loop runs, the function is registered or a re-registration loop is at
    work, and that loop registers it as soon as the NRF accepts one attempt. *)
Theorem heartbeat_self_heals m :
  reachable m -> running m = true ->
  registered m = true \/
  ((0 < loops m)%nat /\ forall interval tag, registered (reRegister m (Some (interval, tag))) = true
     /\ step m (reRegister m (Some (interval, tag)))).
Proof.
  assert (H : reachable m -> running m = true -> registered m = true \/ (0 < loops m)%nat).
  { clear. induction 1 as [r|m m' _ IH Hs]; [destruct r as [[i t]|]; cbn; [by left|right; lia]|].
    destruct Hs as [m hb Hr|m r Hl|m ok Hr]; intros Hr'.
    - destruct hb as [t|]; cbn in *; [by apply IH|]. unfold handleFailure in *. destruct (_ <=? _); cbn; [right; lia|].
      by apply IH.
    - unfold reRegister, register in *. destruct r as [[i t]|]; cbn in *; [by left|by apply IH].
    - done. }
  intros Hr Hrun. destruct (H Hr Hrun) as [?|Hl]; [by left|right]. split; [done|].
  intros interval tag. split; [done|]. by constructor.
Qed.

(** Each failed heartbeat past the tolerance starts one more loop. *)
Lemma failing_heartbeat_loop m :
  MaxConsecutiveFailures <= consecutiveFailures m + 1 ->
  loops (tick m None) = S (loops m) /\ consecutiveFailures (tick m None) = consecutiveFailures m + 1.
Proof.
  intros Hm. cbn [tick]. unfold handleFailure. destruct (MaxConsecutiveFailures <=? _) eqn:E; [done|zbool; lia].
Qed.
Lemma failing_heartbeats_pile_up n : forall m,
  MaxConsecutiveFailures <= consecutiveFailures m + 1 ->
  loops (Nat.iter n (fun m => tick m None) m) = (n + loops m)%nat
  /\ MaxConsecutiveFailures <= consecutiveFailures (Nat.iter n (fun m => tick m None) m) + 1.
Proof.
  induction n as [|n IH]; intros m Hm; [done|]. destruct (IH m Hm) as [Hl Hc].
  destruct (failing_heartbeat_loop _ Hc) as [H1 H2]. rewrite Nat.iter_succ, H1, H2, Hl. split; [done|lia].
Qed.

(** A loop that is still running after the manager was stopped registers the
    function again. *)
Lemma stopped_registers_again m interval tag :
  (0 < loops m)%nat ->
  let m' := stop m true in
  running m' = false /\ registered m' = false /\ step m' (reRegister m' (Some (interval, tag)))
  /\ registered (reRegister m' (Some (interval, tag))) = true.
Proof.
  intros Hl m'. assert (Hl' : loops m' = loops m) by (unfold m', stop, deregister; by destruct (registered m)).
  split_and!; [done| |by apply step_reregister; rewrite Hl'|done].
  unfold m', stop, deregister. by destruct (registered m) eqn:E; cbn; rewrite ?E.
Qed.
End Manager.

Lemma heartbeat_self_heals_witness :
  let m := tick 1 (Start true (NewHeartbeatManager 300) (Some (60, "e"))) None in
  registered m = false /\ registered (reRegister true m (Some (60, "f"))) = true.
Proof.
  intros m. assert (Hr : reachable true 1 300 m).
  { eapply reach_step; [apply (reach_start _ _ _ (Some (60, "e")))|]. by apply step_tick. }
  destruct (heartbeat_self_heals true 1 300 m Hr eq_refl) as [H|[_ H]]; [discriminate H|].
  split; [done|]. apply (H 60 "f").
Defined.
End Heartbeat.
