(* ===== verification/Json.v ===== *)
(** * encoding/json: documents, and marshalling of Go structs

    A JSON document is its value; numbers are integers, as in all documents of the
    program.  Objects of structs are built from fields with their [omitempty] mark,
    and read field by field the way [json.Unmarshal] fills a struct: absent and null
    fields leave the zero value, of repeated keys the last one counts, a value of the
    wrong type is an error.  Keys are compared exactly. *)
From S2P Require Import Prelude.
Local Open Scope string_scope.
Local Open Scope Z_scope.
Local Open Scope list_scope.

#[warnings="-register-all"]
Inductive json : Type :=
| JNull
| JBool (b : bool)
| JNum (n : Z)
| JStr (s : string)
| JArr (vs : list json)
| JObj (fs : list (string * json)).

(** ** Reading *)
Definition is_null (v : json) : bool := match v with JNull => true | _ => false end.
Fixpoint field (fs : list (string * json)) (k : string) : option json :=
  match fs with
  | [] => None
  | (k', v) :: fs =>
      match field fs k with
      | Some w => Some w
      | None => if str_eqb k' k && negb (is_null v) then Some v else None
      end
  end.
(** A key of a document decoded into a map: the last occurrence, nulls included. *)
Fixpoint map_key (fs : list (string * json)) (k : string) : option json :=
  match fs with
  | [] => None
  | (k', v) :: fs =>
      match map_key fs k with Some w => Some w | None => if str_eqb k' k then Some v else None end
  end.
Definition fields (v : json) : option (list (string * json)) :=
  match v with JObj fs => Some fs | JNull => Some [] | _ => None end.
Definition dec_str (v : json) : option string :=
  match v with JStr s => Some s | JNull => Some estr | _ => None end.
Definition dec_int (v : json) : option Z :=
  match v with JNum n => Some n | JNull => Some 0 | _ => None end.
Definition dec_list {A} (dec : json -> option A) (v : json) : option (list A) :=
  match v with JArr vs => mapM dec vs | JNull => Some [] | _ => None end.
Definition str_field (fs : list (string * json)) (k : string) : option string :=
  from_option dec_str (Some estr) (field fs k).
Definition int_field (fs : list (string * json)) (k : string) : option Z :=
  from_option dec_int (Some 0) (field fs k).
Definition list_field {A} (dec : json -> option A) (fs : list (string * json)) (k : string) : option (list A) :=
  from_option (dec_list dec) (Some []) (field fs k).
(** A field of pointer type. *)
Definition ptr_field {A} (dec : json -> option A) (fs : list (string * json)) (k : string) : option (option A) :=
  match field fs k with None => Some None | Some v => Some <$> dec v end.

(** ** Writing: the fields of a struct, [oe] for [omitempty] *)
Inductive seg : Type :=
| SStr (oe : bool) (s : string)
| SInt (oe : bool) (n : Z)
| SArr (oe : bool) (vs : list json)
| SBool (oe : bool) (b : bool)
| SPtr (o : option (list (string * json))).
Definition seg_value (s : seg) : option json :=
  match s with
  | SStr oe s => if oe && is_empty s then None else Some (JStr s)
  | SInt oe n => if oe && (n =? 0) then None else Some (JNum n)
  | SArr oe vs => if oe && (len vs =? 0) then None else Some (JArr vs)
  | SBool oe b => if oe && negb b then None else Some (JBool b)
  | SPtr o => JObj <$> o
  end.
Definition build (segs : list (string * seg)) : list (string * json) :=
  flat_map (fun '(k, s) => match seg_value s with Some v => [(k, v)] | None => [] end) segs.
Fixpoint assoc (segs : list (string * seg)) (k : string) : option seg :=
  match segs with
  | [] => None
  | (k', s) :: segs => if str_eqb k' k then Some s else assoc segs k
  end.
Definition distinct (segs : list (string * seg)) : bool := bool_decide (NoDup segs.*1).

Lemma seg_value_not_null s v : seg_value s = Some v -> is_null v = false.
Proof.
  destruct s as [oe s|oe n|oe vs|oe b|o]; cbn.
  1-4: by destruct (_ && _); [|intros [= <-]].
  destruct o; [|done]. by intros [= <-].
Qed.

Lemma build_cons k s segs :
  build ((k, s) :: segs) = match seg_value s with Some v => (k, v) :: build segs | None => build segs end.
Proof. unfold build. cbn. by destruct (seg_value s). Qed.


Lemma build_fresh segs k : k ∉ segs.*1 -> field (build segs) k = None.
Proof.
  induction segs as [|[k' s] segs IH]; [done|]. rewrite fmap_cons, not_elem_of_cons. intros [Hne Hn].
  rewrite build_cons. destruct (seg_value s); [|by apply IH]. cbn [field]. rewrite IH by done.
  by rewrite str_eqb_false.
Qed.

Lemma field_build segs k :
  distinct segs = true -> field (build segs) k = assoc segs k ≫= seg_value.
Proof.
  unfold distinct. rewrite bool_decide_eq_true. induction segs as [|[k' s] segs IH]; [done|].
  rewrite fmap_cons, NoDup_cons. intros [Hn Hd]. rewrite build_cons. cbn [assoc]. destruct (str_eqb k' k) eqn:E.
  - apply str_eqb_true in E as ->. cbn. destruct (seg_value s) as [v|] eqn:Es; cbn [field]; rewrite build_fresh by done; [|done].
    by rewrite str_eqb_refl, (seg_value_not_null _ _ Es).
  - destruct (seg_value s); cbn [field]; rewrite IH by done; [|done]. rewrite E. by destruct (_ ≫= _).
Qed.

Lemma map_key_build segs k : distinct segs = true -> map_key (build segs) k = assoc segs k ≫= seg_value.
Proof.
  intros Hd. rewrite <- field_build by done. clear Hd. induction segs as [|[k' s] segs IH]; [done|]. rewrite build_cons.
  destruct (seg_value s) as [v|] eqn:E; [|done]. cbn [map_key field]. rewrite IH.
  by rewrite (seg_value_not_null _ _ E), andb_true_r.
Qed.

(** Every field is read back, whether it was omitted or not. *)
Lemma str_field_build segs k oe s :
  distinct segs = true -> assoc segs k = Some (SStr oe s) -> str_field (build segs) k = Some s.
Proof.
  intros Hd Ha. unfold str_field. rewrite field_build, Ha by done. cbn. destruct (oe && is_empty s) eqn:E; [|done].
  apply andb_prop in E as [_ E]. by destruct s.
Qed.
Lemma int_field_build segs k oe n :
  distinct segs = true -> assoc segs k = Some (SInt oe n) -> int_field (build segs) k = Some n.
Proof.
  intros Hd Ha. unfold int_field. rewrite field_build, Ha by done. cbn. destruct (oe && (n =? 0)) eqn:E; [|done].
  apply andb_prop in E as [_ E]. zbool. by subst.
Qed.
Lemma list_field_build {A} (enc : A -> json) dec segs k oe xs :
  distinct segs = true -> assoc segs k = Some (SArr oe (enc <$> xs)) ->
  (forall x, dec (enc x) = Some x) -> list_field dec (build segs) k = Some xs.
Proof.
  intros Hd Ha Hr. unfold list_field. rewrite field_build, Ha by done. cbn.
  destruct (oe && _) eqn:E; cbn; [|by apply mapM_fmap_Some].
  apply andb_prop in E as [_ E]. zbool. destruct xs as [|x xs]; [done|].
  rewrite fmap_cons, len_cons in E. pose proof (len_nonneg (enc <$> xs)). lia.
Qed.
Lemma ptr_field_build {A} (enc : A -> list (string * json)) dec segs k o :
  distinct segs = true -> assoc segs k = Some (SPtr (enc <$> o)) ->
  (forall x, dec (JObj (enc x)) = Some x) -> ptr_field dec (build segs) k = Some o.
Proof.
  intros Hd Ha Hr. unfold ptr_field. rewrite field_build, Ha by done. cbn. destruct o as [x|]; [|done]. cbn. by rewrite Hr.
Qed.

(** Reads the fields of a struct back, one after the other. *)
Ltac json_read :=
  repeat (first
    [ erewrite str_field_build by reflexivity
    | erewrite int_field_build by reflexivity
    | erewrite list_field_build by first [reflexivity | by eauto]
    | erewrite ptr_field_build by first [reflexivity | by eauto] ]; cbn [mbind option_bind]).
