(* ===== verification/NrfProfile.v ===== *)
(** * internal/nrf types.go and profile.go: NF profiles

    The profile a network function registers, its construction from the YAML
    configuration, and its JSON form with the field names and [omitempty] marks of
    the struct tags.  Nil and empty slices are one value; integers are unbounded (the
    profiles hold ports, timers and capacities). *)
From S2P Require Import Prelude Json.
Local Open Scope string_scope.
Local Open Scope Z_scope.
Local Open Scope list_scope.

(** ** types.go *)
Definition NFTypeNSSAAF : string := "NSSAAF".
Definition NFStatusRegistered : string := "REGISTERED".
Definition NFServiceStatusRegistered : string := "REGISTERED".

Record PLMN : Type := mkPLMN { MCC : string; MNC : string }.
Record Snssai : Type := mkSnssai { SST : Z; SD : string }.
Record NFServiceVersion : Type := mkVersion { APIVersion : string }.
Record IPEndPoint : Type := mkEndPoint { IPv4Address : string; IPv6Address : string; Transport : string; Port : Z }.
Record NFService : Type := mkService {
  ServiceInstanceID : string; ServiceName : string; Versions : list NFServiceVersion; Scheme : string;
  NFServiceStatus : string; s_FQDN : string; APIPrefix : string; IPEndPoints : list IPEndPoint;
  Capacity : Z; Priority : Z; SupportedFeatures : string; AllowedNfTypes : list string;
  AllowedNfDomains : list string }.
Record SupiRange : Type := mkSupiRange { r_Start : string; r_End : string; Pattern : string; Size_ : string }.
Record InternalGroupIdRange : Type := mkGroupRange { g_Start : string; g_End : string }.
Record NssaafInfo : Type := mkInfo {
  SupiRanges : list SupiRange; InternalGroupIdentifiersRanges : list InternalGroupIdRange }.
Record CustomInfo : Type := mkCustom {
  SupportedAaaProtocols : list string; MaxEapRounds : Z; EapTimeoutSeconds : Z }.
Record NFProfile : Type := mkProfile {
  NFInstanceID : string; NFType : string; NFStatus : string; HeartBeatTimer : Z; Load : Z;
  InstanceName : string; FQDN : string; Locality : string; NFSetID : string; PLMNList : list PLMN;
  SNSSAIList : list Snssai; NfServices : list NFService; p_NssaafInfo : option NssaafInfo;
  p_CustomInfo : option CustomInfo }.

(** ** profile.go *)
Record YAMLService : Type := mkYAMLService {
  y_ServiceInstanceID : string; y_APIPrefix : string; y_AllowedNfTypes : list string;
  y_AllowedNfDomains : list string; y_Capacity : Z; y_Priority : Z; y_SupportedFeatures : string }.
Record YAMLProfile : Type := mkYAMLProfile {
  y_InstanceID : string; y_InstanceName : string; y_FQDN : string; y_Locality : string; y_NFSetID : string;
  IPv4Addresses : list string; y_HeartbeatTimer : Z; y_PLMNList : list PLMN; y_SNSSAIList : list Snssai;
  NSSAAServices : gmap string YAMLService; NSSAAFInfo : option NssaafInfo; y_CustomInfo : option CustomInfo }.

(** [read]: what the file system and the YAML parser give for the path. *)
Definition LoadProfileFromYAML (read : option (option YAMLProfile)) : result string YAMLProfile :=
  match read with
  | None => Err "reading profile config"
  | Some None => Err "parsing profile config"
  | Some (Some p) => if is_empty (y_InstanceID p) then Err "instanceId is required in NFProfile config" else Ok p
  end.

Definition build_service (y : YAMLProfile) (name : string) (svc : YAMLService) : NFService :=
  mkService (y_ServiceInstanceID svc) name [mkVersion "v1"] "https" NFServiceStatusRegistered (y_FQDN y)
    ("https://" +:+ y_FQDN y +:+ y_APIPrefix svc)
    ((fun addr => mkEndPoint addr estr "TCP" 443) <$> IPv4Addresses y)
    (y_Capacity svc) (y_Priority svc) (y_SupportedFeatures svc) (y_AllowedNfTypes svc) (y_AllowedNfDomains svc).
(** [order] is the order in which the map of services is iterated. *)
Definition BuildNFProfile (y : YAMLProfile) (heartbeatTimer : Z) (order : list (string * YAMLService)) : NFProfile :=
  let hbTimer := if y_HeartbeatTimer y =? 0 then heartbeatTimer else y_HeartbeatTimer y in
  mkProfile (y_InstanceID y) NFTypeNSSAAF NFStatusRegistered hbTimer 0 (y_InstanceName y) (y_FQDN y)
    (y_Locality y) (y_NFSetID y) (y_PLMNList y) (y_SNSSAIList y)
    ((fun '(name, svc) => build_service y name svc) <$> order) (NSSAAFInfo y) (y_CustomInfo y).

(** ** JSON form *)
Definition plmn_segs (p : PLMN) := [("mcc", SStr false (MCC p)); ("mnc", SStr false (MNC p))].
Definition plmn_json (p : PLMN) : json := JObj (build (plmn_segs p)).
Definition plmn_dec (v : json) : option PLMN :=
  fs ← fields v; mcc ← str_field fs "mcc"; mnc ← str_field fs "mnc"; Some (mkPLMN mcc mnc).

Definition snssai_segs (s : Snssai) := [("sst", SInt false (SST s)); ("sd", SStr true (SD s))].
Definition snssai_json (s : Snssai) : json := JObj (build (snssai_segs s)).
Definition snssai_dec (v : json) : option Snssai :=
  fs ← fields v; sst ← int_field fs "sst"; sd ← str_field fs "sd"; Some (mkSnssai sst sd).

Definition version_segs (s : NFServiceVersion) := [("apiVersion", SStr false (APIVersion s))].
Definition version_json (s : NFServiceVersion) : json := JObj (build (version_segs s)).
Definition version_dec (v : json) : option NFServiceVersion :=
  fs ← fields v; a ← str_field fs "apiVersion"; Some (mkVersion a).

Definition endpoint_segs (e : IPEndPoint) :=
  [("ipv4Address", SStr true (IPv4Address e)); ("ipv6Address", SStr true (IPv6Address e));
   ("transport", SStr true (Transport e)); ("port", SInt true (Port e))].
Definition endpoint_json (e : IPEndPoint) : json := JObj (build (endpoint_segs e)).
Definition endpoint_dec (v : json) : option IPEndPoint :=
  fs ← fields v; a ← str_field fs "ipv4Address"; b ← str_field fs "ipv6Address"; t ← str_field fs "transport";
  p ← int_field fs "port"; Some (mkEndPoint a b t p).

Definition service_segs (s : NFService) :=
  [("serviceInstanceId", SStr false (ServiceInstanceID s)); ("serviceName", SStr false (ServiceName s));
   ("versions", SArr false (version_json <$> Versions s)); ("scheme", SStr false (Scheme s));
   ("nfServiceStatus", SStr false (NFServiceStatus s)); ("fqdn", SStr true (s_FQDN s));
   ("apiPrefix", SStr true (APIPrefix s)); ("ipEndPoints", SArr true (endpoint_json <$> IPEndPoints s));
   ("capacity", SInt true (Capacity s)); ("priority", SInt true (Priority s));
   ("supportedFeatures", SStr true (SupportedFeatures s)); ("allowedNfTypes", SArr true (JStr <$> AllowedNfTypes s));
   ("allowedNfDomains", SArr true (JStr <$> AllowedNfDomains s))].
Definition service_json (s : NFService) : json := JObj (build (service_segs s)).
Definition service_dec (v : json) : option NFService :=
  fs ← fields v; i ← str_field fs "serviceInstanceId"; n ← str_field fs "serviceName";
  vs ← list_field version_dec fs "versions"; sc ← str_field fs "scheme"; st ← str_field fs "nfServiceStatus";
  fq ← str_field fs "fqdn"; ap ← str_field fs "apiPrefix"; eps ← list_field endpoint_dec fs "ipEndPoints";
  c ← int_field fs "capacity"; p ← int_field fs "priority"; sf ← str_field fs "supportedFeatures";
  ty ← list_field dec_str fs "allowedNfTypes"; dm ← list_field dec_str fs "allowedNfDomains";
  Some (mkService i n vs sc st fq ap eps c p sf ty dm).

Definition range_segs (r : SupiRange) :=
  [("start", SStr false (r_Start r)); ("end", SStr true (r_End r)); ("pattern", SStr true (Pattern r));
   ("size", SStr true (Size_ r))].
Definition range_json (r : SupiRange) : json := JObj (build (range_segs r)).
Definition range_dec (v : json) : option SupiRange :=
  fs ← fields v; s ← str_field fs "start"; e ← str_field fs "end"; p ← str_field fs "pattern";
  z ← str_field fs "size"; Some (mkSupiRange s e p z).
Definition group_segs (r : InternalGroupIdRange) := [("start", SStr false (g_Start r)); ("end", SStr true (g_End r))].
Definition group_json (r : InternalGroupIdRange) : json := JObj (build (group_segs r)).
Definition group_dec (v : json) : option InternalGroupIdRange :=
  fs ← fields v; s ← str_field fs "start"; e ← str_field fs "end"; Some (mkGroupRange s e).
Definition info_segs (i : NssaafInfo) :=
  [("supiRanges", SArr true (range_json <$> SupiRanges i));
   ("internalGroupIdentifiersRanges", SArr true (group_json <$> InternalGroupIdentifiersRanges i))].
Definition info_obj (i : NssaafInfo) : list (string * json) := build (info_segs i).
Definition info_dec (v : json) : option NssaafInfo :=
  fs ← fields v; r ← list_field range_dec fs "supiRanges";
  g ← list_field group_dec fs "internalGroupIdentifiersRanges"; Some (mkInfo r g).
Definition custom_segs (c : CustomInfo) :=
  [("supportedAaaProtocols", SArr true (JStr <$> SupportedAaaProtocols c));
   ("maxEapRounds", SInt true (MaxEapRounds c)); ("eapTimeoutSeconds", SInt true (EapTimeoutSeconds c))].
Definition custom_obj (c : CustomInfo) : list (string * json) := build (custom_segs c).
Definition custom_dec (v : json) : option CustomInfo :=
  fs ← fields v; p ← list_field dec_str fs "supportedAaaProtocols"; r ← int_field fs "maxEapRounds";
  t ← int_field fs "eapTimeoutSeconds"; Some (mkCustom p r t).

Definition profile_segs (p : NFProfile) :=
  [("nfInstanceId", SStr false (NFInstanceID p)); ("nfType", SStr false (NFType p));
   ("nfStatus", SStr false (NFStatus p)); ("heartBeatTimer", SInt false (HeartBeatTimer p));
   ("load", SInt true (Load p)); ("nfInstanceName", SStr true (InstanceName p)); ("fqdn", SStr true (FQDN p));
   ("locality", SStr true (Locality p)); ("nfSetId", SStr true (NFSetID p));
   ("plmnList", SArr true (plmn_json <$> PLMNList p)); ("sNssais", SArr true (snssai_json <$> SNSSAIList p));
   ("nfServices", SArr true (service_json <$> NfServices p));
   ("nssaafInfo", SPtr (info_obj <$> p_NssaafInfo p));
   ("customInfo", SPtr (custom_obj <$> p_CustomInfo p))].
Definition profile_json (p : NFProfile) : json := JObj (build (profile_segs p)).
Definition profile_dec (v : json) : option NFProfile :=
  fs ← fields v; i ← str_field fs "nfInstanceId"; ty ← str_field fs "nfType"; st ← str_field fs "nfStatus";
  hb ← int_field fs "heartBeatTimer"; l ← int_field fs "load"; n ← str_field fs "nfInstanceName";
  fq ← str_field fs "fqdn"; lo ← str_field fs "locality"; se ← str_field fs "nfSetId";
  pl ← list_field plmn_dec fs "plmnList"; sn ← list_field snssai_dec fs "sNssais";
  sv ← list_field service_dec fs "nfServices"; inf ← ptr_field info_dec fs "nssaafInfo";
  cu ← ptr_field custom_dec fs "customInfo";
  Some (mkProfile i ty st hb l n fq lo se pl sn sv inf cu).

(** ** Round trips *)
Ltac json_roundtrip dec enc :=
  unfold dec, enc; cbn [fields mbind option_bind]; json_read; reflexivity.

Lemma plmn_roundtrip p : plmn_dec (plmn_json p) = Some p.
Proof. destruct p. json_roundtrip plmn_dec plmn_json. Qed.
Lemma snssai_roundtrip s : snssai_dec (snssai_json s) = Some s.
Proof. destruct s. json_roundtrip snssai_dec snssai_json. Qed.
Lemma version_roundtrip s : version_dec (version_json s) = Some s.
Proof. destruct s. json_roundtrip version_dec version_json. Qed.
Lemma endpoint_roundtrip s : endpoint_dec (endpoint_json s) = Some s.
Proof. destruct s. json_roundtrip endpoint_dec endpoint_json. Qed.
Lemma range_roundtrip s : range_dec (range_json s) = Some s.
Proof. destruct s. json_roundtrip range_dec range_json. Qed.
Lemma group_roundtrip s : group_dec (group_json s) = Some s.
Proof. destruct s. json_roundtrip group_dec group_json. Qed.
#[local] Hint Resolve plmn_roundtrip snssai_roundtrip version_roundtrip endpoint_roundtrip range_roundtrip group_roundtrip : core.
Lemma service_roundtrip s : service_dec (service_json s) = Some s.
Proof. destruct s. json_roundtrip service_dec service_json. Qed.
Lemma info_roundtrip i : info_dec (JObj (info_obj i)) = Some i.
Proof. destruct i. json_roundtrip info_dec info_obj. Qed.
Lemma custom_roundtrip i : custom_dec (JObj (custom_obj i)) = Some i.
Proof. destruct i. json_roundtrip custom_dec custom_obj. Qed.
#[local] Hint Resolve service_roundtrip info_roundtrip custom_roundtrip : core.

(** A profile that is marshalled and read back is the same profile, whatever its
    empty fields, which [omitempty] leaves out of the document. *)
Lemma profile_roundtrip p : profile_dec (profile_json p) = Some p.
Proof. destruct p. json_roundtrip profile_dec profile_json. Qed.

(** Every configured service is registered once, with an https end point on port 443
    for each address, whatever the order of the map. *)
Lemma BuildNFProfile_services y timer order :
  order ≡ₚ map_to_list (NSSAAServices y) ->
  (forall name svc, NSSAAServices y !! name = Some svc ->
     build_service y name svc ∈ NfServices (BuildNFProfile y timer order))
  /\ NoDup (ServiceName <$> NfServices (BuildNFProfile y timer order))
  /\ length (NfServices (BuildNFProfile y timer order)) = size (NSSAAServices y).
Proof.
  intros Ho. cbn. split; [|split].
  - intros name svc Hl. apply list_elem_of_fmap. exists (name, svc). split; [done|]. rewrite Ho. by apply elem_of_map_to_list.
  - rewrite <- list_fmap_compose. erewrite (list_fmap_ext _ fst) by (intros ? [? ?] ?; reflexivity).
    rewrite Ho. apply NoDup_fst_map_to_list.
  - by rewrite length_fmap, Ho, length_map_to_list.
Qed.
