(* ===== verification/NrfServer.v ===== *)
(** * internal/nrfserver and the discovery chain

    nrfserver/server.go (the NRF of the test and lab deployments), the registration
    and search operations of nrf/client.go, and the chain by which a Biz Pod finds a
    UDM: udm/udm.go, discovery/client.go, cmd/http-gateway/handlers_discovery.go and
    [nrf.Client.FindNF].  Exchanges between them are composed: the answer of one
    handler is the input of the next client.  Paths are clean (no dot segments, as
    [ServeMux] has them), and documents carry the JSON values. *)
From S2P Require Import Prelude Regex Common Types EapSession Resilience Json NrfProfile Nrf.
Local Open Scope string_scope.
Local Open Scope Z_scope.
Local Open Scope list_scope.

(** ** strings.TrimPrefix and strings.TrimSuffix of a slash *)
Fixpoint strip_prefix (p s : string) : option string :=
  match p, s with
  | EmptyString, _ => Some s
  | String a p, String b s => if Ascii.eqb a b then strip_prefix p s else None
  | String _ _, EmptyString => None
  end.
Definition HasPrefix (s p : string) : bool := match strip_prefix p s with Some _ => true | None => false end.
Fixpoint HasSuffix (s suf : string) : bool :=
  str_eqb s suf || match s with EmptyString => false | String _ t => HasSuffix t suf end.
Definition TrimPrefix (s p : string) : string := default s (strip_prefix p s).
Fixpoint trim_slash (s : string) : string :=
  match s with
  | EmptyString => EmptyString
  | String c EmptyString => if ascii_code c =? 47 then EmptyString else s
  | String c t => String c (trim_slash t)
  end.

Lemma string_cons_app a p s : String a p +:+ s = String a (p +:+ s).
Proof. done. Qed.
Lemma strip_prefix_app p s : strip_prefix p (p +:+ s) = Some s.
Proof. induction p as [|a p IH]; [done|]. rewrite string_cons_app. cbn [strip_prefix]. by rewrite Ascii.eqb_refl. Qed.
Lemma TrimPrefix_app p s : TrimPrefix (p +:+ s) p = s.
Proof. unfold TrimPrefix. by rewrite strip_prefix_app. Qed.
Lemma strip_prefix_Some p s t : strip_prefix p s = Some t -> s = p +:+ t.
Proof.
  revert s. induction p as [|a p IH]; intros s; [by intros [= ->]|]. destruct s as [|b s]; [done|]. cbn [strip_prefix].
  destruct (Ascii.eqb a b) eqn:E; [|done]. apply Ascii.eqb_eq in E as ->. intros H. by rewrite (IH _ H).
Qed.

(** An instance identifier as a path element. *)
Definition element (id : string) : bool := negb (is_empty id) && str_eqb (trim_slash id) id.
Lemma trim_slash_app p s : s <> estr -> trim_slash (p +:+ s) = p +:+ trim_slash s.
Proof.
  intros Hs. induction p as [|c p IH]; [done|]. rewrite !string_cons_app, <- IH. clear IH. cbn [trim_slash].
  destruct (p +:+ s) eqn:E; [|done]. by destruct p, s.
Qed.
Lemma element_path pre id : element id = true -> TrimPrefix (trim_slash (TrimPrefix (pre +:+ "/" +:+ id) pre)) "/" = id.
Proof.
  unfold element. intros [Hn Hs]%andb_prop. apply str_eqb_true in Hs. destruct (is_empty id) eqn:E; [done|].
  rewrite TrimPrefix_app, (trim_slash_app "/"), Hs by (intros ->; done). apply (TrimPrefix_app "/").
Qed.

(** ** server.go *)
Module Server.
Record ServiceEndpointConfig : Type := mkEP { IPv4Address : string; Port : Z }.
Record Server : Type := mkServer {
  nfStatus : gmap string string; profiles : gmap string json;
  serviceEndpoints : gmap string ServiceEndpointConfig }.
Definition NewServer : Server :=
  mkServer (list_to_map [("udm-001", "REGISTERED"); ("amf-001", "REGISTERED"); ("ausf-001", "REGISTERED");
                         ("aaa-gw-001", "REGISTERED")]) ∅ ∅.
Definition SetNFStatus (s : Server) (id status : string) : Server :=
  mkServer (<[id := status]> (nfStatus s)) (profiles s) (serviceEndpoints s).
Definition SetProfile (s : Server) (id : string) (p : json) : Server :=
  mkServer (nfStatus s) (<[id := p]> (profiles s)) (serviceEndpoints s).
Definition SetServiceEndpoint (s : Server) (nfType serviceName host : string) (port : Z) : Server :=
  mkServer (nfStatus s) (profiles s) (<[nfType +:+ ":" +:+ serviceName := mkEP host port]> (serviceEndpoints s)).

(** A request: the query parameters the handlers look at, and the decoded body. *)
Record request : Type := mkReq {
  Method : string; Path : string; q_target : string; q_service : string; q_status : string; body : option json }.
Record response : Type := mkResp { status : Z; etag : option string; rbody : option json }.
Definition json_error (status : Z) (cause : string) : response :=
  mkResp status None (Some (JObj [("cause", JStr cause)])).

Definition nfTypeFromID (id : string) : string :=
  if HasPrefix id "udm-" then "UDM"
  else if HasPrefix id "amf-" then "AMF"
  else if HasPrefix id "ausf-" then "AUSF"
  else if HasPrefix id "aaa-gw-" then "AAA_GW"
  else "NSSAAF".
Definition serviceNameForType (nfType : string) : string :=
  if str_eqb nfType "UDM" then "nudm-uem"
  else if str_eqb nfType "AUSF" then "nausf-auth"
  else if str_eqb nfType "AMF" then "namf-comm"
  else estr.
Definition service_entry (name ip : string) (port : Z) : json :=
  JObj [(name, JObj [("serviceName", JStr name); ("versions", JArr [JObj [("apiVersion", JStr "v1")]]);
                     ("ipEndPoints", JArr [JObj [("ipv4Address", JStr ip); ("port", JNum port)]])])].
(** The document of [defaultNFProfile], with its [nfServices] entry. *)
Definition profile_with (nfType id st : string) (services : json) : json :=
  JObj [("nfInstanceId", JStr id); ("nfType", JStr nfType); ("nfStatus", JStr st); ("heartBeatTimer", JNum 300);
        ("load", JNum 0); ("plmnId", JObj [("mcc", JStr "001"); ("mnc", JStr "01")]); ("nsiList", JArr []);
        ("nfServices", services)].
Definition defaultNFProfile (nfType id st : string) : json :=
  profile_with nfType id st (service_entry (serviceNameForType nfType) "127.0.0.1" 8080).
Definition defaultNSSAAFProfile (id st : string) : json :=
  JObj [("nfInstanceId", JStr id); ("nfType", JStr "NSSAAF"); ("nfStatus", JStr st); ("heartBeatTimer", JNum 300);
        ("load", JNum 0); ("plmnList", JArr [JObj [("mcc", JStr "001"); ("mnc", JStr "01")]]);
        ("nssaafInfo", JObj [("supiRanges", JArr [JObj [("start", JStr "imsi-001010000000001");
           ("end", JStr "imsi-001019999999999"); ("pattern", JStr "^imsi-00101[0-9]{8}$"); ("size", JStr "LARGE")]])]);
        ("nfServices", service_entry "nnssaaf-nssaa" "127.0.0.1" 8080)].

Definition target_prefix (s : Server) (target : string) : option string :=
  if str_eqb target "UDM" then Some "udm-"
  else if str_eqb target "AMF" then Some "amf-"
  else if str_eqb target "AUSF" then Some "ausf-"
  else if str_eqb target "AAA_GW" then Some "aaa-gw-"
  else if str_eqb target "NSSAAF" then Some "nssAAF-"
  else if decide (nfStatus s = ∅) then None else Some estr.
Definition is_match (s : Server) (target id st : string) : bool :=
  match target_prefix s target with
  | None => false
  | Some p => (is_empty p || HasPrefix id p) && str_eqb st "REGISTERED"
  end.
Definition instance_doc (s : Server) (service id st : string) : json :=
  let nfType := nfTypeFromID id in
  let svcName := if is_empty service then serviceNameForType nfType else service in
  if is_empty svcName then defaultNFProfile nfType id st
  else let ep := default (mkEP "127.0.0.1" 8080) (serviceEndpoints s !! (nfType +:+ ":" +:+ svcName)) in
       profile_with nfType id st (service_entry svcName (IPv4Address ep) (Port ep)).
(** [order] is the order in which the copy of the status map is iterated. *)
Definition instances (s : Server) (target service : string) (order : list (string * string)) : list json :=
  flat_map (fun '(id, st) => if is_match s target id st then [instance_doc s service id st] else []) order.
Definition handleDiscovery (s : Server) (r : request) (order : list (string * string)) : response :=
  mkResp 200 None (Some (JObj [("nfInstances", JArr (instances s (q_target r) (q_service r) order))])).

Definition handleGetInstance (s : Server) (r : request) (id : string) : response :=
  match nfStatus s !! id with
  | None => json_error 404 "NF_INSTANCE_NOT_FOUND"
  | Some st =>
      if negb (is_empty (q_status r)) && negb (str_eqb st (q_status r)) then json_error 404 "NF_INSTANCE_NOT_FOUND"
      else match profiles s !! id with
      | Some p => mkResp 200 None (Some p)
      | None =>
          let nfType := nfTypeFromID id in
          mkResp 200 None (Some (if str_eqb nfType "NSSAAF" then defaultNSSAAFProfile id st
                                 else defaultNFProfile nfType id st))
      end
  end.
(** A body decoded into [map[string]interface{}]. *)
Definition payload (b : option json) : option (list (string * json)) :=
  match b with Some v => fields v | None => None end.
Definition handlePutInstance (s : Server) (r : request) (id tag : string) : Server * response :=
  if is_empty id then (s, json_error 404 "NF_INSTANCE_NOT_FOUND")
  else match payload (body r) with
  | None => (s, json_error 400 "INVALID_FORMAT")
  | Some fs =>
      let st := match map_key fs "nfStatus" with Some (JStr st) => st | _ => "REGISTERED" end in
      (mkServer (<[id := st]> (nfStatus s)) (<[id := JObj fs]> (profiles s)) (serviceEndpoints s),
       mkResp 201 (Some tag) (Some (JObj fs)))
  end.
Definition handlePatchInstance (s : Server) (r : request) (id tag : string) : Server * response :=
  if is_empty id then (s, json_error 404 "NF_INSTANCE_NOT_FOUND")
  else match payload (body r) with
  | None => (s, json_error 400 "INVALID_FORMAT")
  | Some fs =>
      (match map_key fs "nfStatus" with Some (JStr st) => SetNFStatus s id st | _ => s end, mkResp 204 (Some tag) None)
  end.
Definition handleDeleteInstance (s : Server) (id : string) : Server * response :=
  (mkServer (delete id (nfStatus s)) (delete id (profiles s)) (serviceEndpoints s), mkResp 204 None None).
Definition handlePostInstance (s : Server) (r : request) : Server * response :=
  match payload (body r) with
  | None => (s, json_error 400 "INVALID_FORMAT")
  | Some fs => (s, mkResp 201 None (Some (JObj fs)))
  end.
Definition handleSubscription (s : Server) (r : request) : Server * response :=
  if str_eqb (Method r) "PUT" then (s, mkResp 204 None None) else (s, json_error 405 "METHOD_NOT_ALLOWED").

(** [handleNfInstancesDisc] and [handleNfInstancesNfm], which differ in their prefix. *)
Definition handleNfInstances (base : string) (s : Server) (r : request) (order : list (string * string)) (tag : string)
  : Server * response :=
  let path := trim_slash (TrimPrefix (Path r) base) in
  let id := TrimPrefix path "/" in
  if str_eqb (Method r) "GET" then
    (s, if is_empty path then handleDiscovery s r order else handleGetInstance s r id)
  else if str_eqb (Method r) "POST" then handlePostInstance s r
  else if str_eqb (Method r) "PUT" then handlePutInstance s r id tag
  else if str_eqb (Method r) "PATCH" then handlePatchInstance s r id tag
  else if str_eqb (Method r) "DELETE" then handleDeleteInstance s id
  else (s, json_error 405 "METHOD_NOT_ALLOWED").
Definition disc_base : string := "/nnrf-disc/v1/nf-instances".
Definition nfm_base : string := "/nnrf-nfm/v1/nf-instances".
Definition handleNfInstancesDisc := handleNfInstances disc_base.
Definition handleNfInstancesNfm := handleNfInstances nfm_base.
End Server.

(** ** nrf/client.go: the operations of the registration and search services *)
Module Client.
(** The answer to a request, [None] when the exchange fails; the document is [None]
    when the body is not JSON. *)
Abbreviation answer := (option (Z * option json)).

Definition parseHeartbeatInterval (b : option json) : Z :=
  match fs ← b ≫= fields; int_field fs "heartBeatTimer" with
  | Some n => if 0 <? n then n * second else 0
  | None => 0
  end.
Definition parseETag (b : option json) : string :=
  default estr (fs ← b ≫= fields; str_field fs "etag").
Definition instance_path (id : string) : string := "/nnrf-disc/v1/nf-instances/" +:+ id.

Definition Register_request (id : string) (p : NFProfile) : Server.request :=
  Server.mkReq "PUT" (instance_path id) estr estr estr (Some (profile_json p)).
Definition Register (a : answer) : option (Z * string) :=
  match a with
  | None => None
  | Some (status, b) =>
      if negb (status =? 201) && negb (status =? 200) then None else Some (parseHeartbeatInterval b, parseETag b)
  end.
(** The request of the heartbeat carries the etag in If-Match, which the server does
    not look at. *)
Definition Heartbeat_request (id : string) : Server.request :=
  Server.mkReq "PATCH" (instance_path id) estr estr estr (Some (JObj [("nfStatus", JStr "REGISTERED")])).
Definition Heartbeat (a : answer) : option string :=
  match a with
  | None => None
  | Some (status, b) => if negb (status =? 204) then None else Some (parseETag b)
  end.
Definition Deregister_request (id : string) : Server.request :=
  Server.mkReq "DELETE" (instance_path id) estr estr estr None.
Definition Deregister (a : answer) : bool :=
  match a with
  | None => false
  | Some (status, _) => (status =? 204) || (status =? 200)
  end.

(** The lookup of one instance, as [DiscoverAMF] sends it. *)
Definition Get_request (id : string) : Server.request := Server.mkReq "GET" (instance_path id) estr estr estr None.

Inductive find_error : Type := ErrFind | ErrFindStatus (status : Z) | ErrFindDecode.
Definition FindNF_request (nfType : string) : Server.request :=
  Server.mkReq "GET" Server.disc_base (ToUpper nfType) estr estr None.
Definition FindNF (a : answer) : find_error + option NFProfile :=
  match a with
  | None => inl ErrFind
  | Some (status, b) =>
      if negb (status =? 200) then inl (ErrFindStatus status)
      else match fs ← b ≫= fields; list_field profile_dec fs "nfInstances" with
      | None => inl ErrFindDecode
      | Some ps => inr (head ps)
      end
  end.

(** The document [DiscoverUDM] reads: [nfServices] is a map from names to services. *)
Definition disc_endpoint (v : json) : option (string * Z) :=
  fs ← fields v; a ← str_field fs "ipv4Address"; p ← int_field fs "port"; Some (a, p).
Definition disc_services (v : json) : option Discovery.instance :=
  fs ← fields v;
  kvs ← mapM (fun '(k, v) => fs ← fields v; eps ← list_field disc_endpoint fs "ipEndPoints"; Some (k, eps)) fs;
  Some (list_to_map (rev kvs)).
Definition disc_instance (v : json) : option Discovery.instance :=
  fs ← fields v; from_option disc_services (Some ∅) (field fs "nfServices").
Definition disc_document (b : option json) : option (list Discovery.instance) :=
  fs ← b ≫= fields; list_field disc_instance fs "nfInstances".
Definition DiscoverUDM_request : Server.request :=
  Server.mkReq "GET" Server.disc_base "UDM" "nudm-uem" estr None.
Definition DiscoverUDM (a : answer) (now : Z) (c : Discovery.NRFDiscoveryCache) (plmnID : string) :=
  Discovery.DiscoverUDM ((fun '(status, b) => (status, disc_document b)) <$> a) now c plmnID.

(** *** The exchanges with the NRF server *)
Section Exchange.
Context (order : list (string * string)) (tag : string).
Definition ask (s : Server.Server) (r : Server.request) : Server.Server * answer :=
  let '(s, a) := Server.handleNfInstancesDisc s r order tag in (s, Some (Server.status a, Server.rbody a)).
Definition register_at (s : Server.Server) (id : string) (p : NFProfile) :=
  let '(s, a) := ask s (Register_request id p) in (s, Register a).
Definition heartbeat_at (s : Server.Server) (id : string) :=
  let '(s, a) := ask s (Heartbeat_request id) in (s, Heartbeat a).
Definition deregister_at (s : Server.Server) (id : string) :=
  let '(s, a) := ask s (Deregister_request id) in (s, Deregister a).
Definition find_at (s : Server.Server) (nfType : string) := FindNF (snd (ask s (FindNF_request nfType))).
Definition discover_udm_at (s : Server.Server) := DiscoverUDM (snd (ask s DiscoverUDM_request)).
End Exchange.

(** The instances a search lists, by identifier, in any order of the map. *)
Definition listed (s : Server.Server) (target id : string) : bool :=
  match Server.nfStatus s !! id with Some st => Server.is_match s target id st | None => false end.

(** *** Proofs *)
Lemma ask_element order tag s m id b :
  element id = true ->
  ask order tag s (Server.mkReq m (instance_path id) estr estr estr b)
  = let r := Server.mkReq m (instance_path id) estr estr estr b in
    let '(s', a) :=
      if str_eqb m "GET" then (s, Server.handleGetInstance s r id)
      else if str_eqb m "POST" then Server.handlePostInstance s r
      else if str_eqb m "PUT" then Server.handlePutInstance s r id tag
      else if str_eqb m "PATCH" then Server.handlePatchInstance s r id tag
      else if str_eqb m "DELETE" then Server.handleDeleteInstance s id
      else (s, Server.json_error 405 "METHOD_NOT_ALLOWED") in
    (s', Some (Server.status a, Server.rbody a)).
Proof.
  intros He. unfold ask, Server.handleNfInstancesDisc, Server.handleNfInstances. cbn [Server.Path Server.Method].
  pose proof (element_path Server.disc_base id He) as Hp.
  change (instance_path id) with (Server.disc_base +:+ "/" +:+ id). rewrite Hp.
  assert (Hn : is_empty (trim_slash (TrimPrefix (Server.disc_base +:+ "/" +:+ id) Server.disc_base)) = false).
  { rewrite TrimPrefix_app. unfold element in He. apply andb_prop in He as [He _]. by destruct id. }
  by rewrite Hn.
Qed.

Lemma element_nonempty id : element id = true -> is_empty id = false.
Proof. unfold element. intros [H _]%andb_prop. by destruct (is_empty id). Qed.

Lemma register_at_spec order tag s id p :
  element id = true ->
  register_at order tag s id p
  = (Server.mkServer (<[id := NFStatus p]> (Server.nfStatus s)) (<[id := profile_json p]> (Server.profiles s))
       (Server.serviceEndpoints s),
     Some (if 0 <? HeartBeatTimer p then HeartBeatTimer p * second else 0, estr)).
Proof.
  intros He. unfold register_at, Register_request. rewrite ask_element by done. cbn zeta.
  repeat (rewrite str_eqb_false by done). rewrite str_eqb_refl.
  unfold Server.handlePutInstance. rewrite element_nonempty by done. cbn [Server.body Server.payload fields profile_json].
  rewrite map_key_build by reflexivity. cbn -[build profile_segs]. unfold parseHeartbeatInterval, parseETag.
  cbn [mbind option_bind fields]. erewrite int_field_build by reflexivity.
  unfold str_field. rewrite field_build by reflexivity. done.
Qed.

Lemma heartbeat_at_spec order tag s id :
  element id = true -> Server.nfStatus s !! id = Some "REGISTERED" -> heartbeat_at order tag s id = (s, Some estr).
Proof.
  intros He Hs. unfold heartbeat_at, Heartbeat_request. rewrite ask_element by done. cbn zeta.
  repeat (rewrite str_eqb_false by done). rewrite str_eqb_refl.
  unfold Server.handlePatchInstance. rewrite element_nonempty by done. cbn [Server.body Server.payload fields].
  change (map_key _ _) with (Some (JStr "REGISTERED")). cbn. unfold Server.SetNFStatus. rewrite insert_id by done.
  by destruct s.
Qed.

Lemma deregister_at_spec order tag s id :
  element id = true ->
  deregister_at order tag s id
  = (Server.mkServer (delete id (Server.nfStatus s)) (delete id (Server.profiles s)) (Server.serviceEndpoints s), true).
Proof.
  intros He. unfold deregister_at, Deregister_request. rewrite ask_element by done. cbn zeta.
  by repeat (rewrite str_eqb_false by done).
Qed.

(** The identifier in a document of a search result. *)
Definition doc_id (v : json) : option string := fs ← fields v; str_field fs "nfInstanceId".
Lemma doc_id_instance s service id st : doc_id (Server.instance_doc s service id st) = Some id.
Proof. unfold Server.instance_doc. by destruct (is_empty (if is_empty service then _ else _)). Qed.

Lemma elem_instances s target service order v :
  v ∈ Server.instances s target service order
  <-> exists id st, (id, st) ∈ order /\ Server.is_match s target id st = true /\ v = Server.instance_doc s service id st.
Proof.
  unfold Server.instances. rewrite list_elem_of_In, in_flat_map. split.
  - intros ([id st] & Hi & Hv). apply list_elem_of_In in Hi. destruct (Server.is_match s target id st) eqn:E; [|done].
    destruct Hv as [<-|[]]. eauto.
  - intros (id & st & Hi & Hm & ->). exists (id, st). rewrite <- list_elem_of_In. split; [done|]. rewrite Hm. by left.
Qed.

Lemma search_listed s target service order id :
  order ≡ₚ map_to_list (Server.nfStatus s) ->
  Some id ∈ doc_id <$> Server.instances s target service order <-> listed s target id = true.
Proof.
  intros Ho. rewrite list_elem_of_fmap. unfold listed. split.
  - intros (v & Hv & (id' & st & Hi & Hm & ->)%elem_instances). rewrite doc_id_instance in Hv. injection Hv as ->.
    rewrite Ho, elem_of_map_to_list in Hi. by rewrite Hi.
  - destruct (Server.nfStatus s !! id) as [st|] eqn:E; [|done]. intros Hm.
    exists (Server.instance_doc s service id st). split; [by rewrite doc_id_instance|]. apply elem_instances.
    exists id, st. by rewrite Ho, elem_of_map_to_list.
Qed.

Lemma udm_match s id st :
  Server.is_match s "UDM" id st = HasPrefix id "udm-" && str_eqb st "REGISTERED".
Proof. done. Qed.
Lemma nssaaf_match s id st :
  Server.is_match s "NSSAAF" id st = HasPrefix id "nssAAF-" && str_eqb st "REGISTERED".
Proof. done. Qed.


(** [DiscoverUDM] reads the document of a search for the UDM's service. *)
Definition udm_endpoint (s : Server.Server) : Server.ServiceEndpointConfig :=
  default (Server.mkEP "127.0.0.1" 8080) (Server.serviceEndpoints s !! "UDM:nudm-uem").
Definition udm_instance (s : Server.Server) : Discovery.instance :=
  {["nudm-uem" := [(Server.IPv4Address (udm_endpoint s), Server.Port (udm_endpoint s))]]}.

Lemma udm_type id : HasPrefix id "udm-" = true -> Server.nfTypeFromID id = "UDM".
Proof. intros H. unfold Server.nfTypeFromID. by rewrite H. Qed.

Lemma udm_documents s order :
  mapM disc_instance (Server.instances s "UDM" "nudm-uem" order)
  = Some (map (fun _ => udm_instance s) (Server.instances s "UDM" "nudm-uem" order)).
Proof.
  apply mapM_Some. unfold Server.instances. induction order as [|[id st] order IH]; [constructor|]. cbn [flat_map].
  rewrite udm_match. destruct (HasPrefix id "udm-") eqn:Ep; [|exact IH]. destruct (str_eqb st "REGISTERED"); [|exact IH].
  cbn [map app andb]. constructor; [|exact IH]. unfold Server.instance_doc. rewrite udm_type by done. done.
Qed.

Lemma ask_search order tag s target service :
  ask order tag s (Server.mkReq "GET" Server.disc_base target service estr None)
  = (s, Some (200, Some (JObj [("nfInstances", JArr (Server.instances s target service order))]))).
Proof. done. Qed.

Lemma udm_none s service order :
  order ≡ₚ map_to_list (Server.nfStatus s) ->
  (forall id, listed s "UDM" id = false) <-> Server.instances s "UDM" service order = [].
Proof.
  intros Ho. split.
  - intros Hn. destruct (Server.instances s "UDM" service order) as [|v vs] eqn:E; [done|].
    assert (Hv : v ∈ Server.instances s "UDM" service order) by (rewrite E; left).
    pose proof Hv as (id & st & _ & _ & ->)%elem_instances.
    assert (H : listed s "UDM" id = true).
    { apply (search_listed s "UDM" service order id Ho), list_elem_of_fmap. eexists. split; [|exact Hv]. by rewrite doc_id_instance. }
    by rewrite Hn in H.
  - intros E id. apply not_true_iff_false. rewrite <- (search_listed s "UDM" service order id Ho), E. by apply not_elem_of_nil.
Qed.

(** What the client asks for is what the server has been configured with. *)
Lemma discover_udm_found order tag s now ttl plmn v vs :
  Server.instances s "UDM" "nudm-uem" order = v :: vs ->
  snd (discover_udm_at order tag s now (Discovery.mkCache ∅ ttl) plmn)
  = inr (Discovery.endpoint_url (Server.IPv4Address (udm_endpoint s), Server.Port (udm_endpoint s))).
Proof.
  intros E. unfold discover_udm_at, DiscoverUDM_request. rewrite ask_search. cbn [snd].
  unfold DiscoverUDM. cbn [fmap option_fmap option_map].
  change (disc_document _) with (mapM disc_instance (Server.instances s "UDM" "nudm-uem" order)).
  rewrite udm_documents, E. unfold Discovery.DiscoverUDM, Discovery.Get. cbn [Discovery.cache]. rewrite lookup_empty. done.
Qed.

Lemma discover_udm_missing order tag s now ttl plmn :
  Server.instances s "UDM" "nudm-uem" order = [] ->
  snd (discover_udm_at order tag s now (Discovery.mkCache ∅ ttl) plmn) = inl Discovery.ErrNotFound.
Proof.
  intros E. unfold discover_udm_at, DiscoverUDM_request. rewrite ask_search, E. cbn [snd]. unfold DiscoverUDM.
  unfold Discovery.DiscoverUDM, Discovery.Get. cbn [Discovery.cache]. by rewrite lookup_empty.
Qed.

Lemma services_object_refused s service id st : profile_dec (Server.instance_doc s service id st) = None.
Proof. unfold Server.instance_doc. by destruct (is_empty (if is_empty service then _ else _)). Qed.

Lemma find_at_search order tag s nfType :
  find_at order tag s nfType =
  match Server.instances s (ToUpper nfType) estr order with [] => inr None | _ => inl ErrFindDecode end.
Proof.
  unfold find_at, FindNF_request. rewrite ask_search. cbn [snd].
  unfold FindNF. cbn [Z.eqb Pos.eqb negb mbind option_bind fields].
  change (list_field profile_dec _ "nfInstances") with (mapM profile_dec (Server.instances s (ToUpper nfType) estr order)).
  destruct (Server.instances s (ToUpper nfType) estr order) as [|v vs] eqn:E; [done|].
  assert (Hv : v ∈ Server.instances s (ToUpper nfType) estr order) by (rewrite E; left).
  apply elem_instances in Hv as (id & st & _ & _ & ->). cbn [mapM]. by rewrite services_object_refused.
Qed.

End Client.

(** ** From the Biz Pod to the NRF *)
Module Chain.
(** *** cmd/http-gateway/handlers_discovery.go *)
Section Handler.
Context (lower : string -> string) (error_text : Client.find_error -> string).
(** [nrfClient.FindNF] *)
Context (find : string -> Client.find_error + option NFProfile).

Definition writeProblemDetails (status : Z) (cause detail : string) : Server.response :=
  Server.mkResp status None (Some (JObj
    [("type", JStr ("https://nrf.operator.com/problem/" +:+ lower cause)); ("title", JStr cause);
     ("status", JNum status); ("detail", JStr detail)])).
Definition find_base : string := "/internal/nf-discovery/".
Definition HandleNFFind (method path : string) : Server.response :=
  if negb (str_eqb method "GET") then writeProblemDetails 405 "METHOD_NOT_ALLOWED" "Only GET method is allowed"
  else
    let nfType := trim_slash (TrimPrefix path find_base) in
    if is_empty nfType || str_eqb path find_base then
      writeProblemDetails 400 "INVALID_NF_TYPE" "NF type is required in path /internal/nf-discovery/{nfType}"
    else
      let nfType := ToUpper nfType in
      match find nfType with
      | inl e => writeProblemDetails 503 "NRF_UNAVAILABLE" ("Failed to discover " +:+ nfType +:+ ": " +:+ error_text e)
      | inr None => writeProblemDetails 404 "NF_NOT_FOUND" ("No serving " +:+ nfType +:+ " found in NRF")
      | inr (Some profile) => Server.mkResp 200 None (Some (profile_json profile))
      end.
End Handler.

(** *** discovery/client.go *)
Inductive disc_error : Type := ErrExchange | ErrNotFound | ErrStatus (status : Z) | ErrDecode.
Definition FindNF_path (nfType : string) : string := "/internal/nf-discovery/" +:+ nfType.
Definition FindNF (a : Client.answer) : disc_error + NFProfile :=
  match a with
  | None => inl ErrExchange
  | Some (status, b) =>
      if status =? 404 then inl ErrNotFound
      else if negb (status =? 200) then inl (ErrStatus status)
      else match b ≫= profile_dec with None => inl ErrDecode | Some p => inr p end
  end.

(** *** udm/udm.go *)
Inductive udm_error : Type :=
| ErrNoDiscovery | ErrDiscover (e : disc_error) | ErrNoServices | ErrNoEndpoints | ErrNoAddress
| ErrExchangeUDM | ErrSubscriber | ErrStatusUDM (status : Z) | ErrDecodeUDM | ErrNoContexts.
(** The end of [discoverBaseURL], on the profile. *)
Definition profile_url (p : NFProfile) : udm_error + string :=
  match NfServices p with
  | [] => inl ErrNoServices
  | svc :: _ =>
      match IPEndPoints svc with
      | [] => inl ErrNoEndpoints
      | ep :: _ =>
          if is_empty (IPv4Address ep) then inl ErrNoAddress
          else
            let port := if Port ep =? 0 then 443 else Port ep in
            let scheme := if is_empty (Scheme svc) then "https" else Scheme svc in
            inr (scheme +:+ "://" +:+ IPv4Address ep +:+ ":" +:+ pretty port)
      end
  end.
Definition discoverBaseURL (baseURL : string) (disc : option (string -> disc_error + NFProfile)) : udm_error + string :=
  if negb (is_empty baseURL) then inr baseURL
  else match disc with
  | None => inl ErrNoDiscovery
  | Some find =>
      match find "UDM" with
      | inl e => inl (ErrDiscover e)
      | inr profile => profile_url profile
      end
  end.

Record AuthSubscription : Type := mkAuthSub { AuthType : string; AAAServer : string }.
Definition auth_dec (v : json) : option AuthSubscription :=
  fs ← fields v; t ← str_field fs "authType"; a ← str_field fs "aaaServer"; Some (mkAuthSub t a).
Section Udm.
Context (baseURL : string) (disc : option (string -> disc_error + NFProfile)).
(** [factory.Do] on base URL, method, path and body. *)
Context (do : string -> string -> string -> option json -> Client.answer).
Definition GetAuthContext (supi : string) : udm_error + AuthSubscription :=
  match discoverBaseURL baseURL disc with
  | inl e => inl e
  | inr base =>
      match do base "GET" ("/nudm-uem/v1/subscribers/" +:+ supi +:+ "/auth-contexts") None with
      | None => inl ErrExchangeUDM
      | Some (status, b) =>
          if status =? 404 then inl ErrSubscriber
          else if negb (status =? 200) then inl (ErrStatusUDM status)
          else match fs ← b ≫= fields; list_field auth_dec fs "authContexts" with
          | None => inl ErrDecodeUDM
          | Some [] => inl ErrNoContexts
          | Some (s :: _) => inr s
          end
      end
  end.
Definition UpdateAuthContext (supi authCtxID status : string) : option udm_error :=
  match discoverBaseURL baseURL disc with
  | inl e => Some e
  | inr base =>
      match do base "PUT" ("/nudm-uem/v1/subscribers/" +:+ supi +:+ "/auth-contexts/" +:+ authCtxID)
              (Some (JObj [("authResult", JStr status)])) with
      | None => Some ErrExchangeUDM
      | Some (code, _) => if negb (code =? 200) then Some (ErrStatusUDM code) else None
      end
  end.
End Udm.

(** *** ausf/client.go; [b64] is the encoding of byte slices by [json.Marshal]. *)
Inductive ausf_error : Type := ErrNoBase | ErrForward | ErrAusfStatus (status : Z).
Definition ForwardMSK (b64 : bytes -> string) (do : string -> string -> string -> option json -> Client.answer)
    (baseURL authCtxID : string) (msk : bytes) : option ausf_error :=
  if is_empty baseURL then Some ErrNoBase
  else match do baseURL "POST" "/nnssaaaf-aiw/v1/msk"
               (Some (JObj [("authCtxId", JStr authCtxID); ("msk", JStr (b64 msk))])) with
  | None => Some ErrForward
  | Some (status, _) => if 400 <=? status then Some (ErrAusfStatus status) else None
  end.

(** The Biz Pod's discovery client against the gateway's handler. *)
Definition via_gateway lower error_text find (nfType : string) : disc_error + NFProfile :=
  let r := HandleNFFind lower error_text find "GET" (FindNF_path nfType) in
  FindNF (Some (Server.status r, Server.rbody r)).

Lemma via_gateway_spec lower error_text find nfType :
  element nfType = true ->
  via_gateway lower error_text find nfType =
  match find (ToUpper nfType) with
  | inl _ => inl (ErrStatus 503)
  | inr None => inl ErrNotFound
  | inr (Some p) => inr p
  end.
Proof.
  unfold element. intros [Hn Hs]%andb_prop. apply str_eqb_true in Hs. unfold via_gateway, HandleNFFind, FindNF_path.
  rewrite str_eqb_refl. cbn [negb]. change "/internal/nf-discovery/" with find_base. rewrite TrimPrefix_app, Hs.
  assert (str_eqb (find_base +:+ nfType) find_base = false) as ->.
  { apply str_eqb_false. intros H. apply (f_equal (fun s => strip_prefix find_base s)) in H.
    rewrite strip_prefix_app in H. injection H as ->. done. }
  destruct (is_empty nfType); [done|]. cbn [orb].
  destruct (find (ToUpper nfType)) as [e|[p|]]; [done| |done]. cbn [Server.status Server.rbody FindNF].
  cbn -[profile_json profile_dec]. by rewrite profile_roundtrip.
Qed.

(** Discovery through the HTTP gateway is transparent: the base URL the Biz Pod uses
    for the UDM is the one of the first service of the first profile the NRF returns,
    with https and port 443 as defaults, and every failure on the way is an error. *)
Theorem udm_discovery_transparent lower error_text (answer : string -> Client.answer) ps :
  answer "UDM" = Some (200, Some (JObj [("nfInstances", JArr (profile_json <$> ps))])) ->
  discoverBaseURL estr (Some (via_gateway lower error_text (fun t => Client.FindNF (answer t))))
  = match ps with [] => inl (ErrDiscover ErrNotFound) | p :: _ => profile_url p end.
Proof.
  intros Ha. unfold discoverBaseURL. cbn [is_empty negb]. rewrite via_gateway_spec by reflexivity.
  change (ToUpper "UDM") with "UDM". rewrite Ha. unfold Client.FindNF. cbn [Z.eqb Pos.eqb negb mbind option_bind fields].
  change (list_field profile_dec _ "nfInstances") with (mapM profile_dec (profile_json <$> ps)).
  rewrite (mapM_fmap_Some _ _ _ profile_roundtrip). by destruct ps.
Qed.

(** The two ways to find a UDM need different documents of the NRF.  With the NRF
    server of the repository and a registered UDM, [DiscoverUDM] finds the configured
    end point, while the search through the gateway always fails with a 503, because
    [FindNF] reads [nfServices] as a list and the server sends a map; with no UDM
    registered both report that none was found. *)
Theorem udm_discovery_disagrees lower error_text order tag s now ttl plmn :
  order ≡ₚ map_to_list (Server.nfStatus s) ->
  let direct := snd (Client.discover_udm_at order tag s now (Discovery.mkCache ∅ ttl) plmn) in
  let gateway := discoverBaseURL estr (Some (via_gateway lower error_text (Client.find_at order tag s))) in
  ((exists id, Client.listed s "UDM" id = true) ->
     direct = inr (Discovery.endpoint_url (Server.IPv4Address (Client.udm_endpoint s), Server.Port (Client.udm_endpoint s)))
     /\ gateway = inl (ErrDiscover (ErrStatus 503)))
  /\ ((forall id, Client.listed s "UDM" id = false) ->
     direct = inl Discovery.ErrNotFound /\ gateway = inl (ErrDiscover ErrNotFound)).
Proof.
  intros Ho direct gateway.
  assert (Hg : gateway = match Server.instances s "UDM" estr order with
    [] => inl (ErrDiscover ErrNotFound) | _ => inl (ErrDiscover (ErrStatus 503)) end).
  { unfold gateway, discoverBaseURL. cbn [is_empty negb]. rewrite via_gateway_spec, Client.find_at_search by reflexivity.
    change (ToUpper (ToUpper "UDM")) with "UDM". by destruct (Server.instances s "UDM" estr order). }
  rewrite Hg. split.
  - intros [id Hid]. destruct (Server.instances s "UDM" "nudm-uem" order) as [|v vs] eqn:E.
    + by rewrite (proj2 (Client.udm_none s _ order Ho) E id) in Hid.
    + split; [by apply (Client.discover_udm_found order tag s now ttl plmn v vs)|].
      destruct (Server.instances s "UDM" estr order) eqn:E'; [|done].
      by rewrite (proj2 (Client.udm_none s _ order Ho) E' id) in Hid.
  - intros Hn. rewrite (proj1 (Client.udm_none s estr order Ho) Hn). split; [|done].
    apply (Client.udm_none s "nudm-uem" order Ho) in Hn. by apply (Client.discover_udm_missing order tag s now ttl plmn).
Qed.

Lemma udm_discovery_transparent_witness :
  let ep := mkEndPoint "10.0.0.7" estr "TCP" 0 in
  let svc := mkService "i" "nudm-uem" [mkVersion "v1"] estr "REGISTERED" estr estr [ep] 0 0 estr [] [] in
  let p := mkProfile "udm-1" "UDM" "REGISTERED" 300 0 estr estr estr estr [] [] [svc] None None in
  discoverBaseURL estr (Some (via_gateway (fun s => s) (fun _ => estr)
    (fun t => Client.FindNF (Some (200, Some (JObj [("nfInstances", JArr [profile_json p])]))))))
  = inr "https://10.0.0.7:443".
Proof.
  intros ep svc p.
  exact (udm_discovery_transparent (fun s => s) (fun _ => estr)
    (fun _ => Some (200, Some (JObj [("nfInstances", JArr [profile_json p])]))) [p] eq_refl).
Defined.

Lemma udm_discovery_disagrees_witness :
  let s := Server.SetServiceEndpoint Server.NewServer "UDM" "nudm-uem" "10.0.0.7" 8443 in
  let order := map_to_list (Server.nfStatus s) in
  snd (Client.discover_udm_at order "t" s 0 (Discovery.mkCache ∅ 300) "00101") = inr "http://10.0.0.7:8443"
  /\ discoverBaseURL estr (Some (via_gateway (fun s => s) (fun _ => estr) (Client.find_at order "t" s)))
     = inl (ErrDiscover (ErrStatus 503)).
Proof.
  intros s order.
  destruct (udm_discovery_disagrees (fun s => s) (fun _ => estr) order "t" s 0 300 "00101" (Permutation_refl _)) as [H _].
  apply H. exists "udm-001". by vm_compute.
Defined.
End Chain.
