(* ===== verification/UdmServer.v ===== *)
(** * internal/udmserver: the UDM of the lab deployments, under its client

    server.go with its three handlers, and the client of udm/udm.go (in
    [NrfServer.Chain]) talking to it.  Answers to failed requests are texts written by
    [http.Error]; the client only looks at their status. *)
From S2P Require Import Prelude Regex Common Types EapSession Resilience Json NrfProfile Nrf NrfServer.
Import Validator Chain.
Local Open Scope string_scope.
Local Open Scope Z_scope.
Local Open Scope list_scope.

(** ** strings.TrimSuffix and strings.Trim of slashes *)
Fixpoint TrimSuffix (s suf : string) : string :=
  if str_eqb s suf then estr
  else match s with EmptyString => estr | String c t => String c (TrimSuffix t suf) end.
Definition is_slash (c : char) : bool := ascii_code c =? 47.
Fixpoint drop_slashes (cs : list char) : list char :=
  match cs with c :: t => if is_slash c then drop_slashes t else cs | [] => [] end.
Definition trim_slashes (s : string) : string :=
  String.string_of_list_ascii (rev (drop_slashes (rev (drop_slashes (chars s))))).
Definition no_slash (s : string) : bool := forallb (fun c => negb (is_slash c)) (chars s).

Lemma string_length_app a b : String.length (a +:+ b) = (String.length a + String.length b)%nat.
Proof. induction a as [|c a IH]; [done|]. rewrite string_cons_app. cbn [String.length]. by rewrite IH. Qed.
Lemma TrimSuffix_app p suf : TrimSuffix (p +:+ suf) suf = p.
Proof.
  induction p as [|c p IH].
  - change (estr +:+ suf) with suf. destruct suf; cbn [TrimSuffix]; [done|]. by rewrite str_eqb_refl.
  - rewrite string_cons_app. cbn [TrimSuffix]. rewrite IH, str_eqb_false; [done|].
    intros H. apply (f_equal String.length) in H. cbn [String.length] in H. rewrite string_length_app in H. lia.
Qed.
Lemma drop_slashes_none cs : forallb (fun c => negb (is_slash c)) cs = true -> drop_slashes cs = cs.
Proof. destruct cs as [|c cs]; [done|]. cbn. by destruct (is_slash c). Qed.
Lemma trim_slashes_none s : no_slash s = true -> trim_slashes s = s.
Proof.
  unfold no_slash, trim_slashes. intros H. rewrite (drop_slashes_none (chars s)) by done.
  rewrite drop_slashes_none, rev_involutive; [apply chars_inj; by rewrite chars_of_list|].
  apply forallb_forall. intros c Hc. apply in_rev in Hc. by apply (proj1 (forallb_forall _ _) H).
Qed.
Lemma TrimSuffix_none s suf : no_slash s = true -> no_slash suf = false -> TrimSuffix s suf = s.
Proof.
  intros Hs Hf. induction s as [|c s IH]; cbn [TrimSuffix].
  - by destruct (str_eqb estr suf).
  - rewrite str_eqb_false by (intros <-; congruence). f_equal. apply IH.
    unfold no_slash in *. cbn in Hs. by apply andb_prop in Hs as [_ Hs].
Qed.

(** ** server.go *)
Module UDM.
Record NudmRegItem : Type := mkItem { PlmnID : string; Legacy : bool }.
Record NudmUECMRegistration : Type := mkReg {
  Supi : string; GPSI : string; Suci : string; AMFId : string; GuoCtrID : string; Registrations : list NudmRegItem }.
Record Server : Type := mkServer {
  registrations : gmap string NudmUECMRegistration; errorCodes : gmap string Z;
  authSubscriptions : gmap string AuthSubscription }.
Definition NewServer : Server := mkServer ∅ ∅ ∅.
Definition SetRegistration (s : Server) (supi : string) (reg : NudmUECMRegistration) : Server :=
  mkServer (<[supi := reg]> (registrations s)) (errorCodes s) (authSubscriptions s).
Definition SetError (s : Server) (supi : string) (code : Z) : Server :=
  mkServer (registrations s) (<[supi := code]> (errorCodes s)) (authSubscriptions s).
Definition SetAuthSubscription (s : Server) (supi authType aaaServer : string) : Server :=
  mkServer (registrations s) (errorCodes s) (<[supi := mkAuthSub authType aaaServer]> (authSubscriptions s)).
Definition SetGPSI (s : Server) (supi gpsi : string) : Server :=
  SetRegistration s supi (mkReg supi gpsi estr estr estr [mkItem "00101" false]).

Definition item_json (i : NudmRegItem) : json := JObj [("plmnId", JStr (PlmnID i)); ("isLegacy", JBool (Legacy i))].
Definition reg_json (r : NudmUECMRegistration) : json :=
  JObj (build [("supi", SStr false (Supi r)); ("gpsi", SStr true (GPSI r)); ("suci", SStr true (Suci r));
               ("amfId", SStr true (AMFId r)); ("guamfId", SStr true (GuoCtrID r));
               ("registrations", SArr false (item_json <$> Registrations r))]).
Definition auth_json (a : AuthSubscription) : json :=
  JObj [("authType", JStr (AuthType a)); ("aaaServer", JStr (AAAServer a))].

(** The SUPI of a path: the suffix is removed twice, then slashes on both sides. *)
Definition path_supi (path base suf : string) : string :=
  trim_slashes (TrimSuffix (TrimSuffix (TrimPrefix path base) suf) suf).
Section Handle.
(** The table of answers, and how an entry is written. *)
Context {A : Type} (base suf : string) (table : gmap string A) (enc : A -> json).
Definition handle (s : Server) (method path : string) : Z * option json :=
  if negb (str_eqb method "GET") then (405, None)
  else
    let supi := path_supi path base suf in
    if negb (HasPrefix supi "imsi-") then (400, None)
    else match errorCodes s !! supi with
    | Some code => (code, None)
    | None => match table !! supi with None => (404, None) | Some a => (200, Some (enc a)) end
    end.
End Handle.
Definition handleRegistration (s : Server) : string -> string -> Z * option json :=
  handle "/nudm-uemm/v1/" "/registration" (registrations s) reg_json s.
Definition handleAuthContexts (s : Server) : string -> string -> Z * option json :=
  handle "/nudm-uem/v1/subscribers/" "/auth-contexts" (authSubscriptions s)
    (fun a => JObj [("authContexts", JArr [auth_json a])]) s.
Definition handleHealth (method : string) : Z * option json :=
  if negb (str_eqb method "GET") then (405, None) else (200, Some (JObj [("status", JStr "ok")])).

(** The paths below the subscribers' base go to [handleAuthContexts]. *)
Definition serve (s : Server) (base method path : string) (body : option json) : Client.answer :=
  Some (handleAuthContexts s method path).

Lemma path_supi_spec base suf supi :
  no_slash supi = true -> no_slash suf = false -> path_supi (base +:+ supi +:+ suf) base suf = supi.
Proof.
  intros Hs Hf. unfold path_supi. by rewrite TrimPrefix_app, TrimSuffix_app, TrimSuffix_none, trim_slashes_none.
Qed.
Lemma supi_no_slash supi : supi_form supi -> no_slash supi = true /\ HasPrefix supi "imsi-" = true.
Proof.
  intros (ds & -> & Hd & _). split; [|unfold HasPrefix; by rewrite strip_prefix_app].
  unfold no_slash. rewrite chars_app, forallb_app. apply andb_true_intro. split; [done|].
  apply forallb_forall. intros c Hc. pose proof (proj1 (forallb_forall _ _) Hd c Hc) as H.
  unfold is_slash. unfold is_digit, in_range in H. zbool. lia.
Qed.

(** What is provisioned for a subscriber is what the client reads, unless an error
    is injected for that subscriber, in which case the client fails; an unknown
    subscriber is reported as such.  An update of the authentication context is refused
    for every subscriber in every state of this UDM, which answers reads only. *)
Theorem udm_auth_context s url supi authType aaaServer ctx result :
  ValidateSUPI supi = Ok tt -> url <> estr ->
  let get := fun s => GetAuthContext url None (serve s) supi in
  (errorCodes s !! supi = None ->
     get (SetAuthSubscription s supi authType aaaServer) = inr (mkAuthSub authType aaaServer))
  /\ (forall code, code <> 200 -> code <> 404 -> get (SetError s supi code) = inl (ErrStatusUDM code))
  /\ (errorCodes s !! supi = None -> authSubscriptions s !! supi = None -> get s = inl ErrSubscriber)
  /\ UpdateAuthContext url None (serve s) supi ctx result = Some (ErrStatusUDM 405).
Proof.
  rewrite validateSUPI_ok. intros [Hn Hp]%supi_no_slash Hu get.
  assert (Hg : forall s, get s =
    match handleAuthContexts s "GET" ("/nudm-uem/v1/subscribers/" +:+ supi +:+ "/auth-contexts") with
    | (status, b) => if status =? 404 then inl ErrSubscriber else if negb (status =? 200) then inl (ErrStatusUDM status)
          else match fs ← b ≫= fields; list_field auth_dec fs "authContexts" with
          | None => inl ErrDecodeUDM | Some [] => inl ErrNoContexts | Some (s :: _) => inr s end end).
  { intros s'. unfold get, GetAuthContext, discoverBaseURL. by destruct url. }
  assert (Hh : forall s, handleAuthContexts s "GET" ("/nudm-uem/v1/subscribers/" +:+ supi +:+ "/auth-contexts") =
    match errorCodes s !! supi with Some code => (code, None)
    | None => match authSubscriptions s !! supi with None => (404, None)
              | Some a => (200, Some (JObj [("authContexts", JArr [auth_json a])])) end end).
  { intros s'. unfold handleAuthContexts, handle. rewrite str_eqb_refl. cbn [negb]. cbv zeta.
    rewrite path_supi_spec, Hp by done. done. }
  split_and!.
  - intros He. rewrite Hg, Hh. cbn. by rewrite He, lookup_insert_eq.
  - intros code H1 H2. rewrite Hg, Hh. cbn. rewrite lookup_insert_eq.
    by rewrite (proj2 (Z.eqb_neq _ _) H2), (proj2 (Z.eqb_neq _ _) H1).
  - intros He Ha. by rewrite Hg, Hh, He, Ha.
  - unfold UpdateAuthContext, discoverBaseURL. by destruct url.
Qed.

Lemma udm_auth_context_witness :
  GetAuthContext "http://udm" None (serve (SetAuthSubscription NewServer "imsi-001010000000001" "EAP_TLS" "radius://aaa"))
    "imsi-001010000000001" = inr (mkAuthSub "EAP_TLS" "radius://aaa").
Proof.
  destruct (udm_auth_context NewServer "http://udm" "imsi-001010000000001" "EAP_TLS" "radius://aaa" "c" "r") as (H & _);
    [by vm_compute|done|]. by apply H.
Defined.
End UDM.
