(* ===== verification/Postgres.v ===== *)
(** * internal/storage/postgres: the repositories of the handlers' sessions

    encrypt_helpers.go, nssaa_repo.go and aiw_repo.go over the tables their SQL
    statements name.  A table is the list of its rows; INSERT appends unless a
    constraint of the migrations fails, UPDATE and DELETE act on every row that meets
    the condition and report their number, QueryRow reads the first one.  Each
    statement may also fail ([fault]).  AES-GCM is the parameter of internal/crypto,
    random nonces, the clock and the hash of identifiers are arguments.  Timestamps
    are stored with microseconds, as PostgreSQL has them. *)
From S2P Require Import Prelude Regex Common Types Encoding EapSession Crypto Storage.
Import Validator.
Local Open Scope string_scope.
Local Open Scope Z_scope.
Local Open Scope list_scope.

Inductive pg_error : Type :=
| ErrEncrypt (e : crypto_error)
| ErrNoSession
| ErrFault (s : string)
| ErrConstraint
| ErrScan.

(** ** Time stamps of the database *)
Definition micros (t : Z) : Z := t / 1000 * 1000.
Lemma micros_idem t : micros (micros t) = micros t.
Proof. unfold micros. by rewrite Z.div_mul. Qed.

(** ** Tables: rows with a key *)
Section Table.
Context {R : Type} (key : R -> string).
Definition matches_key (id : string) (r : R) : bool := str_eqb (key r) id.
Definition select (id : string) (t : list R) : option R := head (filter (fun r => key r = id) t).
Definition update_where (id : string) (f : R -> R) (t : list R) : list R :=
  map (fun r => if matches_key id r then f r else r) t.
Definition count_where (id : string) (t : list R) : nat := length (filter (fun r => key r = id) t).
Definition delete_where (id : string) (t : list R) : list R := filter (fun r => key r <> id) t.

Lemma matches_key_true id r : matches_key id r = true <-> key r = id.
Proof. apply str_eqb_true. Qed.
Lemma count_zero id t : count_where id t = 0%nat <-> select id t = None.
Proof. unfold count_where, select. by destruct (filter _ t). Qed.

Context (f : R -> R) (f_key : forall r, key (f r) = key r).
Lemma filter_update id k t :
  filter (fun r => key r = k) (update_where id f t)
  = if str_eqb k id then map f (filter (fun r => key r = k) t) else filter (fun r => key r = k) t.
Proof.
  unfold update_where. induction t as [|r t IH]; [by destruct (str_eqb k id)|]. cbn [map].
  assert (Hk : key (if matches_key id r then f r else r) = key r) by (destruct (matches_key id r); [apply f_key|done]).
  rewrite !filter_cons, Hk, IH. destruct (decide (key r = k)) as [Ek|]; [|done].
  unfold matches_key. rewrite Ek. by destruct (str_eqb k id).
Qed.
Lemma select_update_same id t : select id (update_where id f t) = f <$> select id t.
Proof. unfold select. rewrite filter_update, str_eqb_refl. by destruct (filter _ t). Qed.
Lemma select_update_other id k t : k <> id -> select k (update_where id f t) = select k t.
Proof.
  intros H. unfold select. rewrite filter_update. destruct (str_eqb k id) eqn:E; [|done].
  by apply str_eqb_true in E.
Qed.
End Table.

Lemma update_missing {R : Type} (key : R -> string) t id f :
  count_where key id t = 0%nat -> update_where key id f t = t.
Proof.
  unfold count_where, update_where. induction t as [|r t IH]; [done|]. rewrite filter_cons. cbn [map].
  destruct (decide (key r = id)) as [|Hne]; [done|]. intros H. rewrite IH by done.
  destruct (matches_key key id r) eqn:E; [|done]. by apply matches_key_true in E.
Qed.

Section Insert.
Context {R : Type} (key : R -> string).
Lemma select_insert_same t r : select key (key r) t = None -> select key (key r) (t ++ [r]) = Some r.
Proof.
  unfold select. intros H. rewrite filter_app, filter_cons_True by done.
  destruct (filter _ t); [done|by cbn in H].
Qed.
Lemma select_insert_other t r k : k <> key r -> select key k (t ++ [r]) = select key k t.
Proof. unfold select. intros H. by rewrite filter_app, filter_cons_False, app_nil_r by congruence. Qed.
Lemma select_delete_same id t : select key id (delete_where key id t) = None.
Proof.
  unfold select, delete_where. rewrite list_filter_filter. induction t as [|r t IH]; [done|].
  rewrite filter_cons_False; [done|naive_solver].
Qed.
Lemma select_delete_other id k t : k <> id -> select key k (delete_where key id t) = select key k t.
Proof. intros Hk. unfold select, delete_where. rewrite list_filter_filter_l; [done|]. naive_solver. Qed.
Lemma select_key id t r : select key id t = Some r -> key r = id.
Proof.
  unfold select. intros H. assert (Hr : r ∈ filter (fun r => key r = id) t)
    by (destruct (filter _ t); [done|injection H as ->; left]).
  by apply list_elem_of_filter in Hr as [? _].
Qed.
End Insert.

(** ** encrypt_helpers.go and the encryptor of session.go *)
Section Cipher.
Context (Seal : bytes -> bytes -> bytes -> bytes -> bytes).
Context (Open : bytes -> bytes -> bytes -> bytes -> option bytes).
Definition NewEncryptor (key : bytes) : option bytes := if len key =? 32 then Some key else None.
Definition encryptState (key nonce state : bytes) : result crypto_error bytes := EncryptConcat Seal state key nonce.
Definition decryptState (key ciphertext : bytes) : result crypto_error bytes := DecryptConcat Open ciphertext key.
Definition encryptField (key nonce : bytes) (plaintext : string) : result crypto_error string :=
  if is_empty plaintext then Ok estr
  else let? ct := EncryptConcat Seal (bytes_of_string plaintext) key nonce in Ok (Base64.EncodeToString ct).
Definition decryptField (key : bytes) (encoded : string) : result crypto_error string :=
  if is_empty encoded then Ok estr
  else match Base64.DecodeString encoded with
  | None => Err ErrDecryptFailed
  | Some ct => let? p := DecryptConcat Open ct key in Ok (string_of_bytes p)
  end.
(** [x, _ = f()]: the zero value on an error. *)
Definition or_zero {A} (zero : A) (r : result crypto_error A) : A := match r with Ok a => a | _ => zero end.
End Cipher.

(** What the repositories use of AES-GCM: opening undoes sealing, sealing adds the tag
    and gives bytes. *)
Class AEAD (Seal : bytes -> bytes -> bytes -> bytes -> bytes)
    (Open : bytes -> bytes -> bytes -> bytes -> option bytes) : Prop := {
  aead_length k n p a : length (Seal k n p a) = (length p + 16)%nat;
  aead_open k n p a : Open k n (Seal k n p a) a = Some p;
  aead_bytes k n p a : bytes_ok n -> bytes_ok p -> bytes_ok (Seal k n p a) }.
Definition nonce_ok (n : bytes) : Prop := length n = 12%nat /\ bytes_ok n.

Lemma bytes_of_string_ok p : bytes_ok (bytes_of_string p).
Proof.
  unfold bytes_of_string, bytes_ok. apply Forall_map, Forall_forall. intros c _. unfold in_u8.
  pose proof (Ascii.N_ascii_bounded c). lia.
Qed.

Section CipherLaws.
Context Seal Open `{AEAD Seal Open} (key : bytes) (key_ok : NewEncryptor key = Some key).
Lemma key_len : len key = 32.
Proof. unfold NewEncryptor in key_ok. destruct (len key =? 32) eqn:E; [by zbool|done]. Qed.

Lemma concat_roundtrip nonce p :
  nonce_ok nonce ->
  exists ct, EncryptConcat Seal p key nonce = Ok ct /\ DecryptConcat Open ct key = Ok p
             /\ (bytes_ok p -> bytes_ok ct) /\ (28 <= len ct).
Proof.
  intros [Hn Hb]. exists (nonce ++ Seal key nonce p []). unfold EncryptConcat, DecryptConcat. rewrite key_len. cbn [Z.eqb Pos.eqb negb].
  assert (Hl : len (nonce ++ Seal key nonce p []) = 28 + len p).
  { rewrite len_app. unfold len. rewrite Hn, aead_length. lia. }
  pose proof (len_nonneg p). split; [done|]. split.
  - rewrite Hl. destruct (_ <? _) eqn:E; [zbool; lia|].
    unfold slice, suffix_from. change (Z.to_nat 12) with 12%nat. change (Z.to_nat 0) with 0%nat.
    replace (Z.to_nat (12 - 0)) with 12%nat by lia. rewrite drop_0.
    rewrite take_app_length', drop_app_length' by done. by rewrite aead_open.
  - split; [|lia]. intros Hp. apply bytes_ok_app. split; [done|by apply aead_bytes].
Qed.

Lemma field_roundtrip nonce p :
  nonce_ok nonce -> exists c, encryptField Seal key nonce p = Ok c /\ decryptField Open key c = Ok p.
Proof.
  intros Hn. unfold encryptField. destruct (is_empty p) eqn:Ep; [apply is_empty_true in Ep as ->; by exists estr|].
  destruct (concat_roundtrip nonce (bytes_of_string p) Hn) as (ct & He & Hd & Hb & Hl). specialize (Hb (bytes_of_string_ok p)).
  rewrite He. cbn.
  exists (Base64.EncodeToString ct). split; [done|]. unfold decryptField.
  destruct (is_empty (Base64.EncodeToString ct)) eqn:E.
  - apply is_empty_true in E. pose proof (Base64.decode_encode ct Hb) as D. rewrite E in D. cbn in D.
    injection D as <-. unfold len in Hl. cbn in Hl. lia.
  - rewrite Base64.decode_encode, Hd by done. cbn. by rewrite string_bytes_roundtrip.
Qed.

Lemma state_roundtrip nonce p :
  nonce_ok nonce -> exists c, encryptState Seal key nonce p = Ok c /\ decryptState Open key c = Ok p /\ (0 < length c)%nat.
Proof.
  intros Hn. destruct (concat_roundtrip nonce p Hn) as (ct & He & Hd & _ & Hl). exists ct. split_and!; try done.
  unfold len in Hl. lia.
Qed.
End CipherLaws.

(** ** The table slice_auth_sessions (migrations 1, 5, 7 and 8) *)
Record slice_row : Type := mkSlice {
  c_auth_ctx_id : string; c_gpsi : string; c_gpsi_hash : string; c_supi : string; c_snssai_sst : Z;
  c_snssai_sd : string; c_amf_instance_id : string; c_amf_ip : option string; c_amf_region : string;
  c_reauth_notif_uri : string; c_revoc_notif_uri : string; c_callback_owner : string; c_has_aiw_context : bool;
  c_aaa_config_id : option string; c_eap_session_state : bytes; c_eap_rounds : Z; c_max_eap_rounds : Z;
  c_eap_last_nonce : string; c_nssaa_status : string; c_auth_result : string; c_failure_reason : string;
  c_failure_cause : string; c_created_at : Z; c_updated_at : Z; c_expires_at : Z; c_completed_at : option Z;
  c_terminated_at : option Z }.

(** The limits of the columns; [partition] says whether some partition of the table
    takes the creation time. *)
Definition fits (cols : list (string * Z)) : bool := forallb (fun '(s, n) => slen s <=? n) cols.
Definition slice_check (partition : Z -> bool) (r : slice_row) : bool :=
  fits [(c_auth_ctx_id r, 64); (c_gpsi_hash r, 32); (c_snssai_sd r, 8); (c_amf_instance_id r, 64);
        (c_amf_region r, 16); (c_eap_last_nonce r, 64); (c_nssaa_status r, 20); (c_auth_result r, 20);
        (c_failure_cause r, 50)]
  && (0 <=? c_snssai_sst r) && (c_snssai_sst r <=? 255) && partition (c_created_at r).
(** The primary key is the pair of identifier and creation time. *)
Definition slice_insert (partition : Z -> bool) (t : list slice_row) (r : slice_row) : list slice_row * option pg_error :=
  if slice_check partition r
     && negb (existsb (fun r' => str_eqb (c_auth_ctx_id r') (c_auth_ctx_id r) && (c_created_at r' =? c_created_at r)) t)
  then (t ++ [r], None) else (t, Some ErrConstraint).
(** An update is refused as a whole when a row would break a limit. *)
Definition slice_update (partition : Z -> bool) (t : list slice_row) (id : string) (f : slice_row -> slice_row)
  : list slice_row * (pg_error + nat) :=
  let t' := update_where c_auth_ctx_id id f t in
  if forallb (fun r => negb (matches_key c_auth_ctx_id id r) || slice_check partition r) t'
  then (t', inr (count_where c_auth_ctx_id id t)) else (t, inl ErrConstraint).

(** ** nssaa_repo.go *)
Module Nssaa.
Record nssaaRow : Type := mkRow {
  AuthCtxID : string; GPSI : string; SnssaiSST : Z; SnssaiSD : string; AMFInstanceID : string;
  AMFIP : option string; AMFRegion : string; AAAConfigID : option string; EAPSessionState : bytes;
  NssaaStatus_ : string; AuthResult : string; EAPRounds : Z; MaxEAPRounds : Z; EAPLastNonce : string;
  FailureReason : string; FailureCause : string; ReauthNotifURI : string; RevocNotifURI : string;
  CallbackOwner : string; HasAIWContext : bool; CreatedAt : Z; UpdatedAt : Z; ExpiresAt : Z;
  CompletedAt : option Z; TerminatedAt : option Z }.

(** [IsZero] is equality with the zero time. *)
Definition or_now (t dflt : Z) : Z := if t =? 0 then dflt else t.
Definition sessionToRow (now : Z) (s : NssaaSession) : nssaaRow :=
  mkRow (n_AuthCtxID s) (n_GPSI s) (n_SnssaiSST s) (n_SnssaiSD s) (n_AmfInstance s) None estr None
    (n_EapPayload s) (n_Status s) estr 0 0 estr estr estr (n_ReauthURI s) (n_RevocURI s) (n_CallbackOwner s)
    (n_HasAIWContext s) (or_now (n_CreatedAt s) now) (or_now (n_UpdatedAt s) now)
    (or_now (n_ExpiresAt s) (now + 300 * second)) None None.
Definition rowToSession (r : nssaaRow) : NssaaSession :=
  mkNssaa (AuthCtxID r) (GPSI r) (SnssaiSST r) (SnssaiSD r) (AMFInstanceID r) (ReauthNotifURI r) (RevocNotifURI r)
    (EAPSessionState r) (NssaaStatus_ r) (CallbackOwner r) (HasAIWContext r) (CreatedAt r) (UpdatedAt r) (ExpiresAt r).

Section Repository.
Context (Seal : bytes -> bytes -> bytes -> bytes -> bytes).
Context (Open : bytes -> bytes -> bytes -> bytes -> option bytes).
Context (key : bytes) (HashGPSI : string -> string) (partition : Z -> bool).

(** The row of the INSERT statement. *)
Definition new_row (s : nssaaRow) (state : bytes) (gpsi : string) : slice_row :=
  mkSlice (AuthCtxID s) gpsi (HashGPSI (GPSI s)) estr (SnssaiSST s) (SnssaiSD s) (AMFInstanceID s) (AMFIP s)
    (AMFRegion s) (ReauthNotifURI s) (RevocNotifURI s) (CallbackOwner s) (HasAIWContext s) (AAAConfigID s)
    state (EAPRounds s) (MaxEAPRounds s) (EAPLastNonce s) (NssaaStatus_ s) (AuthResult s)
    (FailureReason s) (FailureCause s) (micros (CreatedAt s)) (micros (UpdatedAt s)) (micros (ExpiresAt s)) None None.
(** The two nonces are for the state and the GPSI. *)
Definition createRow (fault : option string) (n1 n2 : bytes) (s : nssaaRow) (t : list slice_row)
  : list slice_row * option pg_error :=
  match encryptState Seal key n1 (EAPSessionState s), encryptField Seal key n2 (GPSI s) with
  | Ok state, Ok gpsi =>
      match fault with
      | Some e => (t, Some (ErrFault e))
      | None => slice_insert partition t (new_row s state gpsi)
      end
  | Err e, _ => (t, Some (ErrEncrypt e))
  | _, Err e => (t, Some (ErrEncrypt e))
  | _, _ => (t, Some (ErrFault "panic"))
  end.
(** The SET list of the UPDATE statement. *)
Definition set_row (s : nssaaRow) (state : bytes) (gpsi : string) (r : slice_row) : slice_row :=
  mkSlice (c_auth_ctx_id r) gpsi (HashGPSI (GPSI s)) (c_supi r) (SnssaiSST s) (SnssaiSD s) (c_amf_instance_id r)
    (c_amf_ip r) (c_amf_region r) (ReauthNotifURI s) (RevocNotifURI s) (CallbackOwner s) (HasAIWContext s)
    (c_aaa_config_id r) state (EAPRounds s) (c_max_eap_rounds r) (EAPLastNonce s) (NssaaStatus_ s) (AuthResult s)
    (FailureReason s) (FailureCause s) (c_created_at r) (micros (UpdatedAt s)) (micros (ExpiresAt s))
    (micros <$> CompletedAt s) (micros <$> TerminatedAt s).
Definition updateRow (fault : option string) (n1 n2 : bytes) (s : nssaaRow) (t : list slice_row)
  : list slice_row * option pg_error :=
  match encryptState Seal key n1 (EAPSessionState s), encryptField Seal key n2 (GPSI s) with
  | Ok state, Ok gpsi =>
      match fault with
      | Some e => (t, Some (ErrFault e))
      | None =>
          match slice_update partition t (AuthCtxID s) (set_row s state gpsi) with
          | (t, inl e) => (t, Some e)
          | (t, inr O) => (t, Some ErrNoSession)
          | (t, inr _) => (t, None)
          end
      end
  | Err e, _ => (t, Some (ErrEncrypt e))
  | _, Err e => (t, Some (ErrEncrypt e))
  | _, _ => (t, Some (ErrFault "panic"))
  end.
Definition scanRow (r : slice_row) : nssaaRow :=
  mkRow (c_auth_ctx_id r) (or_zero estr (decryptField Open key (c_gpsi r))) (c_snssai_sst r) (c_snssai_sd r)
    (c_amf_instance_id r) (c_amf_ip r) (c_amf_region r) (c_aaa_config_id r)
    (if (0 <? length (c_eap_session_state r))%nat then or_zero [] (decryptState Open key (c_eap_session_state r)) else [])
    (c_nssaa_status r) (c_auth_result r) (c_eap_rounds r) (c_max_eap_rounds r) (c_eap_last_nonce r)
    (c_failure_reason r) (c_failure_cause r) (c_reauth_notif_uri r) (c_revoc_notif_uri r) (c_callback_owner r)
    (c_has_aiw_context r) (c_created_at r) (c_updated_at r) (c_expires_at r) (c_completed_at r) (c_terminated_at r).
Definition loadRow (fault : option string) (id : string) (t : list slice_row) : pg_error + nssaaRow :=
  match fault with
  | Some e => inl (ErrFault e)
  | None => match select c_auth_ctx_id id t with None => inl ErrNoSession | Some r => inr (scanRow r) end
  end.

Definition Load (fault : option string) (id : string) (t : list slice_row) : pg_error + NssaaSession :=
  match loadRow fault id t with inl e => inl e | inr r => inr (rowToSession r) end.
(** [rnd] are the random nonces of the call, [f1] and [f2] the faults of its two
    statements. *)
Definition Save (f1 f2 : option string) (rnd : nat -> bytes) (now : Z) (s : NssaaSession) (t : list slice_row)
  : list slice_row * option pg_error :=
  let row := sessionToRow now s in
  match updateRow f1 (rnd 0%nat) (rnd 1%nat) row t with
  | (t, Some ErrNoSession) => createRow f2 (rnd 2%nat) (rnd 3%nat) row t
  | res => res
  end.
Definition Delete (fault : option string) (id : string) (t : list slice_row) : list slice_row * option pg_error :=
  match fault with
  | Some e => (t, Some (ErrFault e))
  | None => (delete_where c_auth_ctx_id id t,
             if (count_where c_auth_ctx_id id t =? 0)%nat then Some ErrNoSession else None)
  end.

(** *** Specification: what is loaded after a save *)
Definition expected (now : Z) (s : NssaaSession) (old : option slice_row) : NssaaSession :=
  mkNssaa (n_AuthCtxID s) (n_GPSI s) (n_SnssaiSST s) (n_SnssaiSD s)
    (match old with Some r => c_amf_instance_id r | None => n_AmfInstance s end)
    (n_ReauthURI s) (n_RevocURI s) (n_EapPayload s) (n_Status s) (n_CallbackOwner s) (n_HasAIWContext s)
    (match old with Some r => c_created_at r | None => micros (or_now (n_CreatedAt s) now) end)
    (micros (or_now (n_UpdatedAt s) now)) (micros (or_now (n_ExpiresAt s) (now + 300 * second))).
Definition table_ok (t : list slice_row) : Prop := Forall (fun r => slice_check partition r = true) t.
Definition session_fits (now : Z) (s : NssaaSession) : bool :=
  fits [(n_AuthCtxID s, 64); (HashGPSI (n_GPSI s), 32); (n_SnssaiSD s, 8); (n_AmfInstance s, 64); (n_Status s, 20)]
  && (0 <=? n_SnssaiSST s) && (n_SnssaiSST s <=? 255) && partition (micros (or_now (n_CreatedAt s) now)).

Context `{!AEAD Seal Open} (key_ok : NewEncryptor key = Some key).

Lemma set_row_key s state gpsi r : c_auth_ctx_id (set_row s state gpsi r) = c_auth_ctx_id r.
Proof. done. Qed.

(** One encryption of the sensitive columns and its inverse. *)
Lemma encrypted n1 n2 s :
  nonce_ok n1 -> nonce_ok n2 ->
  exists state gpsi, encryptState Seal key n1 (EAPSessionState s) = Ok state
    /\ encryptField Seal key n2 (GPSI s) = Ok gpsi /\ decryptField Open key gpsi = Ok (GPSI s)
    /\ decryptState Open key state = Ok (EAPSessionState s) /\ (0 <? length state)%nat = true.
Proof.
  intros H1 H2. destruct (state_roundtrip Seal Open key key_ok n1 (EAPSessionState s) H1) as (state & E1 & D1 & L).
  destruct (field_roundtrip Seal Open key key_ok n2 (GPSI s) H2) as (gpsi & E2 & D2).
  exists state, gpsi. split_and!; try done. by apply Nat.ltb_lt.
Qed.

Lemma updateRow_spec fault n1 n2 s t :
  nonce_ok n1 -> nonce_ok n2 ->
  exists state gpsi, decryptField Open key gpsi = Ok (GPSI s)
    /\ decryptState Open key state = Ok (EAPSessionState s) /\ (0 <? length state)%nat = true
    /\ updateRow fault n1 n2 s t =
       match fault with
       | Some e => (t, Some (ErrFault e))
       | None => match slice_update partition t (AuthCtxID s) (set_row s state gpsi) with
                 | (t, inl e) => (t, Some e) | (t, inr O) => (t, Some ErrNoSession) | (t, inr _) => (t, None) end
       end.
Proof.
  intros H1 H2. destruct (encrypted n1 n2 s H1 H2) as (state & gpsi & E1 & E2 & D1 & D2 & L). exists state, gpsi.
  split_and!; try done. unfold updateRow. by rewrite E1, E2.
Qed.


(** A failed save changes nothing; a successful one updated the rows of the session or
    added one. *)
Lemma Save_cases f1 f2 rnd now s t t' e :
  (forall i, nonce_ok (rnd i)) -> Save f1 f2 rnd now s t = (t', e) ->
  let row := sessionToRow now s in
  match e with
  | Some _ => t' = t
  | None => exists state gpsi, decryptField Open key gpsi = Ok (GPSI row)
      /\ decryptState Open key state = Ok (EAPSessionState row) /\ (0 <? length state)%nat = true
      /\ ((count_where c_auth_ctx_id (AuthCtxID row) t <> 0%nat
            /\ t' = update_where c_auth_ctx_id (AuthCtxID row) (set_row row state gpsi) t)
          \/ (select c_auth_ctx_id (AuthCtxID row) t = None /\ t' = t ++ [new_row row state gpsi]))
  end.
Proof.
  intros Hr. unfold Save. set (row := sessionToRow now s).
  destruct (updateRow_spec f1 (rnd 0%nat) (rnd 1%nat) row t (Hr _) (Hr _)) as (state & gpsi & D1 & D2 & L & ->).
  destruct f1 as [e1|]; [by intros [= <- <-]|]. unfold slice_update.
  destruct (forallb _ _); [|by intros [= <- <-]].
  destruct (count_where c_auth_ctx_id (AuthCtxID row) t) as [|k] eqn:Ec.
  - rewrite update_missing by done. unfold createRow.
    destruct (encrypted (rnd 2%nat) (rnd 3%nat) row (Hr _) (Hr _)) as (state' & gpsi' & E1 & E2 & D1' & D2' & L').
    rewrite E1, E2. destruct f2 as [e2|]; [by intros [= <- <-]|]. unfold slice_insert.
    destruct (_ && _); intros [= <- <-]; [|done]. exists state', gpsi'. split_and!; try done. right.
    split; [by apply count_zero|done].
  - intros [= <- <-]. exists state, gpsi. split_and!; try done. left. split; [lia|done].
Qed.

Lemma forallb_Forall_true {A} (p : A -> bool) xs : forallb p xs = true <-> Forall (fun x => p x = true) xs.
Proof. rewrite forallb_forall, Forall_forall. setoid_rewrite list_elem_of_In. done. Qed.

Lemma set_row_check now s state gpsi r :
  session_fits now s = true -> slice_check partition r = true ->
  slice_check partition (set_row (sessionToRow now s) state gpsi r) = true.
Proof.
  unfold session_fits, slice_check, fits. cbn [forallb]. intros H1 H2. cbn.
  repeat match goal with H : _ && _ = true |- _ => apply andb_prop in H as [? ?] end.
  by repeat (apply andb_true_intro; split).
Qed.

Lemma new_row_check now s state gpsi :
  session_fits now s = true -> slice_check partition (new_row (sessionToRow now s) state gpsi) = true.
Proof.
  unfold session_fits, slice_check, fits. cbn [forallb]. intros H. cbn.
  repeat match goal with H : _ && _ = true |- _ => apply andb_prop in H as [? ?] end.
  by repeat (apply andb_true_intro; split).
Qed.

Lemma createRow_ok n1 n2 now s t :
  nonce_ok n1 -> nonce_ok n2 -> session_fits now s = true ->
  (forall r, r ∈ t -> c_auth_ctx_id r = n_AuthCtxID s -> c_created_at r <> micros (or_now (n_CreatedAt s) now)) ->
  exists state gpsi, decryptField Open key gpsi = Ok (n_GPSI s)
    /\ decryptState Open key state = Ok (n_EapPayload s) /\ (0 <? length state)%nat = true
    /\ createRow None n1 n2 (sessionToRow now s) t = (t ++ [new_row (sessionToRow now s) state gpsi], None).
Proof.
  intros H1 H2 Hf Hk. unfold createRow.
  destruct (encrypted n1 n2 (sessionToRow now s) H1 H2) as (state & gpsi & E1 & E2 & D1 & D2 & L).
  exists state, gpsi. split_and!; try done. rewrite E1, E2. unfold slice_insert. rewrite new_row_check by done. cbn [andb].
  destruct (existsb _ t) eqn:Ex; [exfalso|done].
  apply existsb_exists in Ex as (r & Hr' & Ek). apply andb_prop in Ek as [Ek Ec]. apply str_eqb_true in Ek.
  apply list_elem_of_In in Hr'. zbool. by apply (Hk r).
Qed.

Lemma updated_ok now s state gpsi t :
  table_ok t -> session_fits now s = true ->
  table_ok (update_where c_auth_ctx_id (n_AuthCtxID s) (set_row (sessionToRow now s) state gpsi) t).
Proof.
  intros Ht Hf. unfold table_ok, update_where. apply Forall_map. eapply Forall_impl; [exact Ht|]. intros r Hc. cbn.
  destruct (matches_key _ _ _); [by apply set_row_check|done].
Qed.
Lemma updateRow_ok n1 n2 now s t :
  nonce_ok n1 -> nonce_ok n2 -> table_ok t -> session_fits now s = true ->
  exists t', updateRow None n1 n2 (sessionToRow now s) t
    = (t', if (count_where c_auth_ctx_id (n_AuthCtxID s) t =? 0)%nat then Some ErrNoSession else None)
    /\ table_ok t' /\ (count_where c_auth_ctx_id (n_AuthCtxID s) t = 0%nat -> t' = t).
Proof.
  intros H1 H2 Ht Hf. destruct (updateRow_spec None n1 n2 (sessionToRow now s) t H1 H2) as (state & gpsi & _ & _ & _ & ->).
  pose proof (updated_ok now s state gpsi t Ht Hf) as Ht'. unfold slice_update.
  rewrite (proj2 (forallb_Forall_true _ _)) by (eapply Forall_impl; [exact Ht'|]; intros r Hc; cbn; by rewrite Hc, orb_true_r).
  change (AuthCtxID (sessionToRow now s)) with (n_AuthCtxID s).
  exists (update_where c_auth_ctx_id (n_AuthCtxID s) (set_row (sessionToRow now s) state gpsi) t).
  split_and!; [by destruct (count_where c_auth_ctx_id (n_AuthCtxID s) t)|done|by apply update_missing].
Qed.

Lemma select_none_elem t id r : select c_auth_ctx_id id t = None -> r ∈ t -> c_auth_ctx_id r <> id.
Proof.
  unfold select. intros Hn Hr Hk. assert (r ∈ filter (fun r => c_auth_ctx_id r = id) t) as Hin by (by apply list_elem_of_filter).
  destruct (filter _ t); [by apply not_elem_of_nil in Hin|done].
Qed.

(** Within the limits of the columns a save without faults succeeds. *)
Lemma Save_succeeds rnd now s t :
  (forall i, nonce_ok (rnd i)) -> table_ok t -> session_fits now s = true ->
  exists t', Save None None rnd now s t = (t', None) /\ table_ok t'.
Proof.
  intros Hr Ht Hf. unfold Save.
  destruct (updateRow_ok (rnd 0%nat) (rnd 1%nat) now s t (Hr _) (Hr _) Ht Hf) as (t1 & -> & Ht1 & Hsame).
  destruct (count_where _ _ t) as [|k] eqn:Ec; [|by eexists]. rewrite (Hsame eq_refl). cbn [Nat.eqb].
  destruct (createRow_ok (rnd 2%nat) (rnd 3%nat) now s t (Hr _) (Hr _) Hf) as (state & gpsi & _ & _ & _ & ->).
  { intros r Hin Hk. apply count_zero in Ec. by destruct (select_none_elem _ _ _ Ec Hin). }
  eexists. split; [done|]. apply Forall_app. split; [done|]. constructor; [by apply new_row_check|constructor].
Qed.

(** C18: the NSSAA repository over its table.  A successful save makes the session load
    as it was given, decrypted, with its times cut to microseconds and missing times
    filled in; of a session that was already stored, the AMF instance and the creation
    time of the first save are kept.  Other sessions load as before, a failed save
    changes nothing, and within the limits of the columns a save without database fault
    succeeds. *)
Theorem nssaa_save_load f1 f2 rnd now s t t' e :
  (forall i, nonce_ok (rnd i)) -> Save f1 f2 rnd now s t = (t', e) ->
  (e = None ->
     Load None (n_AuthCtxID s) t' = inr (expected now s (select c_auth_ctx_id (n_AuthCtxID s) t))
     /\ forall id, id <> n_AuthCtxID s -> Load None id t' = Load None id t)
  /\ (e <> None -> t' = t)
  /\ (f1 = None -> f2 = None -> table_ok t -> session_fits now s = true -> e = None /\ table_ok t').
Proof.
  intros Hr Hs. pose proof (Save_cases f1 f2 rnd now s t t' e Hr Hs) as H. cbn zeta in H. split_and!.
  - intros ->. destruct H as (state & gpsi & D1 & D2 & L & H). change (AuthCtxID (sessionToRow now s)) with (n_AuthCtxID s) in H.
    unfold Load, loadRow. destruct H as [[Hc ->]|[Hn ->]].
    + rewrite select_update_same by done. destruct (select c_auth_ctx_id (n_AuthCtxID s) t) as [r|] eqn:Er;
        [|by apply count_zero in Er].
      split; [|intros id Hid; by rewrite select_update_other by done]. cbn [fmap option_fmap option_map].
      apply select_key in Er as Ek. unfold rowToSession, scanRow, set_row. cbn -[Nat.ltb decryptField decryptState sessionToRow]. rewrite L, D1, D2, Ek. done.
    + split; [|intros id Hid; by rewrite select_insert_other by done].
      pose proof (select_insert_same c_auth_ctx_id t (new_row (sessionToRow now s) state gpsi) Hn) as Hi.
      change (c_auth_ctx_id (new_row _ _ _)) with (n_AuthCtxID s) in Hi. rewrite Hi, Hn. unfold rowToSession, scanRow, new_row. cbn -[Nat.ltb decryptField decryptState sessionToRow]. by rewrite L, D1, D2.
  - destruct e; [by intros _|done].
  - intros -> -> Ht Hf. destruct (Save_succeeds rnd now s t Hr Ht Hf) as (t'' & E & Ht'). rewrite Hs in E.
    by injection E as -> ->.
Qed.

(** The repository never changes which AMF a session belongs to, also when it is saved
    with another one. *)
Lemma saved_amf_kept f1 f2 rnd now s t t' r :
  (forall i, nonce_ok (rnd i)) -> Save f1 f2 rnd now s t = (t', None) ->
  select c_auth_ctx_id (n_AuthCtxID s) t = Some r ->
  exists s', Load None (n_AuthCtxID s) t' = inr s' /\ n_AmfInstance s' = c_amf_instance_id r.
Proof.
  intros Hr Hs Hsel. pose proof (Save_cases f1 f2 rnd now s t t' None Hr Hs) as (state & gpsi & _ & _ & _ & H).
  change (AuthCtxID (sessionToRow now s)) with (n_AuthCtxID s) in H. destruct H as [[_ ->]|[Hn _]]; [|congruence].
  eexists. unfold Load, loadRow. rewrite select_update_same, Hsel by done. by split.
Qed.

(** Two saves of a new session that run at the same time.  When both have tried
    their UPDATE before the first INSERT, and the sessions were created at different
    instants, both saves succeed and the table has two rows for the session, although
    one identifier names one session; every later load sees only the first. *)
Theorem concurrent_saves_duplicate rnd rnd' now now' s s' t :
  (forall i, nonce_ok (rnd i)) -> (forall i, nonce_ok (rnd' i)) ->
  n_AuthCtxID s' = n_AuthCtxID s -> select c_auth_ctx_id (n_AuthCtxID s) t = None -> table_ok t ->
  session_fits now s = true -> session_fits now' s' = true ->
  micros (or_now (n_CreatedAt s) now) <> micros (or_now (n_CreatedAt s') now') ->
  let row := sessionToRow now s in let row' := sessionToRow now' s' in
  snd (updateRow None (rnd 0%nat) (rnd 1%nat) row t) = Some ErrNoSession
  /\ snd (updateRow None (rnd' 0%nat) (rnd' 1%nat) row' t) = Some ErrNoSession
  /\ exists t1 t2, createRow None (rnd 2%nat) (rnd 3%nat) row t = (t1, None)
     /\ createRow None (rnd' 2%nat) (rnd' 3%nat) row' t1 = (t2, None)
     /\ count_where c_auth_ctx_id (n_AuthCtxID s) t2 = 2%nat
     /\ Load None (n_AuthCtxID s) t2 = inr (expected now s None).
Proof.
  intros Hr Hr' Hid Hn Ht Hf Hf' Hc row row'.
  destruct (updateRow_ok (rnd 0%nat) (rnd 1%nat) now s t (Hr _) (Hr _) Ht Hf) as (u & E & _).
  destruct (updateRow_ok (rnd' 0%nat) (rnd' 1%nat) now' s' t (Hr' _) (Hr' _) Ht Hf') as (u' & E' & _).
  pose proof (proj2 (count_zero c_auth_ctx_id _ t) Hn) as Hz. rewrite Hid in E'. rewrite Hz in E, E'.
  unfold row, row'. rewrite E, E'. split; [done|]. split; [done|].
  destruct (createRow_ok (rnd 2%nat) (rnd 3%nat) now s t (Hr _) (Hr _) Hf) as (state & gpsi & D1 & D2 & L & E3).
  { intros r Hin Hk. by destruct (select_none_elem _ _ _ Hn Hin). }
  set (t1 := t ++ [new_row (sessionToRow now s) state gpsi]).
  destruct (createRow_ok (rnd' 2%nat) (rnd' 3%nat) now' s' t1 (Hr' _) (Hr' _) Hf') as (state' & gpsi' & _ & _ & _ & E4).
  { intros r [Hin|Hin]%elem_of_app Hk; [by destruct (select_none_elem _ _ _ Hn Hin); rewrite <- Hid|].
    apply list_elem_of_singleton in Hin as ->. exact Hc. }
  eexists _, _. split; [exact E3|]. split; [exact E4|]. split.
  - unfold count_where, t1 in *. rewrite !filter_app, !length_app, Hz. by rewrite !filter_cons_True by done.
  - unfold Load, loadRow, select, t1. rewrite !filter_app.
    assert (filter (fun r => c_auth_ctx_id r = n_AuthCtxID s) t = []) as ->
      by (unfold select in Hn; by destruct (filter _ t)).
    rewrite filter_cons_True by done. cbn [app head].
    unfold rowToSession, scanRow, new_row. cbn -[Nat.ltb decryptField decryptState sessionToRow]. by rewrite L, D1, D2.
Qed.
End Repository.

(** *** Examples, with the toy cipher of [Crypto] *)
Definition key0 : bytes := repeat 7 32.
Definition rnd0 (i : nat) : bytes := repeat (Z.of_nat i mod 256) 12.
Definition s0 : NssaaSession :=
  mkNssaa "ctx-1" "msisdn-84912345678" 1 "000001" "amf-1" "http://amf/reauth" "http://amf/revoc" [2; 1; 0; 4]
    "PENDING" "amf" false 1000000 1000000 2000000.
Definition s1 : NssaaSession :=
  mkNssaa "ctx-1" "msisdn-84912345678" 1 "000001" "amf-2" "http://amf/reauth" "http://amf/revoc" [2; 2; 0; 4]
    "PENDING" "amf" false 1002000 1002000 2000000.

Lemma toy_aead : AEAD toy_seal toy_open.
Proof.
  split; [apply toy_length|apply toy_open_seal|]. intros k n p a _ Hp. unfold toy_seal. apply bytes_ok_app. split; [done|].
  unfold checksum. apply Forall_forall. intros b Hb. apply list_elem_of_In, repeat_spec in Hb. subst. apply u8_range.
Qed.
Lemma rnd0_ok i : nonce_ok (rnd0 i).
Proof.
  split; [apply repeat_length|]. apply Forall_forall. intros b Hb. apply list_elem_of_In, repeat_spec in Hb. subst.
  unfold in_u8. apply Z.mod_pos_bound. lia.
Qed.

Lemma nssaa_save_load_witness :
  let t := fst (Save toy_seal key0 (fun g => g) (fun _ => true) None None rnd0 5000000 s0 []) in
  let t' := fst (Save toy_seal key0 (fun g => g) (fun _ => true) None None rnd0 6000000 s1 t) in
  Load toy_open key0 None "ctx-1" t' = inr (mkNssaa "ctx-1" "msisdn-84912345678" 1 "000001" "amf-1" "http://amf/reauth"
    "http://amf/revoc" [2; 2; 0; 4] "PENDING" "amf" false 1000000 1002000 2000000).
Proof.
  intros t t'. pose proof toy_aead.
  destruct (nssaa_save_load toy_seal toy_open key0 (fun g => g) (fun _ => true) eq_refl None None rnd0 6000000 s1 t t' None
    rnd0_ok eq_refl) as (H1 & _). destruct (H1 eq_refl) as [H2 _].
  etransitivity; [exact H2|by vm_compute].
Defined.

Lemma concurrent_saves_duplicate_witness :
  exists t2, count_where c_auth_ctx_id "ctx-1" t2 = 2%nat
    /\ Load toy_open key0 None "ctx-1" t2 = inr (expected 5000000 s0 None).
Proof.
  pose proof toy_aead.
  destruct (concurrent_saves_duplicate toy_seal toy_open key0 (fun g => g) (fun _ => true) eq_refl rnd0 rnd0 5000000 6000000
    s0 s1 [] rnd0_ok rnd0_ok eq_refl eq_refl (Forall_nil_2 _) eq_refl eq_refl ltac:(by vm_compute))
    as (_ & _ & t1 & t2 & _ & _ & Hc & Hl). by exists t2.
Defined.
End Nssaa.

(** ** aiw_repo.go, over the table aiw_auth_sessions (migration 6) *)
Module Aiw.
Record aiw_row : Type := mkAiwRow {
  d_auth_ctx_id : string; d_supi : string; d_supi_hash : string; d_ausf_id : string; d_aaa_config_id : option string;
  d_eap_session_state : bytes; d_eap_rounds : Z; d_max_eap_rounds : Z; d_eap_last_nonce : string;
  d_nssaa_status : string; d_auth_result : string; d_msk : bytes; d_pvs_info : bytes; d_ttls_inner : bytes;
  d_supported_features : string; d_failure_reason : string; d_failure_cause : string; d_created_at : Z;
  d_updated_at : Z; d_expires_at : Z; d_completed_at : option Z }.
(** Nil slices and NULL columns are the empty list; the fields the program never sets
    ([AAAConfigID], the counters and the failure texts) have their zero values. *)
Record aiwRow : Type := mkRow {
  AuthCtxID : string; Supi : string; AusfID : string; EAPSessionState : bytes; NssaaStatus_ : string;
  AuthResult : string; MSK : bytes; PvsInfo : bytes; TtlsInner : bytes; SupportedFeatures : string;
  CreatedAt : Z; UpdatedAt : Z; ExpiresAt : Z; CompletedAt : option Z }.

Definition sessionToRow (now : Z) (s : AiwSession) : aiwRow :=
  mkRow (a_AuthCtxID s) (a_Supi s) (a_AusfID s) (a_EapPayload s) (a_Status s) (a_AuthResult s) (a_MSK s) (a_PvsInfo s)
    (a_TtlsInner s) (a_SupportedFeatures s) (Nssaa.or_now (a_CreatedAt s) now) (Nssaa.or_now (a_UpdatedAt s) now)
    (Nssaa.or_now (a_ExpiresAt s) (now + 86400 * second)) (a_CompletedAt s).
Definition rowToSession (r : aiwRow) : AiwSession :=
  mkAiw (AuthCtxID r) (Supi r) (EAPSessionState r) (TtlsInner r) (MSK r) (PvsInfo r) (AusfID r) (SupportedFeatures r)
    (NssaaStatus_ r) (AuthResult r) (CreatedAt r) (UpdatedAt r) (ExpiresAt r) (CompletedAt r).

Section Repository.
Context (Seal : bytes -> bytes -> bytes -> bytes -> bytes).
Context (Open : bytes -> bytes -> bytes -> bytes -> option bytes).
Context (key : bytes) (HashSUPI : string -> string) (partition : Z -> bool).
(** The JSONB form of a document, [None] when it is not JSON. *)
Context (jsonb : bytes -> option bytes).

Definition aiw_check (r : aiw_row) : bool :=
  fits [(d_auth_ctx_id r, 64); (d_supi_hash r, 32); (d_ausf_id r, 64); (d_eap_last_nonce r, 64); (d_nssaa_status r, 20);
        (d_auth_result r, 20); (d_supported_features r, 64); (d_failure_cause r, 50)] && partition (d_created_at r).
Definition pvs_json (pvs : bytes) : option bytes := if (length pvs =? 0)%nat then Some [] else jsonb pvs.
Definition encrypt_msk (nonce msk : bytes) : result crypto_error bytes :=
  if (0 <? length msk)%nat then encryptState Seal key nonce msk else Ok [].

(** The encrypted columns: state, SUPI and MSK, in this order. *)
Definition encrypt_columns (n1 n2 n3 : bytes) (s : aiwRow) : result crypto_error (bytes * string * bytes) :=
  let? state := encryptState Seal key n1 (EAPSessionState s) in
  let? supi := encryptField Seal key n2 (Supi s) in
  let? msk := encrypt_msk n3 (MSK s) in
  Ok (state, supi, msk).
Definition new_row (s : aiwRow) (state : bytes) (supi : string) (msk pvs : bytes) : aiw_row :=
  mkAiwRow (AuthCtxID s) supi (HashSUPI (Supi s)) (AusfID s) None state 0 0 estr (NssaaStatus_ s) (AuthResult s)
    msk pvs (TtlsInner s) (SupportedFeatures s) estr estr (micros (CreatedAt s)) (micros (UpdatedAt s))
    (micros (ExpiresAt s)) None.
Definition set_row (s : aiwRow) (state : bytes) (supi : string) (msk pvs : bytes) (r : aiw_row) : aiw_row :=
  mkAiwRow (d_auth_ctx_id r) supi (HashSUPI (Supi s)) (AusfID s) (d_aaa_config_id r) state 0 (d_max_eap_rounds r) estr
    (NssaaStatus_ s) (AuthResult s) msk pvs (TtlsInner s) (SupportedFeatures s) estr estr (d_created_at r)
    (micros (UpdatedAt s)) (micros (ExpiresAt s)) (micros <$> CompletedAt s).

Definition createRow (fault : option string) (n1 n2 n3 : bytes) (s : aiwRow) (t : list aiw_row)
  : list aiw_row * option pg_error :=
  match encrypt_columns n1 n2 n3 s with
  | Ok (state, supi, msk) =>
      match fault, pvs_json (PvsInfo s) with
      | Some e, _ => (t, Some (ErrFault e))
      | None, None => (t, Some ErrConstraint)
      | None, Some pvs =>
          let r := new_row s state supi msk pvs in
          if aiw_check r
             && negb (existsb (fun r' => str_eqb (d_auth_ctx_id r') (d_auth_ctx_id r) && (d_created_at r' =? d_created_at r)) t)
          then (t ++ [r], None) else (t, Some ErrConstraint)
      end
  | Err e => (t, Some (ErrEncrypt e))
  | Panic => (t, Some (ErrFault "panic"))
  end.
Definition updateRow (fault : option string) (n1 n2 n3 : bytes) (s : aiwRow) (t : list aiw_row)
  : list aiw_row * option pg_error :=
  match encrypt_columns n1 n2 n3 s with
  | Ok (state, supi, msk) =>
      match fault, pvs_json (PvsInfo s) with
      | Some e, _ => (t, Some (ErrFault e))
      | None, None => (t, Some ErrConstraint)
      | None, Some pvs =>
          let t' := update_where d_auth_ctx_id (AuthCtxID s) (set_row s state supi msk pvs) t in
          if negb (forallb (fun r => negb (matches_key d_auth_ctx_id (AuthCtxID s) r) || aiw_check r) t')
          then (t, Some ErrConstraint)
          else if (count_where d_auth_ctx_id (AuthCtxID s) t =? 0)%nat then (t', Some ErrNoSession) else (t', None)
      end
  | Err e => (t, Some (ErrEncrypt e))
  | Panic => (t, Some (ErrFault "panic"))
  end.
Definition scanRow (r : aiw_row) : aiwRow :=
  mkRow (d_auth_ctx_id r) (or_zero estr (decryptField Open key (d_supi r))) (d_ausf_id r)
    (if (0 <? length (d_eap_session_state r))%nat then or_zero [] (decryptState Open key (d_eap_session_state r)) else [])
    (d_nssaa_status r) (d_auth_result r)
    (if (0 <? length (d_msk r))%nat then or_zero [] (decryptState Open key (d_msk r)) else [])
    (d_pvs_info r) (d_ttls_inner r) (d_supported_features r) (d_created_at r) (d_updated_at r) (d_expires_at r)
    (d_completed_at r).
Definition Load (fault : option string) (id : string) (t : list aiw_row) : pg_error + AiwSession :=
  match fault with
  | Some e => inl (ErrFault e)
  | None => match select d_auth_ctx_id id t with None => inl ErrNoSession | Some r => inr (rowToSession (scanRow r)) end
  end.
Definition Save (f1 f2 : option string) (rnd : nat -> bytes) (now : Z) (s : AiwSession) (t : list aiw_row)
  : list aiw_row * option pg_error :=
  let row := sessionToRow now s in
  match updateRow f1 (rnd 0%nat) (rnd 1%nat) (rnd 2%nat) row t with
  | (t, Some ErrNoSession) => createRow f2 (rnd 3%nat) (rnd 4%nat) (rnd 5%nat) row t
  | res => res
  end.
Definition Delete (fault : option string) (id : string) (t : list aiw_row) : list aiw_row * option pg_error :=
  match fault with
  | Some e => (t, Some (ErrFault e))
  | None => (delete_where d_auth_ctx_id id t,
             if (count_where d_auth_ctx_id id t =? 0)%nat then Some ErrNoSession else None)
  end.

(** What is loaded after a successful save. *)
Definition expected (now : Z) (s : AiwSession) (pvs : bytes) (old : option aiw_row) : AiwSession :=
  mkAiw (a_AuthCtxID s) (a_Supi s) (a_EapPayload s) (a_TtlsInner s) (a_MSK s) pvs (a_AusfID s) (a_SupportedFeatures s)
    (a_Status s) (a_AuthResult s)
    (match old with Some r => d_created_at r | None => micros (Nssaa.or_now (a_CreatedAt s) now) end)
    (micros (Nssaa.or_now (a_UpdatedAt s) now)) (micros (Nssaa.or_now (a_ExpiresAt s) (now + 86400 * second)))
    (match old with Some _ => micros <$> a_CompletedAt s | None => None end).

Context `{!AEAD Seal Open} (key_ok : NewEncryptor key = Some key).

Lemma columns n1 n2 n3 s :
  nonce_ok n1 -> nonce_ok n2 -> nonce_ok n3 ->
  exists state supi msk, encrypt_columns n1 n2 n3 s = Ok (state, supi, msk)
    /\ decryptField Open key supi = Ok (Supi s)
    /\ (if (0 <? length state)%nat then or_zero [] (decryptState Open key state) else []) = EAPSessionState s
    /\ (if (0 <? length msk)%nat then or_zero [] (decryptState Open key msk) else []) = MSK s.
Proof.
  intros H1 H2 H3. destruct (state_roundtrip Seal Open key key_ok n1 (EAPSessionState s) H1) as (state & E1 & D1 & L1).
  destruct (field_roundtrip Seal Open key key_ok n2 (Supi s) H2) as (supi & E2 & D2).
  destruct (state_roundtrip Seal Open key key_ok n3 (MSK s) H3) as (msk & E3 & D3 & L3).
  unfold encrypt_columns, encrypt_msk. rewrite E1, E2, E3. apply Nat.ltb_lt in L1. apply Nat.ltb_lt in L3.
  destruct (0 <? length (MSK s))%nat eqn:Em.
  - exists state, supi, msk. by rewrite L1, L3, D1, D3.
  - exists state, supi, []. rewrite L1, D1. split_and!; try done. by destruct (MSK s).
Qed.


(** The AIW repository over its table: a successful save makes the session load as
    it was given, with SUPI, EAP state and MSK decrypted, times cut to microseconds and
    the JSON of the servers in its stored form.  The first creation time is kept; the
    completion time of a session that is completed before its first save is lost.
    Other sessions load as before and a failed save changes nothing. *)
Theorem aiw_save_load f1 f2 rnd now s t t' e :
  (forall i, nonce_ok (rnd i)) -> Save f1 f2 rnd now s t = (t', e) ->
  (e = None ->
     exists pvs, pvs_json (a_PvsInfo s) = Some pvs
     /\ Load None (a_AuthCtxID s) t' = inr (expected now s pvs (select d_auth_ctx_id (a_AuthCtxID s) t))
     /\ forall id, id <> a_AuthCtxID s -> Load None id t' = Load None id t)
  /\ (e <> None -> t' = t).
Proof.
  intros Hr. unfold Save. set (row := sessionToRow now s).
  destruct (columns (rnd 0%nat) (rnd 1%nat) (rnd 2%nat) row (Hr _) (Hr _) (Hr _)) as (state & supi & msk & E & D & D1 & D3).
  unfold updateRow at 1. rewrite E. destruct f1 as [x|]; [by intros [= <- <-]|].
  change (PvsInfo row) with (a_PvsInfo s). destruct (pvs_json (a_PvsInfo s)) as [pvs|] eqn:Ep; [|by intros [= <- <-]].
  change (AuthCtxID row) with (a_AuthCtxID s). destruct (negb _); [by intros [= <- <-]|].
  destruct (count_where d_auth_ctx_id (a_AuthCtxID s) t =? 0)%nat eqn:Ec.
  - apply Nat.eqb_eq in Ec. rewrite update_missing by done. apply count_zero in Ec.
    destruct (columns (rnd 3%nat) (rnd 4%nat) (rnd 5%nat) row (Hr _) (Hr _) (Hr _)) as (state' & supi' & msk' & E' & D' & D1' & D3').
    unfold createRow. rewrite E'. destruct f2 as [x|]; [by intros [= <- <-]|].
    change (PvsInfo row) with (a_PvsInfo s). rewrite Ep. destruct (_ && _); intros [= <- <-]; [|done].
    split; [intros _|done]. exists pvs. split; [done|]. unfold Load.
    pose proof (select_insert_same d_auth_ctx_id t (new_row row state' supi' msk' pvs) Ec) as Hi.
    change (d_auth_ctx_id (new_row _ _ _ _ _)) with (a_AuthCtxID s) in Hi. rewrite Hi, Ec.
    split; [|intros id Hid; by rewrite select_insert_other].
    unfold rowToSession, scanRow, new_row. cbn -[Nat.ltb decryptField decryptState]. by rewrite D', D1', D3'.
  - intros [= <- <-]. split; [intros _|done]. exists pvs. split; [done|]. unfold Load.
    rewrite select_update_same by done. destruct (select d_auth_ctx_id (a_AuthCtxID s) t) as [r|] eqn:Er.
    2:{ apply count_zero in Er. by rewrite Er in Ec. }
    split; [|intros id Hid; by rewrite select_update_other]. apply select_key in Er as Ek.
    unfold rowToSession, scanRow, set_row. cbn -[Nat.ltb decryptField decryptState]. by rewrite D, D1, D3, Ek.
Qed.
End Repository.

Definition s0 : AiwSession :=
  mkAiw "ctx-9" "imsi-001010000000001" [2; 1; 0; 4] [] [1; 2; 3] [] "ausf-1" "f" "EAP_SUCCESS" "EAP_SUCCESS"
    1000000 1000000 2000000 (Some 1500000).
Lemma aiw_save_load_witness :
  let t := fst (Save toy_seal Nssaa.key0 (fun g => g) (fun _ => true) Some None None Nssaa.rnd0 5000000 s0 []) in
  Load toy_open Nssaa.key0 None "ctx-9" t = inr (expected 5000000 s0 [] None)
  /\ a_CompletedAt (expected 5000000 s0 [] None) = None.
Proof.
  intros t. pose proof Nssaa.toy_aead.
  destruct (aiw_save_load toy_seal toy_open Nssaa.key0 (fun g => g) (fun _ => true) Some eq_refl None None Nssaa.rnd0
    5000000 s0 [] t None Nssaa.rnd0_ok eq_refl) as (H1 & _).
  destruct (H1 eq_refl) as (pvs & Hp & Hl & _). injection Hp as <-. split; [exact Hl|done].
Defined.
End Aiw.
