(* ===== verification/PgSession.v ===== *)
(** * internal/storage/postgres/session.go: the session repository

    The operations of [Repository] over the table of [Postgres].  INET and UUID
    columns return the canonical form of what was stored, given by two parameters;
    the nil UUID is read as absent.  A scan needs as many destinations as the statement
    has columns, so both lists are written out. *)
From S2P Require Import Prelude Regex Common Types Encoding EapSession Crypto Storage Postgres.
Local Open Scope string_scope.
Local Open Scope Z_scope.
Local Open Scope list_scope.

Record Session : Type := mkSession {
  AuthCtxID : string; GPSI : string; Supi : string; SnssaiSST : Z; SnssaiSD : string; AMFInstanceID : string;
  AMFIP : option string; AMFRegion : string; AAAConfigID : option string; EAPSessionState : bytes;
  NssaaStatus_ : string; AuthResult : string; EAPRounds : Z; MaxEAPRounds : Z; EAPLastNonce : string;
  FailureReason : string; FailureCause : string; ReauthNotifURI : string; RevocNotifURI : string;
  CreatedAt : Z; UpdatedAt : Z; ExpiresAt : Z; CompletedAt : option Z; TerminatedAt : option Z }.

(** The columns of the statements of [GetByAuthCtxID] and [List], and the destinations
    of [scanSession] and [scanSessionFromRows], which are the same. *)
Definition tail_columns : list string :=
  ["supi"; "snssai_sst"; "snssai_sd"; "amf_instance_id"; "amf_ip"; "amf_region"; "reauth_notif_uri";
   "revoc_notif_uri"; "aaa_config_id"; "eap_session_state"; "eap_rounds"; "max_eap_rounds"; "eap_last_nonce";
   "nssaa_status"; "auth_result"; "failure_reason"; "failure_cause"; "created_at"; "updated_at"; "expires_at";
   "completed_at"; "terminated_at"].
Definition get_columns : list string := ["auth_ctx_id"; "gpsi"; "gpsi_hash"] ++ tail_columns.
Definition list_columns : list string := ["auth_ctx_id"; "gpsi"] ++ tail_columns.
Definition scan_destinations : list string := ["auth_ctx_id"; "gpsi"; "gpsi_hash"] ++ tail_columns.

Definition is_pending (status : string) : bool := str_eqb status "PENDING" || str_eqb status "NOT_EXECUTED".

Section Repository.
Context (Seal : bytes -> bytes -> bytes -> bytes -> bytes).
Context (Open : bytes -> bytes -> bytes -> bytes -> option bytes).
Context (key : bytes) (HashGPSI : string -> string) (partition : Z -> bool).
Context (inet uuid : string -> option string).
Definition nil_uuid : string := "00000000-0000-0000-0000-000000000000".

(** The value of a nullable column, [None] when the database refuses it. *)
Definition column (norm : string -> option string) (o : option string) : option (option string) :=
  match o with None => Some None | Some s => Some <$> norm s end.

(** The columns both writing statements encrypt: state, GPSI, SUPI. *)
Definition encrypt_columns (rnd : nat -> bytes) (s : Session) : result crypto_error (bytes * string * string) :=
  let? state := encryptState Seal key (rnd 0%nat) (EAPSessionState s) in
  let? gpsi := encryptField Seal key (rnd 1%nat) (GPSI s) in
  let? supi := encryptField Seal key (rnd 2%nat) (Supi s) in
  Ok (state, gpsi, supi).

Definition new_row (s : Session) (state : bytes) (gpsi supi : string) (ip cfg : option string) : slice_row :=
  mkSlice (AuthCtxID s) gpsi (HashGPSI (GPSI s)) supi (SnssaiSST s) (SnssaiSD s) (AMFInstanceID s) ip (AMFRegion s)
    (ReauthNotifURI s) (RevocNotifURI s) estr false cfg state (EAPRounds s) (MaxEAPRounds s) (EAPLastNonce s)
    (NssaaStatus_ s) (AuthResult s) (FailureReason s) (FailureCause s) (micros (CreatedAt s)) (micros (UpdatedAt s))
    (micros (ExpiresAt s)) None None.
Definition Create (fault : option string) (rnd : nat -> bytes) (s : Session) (t : list slice_row)
  : list slice_row * option pg_error :=
  match encrypt_columns rnd s with
  | Ok (state, gpsi, supi) =>
      match fault, column inet (AMFIP s), column uuid (AAAConfigID s) with
      | Some e, _, _ => (t, Some (ErrFault e))
      | None, Some ip, Some cfg => slice_insert partition t (new_row s state gpsi supi ip cfg)
      | None, _, _ => (t, Some ErrConstraint)
      end
  | Err e => (t, Some (ErrEncrypt e))
  | Panic => (t, Some (ErrFault "panic"))
  end.
Definition set_row (s : Session) (state : bytes) (gpsi supi : string) (r : slice_row) : slice_row :=
  mkSlice (c_auth_ctx_id r) gpsi (HashGPSI (GPSI s)) supi (SnssaiSST s) (SnssaiSD s) (c_amf_instance_id r) (c_amf_ip r)
    (c_amf_region r) (c_reauth_notif_uri r) (c_revoc_notif_uri r) (c_callback_owner r) (c_has_aiw_context r)
    (c_aaa_config_id r) state (EAPRounds s) (c_max_eap_rounds r) (EAPLastNonce s) (NssaaStatus_ s) (AuthResult s)
    (FailureReason s) (FailureCause s) (c_created_at r) (micros (UpdatedAt s)) (micros (ExpiresAt s))
    (micros <$> CompletedAt s) (micros <$> TerminatedAt s).
Definition Update (fault : option string) (rnd : nat -> bytes) (s : Session) (t : list slice_row)
  : list slice_row * option pg_error :=
  match encrypt_columns rnd s with
  | Ok (state, gpsi, supi) =>
      match fault with
      | Some e => (t, Some (ErrFault e))
      | None =>
          match slice_update partition t (AuthCtxID s) (set_row s state gpsi supi) with
          | (t, inl e) => (t, Some e)
          | (t, inr O) => (t, Some ErrNoSession)
          | (t, inr _) => (t, None)
          end
      end
  | Err e => (t, Some (ErrEncrypt e))
  | Panic => (t, Some (ErrFault "panic"))
  end.
Definition Delete (fault : option string) (id : string) (t : list slice_row) : list slice_row * option pg_error :=
  match fault with
  | Some e => (t, Some (ErrFault e))
  | None => (delete_where c_auth_ctx_id id t,
             if (count_where c_auth_ctx_id id t =? 0)%nat then Some ErrNoSession else None)
  end.

Definition read_row (r : slice_row) : Session :=
  mkSession (c_auth_ctx_id r) (or_zero estr (decryptField Open key (c_gpsi r)))
    (or_zero estr (decryptField Open key (c_supi r))) (c_snssai_sst r) (c_snssai_sd r) (c_amf_instance_id r) (c_amf_ip r)
    (c_amf_region r)
    (match c_aaa_config_id r with Some u => if str_eqb u nil_uuid then None else Some u | None => None end)
    (if (0 <? length (c_eap_session_state r))%nat then or_zero [] (decryptState Open key (c_eap_session_state r)) else [])
    (c_nssaa_status r) (c_auth_result r) (c_eap_rounds r) (c_max_eap_rounds r) (c_eap_last_nonce r) (c_failure_reason r)
    (c_failure_cause r) (c_reauth_notif_uri r) (c_revoc_notif_uri r) (c_created_at r) (c_updated_at r) (c_expires_at r)
    (c_completed_at r) (c_terminated_at r).
(** [Scan] of a row of a statement with the given columns. *)
Definition scanSession (columns : list string) (r : slice_row) : pg_error + Session :=
  if (length columns =? length scan_destinations)%nat then inr (read_row r) else inl ErrScan.
Definition GetByAuthCtxID (fault : option string) (id : string) (t : list slice_row) : pg_error + Session :=
  match fault with
  | Some e => inl (ErrFault e)
  | None =>
      match select c_auth_ctx_id id t with
      | None => inl ErrNoSession
      | Some r => scanSession get_columns r
      end
  end.

(** The loop over the rows, newest first ([order] sorts the result set). *)
Fixpoint scan_rows (rows : list slice_row) : pg_error + list Session :=
  match rows with
  | [] => inr []
  | r :: rows =>
      match scanSession list_columns r with
      | inl e => inl e
      | inr s => match scan_rows rows with inl e => inl e | inr ss => inr (s :: ss) end
      end
  end.
Definition List_ (fault : option string) (order : list slice_row -> list slice_row) (gpsi : string) (t : list slice_row)
  : pg_error + list Session :=
  match fault with
  | Some e => inl (ErrFault e)
  | None => scan_rows (order (filter (fun r => c_gpsi_hash r = HashGPSI gpsi) t))
  end.
Definition CountPending (fault : option string) (t : list slice_row) : pg_error + nat :=
  match fault with
  | Some e => inl (ErrFault e)
  | None => inr (length (filter (fun r => is_pending (c_nssaa_status r) = true) t))
  end.
Definition is_stale (now : Z) (r : slice_row) : bool :=
  (c_expires_at r <? now) && negb (is_pending (c_nssaa_status r)).
Definition expire_row (now : Z) (r : slice_row) : slice_row :=
  mkSlice (c_auth_ctx_id r) (c_gpsi r) (c_gpsi_hash r) (c_supi r) (c_snssai_sst r) (c_snssai_sd r) (c_amf_instance_id r)
    (c_amf_ip r) (c_amf_region r) (c_reauth_notif_uri r) (c_revoc_notif_uri r) (c_callback_owner r) (c_has_aiw_context r)
    (c_aaa_config_id r) (c_eap_session_state r) (c_eap_rounds r) (c_max_eap_rounds r) (c_eap_last_nonce r) "EAP_FAILURE"
    "EAP_FAILURE" "Session expired" (c_failure_cause r) (c_created_at r) (c_updated_at r) (c_expires_at r)
    (c_completed_at r) (Some now).
Definition ExpireStale (fault : option string) (now : Z) (t : list slice_row) : list slice_row * (pg_error + nat) :=
  match fault with
  | Some e => (t, inl (ErrFault e))
  | None => (map (fun r => if is_stale now r then expire_row now r else r) t,
             inr (length (filter (fun r => is_stale now r = true) t)))
  end.

(** ** Properties *)
Context `{!AEAD Seal Open} (key_ok : NewEncryptor key = Some key).

Lemma columns_decrypt rnd s :
  (forall i, nonce_ok (rnd i)) ->
  exists state gpsi supi, encrypt_columns rnd s = Ok (state, gpsi, supi)
    /\ decryptField Open key gpsi = Ok (GPSI s) /\ decryptField Open key supi = Ok (Supi s)
    /\ (if (0 <? length state)%nat then or_zero [] (decryptState Open key state) else []) = EAPSessionState s.
Proof.
  intros Hr. destruct (state_roundtrip Seal Open key key_ok (rnd 0%nat) (EAPSessionState s) (Hr _)) as (state & E1 & D1 & L1).
  destruct (field_roundtrip Seal Open key key_ok (rnd 1%nat) (GPSI s) (Hr _)) as (gpsi & E2 & D2).
  destruct (field_roundtrip Seal Open key key_ok (rnd 2%nat) (Supi s) (Hr _)) as (supi & E3 & D3).
  exists state, gpsi, supi. unfold encrypt_columns. rewrite E1, E2, E3. apply Nat.ltb_lt in L1. by rewrite L1, D1.
Qed.

(** The session as it is read back: times in microseconds, addresses and identifiers in
    canonical form, no completion. *)
Definition stored (s : Session) (ip cfg : option string) : Session :=
  mkSession (AuthCtxID s) (GPSI s) (Supi s) (SnssaiSST s) (SnssaiSD s) (AMFInstanceID s) ip (AMFRegion s)
    (match cfg with Some u => if str_eqb u nil_uuid then None else Some u | None => None end)
    (EAPSessionState s) (NssaaStatus_ s) (AuthResult s) (EAPRounds s) (MaxEAPRounds s) (EAPLastNonce s)
    (FailureReason s) (FailureCause s) (ReauthNotifURI s) (RevocNotifURI s) (micros (CreatedAt s)) (micros (UpdatedAt s))
    (micros (ExpiresAt s)) None None.
Lemma create_get rnd s t t' ip cfg :
  (forall i, nonce_ok (rnd i)) -> select c_auth_ctx_id (AuthCtxID s) t = None ->
  column inet (AMFIP s) = Some ip -> column uuid (AAAConfigID s) = Some cfg ->
  Create None rnd s t = (t', None) -> GetByAuthCtxID None (AuthCtxID s) t' = inr (stored s ip cfg).
Proof.
  intros Hr Hn Hi Hu. destruct (columns_decrypt rnd s Hr) as (state & gpsi & supi & E & D1 & D2 & D3).
  unfold Create. rewrite E, Hi, Hu. unfold slice_insert. destruct (_ && _); [|done]. intros [= <-].
  unfold GetByAuthCtxID. pose proof (select_insert_same c_auth_ctx_id t (new_row s state gpsi supi ip cfg) Hn) as Hs.
  change (c_auth_ctx_id (new_row _ _ _ _ _ _)) with (AuthCtxID s) in Hs. rewrite Hs.
  unfold scanSession. cbn [length get_columns scan_destinations tail_columns app Nat.eqb].
  unfold read_row, new_row. cbn -[Nat.ltb decryptField decryptState]. by rewrite D1, D2, D3.
Qed.

(** Listing the sessions of a subscriber never works: as soon as one row has the
    hash of the identifier, [List] returns a scan error, whatever the row and the order,
    because its statement selects one column less than the scan expects; without a row
    it returns the empty list.  A single session is read without error. *)
Theorem list_always_fails order gpsi t :
  (forall rows, order rows ≡ₚ rows) ->
  ((exists r, r ∈ t /\ c_gpsi_hash r = HashGPSI gpsi) -> List_ None order gpsi t = inl ErrScan)
  /\ ((forall r, r ∈ t -> c_gpsi_hash r <> HashGPSI gpsi) -> List_ None order gpsi t = inr [])
  /\ (forall r, r ∈ t -> exists s, GetByAuthCtxID None (c_auth_ctx_id r) t = inr s /\ AuthCtxID s = c_auth_ctx_id r).
Proof.
  intros Ho. unfold List_. split_and!.
  - intros (r & Hr & Hh). assert (Hin : r ∈ order (filter (fun r => c_gpsi_hash r = HashGPSI gpsi) t))
      by (rewrite Ho; by apply list_elem_of_filter).
    destruct (order _) as [|r' rows]; [by apply not_elem_of_nil in Hin|done].
  - intros Hn. destruct (order (filter (fun r => c_gpsi_hash r = HashGPSI gpsi) t)) as [|r rows] eqn:E; [done|].
    assert (Hin : r ∈ order (filter (fun r => c_gpsi_hash r = HashGPSI gpsi) t)) by (rewrite E; left).
    rewrite Ho in Hin. apply list_elem_of_filter in Hin as [Hh Hin]. by apply Hn in Hin.
  - intros r Hr. unfold GetByAuthCtxID. destruct (select c_auth_ctx_id (c_auth_ctx_id r) t) as [r'|] eqn:E.
    + eexists. split; [done|]. by apply select_key in E.
    + unfold select in E. assert (Hin : r ∈ filter (fun r' => c_auth_ctx_id r' = c_auth_ctx_id r) t) by (by apply list_elem_of_filter).
      destruct (filter _ t); [by apply not_elem_of_nil in Hin|done].
Qed.

(** What [ExpireStale] does to an expired session.  One that is still pending is
    left alone, for ever; one that has ended, successfully or not, is turned into a
    failure, and again at every later run, which moves its termination time and counts
    it once more. *)
Theorem expire_stale_inverted now now' t r :
  r ∈ t -> c_expires_at r < now -> now <= now' ->
  let t1 := fst (ExpireStale None now t) in
  let t2 := fst (ExpireStale None now' t1) in
  if is_pending (c_nssaa_status r) then r ∈ t1 /\ r ∈ t2
  else expire_row now r ∈ t1 /\ c_nssaa_status (expire_row now r) = "EAP_FAILURE"
       /\ expire_row now' (expire_row now r) ∈ t2
       /\ snd (ExpireStale None now' t1) <> inr 0%nat.
Proof.
  intros Hr He Hn t1 t2.
  assert (Hstep : forall n t x, x ∈ t -> (if is_stale n x then expire_row n x else x) ∈ fst (ExpireStale None n t)).
  { intros n u x Hx. apply list_elem_of_In, in_map_iff. exists x. split; [done|by apply list_elem_of_In]. }
  assert (H1 := Hstep now t r Hr). fold t1 in H1. unfold is_stale in H1. rewrite (proj2 (Z.ltb_lt _ _) He) in H1.
  destruct (is_pending (c_nssaa_status r)) eqn:Ep; cbn [negb andb] in H1.
  - split; [done|]. assert (H2 := Hstep now' t1 r H1). unfold is_stale in H2. by rewrite Ep, andb_false_r in H2.
  - split; [done|]. split; [done|]. assert (Hs : is_stale now' (expire_row now r) = true).
    { unfold is_stale. cbn [c_expires_at expire_row c_nssaa_status]. rewrite (proj2 (Z.ltb_lt _ _)) by lia. done. }
    split; [assert (H2 := Hstep now' t1 _ H1); by rewrite Hs in H2|].
    cbn [snd ExpireStale]. intros [= H]. apply length_zero_iff_nil in H.
    by apply (filter_nil_not_elem_of _ _ _ H Hs).
Qed.
End Repository.

Definition row0 : slice_row :=
  mkSlice "ctx-1" estr "h" estr 1 "000001" "amf-1" None estr estr estr estr false None [] 0 20 estr "EAP_SUCCESS"
    "EAP_SUCCESS" estr estr 0 0 10 None None.
Lemma list_always_fails_witness :
  List_ toy_open [] (fun _ => "h") None (fun rows => rows) "msisdn-1" [row0] = inl ErrScan.
Proof.
  destruct (list_always_fails toy_open [] (fun _ => "h") (fun rows => rows) "msisdn-1" [row0] (fun _ => Permutation_refl _)) as [H _].
  apply H. exists row0. split; [left|done].
Defined.
Lemma expire_stale_inverted_witness : expire_row 20 row0 ∈ fst (ExpireStale None 20 [row0]).
Proof. apply (expire_stale_inverted 20 30 [row0] row0); [left|by vm_compute|lia]. Defined.
