(* ===== verification/PgConfig.v ===== *)
(** * internal/storage/postgres/aaa_config.go: AAA server configurations

    [ConfigRepository] over the table of migration 2 and its function
    [get_aaa_config].  An absent SD is NULL.  The uniqueness of slice type and SD does
    not cover rows with a NULL.  Creation and update times, which nothing reads, are
    left out; ties of the ORDER BY clause fall to the row that was inserted first. *)
From S2P Require Import Prelude Regex Common Types Encoding EapSession Crypto Storage Postgres.
Local Open Scope string_scope.
Local Open Scope Z_scope.
Local Open Scope list_scope.

Record AAAConfig : Type := mkConfig {
  ID : string; SnssaiSST : Z; SnssaiSD : string; Protocol : string; AAAServerHost : string; AAAServerPort : Z;
  AAAProxyHost : string; AAAProxyPort : Z; SharedSecret : bytes; AllowReauth : bool; AllowRevoke : bool;
  Priority : Z; Weight : Z; Enabled : bool; Description : string }.
Record config_row : Type := mkCRow {
  f_id : string; f_sst : Z; f_sd : option string; f_protocol : string; f_host : string; f_port : Z;
  f_proxy_host : option string; f_proxy_port : option Z; f_secret : string; f_reauth : bool; f_revoke : bool;
  f_priority : Z; f_weight : Z; f_enabled : bool; f_description : string }.
#[global] Instance config_row_eq : EqDecision config_row.
Proof. solve_decision. Defined.

(** [FromPassphrase] and AES-GCM. *)
Section Repository.
Context (Seal : bytes -> bytes -> bytes -> bytes -> bytes) (FromPassphrase : bytes -> bytes).
Definition encryptSecret (plaintext passphrase nonce : bytes) : result crypto_error bytes :=
  EncryptConcat Seal plaintext (FromPassphrase passphrase) nonce.

Definition in_port (p : Z) : bool := (1 <=? p) && (p <=? 65535).
Definition config_check (r : config_row) : bool :=
  (str_eqb (f_protocol r) "RADIUS" || str_eqb (f_protocol r) "DIAMETER") && in_port (f_port r)
  && from_option in_port true (f_proxy_port r)
  && fits [(default estr (f_sd r), 8); (f_host r, 255); (default estr (f_proxy_host r), 255)].
Definition non_empty (s : string) : option string := if is_empty s then None else Some s.
Definition row_of (id : string) (c : AAAConfig) (secret : string) : config_row :=
  mkCRow id (SnssaiSST c) (non_empty (SnssaiSD c)) (Protocol c) (AAAServerHost c) (AAAServerPort c)
    (non_empty (AAAProxyHost c)) (if 0 <? AAAProxyPort c then Some (AAAProxyPort c) else None) secret
    (AllowReauth c) (AllowRevoke c) (Priority c) (Weight c) (Enabled c) (Description c).
(** The DO UPDATE clause: everything but the identifier. *)
Definition excluded (r new : config_row) : config_row :=
  mkCRow (f_id r) (f_sst r) (f_sd r) (f_protocol new) (f_host new) (f_port new) (f_proxy_host new) (f_proxy_port new)
    (f_secret new) (f_reauth new) (f_revoke new) (f_priority new) (f_weight new) (f_enabled new) (f_description new).
(** Equality of slice type and SD; a NULL is equal to nothing. *)
Definition same_slice (a b : config_row) : bool :=
  (f_sst a =? f_sst b) && match f_sd a, f_sd b with Some x, Some y => str_eqb x y | _, _ => false end.
Definition upsert_row (t : list config_row) (r : config_row) : list config_row * option pg_error :=
  if negb (config_check r) then (t, Some ErrConstraint)
  else if existsb (fun r' => same_slice r' r) t
  then (map (fun r' => if same_slice r' r then excluded r' r else r') t, None)
  else if existsb (fun r' => str_eqb (f_id r') (f_id r)) t then (t, Some ErrConstraint)
  else (t ++ [r], None).
(** [fresh] is the identifier [uuid.NewString] gives. *)
Definition Upsert (fault : option string) (fresh : string) (nonce : bytes) (c : AAAConfig) (passphrase : bytes)
    (t : list config_row) : list config_row * option pg_error :=
  let secret := if (0 <? length (SharedSecret c))%nat && (0 <? length passphrase)%nat
                then let? enc := encryptSecret (SharedSecret c) passphrase nonce in Ok (Base64.EncodeToString enc)
                else Ok estr in
  match secret with
  | Err e => (t, Some (ErrEncrypt e))
  | Panic => (t, Some (ErrFault "panic"))
  | Ok secret =>
      match fault with
      | Some e => (t, Some (ErrFault e))
      | None => upsert_row t (row_of (if is_empty (ID c) then fresh else ID c) c secret)
      end
  end.
End Repository.

(** The secret of the row is read and dropped. *)
Definition scanConfig (r : config_row) : AAAConfig :=
  mkConfig (f_id r) (f_sst r) (default estr (f_sd r)) (f_protocol r) (f_host r) (f_port r) (default estr (f_proxy_host r))
    (default 0 (f_proxy_port r)) [] (f_reauth r) (f_revoke r) (f_priority r) (f_weight r) (f_enabled r) (f_description r).
Definition GetByID (fault : option string) (id : string) (t : list config_row) : pg_error + AAAConfig :=
  match fault with
  | Some e => inl (ErrFault e)
  | None => match head (filter (fun r => f_id r = id /\ f_enabled r = true) t) with
            | None => inl ErrNoSession
            | Some r => inr (scanConfig r)
            end
  end.

(** ORDER BY priority ASC, weight DESC LIMIT 1 *)
Definition before (a b : config_row) : bool :=
  (f_priority a <? f_priority b) || ((f_priority a =? f_priority b) && (f_weight b <? f_weight a)).
Definition better (acc : option config_row) (r : config_row) : option config_row :=
  match acc with None => Some r | Some b => if before r b then Some r else Some b end.
Definition first_of (rows : list config_row) : option config_row := fold_left better rows None.
Definition level (sst : Z) (sd : option string) (t : list config_row) : list config_row :=
  filter (fun r => f_sst r = sst /\ f_sd r = sd /\ f_enabled r = true) t.
(** [get_aaa_config]; its third level asks for rows whose slice type is NULL, which the
    table does not have. *)
Definition get_aaa_config (sst : Z) (sd : string) (t : list config_row) : option config_row :=
  match first_of (level sst (Some sd) t) with
  | Some r => Some r
  | None => first_of (level sst None t)
  end.
Definition GetBySnssai (fault : option string) (sst : Z) (sd : string) (t : list config_row) : pg_error + AAAConfig :=
  match fault with
  | Some e => inl (ErrFault e)
  | None => match get_aaa_config sst sd t with None => inl ErrNoSession | Some r => inr (scanConfig r) end
  end.

Fixpoint insert_by (r : config_row) (rows : list config_row) : list config_row :=
  match rows with
  | [] => [r]
  | r' :: rows' => if before r' r || negb (before r r') then r' :: insert_by r rows' else r :: rows
  end.
Definition ListAll (fault : option string) (t : list config_row) : pg_error + list AAAConfig :=
  match fault with
  | Some e => inl (ErrFault e)
  | None => inr (scanConfig <$> fold_left (fun acc r => insert_by r acc) (filter (fun r => f_enabled r = true) t) [])
  end.

(** ** Properties *)
Lemma before_true a b :
  before a b = true <-> f_priority a < f_priority b \/ (f_priority a = f_priority b /\ f_weight b < f_weight a).
Proof. unfold before. rewrite orb_true_iff, andb_true_iff. rewrite !Z.ltb_lt, Z.eqb_eq. done. Qed.
Lemma before_false a b :
  before a b = false <-> f_priority b < f_priority a \/ (f_priority a = f_priority b /\ f_weight a <= f_weight b).
Proof. rewrite <- not_true_iff_false, before_true. lia. Qed.
Lemma before_irrefl a : before a a = false.
Proof. apply before_false. lia. Qed.
Lemma before_better a r b : before r a = true -> before r b = false -> before a b = false.
Proof. rewrite before_true, !before_false. lia. Qed.
Lemma before_trans a r b : before r a = false -> before a b = false -> before r b = false.
Proof. rewrite !before_false. lia. Qed.

Lemma first_of_from rows : forall acc,
  match fold_left better rows acc with
  | None => acc = None /\ rows = []
  | Some b => (acc = Some b \/ b ∈ rows)
              /\ (forall r, acc = Some r \/ r ∈ rows -> before r b = false)
  end.
Proof.
  induction rows as [|r rows IH]; intros acc; cbn [fold_left].
  - destruct acc as [b|]; [|done]. split; [by left|].
    intros r [[= ->]|H]; [apply before_irrefl|by apply not_elem_of_nil in H].
  - specialize (IH (better acc r)). unfold better in IH at 2 3 4.
    destruct acc as [a|]; [destruct (before r a) eqn:Era|]; cbn [better] in *; rewrite ?Era in *;
      destruct (fold_left better rows _) as [b|]; try (by destruct IH); destruct IH as [Hb Hmin];
      (split; [destruct Hb as [[= <-]|Hb]; [first [by left|right; by left]|right; by right]|]);
      intros x Hx.
    + destruct Hx as [[= <-]|[->|Hx]%elem_of_cons]; [|by apply Hmin; left|by apply Hmin; right].
      apply (before_better a r b Era). by apply Hmin; left.
    + destruct Hx as [[= <-]|[->|Hx]%elem_of_cons]; [by apply Hmin; left| |by apply Hmin; right].
      apply (before_trans a r b Era). by apply Hmin; left.
    + destruct Hx as [Hx|[->|Hx]%elem_of_cons]; [done|by apply Hmin; left|by apply Hmin; right].
Qed.

Lemma first_of_spec rows :
  match first_of rows with
  | None => rows = []
  | Some b => b ∈ rows /\ forall r, r ∈ rows -> before r b = false
  end.
Proof.
  pose proof (first_of_from rows None) as H. unfold first_of. destruct (fold_left better rows None) as [b|]; [|by destruct H].
  destruct H as [[H|H] Hm]; [done|]. split; [done|]. intros r Hr. apply Hm. by right.
Qed.

(** The lookup of the AAA server of a slice.  The result is an enabled entry of the
    slice type with the SD asked for, if there is one, else one without SD, and no entry
    of the same level comes before it by priority and weight; when neither level has an
    entry, nothing is found, there is no default entry.  The result never has the shared
    secret. *)
Theorem config_lookup sst sd t :
  match GetBySnssai None sst sd t with
  | inl _ => level sst (Some sd) t = [] /\ level sst None t = []
  | inr c => SharedSecret c = [] /\
      exists r sd', r ∈ level sst sd' t /\ c = scanConfig r
        /\ (sd' = Some sd \/ (sd' = None /\ level sst (Some sd) t = []))
        /\ forall r', r' ∈ level sst sd' t -> before r' r = false
  end.
Proof.
  unfold GetBySnssai, get_aaa_config. pose proof (first_of_spec (level sst (Some sd) t)) as H1.
  pose proof (first_of_spec (level sst None t)) as H2.
  destruct (first_of (level sst (Some sd) t)) as [r|].
  - split; [done|]. destruct H1 as [Hin Hm]. exists r, (Some sd). split_and!; [done..|by left|done].
  - destruct (first_of (level sst None t)) as [r|]; [|done]. split; [done|]. destruct H2 as [Hin Hm].
    exists r, None. split_and!; [done..|by right|done].
Qed.

Lemma upsert_wildcard Seal FromPassphrase id n c pass t t' :
  SnssaiSD c = estr -> Upsert Seal FromPassphrase None id n c pass t = (t', None) ->
  exists r, t' = t ++ [r] /\ f_sst r = SnssaiSST c /\ f_sd r = None /\ f_enabled r = Enabled c /\ f_priority r = Priority c
    /\ f_weight r = Weight c /\ f_host r = AAAServerHost c.
Proof.
  intros Hsd. unfold Upsert. destruct (if _ && _ then _ else _) as [secret| |]; [|done..].
  unfold upsert_row. set (r := row_of _ c secret). assert (Hn : f_sd r = None) by (cbn; by rewrite Hsd).
  destruct (negb (config_check r)); [done|].
  destruct (existsb (fun r' => same_slice r' r) t) eqn:Ex.
  { apply existsb_exists in Ex as (r' & _ & Hs). unfold same_slice in Hs. rewrite Hn in Hs.
    destruct (f_sd r'); by rewrite andb_false_r in Hs. }
  clear Ex. destruct (existsb _ t); [done|]. intros Ht. exists r. split; [congruence|]. by split_and!.
Qed.
Lemma level_app sst sd t r :
  level sst sd (t ++ [r]) = level sst sd t ++ (if decide (f_sst r = sst /\ f_sd r = sd /\ f_enabled r = true) then [r] else []).
Proof. unfold level. rewrite filter_app, filter_cons. by destruct (decide _). Qed.

(** Writing a wildcard entry again does not change it: NULLs are never in conflict,
    so the second write adds a row, and the lookup goes on returning the first one
    unless the second has a better priority or weight. *)
Theorem wildcard_upsert_ignored Seal FromPassphrase id1 id2 n c1 c2 pass t t1 t2 :
  SnssaiSD c1 = estr -> SnssaiSD c2 = estr -> SnssaiSST c2 = SnssaiSST c1 -> Enabled c1 = true ->
  level (SnssaiSST c1) None t = [] -> Priority c1 <= Priority c2 -> Weight c2 <= Weight c1 ->
  Upsert Seal FromPassphrase None id1 n c1 pass t = (t1, None) ->
  Upsert Seal FromPassphrase None id2 n c2 pass t1 = (t2, None) ->
  length t2 = S (S (length t))
  /\ forall sd, level (SnssaiSST c1) (Some sd) t = [] ->
     GetBySnssai None (SnssaiSST c1) sd t2 = GetBySnssai None (SnssaiSST c1) sd t1
     /\ exists c, GetBySnssai None (SnssaiSST c1) sd t2 = inr c /\ AAAServerHost c = AAAServerHost c1.
Proof.
  intros Hs1 Hs2 Hsst He Hl Hp Hw H1 H2.
  destruct (upsert_wildcard _ _ _ _ _ _ _ _ Hs1 H1) as (r1 & -> & Hr1 & Hd1 & He1 & Hp1 & Hw1 & Hh1).
  destruct (upsert_wildcard _ _ _ _ _ _ _ _ Hs2 H2) as (r2 & -> & Hr2 & Hd2 & He2 & Hp2 & Hw2 & _).
  split; [rewrite !length_app; cbn; lia|]. intros sd Hsd.
  assert (Hn1 : level (SnssaiSST c1) None (t ++ [r1]) = [r1]).
  { rewrite level_app, Hl, decide_True by (split_and!; congruence). done. }
  assert (Hx : forall r u, f_sd r = None -> level (SnssaiSST c1) (Some sd) (u ++ [r]) = level (SnssaiSST c1) (Some sd) u).
  { intros r u Hr. rewrite level_app, decide_False by (intros (_ & ? & _); congruence). apply app_nil_r. }
  assert (Hb : before r2 r1 = false) by (apply before_false; lia).
  unfold GetBySnssai, get_aaa_config. rewrite !Hx, Hsd by done. change (first_of []) with (@None config_row). cbv iota.
  rewrite (level_app _ None (t ++ [r1]) r2), Hn1.
  assert (Hf : forall l, l = [] \/ l = [r2] -> first_of ([r1] ++ l) = Some r1)
    by (intros l [->| ->]; cbn; [done|by rewrite Hb]).
  rewrite Hf by (destruct (decide _); auto). split; [done|]. eexists. split; [done|]. exact Hh1.
Qed.

Definition cfg (id host : string) (priority : Z) : AAAConfig :=
  mkConfig id 1 estr "RADIUS" host 1812 estr 0 [] true true priority 1 true estr.
Definition t_one : list config_row :=
  fst (Upsert toy_seal (fun _ => []) None "u" [] (cfg "a" "aaa-old" 100) [] []).
Definition t_two : list config_row :=
  fst (Upsert toy_seal (fun _ => []) None "u" [] (cfg "b" "aaa-new" 100) [] t_one).
Lemma wildcard_upsert_ignored_witness :
  exists c, GetBySnssai None 1 "000001" t_two = inr c /\ AAAServerHost c = "aaa-old".
Proof.
  destruct (wildcard_upsert_ignored toy_seal (fun _ => []) "u" "u" [] (cfg "a" "aaa-old" 100) (cfg "b" "aaa-new" 100) []
    [] t_one t_two eq_refl eq_refl eq_refl eq_refl eq_refl ltac:(cbn; lia) ltac:(cbn; lia) eq_refl eq_refl) as [_ H].
  destruct (H "000001" eq_refl) as [_ Hc]. exact Hc.
Defined.
