(* ===== verification/PgAdmin.v ===== *)
(** * internal/storage/postgres: migrations, transactions, reconnection, audit log

    migrate.go over an abstract schema on which the scripts act, [ExecTx] of pool.go,
    [ExecuteWithRetry] of reconnect.go and the audit repository of audit.go.  Every
    script of the repository opens and commits a transaction of its own, so that running
    it inside the migrator's transaction commits it at once, and the record of the
    version is a statement after it. *)
From S2P Require Import Prelude Regex Common Types Storage Postgres NrfServer.
Import Validator.
Local Open Scope string_scope.
Local Open Scope Z_scope.
Local Open Scope list_scope.

(** ** migrate.go *)
Module Migrate.
Record Migration : Type := mkMig { Version : string; Filename : string }.

(** The version of a file name, up to the first underscore. *)
Fixpoint before_underscore (cs : list char) : option (list char) :=
  match cs with
  | [] => None
  | c :: t => if ascii_code c =? 95 then Some [] else option_map (cons c) (before_underscore t)
  end.
Fixpoint insert_mig (m : Migration) (ms : list Migration) : list Migration :=
  match ms with
  | [] => [m]
  | m' :: ms' => if String.ltb (Version m) (Version m') then m :: ms else m' :: insert_mig m ms'
  end.
(** [names]: the files of the embedded directory. *)
Definition listMigrations (direction : string) (names : list string) : list Migration :=
  fold_left (fun ms name =>
    match before_underscore (chars name) with
    | None => ms
    | Some v => if HasSuffix name ("." +:+ direction +:+ ".sql")
                then insert_mig (mkMig (String.string_of_list_ascii v) name) ms else ms
    end) names [].

Inductive mig_error : Type := ErrBegin (v : string) | ErrApply (v : string) | ErrRecord (v : string) | ErrCommit (v : string).

Section Migrator.
Context {S : Type}.
(** Running the up and the down script of a version, [None] when it fails, and whether
    there is a down script. *)
Context (up down : string -> S -> option S) (has_down : string -> bool).
(** Failures of the other statements. *)
Context (begin_ok record_ok commit_ok : string -> bool).

(** [log] lists the scripts that took effect, in order. *)
Record state : Type := mkState { schema : S; records : list string; log : list string }.

Definition apply_one (v : string) (st : state) : state * option mig_error :=
  if negb (begin_ok v) then (st, Some (ErrBegin v))
  else match up v (schema st) with
  | None => (st, Some (ErrApply v))
  | Some sc =>
      let st := mkState sc (records st) (log st ++ [v]) in
      if negb (record_ok v) then (st, Some (ErrRecord v))
      else
        let st := mkState sc (records st ++ [v]) (log st) in
        if negb (commit_ok v) then (st, Some (ErrCommit v)) else (st, None)
  end.
Fixpoint migrate (applied : list string) (ms : list Migration) (st : state) : state * option mig_error :=
  match ms with
  | [] => (st, None)
  | m :: ms =>
      if decide (Version m ∈ applied) then migrate applied ms st
      else match apply_one (Version m) st with
           | (st, None) => migrate applied ms st
           | res => res
           end
  end.
Definition Migrate_ (names : list string) (st : state) : state * option mig_error :=
  migrate (records st) (listMigrations "up" names) st.

Definition remove_record (v : string) (rs : list string) : list string := filter (fun r => r <> v) rs.
Fixpoint rollback (applied : list string) (ms : list Migration) (rolledBack steps : Z) (st : state)
  : state * option mig_error :=
  match ms with
  | [] => (st, None)
  | m :: ms =>
      let v := Version m in
      if negb (bool_decide (v ∈ applied)) || negb (has_down v) then rollback applied ms rolledBack steps st
      else if negb (begin_ok v) then (st, Some (ErrBegin v))
      else match down v (schema st) with
      | None => (st, Some (ErrApply v))
      | Some sc =>
          let st := mkState sc (records st) (log st ++ [v]) in
          if negb (record_ok v) then (st, Some (ErrRecord v))
          else
            let st := mkState sc (remove_record v (records st)) (log st) in
            if negb (commit_ok v) then (st, Some (ErrCommit v))
            else if steps <=? rolledBack + 1 then (st, None) else rollback applied ms (rolledBack + 1) steps st
      end
  end.
Definition Rollback (names : list string) (steps : Z) (st : state) : state * option mig_error :=
  rollback (records st) (rev (listMigrations "up" names)) 0 steps st.

Definition Status (names : list string) (st : state) : list string * list string :=
  let ms := Version <$> listMigrations "up" names in
  (filter (fun v => v ∈ records st) ms, filter (fun v => v ∉ records st) ms).

(** *** Properties *)
Lemma migrate_app applied a b st :
  migrate applied (a ++ b) st =
  match migrate applied a st with (st, None) => migrate applied b st | res => res end.
Proof.
  revert st. induction a as [|m a IH]; intros st; [done|]. cbn [migrate app].
  destruct (decide (Version m ∈ applied)); [apply IH|]. by destruct (apply_one (Version m) st) as [st' [e|]].
Qed.
Lemma migrate_skip applied ms st : Forall (fun m => Version m ∈ applied) ms -> migrate applied ms st = (st, None).
Proof. induction 1 as [|m ms Hm _ IH]; [done|]. cbn [migrate]. by rewrite decide_True. Qed.
Lemma migrate_run applied ms st st' e :
  (forall v, record_ok v = true) -> Forall (fun m => Version m ∉ applied) ms -> migrate applied ms st = (st', e) ->
  exists k, log st' = log st ++ take k (Version <$> ms) /\ records st' = records st ++ take k (Version <$> ms)
            /\ (e = None -> k = length ms).
Proof.
  intros Hrec Hms. revert st. induction Hms as [|m ms Hm _ IH]; intros st.
  - intros [= <- <-]. exists 0%nat. by rewrite !app_nil_r.
  - cbn [migrate]. rewrite decide_False by done. unfold apply_one. rewrite Hrec. cbn [negb].
    destruct (begin_ok (Version m)); cbn [negb]; [|intros [= <- <-]; exists 0%nat; by rewrite !app_nil_r].
    destruct (up (Version m) (schema st)) as [sc|]; [|intros [= <- <-]; exists 0%nat; by rewrite !app_nil_r].
    destruct (commit_ok (Version m)); cbn [negb]; [|intros [= <- <-]; by exists 1%nat].
    intros (k & Hl & Hr & He)%IH. exists (Datatypes.S k). cbn in *. rewrite Hl, Hr, <- !app_assoc. split_and!; [done..|].
    intros ->. by rewrite He.
Qed.

Definition versions (names : list string) : list string := Version <$> listMigrations "up" names.
(** The first [n] versions have been run, in order and once each, and are recorded. *)
Definition reached (names : list string) (n : nat) (st : state) : Prop :=
  records st = take n (versions names) /\ log st = take n (versions names).

Lemma migrate_split names n st :
  NoDup (versions names) -> records st = take n (versions names) ->
  Migrate_ names st = migrate (records st) (drop n (listMigrations "up" names)) st
  /\ Forall (fun m => Version m ∉ records st) (drop n (listMigrations "up" names)).
Proof.
  intros Hd Hr. unfold versions in *. set (ms := listMigrations "up" names) in *.
  assert (Hf : Forall (fun m => Version m ∈ records st) (take n ms)).
  { apply Forall_forall. intros m Hm. rewrite Hr, <- fmap_take. by apply list_elem_of_fmap_2. }
  split.
  - unfold Migrate_. fold ms. rewrite <- (take_drop n ms) at 1. by rewrite migrate_app, migrate_skip.
  - apply Forall_forall. intros m Hm Hin. rewrite Hr in Hin.
    rewrite <- (take_drop n (Version <$> ms)) in Hd. apply NoDup_app in Hd as (_ & Hd & _).
    apply (Hd _ Hin). rewrite <- fmap_drop. by apply list_elem_of_fmap_2.
Qed.

(** Migrating can stop and be resumed at any point.  From a database on which the
    first versions were applied, a run applies the following ones in order, each once,
    records them, and stops at the first failure; when it succeeds all versions are
    applied, and a further run does nothing.  This needs that recording a version does
    not fail. *)
Theorem migrations_resume names n st st' e :
  NoDup (versions names) -> (forall v, record_ok v = true) -> reached names n st ->
  Migrate_ names st = (st', e) ->
  (exists n', (n <= n')%nat /\ reached names n' st')
  /\ (e = None -> reached names (length (versions names)) st' /\ Migrate_ names st' = (st', None)).
Proof.
  intros Hd Hrec [Hr Hl] Hm. destruct (migrate_split names n st Hd Hr) as [Hs Hf]. rewrite Hs in Hm.
  destruct (migrate_run _ _ _ _ _ Hrec Hf Hm) as (k & Hl' & Hr' & He).
  assert (Hre : reached names (n + k) st').
  { unfold reached. rewrite Hl', Hr', Hl, Hr, fmap_drop. unfold versions. rewrite take_take_drop. done. }
  split; [exists (n + k)%nat; split; [lia|done]|]. intros ->. specialize (He eq_refl). subst k.
  assert (Hall : reached names (length (versions names)) st').
  { destruct Hre as [H1 H2]. unfold reached. rewrite H1, H2, length_drop. unfold versions. rewrite !length_fmap.
    rewrite !take_ge; [done|rewrite length_fmap; lia..]. }
  split; [done|]. destruct Hall as [H1 _]. destruct (migrate_split names _ st' Hd H1) as [-> _].
  unfold versions. rewrite length_fmap, drop_all. done.
Qed.

(** When recording fails the script has taken effect all the same, and runs again at the
    next attempt. *)
Lemma unrecorded_migration_runs_again v sc sc' st :
  begin_ok v = true -> record_ok v = false -> up v (schema st) = Some sc -> up v sc = Some sc' ->
  let st1 := fst (apply_one v st) in
  records st1 = records st /\ log (fst (apply_one v st1)) = log st ++ [v; v].
Proof.
  intros Hb Hr Hu Hu' st1. unfold st1, apply_one. rewrite Hb, Hr, Hu. cbn. rewrite Hu'. cbn.
  by rewrite <- app_assoc.
Qed.
(** A rollback of no steps rolls one back. *)
Lemma rollback_zero_steps m ms st sc :
  Version m ∈ records st -> has_down (Version m) = true -> begin_ok (Version m) = true ->
  record_ok (Version m) = true -> commit_ok (Version m) = true -> down (Version m) (schema st) = Some sc ->
  rollback (records st) (m :: ms) 0 0 st
  = (mkState sc (remove_record (Version m) (records st)) (log st ++ [Version m]), None).
Proof.
  intros Hin Hd Hb Hr Hc Hs. cbn [rollback]. rewrite bool_decide_eq_true_2, Hd, Hb, Hs, Hr, Hc by done. done.
Qed.
End Migrator.

(** The files of the repository. *)
Definition repo_files : list string :=
  ["000001_create_sessions_table.down.sql"; "000001_create_sessions_table.up.sql";
   "000002_create_aaa_configs_table.down.sql"; "000002_create_aaa_configs_table.up.sql";
   "000003_create_audit_log_table.down.sql"; "000003_create_audit_log_table.up.sql";
   "000004_create_indexes.down.sql"; "000004_create_indexes.up.sql"; "000005_add_gpsi_hash.down.sql";
   "000005_add_gpsi_hash.up.sql"; "000006_create_aiw_sessions_table.down.sql";
   "000006_create_aiw_sessions_table.up.sql"; "000007_create_sessions_partitions.down.sql";
   "000007_create_sessions_partitions.up.sql"; "000008_add_reverse_flow_ownership_columns.down.sql";
   "000008_add_reverse_flow_ownership_columns.up.sql"].
Lemma migrations_resume_witness :
  let up := fun v (n : nat) => if str_eqb v "000005" && (n <? 10)%nat then None else Some (S n) in
  let st1 := fst (Migrate_ up (fun _ => true) (fun _ => true) (fun _ => true) repo_files (mkState 0%nat [] [])) in
  log st1 = ["000001"; "000002"; "000003"; "000004"]
  /\ (exists n', (4 <= n')%nat /\ reached repo_files n'
        (fst (Migrate_ up (fun _ => true) (fun _ => true) (fun _ => true) repo_files (mkState 10%nat (records st1) (log st1))))).
Proof.
  intros up st1. split; [by vm_compute|].
  set (st2 := mkState 10%nat (records st1) (log st1)).
  destruct (Migrate_ up (fun _ => true) (fun _ => true) (fun _ => true) repo_files st2) as [st3 e] eqn:E.
  assert (Hn : NoDup (versions repo_files)) by (refine (bool_decide_eq_true_1 _ _); by vm_compute).
  assert (Hr : reached repo_files 4 st2) by (split; by vm_compute).
  destruct (migrations_resume up (fun _ => true) (fun _ => true) (fun _ => true) repo_files 4 st2 st3 e Hn
    (fun _ => eq_refl) Hr E) as [H _]. exact H.
Defined.
End Migrate.

(** ** pool.go: ExecTx.  The function gets a pool, not the transaction: what it does is
    done when it returns, whatever becomes of the transaction. *)
Section Tx.
Context {DB E : Type}.
Inductive tx_error : Type := TxBegin | TxFn (e : E) | TxRollback (e : E) | TxCommit.
Definition ExecTx (begin_ok commit_ok rollback_ok : bool) (fn : DB -> DB * option E) (db : DB) : DB * option tx_error :=
  if negb begin_ok then (db, Some TxBegin)
  else match fn db with
  | (db, Some e) => (db, Some (if rollback_ok then TxFn e else TxRollback e))
  | (db, None) => (db, if commit_ok then None else Some TxCommit)
  end.
Lemma exec_tx_keeps_failed_writes commit_ok rollback_ok fn db db' e :
  fn db = (db', Some e) -> fst (ExecTx true commit_ok rollback_ok fn db) = db'.
Proof. intros H. unfold ExecTx. by rewrite H. Qed.
End Tx.

(** ** reconnect.go *)
Section Reconnect.
Context {E : Type} (is_connection : E -> bool).
Inductive retry_result : Type := Done_ | Failed (e : E) | Cancelled | Exhausted (last : option E).
(** [fn k], [cancelled k] and [reconnect k] are what the [k]-th attempt meets. *)
Fixpoint retry_loop (fn : nat -> option E) (cancelled : nat -> bool) (reconnect : nat -> option E)
    (attempt fuel : nat) (last : option E) : retry_result * nat :=
  match fuel with
  | O => (Exhausted last, attempt)
  | S fuel =>
      match fn attempt with
      | None => (Done_, S attempt)
      | Some e =>
          if negb (is_connection e) then (Failed e, S attempt)
          else if cancelled attempt then (Cancelled, S attempt)
          else retry_loop fn cancelled reconnect (S attempt) fuel
                 (match reconnect attempt with Some e' => Some e' | None => Some e end)
      end
  end.
Definition ExecuteWithRetry (maxRetries : Z) fn cancelled reconnect : retry_result * nat :=
  retry_loop fn cancelled reconnect 0 (Z.to_nat maxRetries) None.

(** The function runs at most [maxRetries] times and never again after a success or an
    error that is no connection error. *)
Lemma retry_loop_spec fn cancelled reconnect fuel : forall attempt last r n,
  retry_loop fn cancelled reconnect attempt fuel last = (r, n) ->
  (attempt <= n <= attempt + fuel)%nat
  /\ (forall k, (attempt <= k)%nat -> (S k < n)%nat -> exists e, fn k = Some e /\ is_connection e = true)
  /\ match r with
     | Done_ => exists k, n = S k /\ fn k = None
     | Failed e => exists k, n = S k /\ fn k = Some e /\ is_connection e = false
     | Cancelled => exists k, n = S k /\ cancelled k = true
     | Exhausted _ => n = (attempt + fuel)%nat
     end.
Proof.
  induction fuel as [|fuel IH]; intros attempt last r n; cbn.
  - intros [= <- <-]. split_and!; [lia..| |lia]. intros k ? ?. lia.
  - destruct (fn attempt) as [e|] eqn:Ef.
    2:{ intros [= <- <-]. split_and!; [lia..| |by exists attempt]. intros k ? ?. lia. }
    destruct (is_connection e) eqn:Ec; cbn.
    2:{ intros [= <- <-]. split_and!; [lia..| |by exists attempt]. intros k ? ?. lia. }
    destruct (cancelled attempt) eqn:Ea.
    { intros [= <- <-]. split_and!; [lia..| |by exists attempt]. intros k ? ?. lia. }
    intros (H1 & H2 & H3)%IH. split_and!; [lia..| |].
    + intros k Hk Hn. destruct (decide (k = attempt)) as [->|]; [by exists e|]. apply H2; lia.
    + destruct r; try done. lia.
Qed.
End Reconnect.

(** ** audit.go *)
Module Audit.
Record AuditEntry : Type := mkAudit {
  ID : Z; AuthCtxID : string; GPSIHash : string; SnssaiSST : Z; SnssaiSD : string; AMFInstanceID : string;
  AMFIP : string; Action : string; NssaaStatus_ : string; ErrorCode : Z; ErrorMessage : string; RequestID : string;
  CorrelationID : string; ClientIP : string; UserAgent : string; CreatedAt : Z }.
Definition actions : list string :=
  ["SESSION_CREATED"; "EAP_ROUND_ADVANCED"; "EAP_SUCCESS"; "EAP_FAILURE"; "SESSION_EXPIRED"; "SESSION_TERMINATED";
   "NOTIF_REAUTH_SENT"; "NOTIF_REAUTH_ACK"; "NOTIF_REAUTH_FAILED"; "NOTIF_REVOC_SENT"; "NOTIF_REVOC_ACK";
   "NOTIF_REVOC_FAILED"; "AAA_CONNECTED"; "AAA_FAILED"].
Section Repository.
(** The canonical form of an address, [None] when the column refuses the text. *)
Context (inet : string -> option string) (partition : Z -> bool).
Definition audit_check (e : AuditEntry) : bool :=
  bool_decide (Action e ∈ actions)
  && fits [(AuthCtxID e, 64); (GPSIHash e, 64); (SnssaiSD e, 8); (AMFInstanceID e, 64); (NssaaStatus_ e, 20);
           (RequestID e, 64); (CorrelationID e, 64)].
(** The database gives the identifier and the time. *)
Definition Append (fault : option string) (now : Z) (e : AuditEntry) (t : list AuditEntry)
  : list AuditEntry * option pg_error :=
  match fault, inet (AMFIP e), inet (ClientIP e) with
  | Some x, _, _ => (t, Some (ErrFault x))
  | None, Some ip, Some client =>
      if audit_check e && partition now
      then (t ++ [mkAudit (1 + len t) (AuthCtxID e) (GPSIHash e) (SnssaiSST e) (SnssaiSD e) (AMFInstanceID e) ip (Action e)
                    (NssaaStatus_ e) (ErrorCode e) (ErrorMessage e) (RequestID e) (CorrelationID e) client (UserAgent e) now],
            None)
      else (t, Some ErrConstraint)
  | None, _, _ => (t, Some ErrConstraint)
  end.
Fixpoint insert_desc (e : AuditEntry) (es : list AuditEntry) : list AuditEntry :=
  match es with
  | [] => [e]
  | e' :: es' => if CreatedAt e' <? CreatedAt e then e :: es else e' :: insert_desc e es'
  end.
Definition order_desc (es : list AuditEntry) : list AuditEntry := fold_left (fun acc e => insert_desc e acc) es [].
Definition limit_of (limit : Z) : nat := Z.to_nat (if limit <=? 0 then 100 else limit).
Definition ListByAuthCtxID (fault : option string) (id : string) (limit : Z) (t : list AuditEntry)
  : pg_error + list AuditEntry :=
  match fault with
  | Some e => inl (ErrFault e)
  | None => inr (take (limit_of limit) (order_desc (filter (fun e => AuthCtxID e = id) t)))
  end.
Definition ListByGPSIHash (fault : option string) (hash : string) (since limit : Z) (t : list AuditEntry)
  : pg_error + list AuditEntry :=
  match fault with
  | Some e => inl (ErrFault e)
  | None => inr (take (limit_of limit) (order_desc (filter (fun e => GPSIHash e = hash /\ since <= CreatedAt e) t)))
  end.

Lemma insert_desc_perm e es : insert_desc e es ≡ₚ e :: es.
Proof.
  induction es as [|e' es IH]; [done|]. cbn. destruct (CreatedAt e' <? CreatedAt e); [done|].
  rewrite IH. by constructor.
Qed.
Lemma order_desc_perm es : order_desc es ≡ₚ es.
Proof.
  unfold order_desc. assert (H : forall es acc, fold_left (fun acc e => insert_desc e acc) es acc ≡ₚ es ++ acc).
  { clear. induction es as [|e es IH]; intros acc; [done|]. cbn. rewrite IH, insert_desc_perm. by rewrite Permutation_middle. }
  by rewrite H, app_nil_r.
Qed.

(** An entry that was appended is listed under its session, with the time of the
    database, as long as the limit is not below the number of entries. *)
Lemma audit_append_list now e t t' :
  Append None now e t = (t', None) -> len t < 100 ->
  exists es e', ListByAuthCtxID None (AuthCtxID e) 0 t' = inr es /\ e' ∈ es /\ CreatedAt e' = now /\ Action e' = Action e.
Proof.
  unfold Append. destruct (inet (AMFIP e)) as [ip|]; [|by destruct (inet (ClientIP e))]. destruct (inet (ClientIP e)) as [client|]; [|done].
  destruct (audit_check e && partition now); [|done]. intros [= <-] Hl.
  match goal with |- context [t ++ [?x]] => exists (take 100 (order_desc (filter (fun e' => AuthCtxID e' = AuthCtxID e) (t ++ [x])))), x end.
  split; [done|].
  split; [|split; reflexivity]. rewrite take_ge.
  - rewrite order_desc_perm. apply list_elem_of_filter. split; [|apply elem_of_app; right; left]. done.
  - rewrite order_desc_perm. etrans; [apply length_filter|]. rewrite length_app. cbn. unfold len in Hl. lia.
Qed.
(** A session without addresses is never audited: an empty text is no address. *)
Lemma audit_needs_addresses now e t :
  inet estr = None -> AMFIP e = estr \/ ClientIP e = estr -> Append None now e t = (t, Some ErrConstraint).
Proof. intros Hi [H|H]; unfold Append; rewrite H, Hi; [done|by destruct (inet (AMFIP e))]. Qed.
End Repository.
End Audit.
