(* ===== verification/Nrm.v ===== *)
(** * internal/nrm server.go and client.go, internal/restconf: alarms over HTTP

    The NRM server with its RESTCONF routes, the handlers over the alarm manager of
    [Alarm], and the Biz Pod's client that pushes events to it.  The patterns of
    [ServeMux] go by method and the longest prefix; a parameter of a chi pattern stands
    for one non-empty path segment.  Clock readings and identifiers are arguments, the
    text of a time is a parameter. *)
From S2P Require Import Prelude Regex Common Types EapSession Json Alarm Resilience NrfProfile Nrf NrfServer UdmServer.
Local Open Scope string_scope.
Local Open Scope Z_scope.
Local Open Scope list_scope.

Record request : Type := mkReq {
  Method : string; Path : string; ContentType : string; AuthenticatedUser : string; Body : option json }.
Abbreviation response := (Z * option json)%type.

(** ** restconf/json.go *)
Definition WrapWithModule (data : json) (modulePrefix container : string) : json :=
  JObj [(modulePrefix +:+ ":" +:+ container, data)].
Definition tagFromStatus (status : Z) : string :=
  if status =? 400 then "malformed-message"
  else if status =? 404 then "invalid-value"
  else if status =? 405 then "operation-not-supported"
  else if status =? 406 then "invalid-value"
  else if status =? 415 then "malformed-message"
  else if status =? 500 then "operation-failed"
  else if (status =? 503) || (status =? 504) then "resource-denied"
  else "operation-failed".
Definition severityFromStatus (status : Z) : string := "error".
Definition NewErrorResponse (status : Z) (message : string) : json :=
  JObj [("ietf-restconf:errors", JObj [("error", JArr [JObj (build
    [("error-type", SStr true "application"); ("error-tag", SStr true (tagFromStatus status));
     ("error-severity", SStr true (severityFromStatus status)); ("path", SStr true estr);
     ("error-message", SStr false message)])])])].

Section Server.
(** The text of a time stamp, and [strings.ToLower]. *)
Context (time_text : Z -> string) (lower : string -> string).
Context (rate_exceeds : Z -> Z -> bool) (rate_text : Z -> Z -> string).

(** [AlarmInfo] of an alarm, as a document. *)
Definition alarm_info (a : Alarm) : json :=
  JObj (build
    [("alarm-id", SStr false (AlarmID a)); ("alarm-type", SStr false (AlarmType a));
     ("probable-cause", SStr false (ProbableCause a)); ("specific-problem", SStr true (SpecificProblem a));
     ("severity", SStr false (Severity a)); ("perceived-severity", SStr true (PerceivedSeverity a));
     ("backup-object", SStr true (BackupObject a)); ("correlated-alarms", SArr true (JStr <$> CorrelatedAlarms a));
     ("proposed-repair-actions", SStr true (ProposedRepairActions a)); ("event-time", SStr false (time_text (EventTime a)));
     ("acked", SBool true (Acked a)); ("acked-by", SStr true (AckedBy a));
     ("acked-at", SStr true (from_option time_text estr (AckedAt a)))]).
Definition ListAlarmInfos (m : AlarmManager) : list json := alarm_info <$> List_ (store m).
Definition GetAlarmInfo (m : AlarmManager) (id : string) : option json := alarm_info <$> Get (store m) id.
Definition AckAlarmInfo (now : Z) (m : AlarmManager) (id ackedBy : string) : AlarmManager * bool :=
  let '(s, ok) := UpdateAck now (store m) id true ackedBy in (set_store m s, ok).
Definition NewAlarmData (infos : list json) : json :=
  WrapWithModule (JObj [("alarm", JArr infos)]) "3gpp-nssaaf-nrm" "alarms".

(** ** restconf/handlers.go *)
Definition respondMethodNotAllowed : response := (405, Some (NewErrorResponse 405 "Method not allowed")).
Definition respondNotFound (resource id : string) : response :=
  (404, Some (NewErrorResponse 404 ("Resource " +:+ lower resource +:+ " with id=" +:+ id +:+ " does not exist"))).
Definition nssaa_entry : json :=
  JObj (build
    [("managed-element-id", SStr false "nssaa-1"); ("managed-element-type-id", SStr true "NSSAA_FUNCTION");
     ("user-defined-data", SStr true estr); ("p-l-m-n-info-list", SArr true [JStr "208001"]);
     ("s-b-i-f-q-d-n", SStr true "nssAAF.operator.com"); ("c-n-s-i-id-list", SArr true []);
     ("comm-model-list", SArr true [JStr "HTTP2_SBI"]);
     ("nssaa-info", SPtr (Some (build
        [("supi-ranges", SArr true [JStr "208001*"]); ("internal-group-id-ranges", SArr true []);
         ("supported-security-algo", SArr true [JStr "EAP-TLS"; JStr "EAP-TTLS"])])));
     ("ep-n58", SArr true [JObj [("endpoint-id", JStr "n58-1"); ("local-address", JStr "10.0.1.50")]]);
     ("ep-n59", SArr true [JObj [("endpoint-id", JStr "n59-1"); ("local-address", JStr "10.0.1.50")]])]).
Definition handleGetNssaaFunction : response :=
  (200, Some (WrapWithModule (JObj [("nssaa-function", JArr [nssaa_entry])]) "3gpp-nssaaf-nrm" "nssaa-function")).
Definition handleGetNssaaFunctionByID (id : string) : response :=
  if negb (str_eqb id "nssaa-1") then respondNotFound "NSSAAFFunction" id
  else (200, Some (WrapWithModule nssaa_entry "3gpp-nssaaf-nrm" "nssaa-function")).
Definition handleGetAlarms (m : AlarmManager) : response := (200, Some (NewAlarmData (ListAlarmInfos m))).
Definition handleGetAlarm (m : AlarmManager) (id : string) : response :=
  match GetAlarmInfo m id with
  | None => respondNotFound "Alarm" id
  | Some info => (200, Some (NewAlarmData [info]))
  end.
Definition module_json (name revision namespace : string) : json :=
  JObj [("name", JStr name); ("revision", JStr revision); ("namespace", JStr namespace); ("conformance", JStr "implement")].
Definition handleModules : response :=
  (200, Some (JObj [("ietf-restconf-monitoring:modules-state", JObj [("module", JArr
    [module_json "3gpp-nssaaf-nrm" "2025-01-01" "urn:3gpp:ts:ts_28_541";
     module_json "ietf-restconf-monitoring" "2016-08-15" "urn:ietf:params:xml:ns:yang:ietf-restconf-monitoring"])])])).
Definition handleOptionsData : response := (200, None).
(** [AlarmAckHandler.HandleAck]; who acknowledges is in the header, else in the body. *)
Definition HandleAck (now : Z) (m : AlarmManager) (r : request) (alarmID : string) : AlarmManager * response :=
  if negb (str_eqb (Method r) "POST") then (m, respondMethodNotAllowed)
  else if is_empty alarmID then (m, (404, None))
  else
    let by_body := if str_eqb (ContentType r) "application/json"
                   then match fs ← Body r ≫= fields; str_field fs "acked-by" with
                        | Some s => if is_empty s then "unknown" else s
                        | None => "unknown"
                        end
                   else "unknown" in
    let ackedBy := if is_empty (AuthenticatedUser r) then by_body else AuthenticatedUser r in
    let '(m, ok) := AckAlarmInfo now m alarmID ackedBy in
    (m, if ok then (204, None) else (404, None)).

(** ** restconf/router.go: the routes below /restconf *)
Definition segment (prefix path : string) : option string :=
  match strip_prefix prefix path with
  | Some s => if negb (is_empty s) && no_slash s then Some s else None
  | None => None
  end.
Inductive route : Type := RFunctions | RFunction (id : string) | RAlarms | RAlarm (path : string) | RModules.
Definition get_route (path : string) : option route :=
  if str_eqb path "/data/3gpp-nssaaf-nrm:nssaa-function" then Some RFunctions
  else if str_eqb path "/data/3gpp-nssaaf-nrm:alarms" then Some RAlarms
  else if str_eqb path "/modules" then Some RModules
  else match segment "/data/3gpp-nssaaf-nrm:nssaa-function/" path with
  | Some id => Some (RFunction id)
  | None => RAlarm <$> segment "/data/3gpp-nssaaf-nrm:alarms/" path
  end.
Definition options_route (path : string) : bool :=
  match strip_prefix "/data/" path with Some s => no_slash s | None => false end.
Definition router (m : AlarmManager) (method path : string) : response :=
  if str_eqb method "GET" then
    match get_route path with
    | Some RFunctions => handleGetNssaaFunction
    | Some (RFunction id) => handleGetNssaaFunctionByID id
    | Some RAlarms => handleGetAlarms m
    | Some (RAlarm id) => handleGetAlarm m id
    | Some RModules => handleModules
    | None => if options_route path then (405, None) else (404, None)
    end
  else if str_eqb method "OPTIONS" && options_route path then handleOptionsData
  else match get_route path with
  | Some _ => (405, None)
  | None => if options_route path then (405, None) else (404, None)
  end.

(** ** nrm/server.go *)
Definition metrics_ok (v : option json) : bool :=
  match v with
  | None => true
  | Some (JObj fs) => forallb (fun '(_, v) => match v with JNum _ | JNull => true | _ => false end) fs
  | Some _ => false
  end.
Definition decode_event (b : option json) : option (string * string) :=
  fs ← b ≫= fields; t ← str_field fs "event-type"; target ← str_field fs "target"; _ ← str_field fs "specific-problem";
  if metrics_ok (field fs "metrics") then Some (t, target) else None.
(** Problem documents are left out of the answers. *)
Definition handleEvents (now : Z) (uuid : string) (m : AlarmManager) (r : request) : AlarmManager * response :=
  if negb (str_eqb (Method r) "POST") then (m, (405, None))
  else if negb (str_eqb (ContentType r) "application/json") then (m, (415, None))
  else match decode_event (Body r) with
  | None => (m, (400, None))
  | Some (t, target) =>
      (Evaluate rate_exceeds rate_text now uuid m t target, (200, Some (JObj [("status", JStr "ok")])))
  end.
Definition handleHealthz : response := (200, Some (JObj [("status", JStr "ok")])).
Definition alarmsPrefix : string := "/restconf/data/3gpp-nssaaf-nrm:alarms=".
(** The function registered for POST below /restconf/data/. *)
Definition post_data (now : Z) (m : AlarmManager) (r : request) : AlarmManager * response :=
  match strip_prefix alarmsPrefix (Path r) with
  | Some rest =>
      if HasSuffix rest "/ack" then HandleAck now m r (TrimSuffix rest "/ack") else (m, (404, None))
  | None => (m, (404, None))
  end.
Definition serve (now : Z) (uuid : string) (m : AlarmManager) (r : request) : AlarmManager * response :=
  if str_eqb (Method r) "POST" && HasPrefix (Path r) "/restconf/data/" then post_data now m r
  else match strip_prefix "/restconf" (Path r) with
  | Some p => if HasPrefix p "/" then (m, router m (Method r) p) else (m, (404, None))
  | None =>
      if str_eqb (Path r) "/internal/events" then
        if str_eqb (Method r) "POST" then handleEvents now uuid m r else (m, (405, None))
      else if str_eqb (Path r) "/healthz" then
        (m, if str_eqb (Method r) "GET" || str_eqb (Method r) "HEAD" then handleHealthz else (405, None))
      else (m, (404, None))
  end.

(** ** nrm/client.go *)
Definition event_json (eventType target : string) (metrics : option (list (string * json))) : json :=
  JObj (build [("event-type", SStr false eventType); ("metrics", SPtr metrics); ("target", SStr true target);
               ("specific-problem", SStr true estr)]).
Definition push_request (e : json) : request := mkReq "POST" "/internal/events" "application/json" estr (Some e).
(** [push] against the server: the state of the server and whether the push succeeded. *)
Definition push (now : Z) (uuid : string) (m : AlarmManager) (e : json) : AlarmManager * bool :=
  let '(m, (status, _)) := serve now uuid m (push_request e) in (m, (status =? 200) || (status =? 202)).
Definition PushAuthSuccess now uuid m := push now uuid m (event_json "AUTH_SUCCESS" estr None).
Definition PushAuthFailure (failureRate : Z) now uuid m :=
  push now uuid m (event_json "AUTH_FAILURE" estr (Some [("failureRate", JNum failureRate)])).
Definition PushCircuitBreakerOpen (server : string) now uuid m := push now uuid m (event_json "CIRCUIT_BREAKER_OPEN" server None).
Definition PushCircuitBreakerClosed (server : string) now uuid m :=
  push now uuid m (event_json "CIRCUIT_BREAKER_CLOSED" server None).
Definition PushAAAUnreachable (server : string) now uuid m := push now uuid m (event_json "AAA_UNREACHABLE" server None).
Definition PushDBUnreachable (details : string) now uuid m := push now uuid m (event_json "DB_UNREACHABLE" details None).
Definition PushRedisUnreachable (details : string) now uuid m := push now uuid m (event_json "REDIS_UNREACHABLE" details None).
Definition PushNRFUnreachable (details : string) now uuid m := push now uuid m (event_json "NRF_UNREACHABLE" details None).

(** ** Properties *)
Lemma push_evaluates now uuid m t target metrics :
  metrics_ok (JObj <$> metrics) = true ->
  push now uuid m (event_json t target metrics) = (Evaluate rate_exceeds rate_text now uuid m t target, true).
Proof.
  intros Hm. unfold push, serve, push_request. cbn [Method Path].
  change (HasPrefix "/internal/events" "/restconf/data/") with false. rewrite andb_false_r.
  change (strip_prefix "/restconf" "/internal/events") with (@None string). cbv iota beta.
  rewrite !str_eqb_refl. unfold handleEvents. cbn [Method ContentType Body]. rewrite !str_eqb_refl. cbn [negb].
  unfold decode_event, event_json. cbn [mbind option_bind fields]. json_read.
  rewrite field_build by reflexivity. change (assoc _ "metrics" ≫= seg_value) with (JObj <$> metrics). by rewrite Hm.
Qed.

Definition alarms_path : string := "/restconf/data/3gpp-nssaaf-nrm:alarms".
Definition get (path : string) : request := mkReq "GET" path estr estr None.
Definition ack (path user : string) : request := mkReq "POST" path estr user None.

Lemma get_restconf now uuid m p : serve now uuid m (get ("/restconf/" +:+ p)) = (m, router m "GET" ("/" +:+ p)).
Proof. done. Qed.
Lemma get_alarms now uuid m : snd (serve now uuid m (get alarms_path)) = (200, Some (NewAlarmData (ListAlarmInfos m))).
Proof. done. Qed.

(** An identifier that is one path segment. *)
Definition id_ok (id : string) : bool := negb (is_empty id) && no_slash id.
Lemma segment_app p id : id_ok id = true -> segment p (p +:+ id) = Some id.
Proof. intros H. unfold segment. rewrite strip_prefix_app. unfold id_ok in H. by rewrite H. Qed.
Lemma get_alarm now uuid m id :
  id_ok id = true -> snd (serve now uuid m (get (alarms_path +:+ "/" +:+ id))) = handleGetAlarm m id.
Proof.
  intros Hid. pose proof (segment_app "/data/3gpp-nssaaf-nrm:alarms/" id Hid) as Hs.
  change (alarms_path +:+ "/" +:+ id) with ("/restconf/" +:+ ("data/3gpp-nssaaf-nrm:alarms/" +:+ id)).
  rewrite get_restconf. cbn [snd]. unfold router, get_route. rewrite str_eqb_refl.
  change ("/" +:+ ("data/3gpp-nssaaf-nrm:alarms/" +:+ id)) with ("/data/3gpp-nssaaf-nrm:alarms/" +:+ id).
  rewrite Hs. rewrite !str_eqb_false by done.
  by change (segment "/data/3gpp-nssaaf-nrm:nssaa-function/" ("/data/3gpp-nssaaf-nrm:alarms/" +:+ id)) with (@None string).
Qed.

Lemma HasSuffix_app p s : HasSuffix (p +:+ s) s = true.
Proof.
  induction p as [|c p IH]; [change (estr +:+ s) with s; destruct s; cbn [HasSuffix]; by rewrite str_eqb_refl|].
  rewrite string_cons_app. cbn [HasSuffix]. by rewrite IH, orb_true_r.
Qed.
Lemma post_ack now uuid m id user :
  serve now uuid m (ack (alarmsPrefix +:+ id +:+ "/ack") user)
  = HandleAck now m (ack (alarmsPrefix +:+ id +:+ "/ack") user) id.
Proof.
  unfold serve. cbn [Method Path ack]. rewrite str_eqb_refl.
  change (HasPrefix (alarmsPrefix +:+ id +:+ "/ack") "/restconf/data/") with true. cbn [andb].
  unfold post_data. cbn [Path ack]. by rewrite strip_prefix_app, HasSuffix_app, TrimSuffix_app.
Qed.

(** C36: an alarm from the Biz Pod to the operator.  After the Biz Pod pushes that the
    breaker of an AAA server opened, the list of alarms contains one of that server; an
    operator's acknowledgement of any listed alarm succeeds, and the alarm is then
    served as acknowledged by that operator; after the push that the breaker closed no
    alarm of that server is left. *)
Theorem breaker_alarm_served m server now uuid user now' :
  reachable rate_exceeds rate_text m -> fresh uuid (store m) -> user <> estr ->
  let m1 := fst (PushCircuitBreakerOpen server now uuid m) in
  snd (PushCircuitBreakerOpen server now uuid m) = true
  /\ (exists a, AlarmType a = AlarmCircuitBreakerOpen /\ BackupObject a = server
       /\ forall n u, exists infos, snd (serve n u m1 (get alarms_path)) = (200, Some (NewAlarmData infos)) /\ alarm_info a ∈ infos)
  /\ (forall id a, alarms (store m1) !! id = Some a -> id_ok id = true ->
       let res := serve now' uuid m1 (ack (alarmsPrefix +:+ id +:+ "/ack") user) in
       snd res = (204, None)
       /\ forall n u, snd (serve n u (fst res) (get (alarms_path +:+ "/" +:+ id)))
            = (200, Some (NewAlarmData [alarm_info (set_ack true user now' a)])))
  /\ (let m2 := fst (PushCircuitBreakerClosed server now' uuid m1) in
      forall a, a ∈ List_ (store m2) -> AlarmType a = AlarmCircuitBreakerOpen -> BackupObject a <> server).
Proof.
  intros Hre Hf Hu m1. unfold PushCircuitBreakerOpen, PushCircuitBreakerClosed in *. unfold m1.
  rewrite !push_evaluates by done. cbn [fst snd].
  pose proof (alarm_reachable_inv _ _ m Hre) as Hi.
  set (mo := Evaluate rate_exceeds rate_text now uuid m "CIRCUIT_BREAKER_OPEN" server).
  change (open_raise now uuid (List_ (store (open_mark m server))) (open_mark m server) server) with mo in *.
  assert (Ha : active (store mo) AlarmCircuitBreakerOpen server) by (by apply open_raise_active).
  assert (Hio : store_inv (store mo)) by (by apply Evaluate_inv).
  assert (Hcb : cbState mo !! server = Some true).
  { unfold mo. change (cbState (open_raise now uuid (List_ (store (open_mark m server))) (open_mark m server) server)
      !! server = Some true). rewrite cbState_open_raise. cbn. apply lookup_insert_eq. }
  split; [done|]. split; [|split].
  - destruct Ha as (id & a & Hid & Ht & Ho). exists a. split_and!; [done..|]. intros n u. rewrite get_alarms.
    eexists. split; [done|]. unfold ListAlarmInfos. apply list_elem_of_fmap_2. apply elem_List. by exists id.
  - intros id a Hid Hok. rewrite post_ack. unfold HandleAck. cbn [Method AuthenticatedUser ack]. rewrite str_eqb_refl.
    assert (Hne : is_empty id = false) by (unfold id_ok in Hok; apply andb_prop in Hok as [Hok _]; by destruct (is_empty id)).
    assert (Hun : is_empty user = false) by (by destruct user). rewrite Hne, Hun. cbn [negb].
    unfold AckAlarmInfo, UpdateAck. rewrite Hid. cbn [fst snd]. split; [done|]. intros n u.
    rewrite get_alarm by done. unfold handleGetAlarm, GetAlarmInfo, Get. cbn [store set_store alarms].
    by rewrite lookup_insert_eq.
  - rewrite (Evaluate_closed _ _ now' uuid mo server true Hcb). cbn [store].
    intros a Hin Ht Ho. apply elem_List in Hin as [id Hid].
    apply (ClearByType_inactive (store mo) AlarmCircuitBreakerOpen server Hio). by exists id, a.
Qed.

(** Which alarm paths are served.  An alarm is read under alarms/{id} and
    acknowledged under alarms={id}/ack; the other spelling of each, which the comments
    of the routes name, is answered 405 or 404 for every identifier in every state. *)
Theorem alarm_paths_disagree m now uuid id user :
  id_ok id = true ->
  snd (serve now uuid m (get (alarms_path +:+ "=" +:+ id))) = (405, None)
  /\ serve now uuid m (ack (alarms_path +:+ "/" +:+ id +:+ "/ack") user) = (m, (404, None))
  /\ snd (serve now uuid m (get (alarms_path +:+ "/" +:+ id))) = handleGetAlarm m id
  /\ serve now uuid m (ack (alarms_path +:+ "=" +:+ id +:+ "/ack") user)
     = HandleAck now m (ack (alarms_path +:+ "=" +:+ id +:+ "/ack") user) id.
Proof.
  intros Hid. split_and!.
  - change (alarms_path +:+ "=" +:+ id) with ("/restconf/" +:+ ("data/3gpp-nssaaf-nrm:alarms=" +:+ id)).
    rewrite get_restconf. cbn [snd]. unfold router, get_route. rewrite str_eqb_refl.
    change ("/" +:+ ("data/3gpp-nssaaf-nrm:alarms=" +:+ id)) with ("/data/" +:+ ("3gpp-nssaaf-nrm:alarms=" +:+ id)).
    rewrite !str_eqb_false by done.
    change (segment "/data/3gpp-nssaaf-nrm:nssaa-function/" ("/data/" +:+ ("3gpp-nssaaf-nrm:alarms=" +:+ id))) with (@None string).
    change (segment "/data/3gpp-nssaaf-nrm:alarms/" ("/data/" +:+ ("3gpp-nssaaf-nrm:alarms=" +:+ id))) with (@None string).
    cbn [fmap option_fmap option_map]. unfold options_route. rewrite strip_prefix_app.
    unfold id_ok in Hid. apply andb_prop in Hid as [_ Hid].
    change (no_slash ("3gpp-nssaaf-nrm:alarms=" +:+ id)) with (no_slash id). by rewrite Hid.
  - done.
  - by apply get_alarm.
  - apply (post_ack now uuid m id user).
Qed.
End Server.

Lemma breaker_alarm_served_witness :
  let m0 := mkManager NewAlarmStore ∅ 0 0 in
  snd (PushCircuitBreakerOpen (fun _ => "t") (fun s => s) (fun _ _ => false) (fun _ _ => estr) "aaa-1" 10 "u1" m0) = true.
Proof.
  intros m0. apply (breaker_alarm_served (fun _ => "t") (fun s => s) (fun _ _ => false) (fun _ _ => estr) m0 "aaa-1" 10 "u1" "op" 20);
    [apply reach_init|split; [done|by vm_compute]|done].
Defined.
Lemma alarm_paths_disagree_witness :
  serve (fun _ => "t") (fun s => s) (fun _ _ => false) (fun _ _ => estr) 0 "u" (mkManager NewAlarmStore ∅ 0 0)
    (ack (alarms_path +:+ "/" +:+ "a1" +:+ "/ack") "op") = (mkManager NewAlarmStore ∅ 0 0, (404, None)).
Proof. apply (alarm_paths_disagree (fun _ => "t") (fun s => s) (fun _ _ => false) (fun _ _ => estr) _ 0 "u" "a1" "op" eq_refl). Defined.
