(* ===== verification/Config.v ===== *)
(** * Configuration and start of the Biz Pod

    internal/config (config.go, internal_comm.go): the placeholders of the
    configuration file, the defaults, the checks and their composition in [Load];
    internal/crypto/config.go: the key manager chosen from it; cmd/biz/factory.go: the
    steps of [Build] with the resources they open and close.  The YAML decoder, the
    environment and the outcome of connecting to the database, to Redis and to the
    debug store are arguments. *)
From Stdlib Require Import Qcanon Ascii.
From S2P Require Import Prelude Regex Common Encoding EapSession Resilience Biz Cache Crypto Postgres NrfServer UdmServer.
Import Validator.
Local Open Scope string_scope.
Local Open Scope Z_scope.
Local Open Scope list_scope.

Definition minute : Z := 60 * second.
Definition hour : Z := 60 * minute.
Definition str_default (s d : string) : string := if is_empty s then d else s.

(** ** config.go and internal_comm.go: the structures *)
Record TLSConfig : Type := mkTLS { Cert : string; Key : string; CA : string }.
Record VaultConfig : Type := mkVault {
  Address : string; KeyName : string; AuthMethod : string; K8sRole : string; Token : string; TokenFile : string }.
Record SoftHSMConfig : Type := mkHSM { LibraryPath : string; TokenLabel : string; PIN : string }.
Record CryptoConfig : Type := mkCrypto {
  KeyManager : string; MasterKeyHex : string; VaultCfg : option VaultConfig; HSMCfg : option SoftHSMConfig;
  KEKOverlapDays : Z }.
Record BizConfig : Type := mkBiz {
  AAAGatewayURL : string; UseMTLS : bool; TLSCert : string; TLSKey : string; TLSCA : string;
  BizTLS : option TLSConfig; BizSnssai : SnssaiRoutingConfig }.
Record DLQConfig : Type := mkDLQ { DLQ_MaxRetries : Z; PollInterval : Z }.
Record AAAgwConfig : Type := mkAAAgw {
  AAAgw_BizServiceURL : string; ListenRADIUS : string; DiameterServerAddress : string; DiameterRealm : string;
  DiameterHost : string; DiameterTransport : string; RadiusServerAddress : string; RadiusSharedSecret : string;
  RedisMode : string; VIPAddress : string; AAAgw_DLQ : DLQConfig }.
Record AuthConfig : Type := mkAuth { Disabled : bool }.
Record HTTPgwConfig : Type := mkHTTPgw {
  HTTPgw_BizServiceURL : string; DiscoveryURL : string; HTTPgw_Auth : option AuthConfig; HTTPgw_TLS : option TLSConfig }.
Record ServerConfig : Type := mkServer { Addr : string; ReadTimeout : Z; WriteTimeout : Z; IdleTimeout : Z }.
Record DatabaseConfig : Type := mkDB {
  DB_Host : string; DB_Port : Z; DB_Name : string; DB_User : string; DB_Password : string; MaxConns : Z;
  MinConns : Z; ConnMaxLifetime : Z; SSLMode : string }.
Record RedisConfig : Type := mkRedis {
  Redis_Addr : string; Redis_Addrs : list string; Redis_Password : string; Redis_DB : Z; PoolSize : Z }.
Record EAPConfig : Type := mkEAP { MaxRounds : Z; RoundTimeout : Z; SessionTTL : Z }.
Record AAAConfig : Type := mkAAA { ResponseTimeout : Z; AAA_MaxRetries : Z; AAA_FailureThreshold : Z; AAA_RecoveryTimeout : Z }.
Record RateLimitConfig : Type := mkRate { PerGpsiPerMin : Z; PerAmfPerSec : Z; GlobalPerSec : Z }.
Record LoggingConfig : Type := mkLogging { Level : string; Format : string }.
Record MetricsConfig : Type := mkMetrics { MetricsEnabled : bool; MetricsPath : string }.
Record DebugConfig : Type := mkDebug { DebugEnabled : bool; DebugRedisAddr : string; DebugTTL : Z; DebugMaxLen : Z }.
Record TokenConfig : Type := mkToken {
  TokenEnabled : bool; AuthServer : string; ClientID : string; ClientSecret : string; Scope : string }.
Record HeartbeatConfig : Type := mkHB { InitialInterval : Z; AcceptNegotiatedInterval : bool; MaxConsecutiveFailures : Z }.
Record DiscoveryCacheConfig : Type := mkDC { CacheEnabled : bool; DefaultTTL : Z }.
Record NRFConfig : Type := mkNRF {
  NRF_BaseURL : string; DiscoverTimeout : Z; CacheTTL : Z; NRF_InstanceID : string; ProfilePath : string;
  AccessToken : TokenConfig; NRF_Heartbeat : HeartbeatConfig; DiscoveryCache : DiscoveryCacheConfig }.
(** UDMConfig and AUSFConfig *)
Record NFConfig : Type := mkNF { NF_BaseURL : string; NF_Timeout : Z }.
Record NRMAlarmThreshold : Type := mkThreshold { FailureRatePercent : Qc; EvaluationWindowSec : Z }.
Record NRMConfig : Type := mkNRM {
  ListenAddr : string; AlarmThresholds : option NRMAlarmThreshold; NRMURL : string; NRM_ReadTimeout : Z; NRM_WriteTimeout : Z;
  NRM_IdleTimeout : Z }.
Record RadiusConfig : Type := mkRad { Rad_MaxRetries : Z; Rad_Timeout : Z; ResponseWindow : Z }.
Record CircuitBreakerConfig : Type := mkCBC { CB_FailureThreshold : Z; CB_RecoveryTimeout : Z; CB_SuccessThreshold : Z }.
Record RetryConfig : Type := mkRetry { MaxAttempts : Z; BaseDelay : Z; MaxDelay : Z }.
Record ConnectionPoolConfig : Type := mkPool {
  MaxIdleConns : Z; MaxIdleConnsPerHost : Z; IdleConnTimeout : Z; DialTimeout : Z }.
Record TLSClientConfig : Type := mkTLSClient { CACert : string; ClientCert : string; ClientKey : string; ServerName : string }.
Record NativeCommConfig : Type := mkNative {
  Native_Timeout : Z; Native_Retry : RetryConfig; Native_CB : CircuitBreakerConfig; Native_Pool : ConnectionPoolConfig;
  Native_TLS : option TLSClientConfig; KeepalivedHealthURL : string; Native_Radius : RadiusConfig }.
Record IstioCommConfig : Type := mkIstio { TrustDomain : string }.
Record InternalCommConfig : Type := mkComm { Mode : string; Native : NativeCommConfig; Istio : IstioCommConfig }.
Record Config : Type := mkConfig {
  Component : string; Version : string; Server_ : ServerConfig; Database : DatabaseConfig; Redis : RedisConfig;
  EAP : EAPConfig; AAA : AAAConfig; RateLimit_ : RateLimitConfig; Logging : LoggingConfig; Metrics : MetricsConfig; NRF : NRFConfig;
  UDM : NFConfig; AUSF : NFConfig; Crypto_ : CryptoConfig; InternalComm : InternalCommConfig; Debug : DebugConfig;
  Biz_ : option BizConfig; AAAgw : option AAAgwConfig; HTTPgw : option HTTPgwConfig; NRM : option NRMConfig }.

Definition ComponentBiz : string := "biz".
Definition ComponentAAAGateway : string := "aaa-gateway".
Definition ComponentHTTPGateway : string := "http-gateway".
Definition ComponentNRM : string := "nrm".
Definition keyManagerSoft : string := "soft".

(** ** applyDefaults, a part of the structure at a time *)
Section Defaults.
Context (Getenv : string -> string).

Definition default_server (s : ServerConfig) : ServerConfig :=
  mkServer (str_default (Addr s) ":8080") (default_if_zero (ReadTimeout s) (10 * second))
    (default_if_zero (WriteTimeout s) (30 * second)) (default_if_zero (IdleTimeout s) (120 * second)).
Definition default_eap (e : EAPConfig) : EAPConfig :=
  mkEAP (default_if_zero (MaxRounds e) 20) (default_if_zero (RoundTimeout e) (30 * second))
    (default_if_zero (SessionTTL e) (5 * minute)).
Definition default_aaa (a : AAAConfig) : AAAConfig :=
  mkAAA (default_if_zero (ResponseTimeout a) (10 * second)) (default_if_zero (AAA_MaxRetries a) 3)
    (default_if_zero (AAA_FailureThreshold a) 5) (default_if_zero (AAA_RecoveryTimeout a) (30 * second)).
Definition default_redis (r : RedisConfig) : RedisConfig :=
  let addr := if is_empty (Redis_Addr r) then default estr (head (Redis_Addrs r)) else Redis_Addr r in
  mkRedis (str_default addr "localhost:6379") (Redis_Addrs r) (Redis_Password r) (Redis_DB r)
    (default_if_zero (PoolSize r) 50).
Definition default_aaagw (g : AAAgwConfig) : AAAgwConfig :=
  mkAAAgw (AAAgw_BizServiceURL g) (str_default (ListenRADIUS g) ":1812")
    (str_default (DiameterServerAddress g) "nss-aaa-server:3868") (str_default (DiameterRealm g) "operator.com")
    (str_default (DiameterHost g) "nssaa-gw.operator.com") (str_default (DiameterTransport g) "tcp")
    (RadiusServerAddress g) (RadiusSharedSecret g) (str_default (RedisMode g) "standalone") (VIPAddress g)
    (mkDLQ (default_if_zero (DLQ_MaxRetries (AAAgw_DLQ g)) 10)
       (default_if_zero (PollInterval (AAAgw_DLQ g)) (30 * second))).
Definition default_nrf (n : NRFConfig) : NRFConfig :=
  let hb := NRF_Heartbeat n in
  mkNRF (NRF_BaseURL n) (DiscoverTimeout n) (default_if_zero (CacheTTL n) (5 * minute)) (NRF_InstanceID n)
    (ProfilePath n) (AccessToken n)
    (mkHB (default_if_zero (InitialInterval hb) (5 * minute)) (AcceptNegotiatedInterval hb)
       (default_if_zero (MaxConsecutiveFailures hb) 3))
    (mkDC (CacheEnabled (DiscoveryCache n)) (default_if_zero (DefaultTTL (DiscoveryCache n)) hour)).
Definition default_native (n : NativeCommConfig) : NativeCommConfig :=
  let r := Native_Radius n in
  mkNative (default_if_zero (Native_Timeout n) (30 * second)) (Native_Retry n) (Native_CB n) (Native_Pool n) (Native_TLS n)
    (KeepalivedHealthURL n)
    (mkRad (default_if_zero (Rad_MaxRetries r) 3) (default_if_zero (Rad_Timeout r) (10 * second))
       (default_if_zero (ResponseWindow r) (15 * second))).
Definition default_ausf (nrfURL : string) (a : NFConfig) : NFConfig :=
  mkNF (str_default (NF_BaseURL a) nrfURL) (default_if_zero (NF_Timeout a) (10 * second)).
Definition default_nrm (n : NRMConfig) : NRMConfig :=
  mkNRM (str_default (ListenAddr n) ":8081") (AlarmThresholds n) (NRMURL n)
    (default_if_zero (NRM_ReadTimeout n) 10) (default_if_zero (NRM_WriteTimeout n) 30)
    (default_if_zero (NRM_IdleTimeout n) 120).
Definition default_crypto (c : CryptoConfig) : CryptoConfig :=
  let km := str_default (KeyManager c) keyManagerSoft in
  mkCrypto km
    (if str_eqb km keyManagerSoft && is_empty (MasterKeyHex c) then Getenv "MASTER_KEY_HEX" else MasterKeyHex c)
    (VaultCfg c) (HSMCfg c) (default_if_zero (KEKOverlapDays c) 30).

Definition applyDefaults (c : Config) : Config :=
  mkConfig (Component c) (Version c) (default_server (Server_ c)) (Database c) (default_redis (Redis c))
    (default_eap (EAP c)) (default_aaa (AAA c)) (RateLimit_ c) (Logging c)
    (mkMetrics (MetricsEnabled (Metrics c)) (str_default (MetricsPath (Metrics c)) "/metrics"))
    (default_nrf (NRF c)) (UDM c) (default_ausf (NRF_BaseURL (NRF c)) (AUSF c)) (default_crypto (Crypto_ c))
    
    (mkComm (Mode (InternalComm c)) (default_native (Native (InternalComm c))) (Istio (InternalComm c))) (Debug c) (Biz_ c) (default_aaagw <$> AAAgw c) (HTTPgw c)
    (if str_eqb (Component c) ComponentNRM then default_nrm <$> NRM c else NRM c).
End Defaults.

(** ** Validate

    The first missing field, a wrong length or bad digits of the master key; the
    configuration is returned because the library path of SoftHSM is filled in. *)
Inductive config_error : Type := Required (field : string) | KeyLength (n : Z) | KeyHex.

Definition require (s field : string) : result config_error unit := if is_empty s then Err (Required field) else Ok tt.
Definition validate_biz (c : Config) : result config_error unit :=
  match Biz_ c with
  | None => Err (Required "biz")
  | Some b =>
      let? _ := require (AAAGatewayURL b) "biz.aaaGatewayUrl" in
      if UseMTLS b then
        let? _ := require (TLSCert b) "biz.tlsCert" in
        let? _ := require (TLSKey b) "biz.tlsKey" in
        require (TLSCA b) "biz.tlsCa"
      else Ok tt
  end.
Definition validate_aaagw (c : Config) : result config_error unit :=
  match AAAgw c with
  | None => Err (Required "aaaGateway")
  | Some g => require (AAAgw_BizServiceURL g) "aaaGateway.bizServiceUrl"
  end.
Definition validate_httpgw (c : Config) : result config_error unit :=
  match HTTPgw c with
  | None => Err (Required "httpGateway")
  | Some g =>
      match HTTPgw_TLS g with
      | None => Ok tt
      | Some t => let? _ := require (Cert t) "httpGateway.tls.cert" in require (Key t) "httpGateway.tls.key"
      end
  end.
Definition validate_nrm (c : Config) : result config_error unit :=
  match NRM c with
  | None => Err (Required "nrm")
  | Some n => require (ListenAddr n) "nrm.listenAddr"
  end.
Definition validate_soft (c : CryptoConfig) : result config_error unit :=
  if is_empty (MasterKeyHex c) then Err (Required "crypto.masterKeyHex")
  else if negb (slen (MasterKeyHex c) =? 64) then Err (KeyLength (slen (MasterKeyHex c)))
  else match Hex.DecodeString (MasterKeyHex c) with None => Err KeyHex | Some _ => Ok tt end.
Definition validate_vault (c : CryptoConfig) : result config_error unit :=
  match VaultCfg c with
  | None => Err (Required "crypto.vault")
  | Some v =>
      let? _ := require (Address v) "crypto.vault.address" in
      let? _ := require (KeyName v) "crypto.vault.keyName" in
      let? _ := require (AuthMethod v) "crypto.vault.authMethod" in
      if str_eqb (AuthMethod v) "kubernetes" && is_empty (K8sRole v) then Err (Required "crypto.vault.k8sRole")
      else if str_eqb (AuthMethod v) "token" && is_empty (Token v) && is_empty (TokenFile v)
      then Err (Required "crypto.vault.token") else Ok tt
  end.
Definition validate_hsm (c : CryptoConfig) : result config_error CryptoConfig :=
  match HSMCfg c with
  | None => Err (Required "crypto.softHSM")
  | Some h =>
      let? _ := require (TokenLabel h) "crypto.softHSM.tokenLabel" in
      let? _ := require (PIN h) "crypto.softHSM.pin" in
      Ok (mkCrypto (KeyManager c) (MasterKeyHex c) (VaultCfg c)
            (Some (mkHSM (str_default (LibraryPath h) "/usr/lib/softhsm/libsofthsm2.so") (TokenLabel h) (PIN h)))
            (KEKOverlapDays c))
  end.
Definition validate_crypto (c : CryptoConfig) : result config_error CryptoConfig :=
  if str_eqb (KeyManager c) keyManagerSoft then let? _ := validate_soft c in Ok c
  else if str_eqb (KeyManager c) "vault" then let? _ := validate_vault c in Ok c
  else if str_eqb (KeyManager c) "softhsm" then validate_hsm c
  else Ok c.
Definition set_crypto (c : Config) (k : CryptoConfig) : Config :=
  mkConfig (Component c) (Version c) (Server_ c) (Database c) (Redis c) (EAP c) (AAA c) (RateLimit_ c) (Logging c)
    (Metrics c) (NRF c) (UDM c) (AUSF c) k (InternalComm c) (Debug c) (Biz_ c) (AAAgw c) (HTTPgw c) (NRM c).
Definition Validate (c : Config) : result config_error Config :=
  if str_eqb (Component c) ComponentNRM then let? _ := validate_nrm c in Ok c
  else
    let? _ := (if str_eqb (Component c) ComponentBiz then validate_biz c
               else if str_eqb (Component c) ComponentAAAGateway then validate_aaagw c
               else if str_eqb (Component c) ComponentHTTPGateway then validate_httpgw c
               else Ok tt) in
    let? k := validate_crypto (Crypto_ c) in Ok (set_crypto c k).

(** ** expandEnv

    A placeholder is a dollar sign and, in braces, a non-empty name without brace and
    colon, optionally followed by colon, dash and a default without closing brace (the
    pattern of envVarRegex; its classes leave one way to match).  The leftmost ones are
    replaced by the variable or, when that is empty, by the default. *)
Definition is_char (x : Z) (c : char) : bool := ascii_code c =? x.
Definition dollar := is_char 36.
Definition lbrace := is_char 123.
Definition rbrace := is_char 125.
Definition colon := is_char 58.
Definition dash := is_char 45.

(** The variable, the default and the rest after a placeholder at the head. *)
Definition placeholder (cs : list char) : option (list char * list char * list char) :=
  match cs with
  | d :: b :: t =>
      if dollar d && lbrace b then
        let '(name, rest) := span (fun c => negb (rbrace c || colon c)) t in
        if bool_decide (name = []) then None
        else match rest with
        | c :: rest1 =>
            if rbrace c then Some (name, [], rest1)
            else match rest1 with
            | h :: rest2 =>
                if dash h then
                  let '(dflt, rest3) := span (fun c => negb (rbrace c)) rest2 in
                  match rest3 with _ :: rest4 => Some (name, dflt, rest4) | [] => None end
                else None
            | [] => None
            end
        | [] => None
        end
      else None
  | _ => None
  end.
Fixpoint expand (Getenv : string -> string) (fuel : nat) (cs : list char) : list char :=
  match fuel with
  | O => []
  | S fuel =>
      match cs with
      | [] => []
      | c :: t =>
          match placeholder cs with
          | Some (name, dflt, rest) =>
              let val := Getenv (String.string_of_list_ascii name) in
              (if is_empty val then dflt else chars val) ++ expand Getenv fuel rest
          | None => c :: expand Getenv fuel t
          end
      end
  end.
Definition expandEnv (Getenv : string -> string) (s : string) : string :=
  String.string_of_list_ascii (expand Getenv (S (length (chars s))) (chars s)).

(** ** Load *)
Inductive load_error : Type := ErrRead | ErrParse | ErrInvalid (e : config_error).
Definition Load (Getenv : string -> string) (Unmarshal : string -> option Config) (file : option string)
  : result load_error Config :=
  match file with
  | None => Err ErrRead
  | Some data =>
      match Unmarshal (expandEnv Getenv data) with
      | None => Err ErrParse
      | Some cfg => map_err ErrInvalid (Validate (applyDefaults Getenv cfg))
      end
  end.

(** ** internal/crypto/config.go: the key manager *)
Inductive key_manager : Type := Soft (m : SoftKeyManager) | Vault (v : VaultConfig) | SoftHSM (h : SoftHSMConfig).
Inductive init_error : Type := ErrTwice | ErrNoKey | ErrKeyLength | ErrKeyHex | ErrVault | ErrHSM | ErrUnknownManager.

(** The global key manager before, and after when there is no error. *)
Definition Init (globalKM : option key_manager) (manager keyHex : string) (overlap : Z) (vault : option VaultConfig)
  (hsm : option SoftHSMConfig) : result init_error key_manager :=
  match globalKM with
  | Some _ => Err ErrTwice
  | None =>
      if str_eqb manager "soft" then
        if is_empty keyHex then Err ErrNoKey
        else if negb (slen keyHex =? 64) then Err ErrKeyLength
        else match Hex.DecodeString keyHex with
             | None => Err ErrKeyHex
             | Some key => Ok (Soft (mkSoft key 1 overlap None))
             end
      else if str_eqb manager "vault" then
        match vault with
        | None => Err ErrVault
        | Some v => if is_empty (Address v) || is_empty (KeyName v) then Err ErrVault else Ok (Vault v)
        end
      else if str_eqb manager "softhsm" then match hsm with None => Err ErrHSM | Some h => Ok (SoftHSM h) end
      else Err ErrUnknownManager
  end.
Definition GetKey (km : key_manager) : option bytes := match km with Soft m => Some (masterKey m) | _ => None end.
Definition NewEncryptorFromKeyManager (km : key_manager) : option bytes := GetKey km ≫= NewEncryptor.

(** ** cmd/biz/factory.go *)

(** [s[:8]] is out of range for a text of seven characters that is not [http://]. *)
Definition hasScheme (s : string) : result Empty_set bool :=
  if slen s <? 7 then Ok false
  else if HasPrefix s "http://" then Ok true
  else if slen s <? 8 then Panic
  else Ok (HasPrefix s "https://").
Definition newNFRegistry (cb : CircuitBreakerConfig) : Registry.Registry :=
  Registry.NewRegistry (default_if_zero (CB_FailureThreshold cb) 3) (default_if_zero (CB_RecoveryTimeout cb) (10 * second))
    (default_if_zero (CB_SuccessThreshold cb) 2).
(** Windows in milliseconds. *)
Definition newRateLimiterSet (c : RateLimitConfig) : RateLimit.RateLimiter * RateLimit.RateLimiter :=
  (RateLimit.mkRL 1000 (PerAmfPerSec c), RateLimit.mkRL 60000 (PerGpsiPerMin c)).

Inductive resource : Type := RTracing | RPool | RDebug | RRedis.
Inductive action : Type := Open_ (r : resource) | Close_ (r : resource).
#[global] Instance resource_eq : EqDecision resource.
Proof. solve_decision. Defined.
#[global] Instance action_eq : EqDecision action.
Proof. solve_decision. Defined.

Inductive build_error : Type := ErrPostgres | ErrMigration | ErrCrypto (e : init_error) | ErrEncryptor | ErrRedis.
Record BizPod : Type := mkPod {
  pod_server : ServerConfig; pod_apiRoot : string; pod_key : bytes; pod_amf : RateLimit.RateLimiter;
  pod_gpsi : RateLimit.RateLimiter; pod_registry : Registry.Registry; pod_discovery : string;
  pod_aaa : string; pod_tls : TLSClientConfig }.
(** What connecting meets. *)
Record world : Type := mkWorld { pg_ok : bool; migrate_ok : bool; debug_ok : bool; redis_ok : bool }.

Definition aaa_tls (c : Config) (b : BizConfig) : TLSClientConfig :=
  if UseMTLS b then mkTLSClient (TLSCA b) (TLSCert b) (TLSKey b) "aaa-gateway"
  else default (mkTLSClient estr estr estr estr) (Native_TLS (Native (InternalComm c))).
Definition closing (cleanup : list resource) : list action := Close_ <$> cleanup.

(** The actions on the resources, the outcome, and with a pod the resources that the
    returned cleanup closes, in its order. *)
Definition Build (w : world) (globalKM : option key_manager) (c : Config)
  : list action * result build_error (BizPod * list resource) :=
  let cl := [RTracing] in
  let tr := [Open_ RTracing] in
  match hasScheme (Addr (Server_ c)) with
  | Err _ | Panic => (tr, Panic)
  | Ok scheme =>
  let apiRoot := if scheme then Addr (Server_ c) else "http://" +:+ Addr (Server_ c) in
  if negb (pg_ok w) then (tr ++ closing cl, Err ErrPostgres) else
  let cl := RPool :: cl in
  let tr := tr ++ [Open_ RPool] in
  if negb (migrate_ok w) then (tr ++ closing cl, Err ErrMigration) else
  let k := Crypto_ c in
  match Init globalKM (KeyManager k) (MasterKeyHex k) (KEKOverlapDays k) (VaultCfg k) None with
  | Err e => (tr ++ closing cl, Err (ErrCrypto e))
  | Panic => (tr, Panic)
  | Ok km =>
  match NewEncryptorFromKeyManager km with
  | None => (tr ++ closing cl, Err ErrEncryptor)
  | Some key =>
  let dbg := DebugEnabled (Debug c) && debug_ok w in
  let tr := tr ++ (if dbg then [Open_ RDebug] else []) in
  if negb (redis_ok w) then (tr ++ closing cl, Err ErrRedis) else
  let cl := (if dbg then [RDebug] else []) ++ RRedis :: cl in
  let tr := tr ++ [Open_ RRedis] in
  match HTTPgw c with
  | None => (tr, Panic)
  | Some gw =>
  match Biz_ c with
  | None => (tr, Panic)
  | Some b =>
  let '(amf, gpsi) := newRateLimiterSet (RateLimit_ c) in
  (tr, Ok (mkPod (Server_ c) apiRoot key amf gpsi (newNFRegistry (Native_CB (Native (InternalComm c))))
             (str_default (DiscoveryURL gw) "http://172.0.3.14:8443") (AAAGatewayURL b) (aaa_tls c b), cl))
  end end end end end.

(** cmd/biz/main.go up to the running server. *)
Inductive start_error : Type := ErrLoad (e : load_error) | ErrComponent (got : string) | ErrBuild (e : build_error).
Definition start (Getenv : string -> string) (Unmarshal : string -> option Config) (file : option string) (w : world)
  : result start_error BizPod :=
  let? c := map_err ErrLoad (Load Getenv Unmarshal file) in
  if negb (str_eqb (Component c) ComponentBiz) then Err (ErrComponent (Component c))
  else map_err ErrBuild (rmap fst (snd (Build w None c))).

(** ** Defaults and checks are stable *)
Lemma str_default_idem s d : str_default (str_default s d) d = str_default s d.
Proof. unfold str_default. destruct s; [|done]. by destruct d. Qed.
Lemma default_if_zero_idem v d : default_if_zero (default_if_zero v d) d = default_if_zero v d.
Proof. unfold default_if_zero. destruct (v =? 0) eqn:E; [|by rewrite E]. by destruct (d =? 0). Qed.
#[local] Hint Rewrite str_default_idem default_if_zero_idem : config.

Lemma default_redis_idem r : default_redis (default_redis r) = default_redis r.
Proof.
  unfold default_redis. cbn. autorewrite with config. f_equal. unfold str_default.
  destruct (is_empty (Redis_Addr r)) eqn:E; cbn.
  - destruct (default estr (head (Redis_Addrs r))) eqn:Ed; done.
  - by rewrite !E.
Qed.
Lemma default_crypto_idem Getenv c : default_crypto Getenv (default_crypto Getenv c) = default_crypto Getenv c.
Proof.
  unfold default_crypto. cbn. autorewrite with config. f_equal.
  destruct (str_eqb _ keyManagerSoft); [|done]. cbn. destruct (is_empty (MasterKeyHex c)) eqn:E; [|by rewrite E].
  by destruct (Getenv _).
Qed.
Lemma default_option_idem {A} (f : A -> A) (o : option A) : (forall a, f (f a) = f a) -> f <$> (f <$> o) = f <$> o.
Proof. intros H. destruct o; [|done]. cbn. by rewrite H. Qed.
Lemma applyDefaults_idem Getenv c : applyDefaults Getenv (applyDefaults Getenv c) = applyDefaults Getenv c.
Proof.
  unfold applyDefaults. cbn -[default_redis default_crypto fmap]. rewrite default_redis_idem, default_crypto_idem.
  unfold default_server, default_eap, default_aaa, default_ausf. cbn -[default_redis default_crypto fmap].
  autorewrite with config. f_equal.
  - unfold default_nrf. cbn. by autorewrite with config.
  - unfold default_native. cbn. by autorewrite with config.
  - apply default_option_idem. intros g. unfold default_aaagw. cbn. by autorewrite with config.
  - destruct (str_eqb _ _); [|done]. apply default_option_idem. intros n. unfold default_nrm. cbn. by autorewrite with config.
Qed.

Lemma validate_crypto_stable k k' :
  validate_crypto k = Ok k' ->
  validate_crypto k' = Ok k' /\ KeyManager k' = KeyManager k /\ MasterKeyHex k' = MasterKeyHex k
  /\ KEKOverlapDays k' = KEKOverlapDays k /\ VaultCfg k' = VaultCfg k.
Proof.
  unfold validate_crypto. destruct (str_eqb (KeyManager k) keyManagerSoft) eqn:Es.
  { destruct (validate_soft k) eqn:E; try discriminate. intros [= <-]. by rewrite Es, E. }
  destruct (str_eqb (KeyManager k) "vault") eqn:Ev.
  { destruct (validate_vault k) eqn:E; try discriminate. intros [= <-]. by rewrite Es, Ev, E. }
  destruct (str_eqb (KeyManager k) "softhsm") eqn:Eh.
  - unfold validate_hsm. destruct (HSMCfg k) as [h|]; [|discriminate]. unfold require.
    destruct (is_empty (TokenLabel h)) eqn:E1; [discriminate|]. destruct (is_empty (PIN h)) eqn:E2; [discriminate|].
    cbn. intros [= <-]. cbn. rewrite Es, Ev, Eh, E1, E2. cbn. by rewrite str_default_idem.
  - intros [= <-]. by rewrite Es, Ev, Eh.
Qed.
Lemma Validate_cases c c' :
  Validate c = Ok c' ->
  Validate c' = Ok c'
  /\ (c' = c \/ exists k, validate_crypto (Crypto_ c) = Ok k /\ c' = set_crypto c k).
Proof.
  intros H. assert (Hc := H). unfold Validate in H. destruct (str_eqb (Component c) ComponentNRM) eqn:En.
  { destruct (validate_nrm c) as [u| |] eqn:E; try discriminate H. injection H as <-. split; [done|by left]. }
  destruct (validate_crypto (Crypto_ c)) as [k| |] eqn:Ek; [|by destruct (if str_eqb (Component c) ComponentBiz then _ else _)..].
  assert (c' = set_crypto c k) as ->.
  { destruct (if str_eqb (Component c) ComponentBiz then _ else _); [|discriminate H..]. by injection H as <-. }
  split; [|right; by exists k]. destruct (validate_crypto_stable _ _ Ek) as [Hk _].
  unfold Validate. cbn [Component set_crypto Crypto_]. rewrite En.
  change (validate_biz (set_crypto c k)) with (validate_biz c). change (validate_aaagw (set_crypto c k)) with (validate_aaagw c).
  change (validate_httpgw (set_crypto c k)) with (validate_httpgw c). rewrite Hk.
  destruct (if str_eqb (Component c) ComponentBiz then _ else _); [done|discriminate H..].
Qed.
Lemma default_crypto_fixed Getenv k k' :
  default_crypto Getenv k = k -> KeyManager k' = KeyManager k -> MasterKeyHex k' = MasterKeyHex k ->
  KEKOverlapDays k' = KEKOverlapDays k -> default_crypto Getenv k' = k'.
Proof.
  intros H H1 H2 H3. destruct k as [km mk v h d], k' as [km' mk' v' h' d']. cbn in *. subst.
  unfold default_crypto in *. cbn in *. injection H as Hk Hm Hd. by rewrite Hm, Hd, Hk.
Qed.

Lemma hex_decode_length cs bs : Hex.decode cs = Some bs -> length cs = (2 * length bs)%nat.
Proof.
  revert bs. induction cs as [cs IH] using (induction_ltof1 _ (@length char)). intros bs.
  destruct cs as [|h [|l t]]; [by intros [= <-]|done|]. cbn [Hex.decode].
  destruct (Hex.dec_char h), (Hex.dec_char l); try done. destruct (Hex.decode t) as [r|] eqn:E; [|done].
  intros [= <-]. apply IH in E; [cbn [length]; lia|unfold ltof; cbn; lia].
Qed.

(** A soft key that passes the checks is a key of 32 bytes. *)
Lemma validate_soft_key k :
  validate_soft k = Ok tt -> exists key, Hex.DecodeString (MasterKeyHex k) = Some key /\ length key = 32%nat
    /\ is_empty (MasterKeyHex k) = false /\ slen (MasterKeyHex k) = 64.
Proof.
  unfold validate_soft. destruct (is_empty (MasterKeyHex k)); [done|].
  destruct (slen (MasterKeyHex k) =? 64) eqn:El; [|done]. zbool.
  destruct (Hex.DecodeString (MasterKeyHex k)) as [key|] eqn:E; [|done]. intros _. exists key. split_and!; [done| |done..].
  apply hex_decode_length in E. rewrite slen_chars in El. unfold chars in El. lia.
Qed.

Lemma str_default_nonempty s d : d <> estr -> str_default s d <> estr.
Proof. unfold str_default. by destruct s. Qed.
Lemma default_nonzero v d : d <> 0 -> default_if_zero v d <> 0.
Proof. intros Hn. unfold default_if_zero. by destruct (Z.eqb_spec v 0). Qed.
#[local] Hint Resolve str_default_nonempty default_nonzero : config.

Lemma Load_inv Getenv Unmarshal file c :
  Load Getenv Unmarshal file = Ok c -> Validate c = Ok c /\ applyDefaults Getenv c = c.
Proof.
  unfold Load. destruct file as [data|]; [|done]. destruct (Unmarshal _) as [raw|]; [|done].
  destruct (Validate (applyDefaults Getenv raw)) as [c'| |] eqn:Ev; [|done..]. intros [= ->].
  destruct (Validate_cases _ _ Ev) as [Hv Hc]. split; [done|].
  destruct Hc as [->|(k & Hk & ->)]; [apply applyDefaults_idem|].
  pose proof (applyDefaults_idem Getenv raw) as Hi. destruct (validate_crypto_stable _ _ Hk) as (_ & H1 & H2 & H3 & _).
  set (d := applyDefaults Getenv raw) in *. clearbody d.
  assert (Hkk := f_equal Crypto_ Hi). apply (default_crypto_fixed Getenv _ k) in Hkk; [|done..].
  change (applyDefaults Getenv (set_crypto d k)) with (set_crypto (applyDefaults Getenv d) (default_crypto Getenv k)).
  by rewrite Hkk, Hi.
Qed.
(** What a valid configuration says about its own section and its key. *)
Lemma Validate_soft c :
  Validate c = Ok c -> Component c <> ComponentNRM -> KeyManager (Crypto_ c) = keyManagerSoft ->
  exists key, length key = 32%nat /\ Hex.DecodeString (MasterKeyHex (Crypto_ c)) = Some key
    /\ forall v h, Init None (KeyManager (Crypto_ c)) (MasterKeyHex (Crypto_ c)) (KEKOverlapDays (Crypto_ c)) v h
                   = Ok (Soft (mkSoft key 1 (KEKOverlapDays (Crypto_ c)) None)).
Proof.
  intros Hv Hn Hs. unfold Validate in Hv. rewrite (str_eqb_false _ _ Hn) in Hv.
  destruct (if str_eqb (Component c) ComponentBiz then _ else _); [|discriminate Hv..]. cbn [rbind] in Hv.
  unfold validate_crypto in Hv. rewrite Hs in Hv. change (str_eqb keyManagerSoft keyManagerSoft) with true in Hv.
  destruct (validate_soft (Crypto_ c)) as [[]| |] eqn:Es; [|discriminate Hv..].
  destruct (validate_soft_key _ Es) as (key & Hk & Hl & He & H64). exists key. split_and!; [done..|]. intros v h.
  unfold Init. rewrite Hs. cbn. by rewrite He, H64, Hk.
Qed.
Lemma Validate_biz c : Validate c = Ok c -> Component c = ComponentBiz -> is_Some (Biz_ c).
Proof.
  intros Hv Hc. unfold Validate in Hv. rewrite Hc in Hv. cbn in Hv. unfold validate_biz in Hv. by destruct (Biz_ c).
Qed.

(** A loaded configuration is complete.  Filling in defaults and checking it again
    changes nothing; every timeout and limit that has a default is set; and unless it is
    the one of the NRM, which has no keys, a soft key manager can be built from it, with
    the 32 bytes of the master key. *)
Theorem load_complete Getenv Unmarshal file c :
  Load Getenv Unmarshal file = Ok c ->
  Validate (applyDefaults Getenv c) = Ok c /\ applyDefaults Getenv c = c
  /\ Addr (Server_ c) <> estr /\ MaxRounds (EAP c) <> 0 /\ PoolSize (Redis c) <> 0 /\ Redis_Addr (Redis c) <> estr
  /\ (Component c <> ComponentNRM -> KeyManager (Crypto_ c) = keyManagerSoft ->
      exists key, length key = 32%nat /\ Hex.DecodeString (MasterKeyHex (Crypto_ c)) = Some key
        /\ forall v h, Init None (KeyManager (Crypto_ c)) (MasterKeyHex (Crypto_ c)) (KEKOverlapDays (Crypto_ c)) v h
                       = Ok (Soft (mkSoft key 1 (KEKOverlapDays (Crypto_ c)) None))).
Proof.
  intros [Hv Hd]%Load_inv. split; [by rewrite Hd|]. split; [done|].
  split_and!; [rewrite <- Hd; cbn; auto with config..|]. by apply Validate_soft.
Qed.

(** The resources that a trace leaves open. *)
Definition left_open (tr : list action) : list resource :=
  foldl (fun open a => match a with Open_ r => r :: open | Close_ r => filter (fun x => x <> r) open end) [] tr.

(** What [Build] leaves open.  When it returns an error everything it opened is
    closed again, but for the connection of the debug store when Redis cannot be
    reached; when it returns a pod the cleanup it returns closes exactly what is open. *)
Theorem build_resources w globalKM c :
  let '(tr, res) := Build w globalKM c in
  match res with
  | Err e => left_open tr = match e with
                            | ErrRedis => if DebugEnabled (Debug c) && debug_ok w then [RDebug] else []
                            | _ => []
                            end
  | Ok (_, cleanup) => left_open tr ≡ₚ cleanup /\ left_open (tr ++ closing cleanup) = []
  | Panic => RTracing ∈ left_open tr
  end.
Proof.
  unfold Build. destruct (hasScheme _); [|by left..].
  destruct (pg_ok w); cbn [negb]; [|done]. destruct (migrate_ok w); cbn [negb]; [|done].
  destruct (Init _ _ _ _ _ _) as [km|e|]; [|done|by right; left].
  destruct (NewEncryptorFromKeyManager km); [|done].
  destruct (redis_ok w), (DebugEnabled (Debug c) && debug_ok w); cbn [negb]; try done;
    (destruct (HTTPgw c); [|set_solver]); (destruct (Biz_ c); [|set_solver]); cbn; (split; [|done]).
  - apply (Permutation_swap RDebug RRedis).
  - done.
Qed.

(** [hasScheme] fails on the seven-character addresses. *)
Lemma hasScheme_panics s : hasScheme s = Panic <-> slen s = 7 /\ HasPrefix s "http://" = false.
Proof.
  unfold hasScheme. destruct (slen s <? 7) eqn:E1; zbool; [split; [done|lia]|].
  destruct (HasPrefix s "http://"); [by split; [|intros [_ ?]]|].
  destruct (slen s <? 8) eqn:E2; zbool; (split; [|done || lia]); [intros _; split; [lia|done]|done].
Qed.

(** Which loaded configurations the Biz Pod starts with, once the database and Redis
    are reachable: those with the soft key manager, a section of the HTTP gateway, and a
    listen address for which the test of the scheme does not fail.  The pod then
    encrypts sessions with the master key. *)
Theorem biz_starts_iff Getenv Unmarshal file w c :
  Load Getenv Unmarshal file = Ok c -> Component c = ComponentBiz ->
  pg_ok w = true -> migrate_ok w = true -> redis_ok w = true ->
  ((exists pod, start Getenv Unmarshal file w = Ok pod) <->
   KeyManager (Crypto_ c) = keyManagerSoft /\ HTTPgw c <> None /\ hasScheme (Addr (Server_ c)) <> Panic)
  /\ (forall pod, start Getenv Unmarshal file w = Ok pod ->
       Hex.DecodeString (MasterKeyHex (Crypto_ c)) = Some (pod_key pod) /\ length (pod_key pod) = 32%nat).
Proof.
  intros Hl Hc Hp Hm Hr. destruct (Load_inv _ _ _ _ Hl) as [Hv _].
  destruct (Validate_biz c Hv Hc) as [b Hb].
  assert (Hst : start Getenv Unmarshal file w = map_err ErrBuild (rmap fst (snd (Build w None c))))
    by (unfold start; rewrite Hl; cbn [map_err rbind]; by rewrite Hc).
  rewrite Hst. clear Hst Hl.
  destruct (decide (KeyManager (Crypto_ c) = keyManagerSoft)) as [Hs|Hs].
  - destruct (Validate_soft c Hv) as (key & Hlen & Hk & Hi); [by rewrite Hc|done|].
    unfold Build. rewrite Hp, Hm, Hr, Hi, Hb. cbn [negb NewEncryptorFromKeyManager GetKey masterKey mbind option_bind].
    unfold NewEncryptor, len. rewrite Hlen. change (Z.of_nat 32 =? 32) with true.
    destruct (hasScheme _) as [scheme|[]|]; cbn.
    2: by split; [split; [intros [? [=]]|intros (_ & _ & ?)]|].
    destruct (HTTPgw c) as [gw|]; cbn.
    + split; [split; [by intros _|by eexists]|]. intros pod [= <-]. done.
    + split; [split; [by intros [? [=]]|by intros (_ & ? & _)]|done].
  - assert (Hn : forall pod, map_err ErrBuild (rmap fst (snd (Build w None c))) = Ok pod -> False).
    { intros pod. unfold Build. destruct (hasScheme _); [|done..]. rewrite Hp, Hm. cbn [negb].
      unfold Init. rewrite (str_eqb_false _ "soft" Hs). destruct (str_eqb _ "vault").
      - destruct (VaultCfg _) as [v|]; [|done]. by destruct (_ || _).
      - by destruct (str_eqb _ "softhsm"). }
    split; [split; [intros [pod H]; by apply Hn in H|by intros [? _]]|]. intros pod H. by apply Hn in H.
Qed.

(** Without a section of rate limits the limits are zero, and the pod refuses every
    request that is counted. *)
Lemma unset_limits_refuse c now st key :
  PerAmfPerSec c <= 0 -> PerGpsiPerMin c <= 0 ->
  snd (RateLimit.allow (fst (newRateLimiterSet c)) now st key) = false
  /\ snd (RateLimit.allow (snd (newRateLimiterSet c)) now st key) = false.
Proof. intros H1 H2. cbn. split; apply Z.ltb_ge; lia. Qed.

(** ** Placeholders *)
Lemma span_length p cs a b : span p cs = (a, b) -> (length b <= length cs)%nat.
Proof.
  revert a b. induction cs as [|c cs IH]; cbn; intros a b.
  - by intros [= <- <-].
  - destruct (p c); [|by intros [= <- <-]]. destruct (span p cs) as [a' b'] eqn:E. intros [= <- <-].
    specialize (IH _ _ eq_refl). lia.
Qed.
Lemma placeholder_shorter cs n d rest : placeholder cs = Some (n, d, rest) -> (length rest < length cs)%nat.
Proof.
  unfold placeholder. destruct cs as [|c1 [|c2 t]]; [done..|]. destruct (dollar c1 && lbrace c2); [|done].
  destruct (span _ t) as [name r] eqn:E1. apply span_length in E1. case_bool_decide; [done|].
  destruct r as [|c r1]; [done|]. destruct (rbrace c); [intros [= <- <- <-]; cbn in *; lia|].
  destruct r1 as [|h r2]; [done|]. destruct (dash h); [|done]. destruct (span _ r2) as [df r3] eqn:E2.
  apply span_length in E2. destruct r3; [done|]. intros [= <- <- <-]. cbn in *. lia.
Qed.
(** The fuel of [expandEnv] is enough: more of it changes nothing. *)
Lemma expand_fuel Getenv f1 f2 cs : (length cs < f1)%nat -> (length cs < f2)%nat -> expand Getenv f1 cs = expand Getenv f2 cs.
Proof.
  revert f2 cs. induction f1 as [|f1 IH]; intros f2 cs H1 H2; [lia|]. destruct f2 as [|f2]; [lia|]. cbn [expand].
  destruct cs as [|c t]; [done|]. destruct (placeholder (c :: t)) as [[[n d] rest]|] eqn:E.
  - apply placeholder_shorter in E. f_equal. apply IH; lia.
  - f_equal. cbn in *. apply IH; lia.
Qed.
Lemma expand_plain Getenv f pre cs :
  Forall (fun c => dollar c = false) pre -> (length (pre ++ cs) < f)%nat ->
  expand Getenv f (pre ++ cs) = pre ++ expand Getenv f cs.
Proof.
  intros Hp. revert f. induction Hp as [|c pre Hc Hp IH]; intros f Hf; [done|]. destruct f as [|f]; [lia|]. cbn in Hf.
  cbn [app expand]. assert (placeholder (c :: pre ++ cs) = None) as ->.
  { cbn. destruct (pre ++ cs); [done|]. by rewrite Hc. }
  f_equal. rewrite IH by lia. f_equal. apply (expand_fuel Getenv f (S f)); rewrite length_app in Hf; lia.
Qed.

Definition name_ok (name : string) : Prop :=
  name <> estr /\ forallb (fun c => negb (rbrace c || colon c)) (chars name) = true.
Definition dflt_ok (d : string) : Prop := forallb (fun c => negb (rbrace c)) (chars d) = true.
Definition plain (s : string) : Prop := Forall (fun c => dollar c = false) (chars s).

Lemma placeholder_default name d post :
  name_ok name -> dflt_ok d ->
  placeholder (chars ("${" +:+ name +:+ ":-" +:+ d +:+ "}" +:+ post)) = Some (chars name, chars d, chars post).
Proof.
  intros [Hn Hf] Hd. rewrite !chars_app. change (chars "${") with ["$"%char; "{"%char].
  change (chars ":-") with [":"%char; "-"%char]. change (chars "}") with ["}"%char].
  unfold placeholder. cbn [app]. change (dollar "$" && lbrace "{") with true. cbv iota.
  rewrite span_app by done. rewrite bool_decide_eq_false_2 by (intros H; apply Hn; by apply chars_inj).
  change (rbrace ":") with false. change (dash "-") with true. cbv iota. by rewrite span_app.
Qed.
Lemma placeholder_simple name post :
  name_ok name -> placeholder (chars ("${" +:+ name +:+ "}" +:+ post)) = Some (chars name, [], chars post).
Proof.
  intros [Hn Hf]. rewrite !chars_app. change (chars "${") with ["$"%char; "{"%char]. change (chars "}") with ["}"%char].
  unfold placeholder. cbn [app]. change (dollar "$" && lbrace "{") with true. cbv iota.
  rewrite span_app by done. by rewrite bool_decide_eq_false_2 by (intros H; apply Hn; by apply chars_inj).
Qed.

Lemma expandEnv_plain Getenv pre s : plain pre -> expandEnv Getenv (pre +:+ s) = pre +:+ expandEnv Getenv s.
Proof.
  intros Hp. unfold expandEnv. apply chars_inj. rewrite !chars_app, !chars_of_list.
  rewrite expand_plain; [|done|lia]. f_equal. apply expand_fuel; rewrite ?length_app; lia.
Qed.
Lemma expandEnv_head Getenv s n d post :
  placeholder (chars s) = Some (n, d, chars post) ->
  expandEnv Getenv s =
    String.string_of_list_ascii (if is_empty (Getenv (String.string_of_list_ascii n)) then d
                                 else chars (Getenv (String.string_of_list_ascii n))) +:+ expandEnv Getenv post.
Proof.
  intros H. unfold expandEnv. apply chars_inj. rewrite chars_app, !chars_of_list. cbn [expand].
  destruct (chars s) as [|c t] eqn:E; [done|]. rewrite H. f_equal. apply placeholder_shorter in H.
  apply (expand_fuel Getenv _ (S (length (chars post)))); lia.
Qed.

(** The placeholders of the configuration file.  Text without a dollar sign is left
    as it is; a placeholder after it is replaced by the variable when that is set and
    not empty, else by its default, or by nothing; what was inserted is not expanded
    again, and the rest is expanded the same way. *)
Theorem expandEnv_spec Getenv pre name d post :
  plain pre -> name_ok name -> dflt_ok d ->
  expandEnv Getenv pre = pre
  /\ expandEnv Getenv (pre +:+ "${" +:+ name +:+ ":-" +:+ d +:+ "}" +:+ post)
     = pre +:+ str_default (Getenv name) d +:+ expandEnv Getenv post
  /\ expandEnv Getenv (pre +:+ "${" +:+ name +:+ "}" +:+ post)
     = pre +:+ Getenv name +:+ expandEnv Getenv post.
Proof.
  intros Hp Hn Hd. split; [|split].
  - unfold expandEnv. apply chars_inj. rewrite chars_of_list, <- (app_nil_r (chars pre)).
    rewrite expand_plain; [done|done|lia].
  - rewrite expandEnv_plain, (expandEnv_head _ _ _ _ _ (placeholder_default name d post Hn Hd)) by done.
    apply chars_inj. rewrite !chars_app, !chars_of_list, string_of_chars. unfold str_default. by destruct (is_empty _).
  - rewrite expandEnv_plain, (expandEnv_head _ _ _ _ _ (placeholder_simple name post Hn)) by done.
    apply chars_inj. rewrite !chars_app, !chars_of_list, string_of_chars. by destruct (Getenv name).
Qed.

(** ** Witnesses *)
Definition env0 (v : string) : string :=
  if str_eqb v "MASTER_KEY_HEX" then "000102030405060708090a0b0c0d0e0f101112131415161718191a1b1c1d1e1f" else estr.
Definition raw (gw : option HTTPgwConfig) (addr : string) : Config :=
  mkConfig "biz" "1" (mkServer addr 0 0 0) (mkDB "db" 5432 "n" "u" "p" 4 1 0 "disable") (mkRedis estr [] estr 0 0)
    (mkEAP 0 0 0) (mkAAA 0 0 0 0) (mkRate 10 100 1000) (mkLogging "info" "json") (mkMetrics true estr)
    (mkNRF "http://nrf" 0 0 estr estr (mkToken false estr estr estr estr) (mkHB 0 false 0) (mkDC true 0))
    (mkNF estr 0) (mkNF estr 0) (mkCrypto estr estr None None 0)
    (mkComm "native" (mkNative 0 (mkRetry 3 1 2) (mkCBC 0 0 0) (mkPool 1 1 1 1) None estr (mkRad 0 0 0)) (mkIstio estr))
    (mkDebug false estr 0 0)
    (Some (mkBiz "http://gw:9090" false estr estr estr None (mkRouting None [] []))) None gw None.
Definition up : world := mkWorld true true true true.
Definition gw0 : option HTTPgwConfig := Some (mkHTTPgw estr estr None None).

Lemma load_complete_witness :
  exists c, Load env0 (fun _ => Some (raw gw0 estr)) (Some "x") = Ok c /\ Addr (Server_ c) <> estr.
Proof.
  eexists. split; [vm_compute; reflexivity|].
  match goal with |- Addr (Server_ ?c) <> _ => destruct (load_complete env0 (fun _ => Some (raw gw0 estr)) (Some "x") c) as (_ & _ & H & _) end.
  - vm_compute. reflexivity.
  - exact H.
Defined.
Lemma biz_starts_iff_witness :
  exists c, Load env0 (fun _ => Some (raw None estr)) (Some "x") = Ok c
    /\ ~ exists pod, start env0 (fun _ => Some (raw None estr)) (Some "x") up = Ok pod.
Proof.
  eexists. split; [vm_compute; reflexivity|].
  destruct (biz_starts_iff env0 (fun _ => Some (raw None estr)) (Some "x") up
              (applyDefaults env0 (raw None estr))) as [H _]; [vm_compute; reflexivity|reflexivity..|].
  intros Hp. apply H in Hp as (_ & Hn & _). by apply Hn.
Defined.
Lemma expandEnv_spec_witness :
  expandEnv env0 ("url: " +:+ "${" +:+ "URL" +:+ ":-" +:+ "http://x" +:+ "}" +:+ "/y") = "url: http://x/y".
Proof.
  destruct (expandEnv_spec env0 "url: " "URL" "http://x" "/y") as (_ & H & _).
  - by repeat constructor.
  - by split.
  - done.
  - rewrite H. vm_compute. reflexivity.
Defined.

(** A configuration that passes all checks with which the pod does not start. *)
Example seven_characters :
  is_Ok (Load env0 (fun _ => Some (raw gw0 "[::]:80")) (Some "x")) = true
  /\ start env0 (fun _ => Some (raw gw0 "[::]:80")) (Some "x") up = Panic.
Proof. vm_compute. done. Qed.
Example with_gateway : is_Ok (start env0 (fun _ => Some (raw gw0 estr)) (Some "x") up) = true.
Proof. vm_compute. done. Qed.
