(* ===== verification/Middleware.v ===== *)
(** * The HTTP surface of the Biz Pod

    internal/api/common/middleware.go, context.go: the layers around the handlers, over a
    model of [http.ResponseWriter]; cmd/biz/main.go, factory.go: the internal endpoints
    and the composition of layers and routes.  A handler is a function of the request,
    the request identifier of its context and the state of the response; it may panic.
    Generated identifiers and clocks are arguments; log and metric records are part of
    the state.  Request paths are taken to be clean ([http.ServeMux] redirects others). *)
From S2P Require Import Prelude Regex Common Json NrfServer UdmServer.
Import Problem Validator.
Local Open Scope string_scope.
Local Open Scope Z_scope.
Local Open Scope list_scope.

(** ** http.Request and http.ResponseWriter *)
Record request : Type := mkReq {
  Method : string; Path : string; RemoteAddr : string; Header : gmap string string; ContentLength : Z; Body : bytes }.
Definition header (r : request) (k : string) : string := default estr (Header r !! k).

Inductive chunk : Type := CProblem (p : ProblemDetails) | CJson (v : json) | CText (s : string).
Record log_entry : Type := mkLog { log_method : string; log_path : string; log_status : Z; log_request_id : string }.
Record sample : Type := mkSample { sm_service : string; sm_endpoint : string; sm_method : string; sm_status : string }.
Record event : Type := mkEvent { ev_op : string; ev_gpsi : string; ev_supi : string; ev_status : string }.

(** The headers set so far, what was sent (status and headers, fixed at the first write),
    the body, the codes given to [WriteHeader], and the records of the layers. *)
Record state : Type := mkState {
  hdr : gmap string string; sent : option (Z * gmap string string); body : list chunk; codes : list Z;
  logs : list log_entry; samples : list sample; events : list event }.
Definition fresh_state : state := mkState ∅ None [] [] [] [] [].

Definition set_header (k v : string) (s : state) : state :=
  mkState (<[k := v]> (hdr s)) (sent s) (body s) (codes s) (logs s) (samples s) (events s).
Definition send (code : Z) (s : state) : option (Z * gmap string string) :=
  match sent s with Some x => Some x | None => Some (code, hdr s) end.
(** [WriteHeader] takes effect once; the wrappers see every call. *)
Definition WriteHeader (code : Z) (s : state) : state :=
  mkState (hdr s) (send code s) (body s) (codes s ++ [code]) (logs s) (samples s) (events s).
Definition Write (c : chunk) (s : state) : state :=
  mkState (hdr s) (send 200 s) (body s ++ [c]) (codes s) (logs s) (samples s) (events s).
Definition add_log (e : log_entry) (s : state) : state :=
  mkState (hdr s) (sent s) (body s) (codes s) (logs s ++ [e]) (samples s) (events s).
Definition add_sample (e : sample) (s : state) : state :=
  mkState (hdr s) (sent s) (body s) (codes s) (logs s) (samples s ++ [e]) (events s).
Definition Emit (e : event) (s : state) : state :=
  mkState (hdr s) (sent s) (body s) (codes s) (logs s) (samples s) (events s ++ [e]).

(** The request, the request identifier of the context (empty when there is none) and
    the state; the flag is true when the handler panicked. *)
Definition handler : Type := request -> string -> state -> state * bool.

Definition HeaderContentType : string := "Content-Type".
Definition HeaderXRequestID : string := "X-Request-ID".
Definition MediaTypeProblemJSON : string := "application/problem+json".
Definition MediaTypeJSONVersion : string := "application/json; charset=utf-8".

(** ** middleware.go *)
Definition RequestIDMiddleware (uuid : string) (next : handler) : handler := fun r ctx s =>
  let reqID := if is_empty (header r HeaderXRequestID) then uuid else header r HeaderXRequestID in
  next r reqID (set_header HeaderXRequestID reqID s).

(** The status a [responseWriter] created in state [s] holds in state [s']. *)
Definition captured (s s' : state) : Z := default 200 (last (drop (length (codes s)) (codes s'))).

Definition LoggingMiddleware (next : handler) : handler := fun r ctx s =>
  let '(s', panicked) := next r ctx s in
  if panicked then (s', true) else (add_log (mkLog (Method r) (Path r) (captured s s') ctx) s', false).

Definition WriteProblem (p : ProblemDetails) (s : state) : state :=
  Write (CProblem p) (WriteHeader (pd_status p) (set_header HeaderContentType MediaTypeProblemJSON s)).
Definition WriteJSON (status : Z) (v : json) (s : state) : state :=
  Write (CJson v) (WriteHeader status (set_header HeaderContentType MediaTypeJSONVersion s)).

Definition RecoveryMiddleware (next : handler) : handler := fun r ctx s =>
  let '(s', panicked) := next r ctx s in
  if panicked then
    (Write (CProblem (InternalServerProblem "An unexpected error occurred"))
       (WriteHeader 500 (set_header HeaderContentType MediaTypeProblemJSON s')), false)
  else (s', false).

Definition cors_headers (s : state) : state :=
  set_header "Access-Control-Allow-Headers" ("Content-Type, Authorization, " +:+ HeaderXRequestID)
    (set_header "Access-Control-Allow-Methods" "GET, POST, PUT, DELETE, OPTIONS"
       (set_header "Access-Control-Allow-Origin" "*" s)).
Definition CORSMiddleware (next : handler) : handler := fun r ctx s =>
  if HasPrefix (Path r) "/oam" then
    if str_eqb (Method r) "OPTIONS" then (WriteHeader 204 (cors_headers s), false) else next r ctx (cors_headers s)
  else next r ctx s.

Definition statusLabel (code : Z) : string :=
  if (200 <=? code) && (code <? 300) then "2xx"
  else if (300 <=? code) && (code <? 400) then "3xx"
  else if (400 <=? code) && (code <? 500) then "4xx"
  else if 500 <=? code then "5xx"
  else "unknown".

Definition slash : char := Ascii.ascii_of_N 47.
(** What comes before the last slash, if there is one. *)
Fixpoint before_last_slash (cs : list char) : option (list char) :=
  match cs with
  | [] => None
  | c :: t => match before_last_slash t with Some p => Some (c :: p) | None => if is_slash c then Some [] else None end
  end.
Definition stripAPIversion (path : string) : string :=
  let path := TrimSuffix path "/" in
  match before_last_slash (chars path) with
  | Some p =>
      let candidate := String.string_of_list_ascii p in
      if HasSuffix candidate "/v1" || HasSuffix candidate "/v2" then candidate else path
  | None => path
  end.
Definition inferService (path : string) : string :=
  if HasPrefix path "/nnssaaf-nssaa" then "nssaa"
  else if HasPrefix path "/nnssaaf-aiw" then "aiw"
  else if HasPrefix path "/aaa" then "internal"
  else "oam".
Definition MetricsMiddleware (next : handler) : handler := fun r ctx s =>
  let '(s', panicked) := next r ctx s in
  if panicked then (s', true)
  else (add_sample (mkSample (inferService (Path r)) (stripAPIversion (Path r)) (Method r) (statusLabel (captured s s'))) s',
        false).

Section Debug.
(** [json.Unmarshal] of a body. *)
Context (Unmarshal : bytes -> option json).

Definition as_string (v : option json) : option string := match v with Some (JStr s) => Some s | _ => None end.
Definition ExtractSubscriber (b : bytes) : string * string :=
  match Unmarshal b ≫= fields with
  | None => (estr, estr)
  | Some m =>
      match as_string (map_key m "gpsi") with
      | Some v => (v, estr)
      | None => match as_string (map_key m "supi") with Some v => (estr, v) | None => (estr, estr) end
      end
  end.
(** The subscriber of a request, and the request with the body the handler will read. *)
Definition peek (r : request) : string * string * request :=
  if negb (is_empty (header r "X-NSSAA-GPSI")) then (header r "X-NSSAA-GPSI", estr, r)
  else if negb (is_empty (header r "X-NSSAA-SUPI")) then (estr, header r "X-NSSAA-SUPI", r)
  else if negb (ContentLength r =? 0) then
    let b := take (Z.to_nat (2 ^ 20)) (Body r) in
    let '(gpsi, supi) := ExtractSubscriber b in
    (gpsi, supi, mkReq (Method r) (Path r) (RemoteAddr r) (Header r) (ContentLength r) b)
  else (estr, estr, r).
(** [enabled] is false for a nil or disabled debug store. *)
Definition DebugMiddleware (enabled : bool) (next : handler) : handler := fun r ctx s =>
  if negb enabled then next r ctx s
  else
    let '(gpsi, supi, r) := peek r in
    let '(s', panicked) := next r ctx (Emit (mkEvent "http.request" gpsi supi estr) s) in
    if panicked then (s', true)
    else (Emit (mkEvent "http.request.exit" gpsi supi (statusLabel (captured s s'))) s', false).
End Debug.
Definition clientIP (r : request) : string :=
  if is_empty (header r "X-Forwarded-For") then RemoteAddr r else header r "X-Forwarded-For".

(** ** cmd/biz/main.go: internal endpoints *)
Definition http_Error (text : string) (code : Z) (s : state) : state :=
  Write (CText text) (WriteHeader code (set_header "X-Content-Type-Options" "nosniff"
    (set_header HeaderContentType "text/plain; charset=utf-8" s))).
Definition handleAaaForward : handler := fun r ctx s =>
  (http_Error "aaa-forward is not implemented; use /aaa/server-initiated" 501 s, false).
Definition handleLiveness : handler := fun r ctx s =>
  (WriteJSON 200 (JObj [("status", JStr "ok"); ("service", JStr "nssAAF-biz")]) s, false).

(** A dependency: not set up, or the outcome of its check. *)
Definition check_text (h : option (option string)) : string :=
  match h with
  | None => "degraded (not initialized)"
  | Some None => "ok"
  | Some (Some err) => "unhealthy: " +:+ err
  end.
Definition check_ok (v : string) : bool := str_eqb v "ok" || str_eqb v "degraded (not initialized)".
Definition handleReadiness (pgHealth redisHealth : option (option string)) : handler := fun r ctx s =>
  let checks := [("postgres", check_text pgHealth); ("redis", check_text redisHealth)] in
  let status := if forallb (fun c => check_ok (snd c)) checks then 200 else 503 in
  (WriteJSON status (JObj ((fun '(k, v) => (k, JStr v)) <$> checks)) s, false).

Section ServerInitiated.
(** The request and answer of proto.ServerInitiatedHandler, with their JSON forms. *)
Context {Q A : Type} (decode : bytes -> string + Q) (encode : A -> json).
Definition handleServerInitiated (serverInitiatedHandler : option (Q -> string + A)) : handler := fun r ctx s =>
  if negb (str_eqb (Method r) "POST") then (http_Error "method not allowed" 405 s, false)
  else if negb (str_eqb (header r HeaderContentType) "application/json") then (http_Error "unsupported media type" 415 s, false)
  else match decode (Body r) with
  | inl err => (http_Error err 400 s, false)
  | inr q =>
      match serverInitiatedHandler with
      | None => (http_Error "server initiated handler not configured" 503 s, false)
      | Some h =>
          match h q with
          | inl err => (http_Error err 502 s, false)
          | inr a => (Write (CJson (encode a)) (WriteHeader 200 (set_header HeaderContentType "application/json" s)), false)
          end
      end
  end.
End ServerInitiated.

(** ** factory.go: routes and layers *)
Record routes : Type := mkRoutes {
  forward : handler; server_initiated : handler; nssaa : handler; aiw : handler; live_ : handler; ready : handler;
  metrics : handler }.
Definition redirect (to : string) : handler := fun r ctx s => (WriteHeader 301 (set_header "Location" to s), false).
Definition mux (h : routes) : handler := fun r ctx s =>
  let p := Path r in
  if str_eqb p "/aaa/forward" then forward h r ctx s
  else if str_eqb p "/aaa/server-initiated" then server_initiated h r ctx s
  else if HasPrefix p "/nnssaaf-nssaa/" then nssaa h r ctx s
  else if HasPrefix p "/nnssaaf-aiw/" then aiw h r ctx s
  else if str_eqb p "/nnssaaf-nssaa" then redirect "/nnssaaf-nssaa/" r ctx s
  else if str_eqb p "/nnssaaf-aiw" then redirect "/nnssaaf-aiw/" r ctx s
  else if str_eqb p "/healthz/live" then live_ h r ctx s
  else if str_eqb p "/healthz/ready" then ready h r ctx s
  else if str_eqb p "/metrics" then metrics h r ctx s
  else (http_Error "404 page not found" 404 s, false).
Definition stack (Unmarshal : bytes -> option json) (debug : bool) (uuid : string) (h : handler) : handler :=
  DebugMiddleware Unmarshal debug
    (CORSMiddleware (LoggingMiddleware (MetricsMiddleware (RequestIDMiddleware uuid (RecoveryMiddleware h))))).

(** ** What every handler keeps

    A handler adds to the response: it sends once, with the headers of that moment,
    leaves the request identifier and the records of the layers alone, and calls of
    [WriteHeader] are only added. *)
Record grows (s s' : state) : Prop := mkGrows {
  grows_id : hdr s' !! HeaderXRequestID = hdr s !! HeaderXRequestID;
  grows_codes : exists k, codes s' = codes s ++ k;
  grows_sent : match sent s with
               | Some x => sent s' = Some x
               | None => forall c g, sent s' = Some (c, g) -> g !! HeaderXRequestID = hdr s !! HeaderXRequestID
               end;
  grows_logs : logs s' = logs s;
  grows_samples : samples s' = samples s }.

#[global] Instance grows_preorder : PreOrder grows.
Proof.
  split.
  - intros s. split; try done; [exists []; by rewrite app_nil_r|]. destruct (sent s); done.
  - intros s1 s2 s3 [I1 [k1 C1] S1 L1 M1] [I2 [k2 C2] S2 L2 M2]. split.
    + by rewrite I2.
    + exists (k1 ++ k2). by rewrite C2, C1, app_assoc.
    + destruct (sent s1) as [x|]; [by rewrite S1 in S2|]. intros c g H. rewrite <- I1.
      destruct (sent s2) as [[c' g']|]; [|by eapply S2]. rewrite S2 in H. injection H as <- <-. rewrite I1. by eapply S1.
    + by rewrite L2.
    + by rewrite M2.
Qed.
Lemma grows_header k v s : k <> HeaderXRequestID -> grows s (set_header k v s).
Proof.
  intros Hk. split; cbn; try done; [by rewrite lookup_insert_ne|exists []; by rewrite app_nil_r|].
  by destruct (sent s).
Qed.
Lemma grows_WriteHeader c s : grows s (WriteHeader c s).
Proof. split; cbn; try done; [by eexists|]. unfold send. destruct (sent s); [done|]. by intros ? ? [= <- <-]. Qed.
Lemma grows_Write c s : grows s (Write c s).
Proof.
  split; cbn; try done; [exists []; by rewrite app_nil_r|]. unfold send. destruct (sent s); [done|]. by intros ? ? [= <- <-].
Qed.
Lemma grows_Emit e s : grows s (Emit e s).
Proof. split; cbn; try done; [exists []; by rewrite app_nil_r|]. by destruct (sent s). Qed.
Create HintDb polite.
#[export] Hint Resolve grows_header grows_WriteHeader grows_Write grows_Emit : polite.
#[export] Hint Extern 1 (_ <> _) => discriminate : polite.
(** Peels the outermost operation off the later state. *)
Ltac grow := repeat first [reflexivity | done | (etransitivity; [|solve [auto with polite]])].

Class Polite (h : handler) : Prop := polite : forall r ctx s, grows s (fst (h r ctx s)).

#[global] Instance http_Error_polite text code : Polite (fun r ctx s => (http_Error text code s, false)).
Proof. intros r ctx s. cbn [fst]. unfold http_Error. grow. Qed.
#[global] Instance handleLiveness_polite : Polite handleLiveness.
Proof. intros r ctx s. cbn [fst handleLiveness]. unfold WriteJSON. grow. Qed.
#[global] Instance handleReadiness_polite pg rd : Polite (handleReadiness pg rd).
Proof. intros r ctx s. unfold handleReadiness, WriteJSON. cbn [fst]. grow. Qed.
#[global] Instance redirect_polite to : Polite (redirect to).
Proof. intros r ctx s. cbn [fst redirect]. grow. Qed.
#[global] Instance handleServerInitiated_polite {Q A} (decode : bytes -> string + Q) (encode : A -> json) h :
  Polite (handleServerInitiated decode encode h).
Proof.
  intros r ctx s. unfold handleServerInitiated.
  repeat case_match; try (apply http_Error_polite; exact r || exact ctx). all: cbn [fst]; grow.
Qed.
Class PoliteRoutes (h : routes) : Prop := polite_routes :
  Polite (forward h) /\ Polite (server_initiated h) /\ Polite (nssaa h) /\ Polite (aiw h) /\ Polite (live_ h)
  /\ Polite (ready h) /\ Polite (metrics h).
#[global] Instance mux_polite h : PoliteRoutes h -> Polite (mux h).
Proof.
  intros (H1 & H2 & H3 & H4 & H5 & H6 & H7) r ctx s. unfold mux.
  repeat case_match; try (apply polite). all: apply (http_Error_polite "404 page not found" 404 r ctx s).
Qed.

(** A recovered panic. *)
Definition recovered (s : state) : state :=
  Write (CProblem (InternalServerProblem "An unexpected error occurred"))
    (WriteHeader 500 (set_header HeaderContentType MediaTypeProblemJSON s)).
#[global] Instance RecoveryMiddleware_polite h : Polite h -> Polite (RecoveryMiddleware h).
Proof.
  intros Hh r ctx s. unfold RecoveryMiddleware. specialize (Hh r ctx s). destruct (h r ctx s) as [s' []]; cbn [fst] in *; [|done].
  etransitivity; [exact Hh|]. grow.
Qed.
Lemma captured_grows s s' : grows s s' -> forall c, captured s (WriteHeader c s') = c.
Proof.
  intros [_ [k Hk] _ _ _] c. unfold captured. cbn. rewrite Hk, <- app_assoc, drop_app_length. by rewrite last_snoc.
Qed.
Lemma captured_same s t s' : codes t = codes s -> captured t s' = captured s s'.
Proof. unfold captured. by intros ->. Qed.
Lemma captured_records s s' e : captured s (add_sample e s') = captured s s'.
Proof. done. Qed.

Definition request_id (uuid : string) (r : request) : string :=
  if is_empty (header r HeaderXRequestID) then uuid else header r HeaderXRequestID.
(** The request as the inner layers see it. *)
Definition seen (Unmarshal : bytes -> option json) (debug : bool) (r : request) : request :=
  if debug then snd (peek Unmarshal r) else r.
Lemma seen_same Unmarshal debug r :
  let q := seen Unmarshal debug r in Path q = Path r /\ Method q = Method r /\ Header q = Header r /\ RemoteAddr q = RemoteAddr r.
Proof.
  unfold seen, peek. destruct debug; [|done]. repeat (case_match; [done|]). repeat case_match; done.
Qed.

(** The answer of the layers inside CORS. *)
Lemma inner_layers uuid h r ctx s :
  Polite h ->
  let s1 := set_header HeaderXRequestID (request_id uuid r) s in
  let out := RecoveryMiddleware h r (request_id uuid r) s1 in
  LoggingMiddleware (MetricsMiddleware (RequestIDMiddleware uuid (RecoveryMiddleware h))) r ctx s
  = (add_log (mkLog (Method r) (Path r) (captured s1 (fst out)) ctx)
       (add_sample (mkSample (inferService (Path r)) (stripAPIversion (Path r)) (Method r) (statusLabel (captured s1 (fst out))))
          (fst out)), false).
Proof.
  intros Hh s1 out. unfold LoggingMiddleware, MetricsMiddleware, RequestIDMiddleware. fold (request_id uuid r).
  fold s1. fold out. destruct out as [s' p] eqn:E. unfold out, RecoveryMiddleware in E. fold s1 in E.
  assert (p = false) as -> by (destruct (h _ _ _) as [? []]; by injection E as <- <-).
  cbn [fst]. rewrite captured_records. by rewrite !(captured_same s1 s).
Qed.

(** The state in which the handler is called by the whole stack. *)
Definition entry (Unmarshal : bytes -> option json) (debug : bool) (uuid : string) (r : request) : state :=
  let s := if debug then Emit (mkEvent "http.request" (fst (fst (peek Unmarshal r))) (snd (fst (peek Unmarshal r))) estr) fresh_state
           else fresh_state in
  let s := if HasPrefix (Path r) "/oam" then cors_headers s else s in
  set_header HeaderXRequestID (request_id uuid r) s.
Lemma entry_facts Unmarshal debug uuid r :
  let s := entry Unmarshal debug uuid r in
  hdr s !! HeaderXRequestID = Some (request_id uuid r) /\ sent s = None /\ codes s = [] /\ logs s = [] /\ samples s = [].
Proof. unfold entry. cbn [hdr set_header]. rewrite lookup_insert_eq. by destruct debug, (HasPrefix (Path r) "/oam"). Qed.

Lemma stack_out Unmarshal debug uuid h r :
  Polite h -> HasPrefix (Path r) "/oam" && str_eqb (Method r) "OPTIONS" = false ->
  let q := seen Unmarshal debug r in
  let s1 := entry Unmarshal debug uuid r in
  let out := fst (RecoveryMiddleware h q (request_id uuid r) s1) in
  exists s2, stack Unmarshal debug uuid h r estr fresh_state = (s2, false)
    /\ hdr s2 = hdr out /\ sent s2 = sent out /\ body s2 = body out
    /\ logs s2 = logs out ++ [mkLog (Method r) (Path r) (captured s1 out) estr]
    /\ samples s2 = samples out ++
         [mkSample (inferService (Path r)) (stripAPIversion (Path r)) (Method r) (statusLabel (captured s1 out))].
Proof.
  intros Hh Hc q s1 out. destruct (seen_same Unmarshal debug r) as (Hp & Hm & Hd & _). fold q in Hp, Hm, Hd.
  assert (Hid : request_id uuid q = request_id uuid r) by (unfold request_id, header; by rewrite Hd).
  set (layers := LoggingMiddleware (MetricsMiddleware (RequestIDMiddleware uuid (RecoveryMiddleware h)))).
  assert (Hcors : forall s, CORSMiddleware layers q estr s = layers q estr (if HasPrefix (Path r) "/oam" then cors_headers s else s)).
  { intros s. unfold CORSMiddleware. rewrite Hp, Hm. destruct (HasPrefix (Path r) "/oam"); [|done]. cbn [andb] in Hc. by rewrite Hc. }
  unfold stack. fold layers. unfold DebugMiddleware. destruct debug; cbn [negb].
  - assert (Hq : q = snd (peek Unmarshal r)) by done. clearbody q. unfold out, s1, entry. clear out s1.
    destruct (peek Unmarshal r) as [[gpsi supi] r']. cbn [fst snd] in *. subst r'. rewrite Hcors. unfold layers.
    rewrite inner_layers by done. rewrite Hid, Hp, Hm. eexists. split; [done|]. by split_and!.
  - change q with r in *. rewrite Hcors. unfold layers. rewrite inner_layers by done. eexists. split; [done|]. by split_and!.
Qed.


(** ** The labels of the metrics *)
Lemma before_last_slash_none cs : forallb (fun c => negb (is_slash c)) cs = true -> before_last_slash cs = None.
Proof.
  induction cs as [|c cs IH]; [done|]. cbn. intros [Hc H]%andb_prop. rewrite IH by done. by destruct (is_slash c).
Qed.
Lemma before_last_slash_app p c cs :
  is_slash c = true -> forallb (fun c => negb (is_slash c)) cs = true -> before_last_slash (p ++ c :: cs) = Some p.
Proof.
  intros Hc H. induction p as [|x p IH]; cbn [app before_last_slash].
  - by rewrite before_last_slash_none, Hc.
  - by rewrite IH.
Qed.
Lemma TrimSuffix_slash p id : id <> estr -> no_slash id = true -> TrimSuffix (p +:+ id) "/" = p +:+ id.
Proof.
  intros Hn Hs. induction p as [|c p IH].
  - change (estr +:+ id) with id. by apply TrimSuffix_none.
  - rewrite string_cons_app. cbn [TrimSuffix]. rewrite IH, str_eqb_false; [done|].
    intros H. apply (f_equal String.length) in H. cbn in H. rewrite string_length_app in H. destruct id; [done|]. cbn in H. lia.
Qed.
Lemma stripAPIversion_id p id :
  id <> estr -> no_slash id = true -> HasSuffix p "/v1" || HasSuffix p "/v2" = false ->
  stripAPIversion (p +:+ "/" +:+ id) = p +:+ "/" +:+ id.
Proof.
  intros Hn Hs Hp. unfold stripAPIversion.
  assert (Ha : forall a b, a +:+ "/" +:+ b = (a +:+ "/") +:+ b)
    by (intros; apply chars_inj; by rewrite !chars_app, <- app_assoc).
  rewrite (Ha p id), TrimSuffix_slash, <- (Ha p id), !chars_app by done. change (chars "/" ++ chars id) with (slash :: chars id).
  rewrite before_last_slash_app by done. rewrite string_of_chars, Hp. done.
Qed.

Definition nssaa_collection : string := "/nnssaaf-nssaa/v1/slice-authentications".
(** The endpoint label of the metrics is not bounded: for a request about one
    authentication it is the whole path with the identifier, so every session has a
    label of its own, while the collection of all of them is labelled with the bare
    version. *)
Theorem endpoint_label_per_session id id' :
  id <> estr -> no_slash id = true -> id' <> estr -> no_slash id' = true ->
  stripAPIversion (nssaa_collection +:+ "/" +:+ id) = nssaa_collection +:+ "/" +:+ id
  /\ (stripAPIversion (nssaa_collection +:+ "/" +:+ id) = stripAPIversion (nssaa_collection +:+ "/" +:+ id') -> id = id')
  /\ stripAPIversion nssaa_collection = "/nnssaaf-nssaa/v1".
Proof.
  intros Hn Hs Hn' Hs'. rewrite !stripAPIversion_id by done. split; [done|]. split; [|by vm_compute].
  intros H%(f_equal chars). rewrite !chars_app in H. by apply app_inv_head, app_inv_head, chars_inj in H.
Qed.

(** With debugging on the handlers read at most one mebibyte of the body. *)
Lemma debug_truncates Unmarshal r :
  header r "X-NSSAA-GPSI" = estr -> header r "X-NSSAA-SUPI" = estr -> ContentLength r <> 0 ->
  Body (seen Unmarshal true r) = take (Z.to_nat (2 ^ 20)) (Body r).
Proof.
  intros H1 H2 H3. unfold seen, peek. rewrite H1, H2. cbn [is_empty negb]. rewrite (proj2 (Z.eqb_neq _ _) H3).
  cbn [negb]. by destruct (ExtractSubscriber _ _).
Qed.

(** ** Witnesses *)
Definition req0 (path : string) : request := mkReq "GET" path "10.0.0.1" ∅ 0 [].
Lemma endpoint_label_per_session_witness :
  stripAPIversion (nssaa_collection +:+ "/" +:+ "a1") = "/nnssaaf-nssaa/v1/slice-authentications/a1".
Proof. by destruct (endpoint_label_per_session "a1" "a2") as [H _]. Defined.
