(* ===== verification/GatewayProcess.v ===== *)
(** * The AAA gateway as a process

    cmd/aaa-gateway/main.go with the parts of internal/aaa/gateway/gateway.go around the
    forwarders: construction from the configuration, listeners that wait for the
    virtual address, the HTTP handlers and the routes that are registered; and the two
    Biz Pod functions that talk to this process, [NativeAAAClient.ForwardEAP] over
    [HandleForward] and [StartVIPHealthCheck] over [VIPHealthHandler].  JSON codecs,
    the answers of the forwarders and the addresses of the host are arguments. *)
From S2P Require Import Prelude Regex Common Encoding EapSession Resilience ServerInit Gateway HttpClient Diameter Json Config Middleware.
Local Open Scope string_scope.
Local Open Scope Z_scope.
Local Open Scope list_scope.

(** ** Construction *)
Record GatewayConfig : Type := mkGwConfig {
  gc_BizServiceURL : string; gc_RedisAddr : string; gc_ListenRADIUS : string; gc_AAAGatewayURL : string; gc_Version : string;
  gc_DiameterServerAddress : string; gc_DiameterRealm : string; gc_DiameterHost : string; gc_DiameterTransport : string;
  gc_RadiusServerAddress : string; gc_RadiusSharedSecret : string; gc_RedisMode : string; gc_VIPAddress : string;
  gc_DiameterAuthRequestType : Z; gc_DiameterAuthApplicationID : Z; gc_Radius : RadiusConfig; gc_DLQ : DLQConfig }.
Record RadiusForwarderConfig : Type := mkRFC {
  ServerAddress : string; ServerPort : Z; SharedSecret : string; rf_Timeout : Z; rf_MaxRetries : Z; rf_ResponseWindow : Z }.
Record diamForwarderConfig : Type := mkDFC { Transport : string; AuthRequestType : Z; AuthApplicationID : Z }.
(** The forwarder: where it connects, its configuration with the defaults filled in, and
    the identities and numbers it puts into requests. *)
Record diamConnection : Type := mkDF {
  df_addr : string; df_network : string; df_cfg : diamForwarderConfig; df_fields : diamForwarder }.
Record AAAGateway : Type := mkGateway {
  g_cfg : GatewayConfig; g_registry : registry; g_radius : option RadiusForwarderConfig; g_diam : diamConnection;
  g_handlerSecret : string }.

Definition newDiamConnection (addr network originHost originRealm destHost destRealm : string) (cfg : diamForwarderConfig)
  : diamConnection :=
  let df := newDiamForwarder (AuthApplicationID cfg) (AuthRequestType cfg) originHost originRealm destHost destRealm in
  mkDF addr network
    (mkDFC (str_default (Transport cfg) "tcp") (f_AuthRequestType df) (f_AuthApplicationID df)) df.
Definition New (c : GatewayConfig) : AAAGateway :=
  mkGateway c (NewServerInitiatedRegistry (30 * second))
    (if is_empty (gc_RadiusServerAddress c) then None
     else Some (mkRFC (gc_RadiusServerAddress c) 1812 (gc_RadiusSharedSecret c) (Rad_Timeout (gc_Radius c))
                  (Rad_MaxRetries (gc_Radius c)) (ResponseWindow (gc_Radius c))))
    (newDiamConnection (gc_DiameterServerAddress c) (gc_DiameterTransport c) (gc_DiameterHost c) (gc_DiameterRealm c)
       (gc_DiameterServerAddress c) (gc_DiameterRealm c)
       (mkDFC (gc_DiameterTransport c) (gc_DiameterAuthRequestType c) (gc_DiameterAuthApplicationID c)))
    (gc_RadiusSharedSecret c).

(** The configuration main.go passes: fields it does not set are zero. *)
Definition main_config (c : Config) (g : AAAgwConfig) : GatewayConfig :=
  mkGwConfig (AAAgw_BizServiceURL g) (Redis_Addr (Redis c)) (ListenRADIUS g) ("http://" +:+ Addr (Server_ c)) (Version c)
    (DiameterServerAddress g) (DiameterRealm g) (DiameterHost g) (DiameterTransport g) (RadiusServerAddress g)
    (RadiusSharedSecret g) (RedisMode g) (VIPAddress g) 0 0 (mkRad 0 0 0) (AAAgw_DLQ g).

(** layeh.NewClient: the timeout of a RADIUS request. *)
Definition radius_timeout (r : RadiusForwarderConfig) : Z := default_if_zero (rf_Timeout r) (5 * second).

(** ** Listeners and the virtual address *)
Inductive task : Type := TRadiusListener | TDiameterConnect | TDLQConsumer.
Definition startListeners (c : GatewayConfig) : list task :=
  (if is_empty (gc_ListenRADIUS c) then [] else [TRadiusListener])
  ++ (if is_empty (gc_DiameterServerAddress c) then [] else [TDiameterConnect]) ++ [TDLQConsumer].

(** The addresses of the interfaces; an interface whose addresses cannot be read is
    skipped, [None] is a failure to list them. *)
Definition isVIPOwner (interfaces : option (list (option (list string)))) (vip : string) : bool :=
  match interfaces with
  | None => false
  | Some ifs => existsb (fun o => match o with Some addrs => existsb (fun a => str_eqb a vip) addrs | None => false end) ifs
  end.
Inductive vip_outcome : Type := Started (ts : list task) | Cancelled | StillWaiting.
(** [polls]: at each turn of the loop what the interfaces show, and whether the context
    ends before the next tick. *)
Fixpoint vip_loop (c : GatewayConfig) (vip : string) (polls : list (option (list (option (list string))) * bool)) : vip_outcome :=
  match polls with
  | [] => StillWaiting
  | (ifs, cancelled) :: polls =>
      if isVIPOwner ifs vip then Started (startListeners c)
      else if cancelled then Cancelled else vip_loop c vip polls
  end.
Definition StartVIPAware (c : GatewayConfig) (vip : string) polls : vip_outcome :=
  if is_empty vip then Started (startListeners c) else vip_loop c vip polls.

Lemma vip_loop_spec c vip polls ts :
  vip_loop c vip polls = Started ts ->
  ts = startListeners c
  /\ exists pre ifs b post, polls = pre ++ (ifs, b) :: post /\ isVIPOwner ifs vip = true
     /\ Forall (fun '(i, x) => isVIPOwner i vip = false /\ x = false) pre.
Proof.
  induction polls as [|[ifs x] polls IH]; [done|]. cbn. destruct (isVIPOwner ifs vip) eqn:E.
  - intros [= <-]. split; [done|]. by exists [], ifs, x, polls.
  - destruct x; [done|]. intros (-> & pre & i & b & post & -> & Ho & Hp)%IH. split; [done|].
    exists ((ifs, false) :: pre), i, b, post. split; [done|]. split; [done|]. by constructor.
Qed.

(** Several replicas share one virtual address.  [holder] has it now; [was] are those
    that had it so far; [waiting] are in the loop, [active] run their listeners. *)
Record cluster : Type := mkCluster { holder : option string; was : gset string; waiting : gset string; active : gset string }.
Definition boot (replicas : gset string) : cluster := mkCluster None ∅ replicas ∅.
Definition set_of (o : option string) : gset string := match o with Some r => {[r]} | None => ∅ end.
Definition move (h : option string) (k : cluster) : cluster := mkCluster h (was k ∪ set_of h) (waiting k) (active k).
Definition poll (r : string) (k : cluster) : cluster :=
  if decide (holder k = Some r) then mkCluster (holder k) (was k) (waiting k ∖ {[r]}) (active k ∪ {[r]}) else k.
Definition stop (r : string) (k : cluster) : cluster :=
  mkCluster (holder k) (was k) (waiting k ∖ {[r]}) (active k ∖ {[r]}).
Inductive vstep : cluster -> cluster -> Prop :=
| v_move k h : vstep k (move h k)
| v_poll k r : r ∈ waiting k -> vstep k (poll r k)
| v_stop k r : vstep k (stop r k).
Inductive vreach (replicas : gset string) : cluster -> Prop :=
| vr_boot : vreach replicas (boot replicas)
| vr_step k k' : vreach replicas k -> vstep k k' -> vreach replicas k'.

(** The listeners follow the virtual address one way only: a replica runs them only if it
    held the address at some time, but losing the address does not stop it: after a
    failover the old and the new holder both run the RADIUS listener, a Diameter
    connection and the queue consumer. *)
Theorem vip_listeners replicas k :
  vreach replicas k ->
  active k ⊆ was k
  /\ forall a b, a ∈ active k -> b ∈ waiting k ->
     let k' := poll b (move (Some b) k) in
     vreach replicas k' /\ holder k' = Some b /\ a ∈ active k' /\ b ∈ active k'.
Proof.
  intros Hk. split.
  - induction Hk as [|k k' Hk IH Hs]; [done|]. destruct Hs as [k h|k r Hr|k r]; cbn; [set_solver| |set_solver].
    unfold poll. destruct (decide (holder k = Some r)) as [Hh|]; [|done]. cbn.
    assert (Hw : forall h, holder k = Some h -> h ∈ was k).
    { clear -Hk. induction Hk as [|k k' Hk IH Hs]; [done|]. destruct Hs as [k h|k r Hr|k r]; cbn.
      - intros h' ->. cbn. set_solver.
      - unfold poll. by case_decide.
      - done. }
    specialize (Hw _ Hh). set_solver.
  - intros a b Ha Hb k'. assert (Hd : k' = mkCluster (Some b) (was k ∪ {[b]}) (waiting k ∖ {[b]}) (active k ∪ {[b]})).
    { unfold k', poll. cbn [holder move]. by rewrite decide_True by done. }
    split; [|rewrite Hd; cbn; set_solver].
    apply vr_step with (move (Some b) k); [by apply vr_step with k; [|constructor]|by constructor].
Qed.

(** ** HTTP handlers *)
Section Handlers.
(** JSON of the wire messages, [None] when it cannot be decoded. *)
Context (decode_forward : bytes -> option AaaForwardRequest) (encode_forward : AaaForwardResponse -> bytes).
Context (decode_response : bytes -> option (string * string * string * Z * bytes * string)).
Context (error_text : gateway_error -> string) (forward_json : AaaForwardResponse -> json).
(** The forwarders, the version and the host name. *)
Context (radius : option (bytes -> string -> Z -> string -> string -> bytes + string)).
Context (diameter : bytes -> string -> Z -> string -> string -> bytes + string).
Context (version hostname : string).

Definition HandleForward (redis_up : bool) (now : Z) (r : request) (st : corr_store) (s : Middleware.state)
  : corr_store * (Middleware.state * bool) :=
  if negb (str_eqb (Method r) "POST") then (st, (http_Error "method not allowed" 405 s, false))
  else match decode_forward (Body r) with
  | None => (st, (http_Error "invalid request body" 400 s, false))
  | Some req =>
      let '(st, res) := Gateway.ForwardEAP radius diameter version hostname redis_up now st req in
      match res with
      | Err e => (st, (http_Error (error_text e) 500 s, false))
      | Panic => (st, (s, true))
      | Ok resp => (st, (Write (CJson (forward_json resp)) (set_header HeaderContentType "application/json" s), false))
      end
  end.

(** The fields of [proto.AaaServerInitiatedResponse]: session, context, message type,
    result code, payload, error cause. *)
Definition HandleServerInitiatedResponse (r : request) (reg : registry) (s : Middleware.state)
  : registry * (Middleware.state * bool) :=
  if negb (str_eqb (Method r) "POST") then (reg, (http_Error "method not allowed" 405 s, false))
  else match decode_response (Body r) with
  | None => (reg, (http_Error "invalid request body" 400 s, false))
  | Some (sid, ctx, mt, code, payload, cause) =>
      (Complete reg sid (str_default mt "ASR") (mkResp ctx code payload cause), (WriteHeader 204 s, false))
  end.

Definition VIPHealthHandler (vip : string) (interfaces : option (list (option (list string)))) (s : Middleware.state)
  : Middleware.state :=
  if is_empty vip then
    Write (CJson (JObj [("vip_owner", JBool false); ("error", JStr "VIP not configured")])) (WriteHeader 503 s)
  else if isVIPOwner interfaces vip then Write (CJson (JObj [("vip_owner", JBool true)])) (WriteHeader 200 s)
  else Write (CJson (JObj [("vip_owner", JBool false)])) (WriteHeader 503 s).
Definition handleHealth (s : Middleware.state) : Middleware.state :=
  Write (CJson (JObj [("status", JStr "ok"); ("service", JStr "aaa-gateway")])) (WriteHeader 200 s).

(** What the process keeps: correlations and pending server-initiated requests. *)
Record process : Type := mkProcess { p_corr : corr_store; p_registry : registry }.
(** The environment of one request. *)
Record env : Type := mkEnv { e_redis_up : bool; e_now : Z; e_interfaces : option (list (option (list string))) }.

(** The routes main.go registers. *)
Definition serve_http (vip : string) (e : env) (r : request) (p : process) (s : Middleware.state)
  : process * (Middleware.state * bool) :=
  if str_eqb (Path r) "/aaa/forward" then
    let '(st, out) := HandleForward (e_redis_up e) (e_now e) r (p_corr p) s in (mkProcess st (p_registry p), out)
  else if str_eqb (Path r) "/health" then (p, (handleHealth s, false))
  else if str_eqb (Path r) "/health/vip" then (p, (VIPHealthHandler vip (e_interfaces e) s, false))
  else (p, (http_Error "404 page not found" 404 s, false)).

(** Steps of the process: HTTP requests, and the goroutines of the RADIUS and Diameter
    handlers, which register requests, forward them ([forwardToBiz], which reads and
    drops the Biz Pod's answer) and wait. *)
Inductive pstep (vip : string) : process -> process -> Prop :=
| p_http p e r : pstep vip p (fst (serve_http vip e r p fresh_state))
| p_register p sid ctx mt timeout now :
    pstep vip p (mkProcess (p_corr p) (fst (Register (p_registry p) sid ctx mt timeout now)))
| p_duplicate p reg :
    (exists l pre post, sends (p_registry p) = pre ++ l :: post
       /\ (exists c, chans (p_registry p) !! l = Some c /\ rc_buf c = None)
       /\ reg = mkRegistry (pending (p_registry p)) (alter (set_buf (Some duplicate_response)) l (chans (p_registry p)))
                  (next (p_registry p)) (pre ++ post) (results (p_registry p)) (completed (p_registry p))
                  (default_timeout (p_registry p))) ->
    pstep vip p (mkProcess (p_corr p) reg)
| p_recv p l c resp :
    chans (p_registry p) !! l = Some c -> rc_buf c = Some resp -> results (p_registry p) !! l = None ->
    pstep vip p (mkProcess (p_corr p) (Wait_recv (p_registry p) l resp))
| p_timeout p l c now :
    chans (p_registry p) !! l = Some c -> rc_ExpiresAt c <= now -> results (p_registry p) !! l = None ->
    pstep vip p (mkProcess (p_corr p) (Wait_timeout (p_registry p) l c)).
Inductive preach (vip : string) : process -> Prop :=
| pr_init c : preach vip (mkProcess ∅ (g_registry (New c)))
| pr_step p p' : preach vip p -> pstep vip p p' -> preach vip p'.

Lemma serve_http_registry vip e r p s : p_registry (fst (serve_http vip e r p s)) = p_registry p.
Proof. unfold serve_http. repeat case_match; simplify_eq; done. Qed.

(** Every run of the process is one of the registry without completions. *)
Lemma preach_reachable vip p : preach vip p -> reachable (p_registry p) /\ completed (p_registry p) = [].
Proof.
  induction 1 as [c|p p' Hp [IH Hc] Hs]; [split; [apply reach_init|done]|].
  destruct Hs as [p e r|p sid ctx mt t now|p reg (l & pre & post & Hl & Hb & ->)|p l c resp H1 H2 H3|p l c now H1 H2 H3]; cbn.
  - rewrite serve_http_registry. done.
  - split; [by eapply reach_step; [|apply step_register]|]. unfold Register. by case_match.
  - split; [|done]. eapply reach_step; [done|]. by eapply step_duplicate.
  - split; [|done]. by eapply reach_step; [|eapply step_recv].
  - split; [|done]. by eapply reach_step; [|eapply step_timeout].
Qed.

(** C40: a server-initiated request is never answered with the Biz Pod's result.  The only
    call of [Complete] is in the handler of the response endpoint, which the process does
    not register, and the answer to the forwarded request is dropped: in every reachable
    state of the running gateway, what a waiter got is the timeout or the duplicate
    notice, both of them "unable to deliver". *)
Theorem server_initiated_unanswered vip p l resp :
  preach vip p -> results (p_registry p) !! l = Some resp ->
  (resp = timeout_response \/ resp = duplicate_response) /\ r_ResultCode resp = ResultCodeUnableToDeliver.
Proof.
  intros Hp Hr. destruct (preach_reachable _ _ Hp) as [Hre Hc]. apply reachable_inv in Hre.
  destruct (inv_results _ Hre _ _ Hr) as (c & _ & [[H| ->]| ->]).
  - rewrite Hc in H. by apply not_elem_of_nil in H.
  - by split; [right|].
  - by split; [left|].
Qed.

(** The endpoint itself would deliver: what it is given for a pending request is what the
    waiter gets, with ASR for a missing message type. *)
Lemma response_endpoint_completes r reg s sid ctx mt code payload cause :
  Method r = "POST" -> decode_response (Body r) = Some (sid, ctx, mt, code, payload, cause) ->
  HandleServerInitiatedResponse r reg s
  = (Complete reg sid (str_default mt "ASR") (mkResp ctx code payload cause), (WriteHeader 204 s, false)).
Proof. intros Hm Hd. unfold HandleServerInitiatedResponse. rewrite Hm, Hd. done. Qed.

(** ** A forwarded message from the Biz Pod to the AAA server and back

    The client's POST reaches [HandleForward]; [aaa k] is what the AAA server gives to
    the [k]-th forward.  The answer is read the way [http.Client] reads it: status and
    body of what was sent; a handler that panics leaves no answer. *)
Definition wire (out : Middleware.state * bool) (encode : chunk -> bytes) : bytes * Z + string :=
  let '(s, panicked) := out in
  if panicked then inr "EOF"
  else inl (concat (encode <$> body s), match sent s with Some (c, _) => c | None => 200 end).
End Handlers.

(** The retry loop of the AAA client, two attempts, with its outcome in every case. *)
Lemma Do_two_cases baseDelay post cancelled :
  let d := Retry.Do (attempt_error post) cancelled (aaa_retryCfg baseDelay) in
  match attempt_error post 0 with
  | None => Retry.result_of d = None /\ Retry.calls d = 1%nat
  | Some _ =>
      if cancelled 0%nat then Retry.result_of d <> None /\ Retry.calls d = 1%nat
      else match attempt_error post 1 with
           | None => Retry.result_of d = None /\ Retry.calls d = 2%nat
           | Some _ => Retry.result_of d <> None /\ Retry.calls d = 2%nat
           end
  end.
Proof.
  unfold Retry.Do, Retry.with_defaults, aaa_retryCfg. cbn [Retry.MaxAttempts default_if_zero Z.eqb].
  change (Z.to_nat 2) with 2%nat. cbn [Retry.attempts]. destruct (attempt_error post 0); [|done].
  cbn. destruct (cancelled 0%nat); [done|]. by destruct (attempt_error post 1).
Qed.

Section EndToEnd.
Context (decode_forward : bytes -> option AaaForwardRequest) (encode_request : AaaForwardRequest -> bytes).
Context (error_text : gateway_error -> string) (forward_json : AaaForwardResponse -> json).
Context (encode : chunk -> bytes) (unmarshal : bytes -> option AaaForwardResponse).
Context (version hostname : string) (req : AaaForwardRequest).
Definition answer_to (p : bytes) : AaaForwardResponse := mkFwdResp version (f_SessionID req) (f_AuthCtxID req) p.
Hypothesis decode_encode : decode_forward (encode_request req) = Some req.
Hypothesis unmarshal_json : forall p, unmarshal (encode (CJson (forward_json (answer_to p)))) = Some (answer_to p).
Context (aaa : nat -> bytes + string) (cancelled : nat -> bool) (baseDelay : Z).

Definition post_request : request :=
  mkReq "POST" "/aaa/forward" estr {[HeaderContentType := "application/json"]} 0 (encode_request req).
(** The [k]-th POST of a call, at the gateway with Redis reachable. *)
Definition post (st : corr_store) (k : nat) : bytes * Z + string :=
  wire (snd (HandleForward decode_forward error_text forward_json (Some (fun _ _ _ _ _ => aaa k)) (fun _ _ _ _ _ => aaa k)
               version hostname true 0 post_request st fresh_state)) encode.
Definition known_transport (t : string) : Prop := t = TransportRADIUS \/ t = TransportDIAMETER.

Lemma post_spec st k :
  known_transport (f_TransportType req) ->
  post st k = match aaa k with
                  | inl p => inl (encode (CJson (forward_json (answer_to p))), 200)
                  | inr e => inl (encode (CText (error_text (ErrForward e))), 500)
                  end.
Proof.
  intros Ht. unfold post, HandleForward, post_request. cbn [Method Body]. change (str_eqb "POST" "POST") with true. cbn [negb].
  rewrite decode_encode. unfold Gateway.ForwardEAP. cbn [negb].
  destruct Ht as [-> | ->].
  - change (str_eqb TransportRADIUS TransportRADIUS) with true. cbv iota.
    destruct (aaa k); cbn; by rewrite app_nil_r.
  - change (str_eqb TransportDIAMETER TransportRADIUS) with false. change (str_eqb TransportDIAMETER TransportDIAMETER) with true.
    cbv iota. destruct (aaa k); cbn; by rewrite app_nil_r.
Qed.

(** C27: one EAP message from the Biz Pod's client through the gateway process to the AAA
    server.  When the breaker lets it pass, the first answer of the AAA server comes back
    with the session and context of the request; a failure is reported by the gateway as
    500, which the client takes as retryable, so the message is forwarded once more and
    never a third time; two failures are an error that the breaker counts once. *)
Theorem forward_end_to_end st now now' cb :
  known_transport (f_TransportType req) -> snd (Allow cb now) = true ->
  let cb1 := fst (Allow cb now) in
  HttpClient.ForwardEAP baseDelay (post st) cancelled unmarshal now now' cb
  = match aaa 0%nat with
    | inl p => (RecordSuccess cb1, 1%nat, inl (answer_to p))
    | inr _ =>
        if cancelled 0%nat then (RecordFailure cb1 now', 1%nat, inr (ErrRetryableStatus 500))
        else match aaa 1%nat with
             | inl p => (RecordSuccess cb1, 2%nat, inl (answer_to p))
             | inr _ => (RecordFailure cb1 now', 2%nat, inr (ErrRetryableStatus 500))
             end
    end.
Proof.
  intros Ht Ha cb1. unfold HttpClient.ForwardEAP. destruct (Allow cb now) as [cb' ok]. cbn [fst snd] in *. subst ok cb1.
  cbn [negb].
  assert (He : forall k, attempt_error (post st) k = match aaa k with inl _ => None | inr _ => Some (ErrRetryableStatus 500) end).
  { intros k. unfold attempt_error. rewrite post_spec by done. by destruct (aaa k). }
  pose proof (Do_two_cases baseDelay (post st) cancelled) as T. rewrite !He in T.
  destruct (Retry.Do _ cancelled _) as [res n ds]. cbn [Retry.result_of Retry.calls] in *.
  destruct (aaa 0%nat) as [p0|e0] eqn:E0.
  - destruct T as [-> ->]. cbn [lastBody]. rewrite post_spec, E0 by done. by rewrite unmarshal_json.
  - destruct (cancelled 0%nat).
    + destruct T as [B ->]. destruct res; [|done]. cbn [lastErr]. by rewrite He, E0.
    + destruct (aaa 1%nat) as [p1|e1] eqn:E1.
      * destruct T as [-> ->]. cbn [lastBody]. rewrite post_spec, E1 by done. by rewrite unmarshal_json.
      * destruct T as [B ->]. destruct res; [|done]. cbn [lastErr]. by rewrite He, E1.
Qed.
End EndToEnd.

(** ** The Biz Pod's check of the virtual address *)

(** The status of the answer of /health/vip; [None] is a failed request. *)
Definition checkVIPState (status : option Z) : option string :=
  (fun c => if c =? 200 then "MASTER" else "BACKUP") <$> status.
(** The ticks of [StartVIPHealthCheck]: the state kept, the breaker, and the resets. *)
Fixpoint vip_ticks (polls : list (option Z)) (prevState : string) (cb : CircuitBreaker) (resets : nat)
  : CircuitBreaker * nat :=
  match polls with
  | [] => (cb, resets)
  | p :: polls =>
      match checkVIPState p with
      | None => vip_ticks polls prevState cb resets
      | Some st =>
          if negb (str_eqb st prevState) && negb (str_eqb prevState "unknown")
          then vip_ticks polls st (Reset cb) (S resets) else vip_ticks polls st cb resets
      end
  end.
Definition StartVIPHealthCheck (healthURL : string) (polls : list (option Z)) (cb : CircuitBreaker) : CircuitBreaker * nat :=
  if is_empty healthURL then (cb, 0%nat) else vip_ticks polls "unknown" cb 0.

Fixpoint changes (prev : option string) (states : list string) : nat :=
  match states with
  | [] => 0
  | s :: states =>
      (match prev with Some p => if str_eqb s p then 0 else 1 | None => 0 end + changes (Some s) states)%nat
  end.
Definition reset_if (n : nat) (cb : CircuitBreaker) : CircuitBreaker := match n with O => cb | S _ => Reset cb end.

Lemma vip_ticks_spec polls prev cb n :
  (prev = "unknown" \/ prev = "MASTER" \/ prev = "BACKUP") ->
  let k := changes (if str_eqb prev "unknown" then None else Some prev) (omap checkVIPState polls) in
  vip_ticks polls prev cb n = (reset_if k cb, (n + k)%nat).
Proof.
  revert prev cb n. induction polls as [|p polls IH]; intros prev cb n Hp; cbn [omap list_omap vip_ticks].
  - cbn. by rewrite Nat.add_0_r.
  - destruct p as [c|]; [|by apply IH]. change (checkVIPState (Some c)) with (Some (if c =? 200 then "MASTER" else "BACKUP")).
    set (st := if c =? 200 then "MASTER" else "BACKUP").
    assert (Hst : (st = "MASTER" \/ st = "BACKUP") /\ str_eqb st "unknown" = false)
      by (unfold st; destruct (c =? 200); auto).
    destruct Hst as [Hst Hu]. cbn [changes]. clearbody st.
    destruct (str_eqb prev "unknown") eqn:Ep; cbn [negb andb].
    + rewrite andb_false_r, IH by tauto. by rewrite Hu.
    + rewrite andb_true_r. destruct (str_eqb st prev) eqn:Es; cbn [negb]; rewrite IH by tauto; rewrite Hu; [done|].
      cbn [Nat.add]. set (k := changes _ _). f_equal; [|lia]. by destruct k.
Qed.

(** What the client sees: the status [VIPHealthHandler] sends on a host with these interfaces. *)
Definition vip_status (vip : string) (ifs : option (list (option (list string)))) : option Z :=
  fst <$> sent (VIPHealthHandler vip ifs fresh_state).

Lemma constant_changes polls st o :
  (forall p, p ∈ polls -> checkVIPState p = None \/ checkVIPState p = Some st) -> o = None \/ o = Some st ->
  changes o (omap checkVIPState polls) = 0%nat.
Proof.
  revert o. induction polls as [|p polls IH]; intros o Hst Ho; [done|]. cbn [omap list_omap].
  assert (Hp : forall q, q ∈ polls -> checkVIPState q = None \/ checkVIPState q = Some st) by (intros q Hq; apply Hst; by right).
  destruct (Hst p ltac:(left)) as [->| ->]; [by apply IH|].
  cbn [changes]. rewrite IH by auto. destruct Ho as [->| ->]; [done|]. by rewrite str_eqb_refl.
Qed.

(** The breaker is reset once for each change between successive answers, failed polls
    apart.  Through the virtual address the answer always comes from its holder, so a
    failover shows no change and resets nothing, which is what the check is for; without a
    configured address the gateway always answers 503 and nothing is reset either. *)
Theorem vip_check_resets url polls cb :
  url <> estr ->
  let k := changes None (omap checkVIPState polls) in
  StartVIPHealthCheck url polls cb = (reset_if k cb, k)
  /\ (forall vip, vip <> estr ->
      (forall p, p ∈ polls -> p = None \/ exists ifs, isVIPOwner ifs vip = true /\ p = vip_status vip ifs) ->
      StartVIPHealthCheck url polls cb = (cb, 0%nat))
  /\ ((forall p, p ∈ polls -> p = None \/ exists ifs, p = vip_status estr ifs) ->
      StartVIPHealthCheck url polls cb = (cb, 0%nat)).
Proof.
  intros Hu k. assert (Hs : StartVIPHealthCheck url polls cb = (reset_if k cb, k)).
  { unfold StartVIPHealthCheck. replace (is_empty url) with false by (by destruct url).
    rewrite (vip_ticks_spec polls "unknown" cb 0) by auto. done. }
  assert (Hz : k = 0%nat -> StartVIPHealthCheck url polls cb = (cb, 0%nat)) by (intros Hk; by rewrite Hs, Hk).
  split; [done|]. split.
  - intros vip Hv Hp. apply Hz, (constant_changes polls "MASTER"); [|by left]. intros p H.
    destruct (Hp p H) as [->|(ifs & Ho & ->)]; [by left|right].
    unfold vip_status, VIPHealthHandler. replace (is_empty vip) with false by (by destruct vip). by rewrite Ho.
  - intros Hp. apply Hz, (constant_changes polls "BACKUP"); [|by left]. intros p H.
    destruct (Hp p H) as [->|(ifs & ->)]; [by left|by right].
Qed.

(** ** Stopping, and the dead-letter queue *)

(** [Stop] ends the listeners first, then closes what they used. *)
Inductive stop_action : Type := SCancel | SWait | SCloseRedis | SCloseDiameter | SCloseRadius.
Definition Stop (started : bool) (g : AAAGateway) : list stop_action :=
  (if started then [SCancel] else []) ++ [SWait; SCloseRedis; SCloseDiameter]
  ++ (if g_radius g then [SCloseRadius] else []).

(** A push that Redis refuses is only logged. *)
Definition pushDLQ (redis_up : bool) (now : Z) (sid tt mt : string) (body : AaaServerInitiatedRequest) (q : list DLQMessage)
  : list DLQMessage :=
  if redis_up then RPush q (Gateway.mkDLQ sid tt mt body 0 (now / second)) else q.
Lemma pushDLQ_down now sid tt mt body q : pushDLQ false now sid tt mt body q = q.
Proof. done. Qed.

(** The RADIUS settings of the configuration file do not reach the forwarder: requests
    time out after the client's own five seconds. *)
Lemma radius_settings_ignored c g rf :
  g_radius (New (main_config c g)) = Some rf ->
  radius_timeout rf = 5 * second /\ rf_MaxRetries rf = 0 /\ rf_ResponseWindow rf = 0.
Proof. cbn. destruct (is_empty _); [done|]. by intros [= <-]. Qed.

(** ** Witnesses *)
Definition gc0 : GatewayConfig :=
  mkGwConfig "http://biz" "redis:6379" ":1812" "http://:9090" "1.0" estr estr estr estr estr estr "standalone" estr 0 0
    (mkRad 0 0 0) (Config.mkDLQ 10 1).
Definition waiting0 : process := mkProcess ∅ (fst (Register (g_registry (New gc0)) "s" "c" "ASR" 10 0)).
Definition timed_out : process :=
  mkProcess (p_corr waiting0) (Wait_timeout (p_registry waiting0) 1 (mkChan "c" "s" "ASR" None 10)).
Lemma server_initiated_unanswered_witness :
  r_ResultCode timeout_response = ResultCodeUnableToDeliver.
Proof.
  apply (server_initiated_unanswered (fun _ => None) (fun _ => estr) (fun _ => JNull) None (fun _ _ _ _ _ => inr "down")
           "1.0" "gw" estr timed_out 1 timeout_response); [|reflexivity].
  apply pr_step with waiting0.
  - apply pr_step with (mkProcess ∅ (g_registry (New gc0))); [apply pr_init|].
    apply (p_register _ _ _ _ _ _ _ _ (mkProcess ∅ (g_registry (New gc0))) "s" "c" "ASR" 10 0).
  - apply (p_timeout _ _ _ _ _ _ _ _ waiting0 1 (mkChan "c" "s" "ASR" None 10) 20);
      [reflexivity|vm_compute; discriminate|reflexivity].
Defined.

Definition fwd0 : AaaForwardRequest := mkFwdReq "1.0" "nssAAF;1;ctx" "ctx" "g" "DIAMETER" 1 "000001" "CLIENT_INITIATED" [1].
Definition toy_encode (c : chunk) : bytes :=
  match c with CJson (JArr vs) => omap (fun v => match v with JNum n => Some n | _ => None end) vs | _ => [] end.
Definition toy_json (r : AaaForwardResponse) : json := JArr (JNum <$> fr_Payload r).
Lemma toy_json_back p : toy_encode (CJson (toy_json (answer_to "1.0" fwd0 p))) = p.
Proof. cbn. induction p as [|x p IH]; [done|]. cbn. by rewrite IH. Qed.
(** The first forward fails, the second is answered. *)
Lemma forward_end_to_end_witness :
  HttpClient.ForwardEAP 0
    (post (fun _ => Some fwd0) (fun _ => []) (fun _ => "err") toy_json toy_encode "1.0" "gw" fwd0
       (fun k => if (k =? 0)%nat then inr "timeout" else inl [7]) ∅)
    (fun _ => false) (fun b => Some (answer_to "1.0" fwd0 b)) 0 1 aaa_breaker
  = (RecordSuccess aaa_breaker, 2%nat, inl (answer_to "1.0" fwd0 [7])).
Proof.
  rewrite (forward_end_to_end (fun _ => Some fwd0) (fun _ => []) (fun _ => "err") toy_json toy_encode
             (fun b => Some (answer_to "1.0" fwd0 b)) "1.0" "gw" fwd0).
  - reflexivity.
  - reflexivity.
  - intros p. by rewrite toy_json_back.
  - by right.
  - reflexivity.
Defined.
Lemma vip_listeners_witness :
  let k := poll "b" (move (Some "b") (poll "a" (move (Some "a") (boot {["a"; "b"]})))) in
  "a" ∈ active k /\ "b" ∈ active k.
Proof.
  cbn zeta. set (k := poll "a" (move (Some "a") (boot {["a"; "b"]}))).
  destruct (vip_listeners {["a"; "b"]} k) as [_ H].
  - eapply vr_step; [eapply vr_step; [apply vr_boot|apply v_move]|]. apply v_poll. cbn. set_solver.
  - destruct (H "a" "b") as (_ & _ & Ha & Hb); [vm_compute; done|vm_compute; done|]. by split.
Defined.
