(* ===== verification/HttpGateway.v ===== *)
(** * The HTTP gateway as a process

    cmd/http-gateway/main.go and factory.go: the start, the routes with their
    authentication, and [proxyToBiz]; internal/httpclient factory.go and the two Istio
    clients.  A handler is split into what it does to the state of the process (the key
    cache and the client of the Biz Pods) and what it writes.  Request paths are taken to
    be clean ([http.ServeMux] redirects others). *)
From S2P Require Import Prelude Regex Common Encoding EapSession Resilience Gateway HttpClient BizClients Auth Nrf Json NrfProfile NrfServer UdmServer Config Middleware.
Import Validator.
Local Open Scope string_scope.
Local Open Scope Z_scope.
Local Open Scope list_scope.

(** ** The interface proto.BizServiceClient and the request its clients send *)
Record forward_args : Type := mkArgs {
  a_path : string; a_method : string; a_body : bytes; a_requestID : string; a_gpsi : string; a_supi : string }.
Abbreviation biz_result := (bytes * Z * option biz_error)%type.
Definition set_if (k v : string) (h : gmap string string) : gmap string string := if is_empty v then h else <[k := v]> h.
Definition outbound (a : forward_args) : request :=
  mkReq (a_method a) (a_path a) estr
    (set_if "X-NSSAA-SUPI" (a_supi a) (set_if "X-NSSAA-GPSI" (a_gpsi a)
       (set_if HeaderXRequestID (a_requestID a) {[HeaderContentType := "application/json"]})))
    (Z.of_nat (length (a_body a))) (a_body a).

(** ** internal/httpclient: istio_biz.go, istio_aaa.go, factory.go *)
Module IstioClient.
(** [deadline]: the context's deadline has passed. *)
Definition ForwardRequest (http : request -> exchange) (deadline : bool) (a : forward_args) : biz_result :=
  match http (outbound a) with
  | BadRequest e => ([], 0, Some (ErrExchange e))
  | NoReply e => if deadline then ([], 504, Some (ErrExchange "context deadline exceeded")) else ([], 503, Some (ErrExchange e))
  | BrokenBody _ _ e => ([], 0, Some (ErrExchange e))
  | Reply status body => (body, status, None)
  end.

Inductive aaa_error : Type := ErrCreate (e : string) | ErrDeadline | ErrUnavailable (e : string) | ErrReturned (status : Z) | ErrDecode.
(** The decoder reads the body as it arrives; a body that breaks off does not decode. *)
Definition ForwardEAP (unmarshal : bytes -> option AaaForwardResponse) (x : exchange) (deadline : bool)
  : AaaForwardResponse + aaa_error :=
  match x with
  | BadRequest e => inr (ErrCreate e)
  | NoReply e => inr (if deadline then ErrDeadline else ErrUnavailable e)
  | BrokenBody status _ _ => inr (if status =? 200 then ErrDecode else ErrReturned status)
  | Reply status body =>
      if negb (status =? 200) then inr (ErrReturned status)
      else match unmarshal body with Some r => inl r | None => inr ErrDecode end
  end.
End IstioClient.

Inductive mode : Type := ModeNative | ModeIstio.
Definition NewFactory (cfg : InternalCommConfig) (Getenv : string -> string) : mode :=
  if str_eqb (Mode cfg) "istio" || str_eqb (Getenv "ISTIO_MTLS") "1" then ModeIstio else ModeNative.

(** ** The handlers of the gateway *)
Section Gateway.
(** Tokens (see [Auth]), JSON, and the client of the Biz Pods with its state. *)
Context (kid_of : string -> option (option string)) (alg_of : string -> string).
Context (verify : PublicKey -> string -> (string + TokenClaims)) (is_expired_error : string -> bool).
Context (Unmarshal : bytes -> option json).
Context {C : Type} (ForwardRequest : C -> forward_args -> C * biz_result).
(** The validator of [auth.Init], and [HandleNFFind] when there is an NRF client. *)
Context (v : TokenValidator) (find_handler : option (request -> Server.response)).

Record gw_state : Type := mkGW { g_keys : JWKSFetcher; g_client : C }.
(** At one request: what the JWKS endpoint would answer, the clock, the variable
    NAF3_AUTH_DISABLED. *)
Record gw_env : Type := mkGwEnv { ge_fetch : option (list JWKSKey); ge_now : Z; ge_disabled : bool }.
Definition writer : Type := Middleware.state -> Middleware.state * bool.

(** [json.Unmarshal] into a map, then the two assertions. *)
Definition subscriber (b : bytes) : string * string :=
  match b with
  | [] => (estr, estr)
  | _ => match Unmarshal b ≫= fields with
         | None => (estr, estr)
         | Some m => (default estr (as_string (map_key m "gpsi")), default estr (as_string (map_key m "supi")))
         end
  end.
Definition proxy_args (r : request) : forward_args :=
  let '(gpsi, supi) := subscriber (Body r) in
  mkArgs (Path r) (Method r) (Body r) (header r HeaderXRequestID) gpsi supi.
(** [WriteHeader] panics on a status outside 100 to 999; with no body nothing is written. *)
Definition answer_with (res : biz_result) : writer := fun s =>
  match res with
  | (_, _, Some _) => (http_Error "service unavailable" 503 s, false)
  | (b, status, None) =>
      if (status <? 100) || (999 <? status) then (s, true)
      else let s := Middleware.WriteHeader status s in
           (match b with [] => s | _ => Write (CText (string_of_bytes b)) s end, false)
  end.
Definition proxyToBiz (r : request) (w : gw_state) : gw_state * writer :=
  let '(c, res) := ForwardRequest (g_client w) (proxy_args r) in
  (mkGW (g_keys w) c, answer_with res).

Definition unauthorized_body (message : string) : json :=
  JObj [("type", JStr "https://tools.ietf.org/html/rfc9110#section-15.5.2"); ("title", JStr "Unauthorized");
        ("status", JNum 401); ("detail", JStr message)].
Definition writeError (message : string) : writer := fun s =>
  (Write (CJson (unauthorized_body message))
     (Middleware.WriteHeader 401 (set_header HeaderContentType MediaTypeProblemJSON s)), false).
(** [auth.NewAuthMiddleware] around a handler. *)
Definition authenticated (disabled : bool) (e : gw_env) (next : request -> gw_state -> gw_state * writer)
  (r : request) (w : gw_state) : gw_state * writer :=
  let '(f, verdict) := NewAuthMiddleware kid_of alg_of verify is_expired_error disabled (ge_disabled e) (ge_fetch e)
                         (ge_now e) v (g_keys w) (header r "Authorization") in
  let w := mkGW f (g_client w) in
  match verdict with
  | Unauthorized detail => (w, writeError detail)
  | Next _ => next r w
  end.

Definition healthz : writer := fun s =>
  (Write (CJson (JObj [("status", JStr "ok")])) (Middleware.WriteHeader 200 s), false).
(** The answers of the discovery handler; the found profile comes with the identifier. *)
Definition write_response (r : request) (x : Server.response) : writer := fun s =>
  let s := if Server.status x =? 200
           then set_header HeaderXRequestID (header r HeaderXRequestID) (set_header HeaderContentType "application/json" s)
           else set_header HeaderContentType MediaTypeProblemJSON s in
  (Write (CJson (default JNull (Server.rbody x))) (Middleware.WriteHeader (Server.status x) s), false).
Definition moved (to : string) : writer := fun s =>
  (Middleware.WriteHeader 301 (set_header "Location" to s), false).

(** The mux of [buildHandler]. *)
Definition routed (disabled : bool) (e : gw_env) (r : request) (w : gw_state) : gw_state * writer :=
  let p := Path r in
  if HasPrefix p "/nnssaaf-nssaa/" then authenticated disabled e proxyToBiz r w
  else if HasPrefix p "/nnssaaf-aiw/" then authenticated disabled e proxyToBiz r w
  else if HasPrefix p "/healthz/" then (w, healthz)
  else match (if HasPrefix p "/internal/nf-discovery/" then find_handler else None) with
  | Some h => (w, write_response r (h r))
  | None =>
      if str_eqb p "/nnssaaf-nssaa" || str_eqb p "/nnssaaf-aiw" || str_eqb p "/healthz"
         || (str_eqb p "/internal/nf-discovery" && match find_handler with Some _ => true | None => false end)
      then (w, moved (p +:+ "/"))
      else (w, fun s => (http_Error "404 page not found" 404 s, false))
  end.
Definition buildHandler (debug disabled : bool) (e : gw_env) (r : request) (w : gw_state)
  : gw_state * (Middleware.state * bool) :=
  let '(w, write) := routed disabled e (seen Unmarshal debug r) w in
  (w, DebugMiddleware Unmarshal debug (fun _ _ => write) r estr fresh_state).

(** *** Who reaches a Biz Pod *)
Definition service_path (p : string) : bool := HasPrefix p "/nnssaaf-nssaa/" || HasPrefix p "/nnssaaf-aiw/".
Lemma routed_service disabled e r w :
  routed disabled e r w =
  if service_path (Path r) then authenticated disabled e proxyToBiz r w else routed disabled e r w.
Proof. unfold service_path, routed. by destruct (HasPrefix (Path r) "/nnssaaf-nssaa/"), (HasPrefix (Path r) "/nnssaaf-aiw/"). Qed.
Lemma routed_other disabled e r w : service_path (Path r) = false -> fst (routed disabled e r w) = w.
Proof. unfold service_path, routed. intros [-> ->]%orb_false_iff. repeat case_match; done. Qed.
Lemma debug_sent debug h r :
  let '(s, p) := DebugMiddleware Unmarshal debug h r estr fresh_state in
  let '(s1, p1) := h (seen Unmarshal debug r) estr
    (if debug then Emit (mkEvent "http.request" (fst (fst (peek Unmarshal r))) (snd (fst (peek Unmarshal r))) estr) fresh_state
     else fresh_state) in
  p = p1 /\ sent s = sent s1 /\ body s = body s1.
Proof.
  unfold DebugMiddleware, seen. destruct debug; cbn [negb].
  - destruct (peek Unmarshal r) as [[g u] q]. cbn. by destruct (h _ _ _) as [s1 []].
  - by destruct (h _ _ _) as [s1 p1].
Qed.

(** C26: what the gateway lets through.  A request whose path is not under one of the two
    services never reaches a Biz Pod, so the internal endpoints of the Biz Pods cannot be
    asked through the gateway.  With authentication on, no request reaches a Biz Pod at
    all: the middleware asks for the empty scope, which no token grants, and every request
    to a service is answered 401 as a problem document.  With authentication off, every
    request to a service is passed on once, with its method, path, body and identifier. *)
Theorem gateway_admission debug disabled e r w :
  let q := seen Unmarshal debug r in
  let '(w', (s, panicked)) := buildHandler debug disabled e r w in
  if service_path (Path r) then
    if disabled || ge_disabled e then w' = mkGW (g_keys w) (fst (ForwardRequest (g_client w) (proxy_args q)))
    else g_client w' = g_client w /\ panicked = false /\ (exists detail, body s = [CJson (unauthorized_body detail)])
         /\ sent s = Some (401, {[HeaderContentType := MediaTypeProblemJSON]})
  else w' = w.
Proof.
  cbn zeta. unfold buildHandler. set (q := seen Unmarshal debug r).
  assert (Hp : Path q = Path r) by apply (seen_same Unmarshal debug r).
  destruct (service_path (Path r)) eqn:Es.
  2: { assert (H := routed_other disabled e q w). rewrite Hp in H. specialize (H Es).
       destruct (routed disabled e q w) as [w' wr]. cbn in H. subst w'. by destruct (DebugMiddleware _ _ _ _ _ _). }
  rewrite routed_service, Hp, Es. unfold authenticated.
  destruct (disabled || ge_disabled e) eqn:Ed.
  - unfold NewAuthMiddleware. rewrite Ed. cbn. unfold proxyToBiz. cbn.
    destruct (ForwardRequest _ _) as [c res]. cbn. by destruct (DebugMiddleware _ _ _ _ _ _).
  - apply orb_false_iff in Ed as [-> ->].
    destruct (middleware_rejects_all kid_of alg_of verify is_expired_error (ge_fetch e) (ge_now e) v (g_keys w)
      (header q "Authorization")) as [detail Hd].
    destruct (NewAuthMiddleware _ _ _ _ _ _ _ _ _ _ _) as [f vd]. cbn in Hd. subst vd.
    assert (H := debug_sent debug (fun _ _ => writeError detail) r).
    destruct (DebugMiddleware _ _ _ _ _ _) as [s p]. destruct debug; cbn in H; destruct H as (-> & -> & ->); cbn; eauto.
Qed.
End Gateway.

(** ** Through the gateway to the Biz Pod and back

    The Biz Pod is any handler behind its layers, reached over the mesh; the client keeps
    the list of the requests it sent. *)
Section Through.
Context (kid_of : string -> option (option string)) (alg_of : string -> string).
Context (verify : PublicKey -> string -> (string + TokenClaims)) (is_expired_error : string -> bool).
Context (Unmarshal : bytes -> option json) (v : TokenValidator) (find_handler : option (request -> Server.response)).
Context (encode : chunk -> bytes) (uuid : string) (biz_debug : bool) (h : handler).

(** What [http.Client] makes of the answer of a server, when it is no redirect. *)
Definition exchange_of (out : Middleware.state * bool) : exchange :=
  let '(s, panicked) := out in
  if panicked then NoReply "EOF"
  else Reply (match sent s with Some (c, _) => c | None => 200 end) (concat (encode <$> body s)).
Definition biz_pod (q : request) : exchange := exchange_of (stack Unmarshal biz_debug uuid h q estr fresh_state).
Definition mesh_client (log : list request) (a : forward_args) : list request * biz_result :=
  (log ++ [outbound a], IstioClient.ForwardRequest biz_pod false a).

Lemma service_not_oam p : service_path p = true -> HasPrefix p "/oam" = false.
Proof.
  unfold service_path, HasPrefix. intros [H|H]%orb_true_iff.
  all: destruct (strip_prefix _ p) eqn:E; [|done]; apply strip_prefix_Some in E; by subst p.
Qed.
Lemma outbound_same a :
  Path (outbound a) = a_path a /\ Method (outbound a) = a_method a /\ Body (outbound a) = a_body a
  /\ header (outbound a) "Authorization" = estr /\ header (outbound a) HeaderXRequestID = a_requestID a.
Proof.
  unfold outbound, header, set_if. cbn. split_and!; try done.
  - repeat case_match; by simplify_map_eq.
  - destruct (is_empty (a_requestID a)) eqn:E.
    + apply is_empty_true in E. rewrite E. repeat case_match; by simplify_map_eq.
    + repeat case_match; by simplify_map_eq.
Qed.

End Through.

(** ** internal/nrf/client.go: the client of the NRF the gateway builds *)
Record NrfClient : Type := mkNrfClient {
  nc_baseURL : string; nc_instanceID : string; nc_cacheTTL : Z; nc_tokens : bool;
  nc_heartbeat : option (string * HeartbeatConfig); nc_profilePath : string }.
(** [nanos]: the clock, for the default identifier. *)
Definition NewClientWithConfig (cfg : NRFConfig) (nanos : Z) : NrfClient :=
  mkNrfClient (NRF_BaseURL cfg) (str_default (NRF_InstanceID cfg) ("nssAAF-instance-" +:+ pretty nanos))
    (default_if_zero (CacheTTL cfg) (5 * minute)) (TokenEnabled (AccessToken cfg)) None estr.
Definition SetProfilePath (c : NrfClient) (path : string) (hb : HeartbeatConfig) (read : option (option YAMLProfile))
  : result string NrfClient :=
  let? y := LoadProfileFromYAML read in
  let id := if is_empty (y_InstanceID y) then nc_instanceID c else y_InstanceID y in
  Ok (mkNrfClient (nc_baseURL c) id (nc_cacheTTL c) (nc_tokens c) (Some (id, hb)) path).
Definition LoadFromYAML (read : option (option YAMLProfile)) (heartbeatTimer : Z) (order : list (string * YAMLService))
  : result string NFProfile :=
  let? y := LoadProfileFromYAML read in Ok (BuildNFProfile y heartbeatTimer order).

(** heartbeat.go: the profile [register] sends. *)
Definition heartbeat_profile (id : string) (hb : HeartbeatConfig) : NFProfile :=
  mkProfile id NFTypeNSSAAF NFStatusRegistered (Z.quot (InitialInterval hb) second) 0 estr estr estr estr [] [] [] None None.
(** [RegisterAsync]: the waits after failed attempts, in order. *)
Fixpoint async_backoffs (failures : nat) (backoff : Z) : list Z :=
  match failures with
  | O => []
  | S n => backoff :: async_backoffs n (if backoff <? 30 * second then backoff * 2 else backoff)
  end.
(** They double from one second and stay at 32. *)
Lemma async_backoffs_bounded n k :
  (k <= 5)%nat ->
  async_backoffs n (second * 2 ^ Z.of_nat k) = (fun i => second * 2 ^ Z.of_nat (k + i `min` (5 - k))) <$> seq 0 n.
Proof.
  revert k. induction n as [|n IH]; intros k Hk; [done|].
  cbn [async_backoffs seq]. rewrite fmap_cons. f_equal; [f_equal; f_equal; lia|].
  rewrite <- fmap_S_seq, <- list_fmap_compose.
  destruct (decide (k = 5%nat)) as [->|Hne].
  - change (second * 2 ^ Z.of_nat 5 <? 30 * second) with false. cbn iota. rewrite IH by lia.
    apply list_fmap_ext. intros _ i _. cbn [compose]. f_equal; f_equal. lia.
  - assert (second * 2 ^ Z.of_nat k <? 30 * second = true) as ->.
    { do 5 (destruct k as [|k]; [done|]). lia. }
    rewrite <- Z.mul_assoc, <- (Z.mul_comm 2), <- Z.pow_succ_r, <- Nat2Z.inj_succ, IH by lia.
    apply list_fmap_ext. intros _ i _. cbn [compose]. f_equal; f_equal. lia.
Qed.

(** *** factory.go *)
Section Build.
(** The NRF of the lab deployments. *)
Context (order : list (string * string)) (tag : string).
Definition StartHeartbeat (c : NrfClient) (s : Server.Server) : Server.Server * result string Heartbeat.manager :=
  match nc_heartbeat c with
  | None => (s, Err "heartbeat manager not initialized, call SetProfilePath first")
  | Some (id, hb) =>
      let '(s, r) := Client.register_at order tag s id (heartbeat_profile id hb) in
      (s, Ok (Heartbeat.Start (AcceptNegotiatedInterval hb) (Heartbeat.NewHeartbeatManager (InitialInterval hb)) r))
  end.
(** [httpGatewayFactory.Build]; failures of the two steps are logged. *)
Definition GatewayBuild (c : Config) (nanos : Z) (read : option (option YAMLProfile)) (s : Server.Server)
  : Server.Server * NrfClient * option Heartbeat.manager :=
  let n := NRF c in
  let cl := NewClientWithConfig n nanos in
  let cl := if is_empty (ProfilePath n) then cl
            else match SetProfilePath cl (ProfilePath n) (NRF_Heartbeat n) read with Ok cl => cl | _ => cl end in
  let '(s, m) := StartHeartbeat cl s in
  (s, cl, match m with Ok m => Some m | _ => None end).

Lemma heartbeat_restores s id :
  element id = true ->
  Client.heartbeat_at order tag s id = (Server.SetNFStatus s id "REGISTERED", Some estr).
Proof.
  intros He. unfold Client.heartbeat_at, Client.Heartbeat_request. rewrite Client.ask_element by done. cbn zeta.
  repeat (rewrite str_eqb_false by done). rewrite str_eqb_refl.
  unfold Server.handlePatchInstance. rewrite Client.element_nonempty by done. done.
Qed.

(** What the gateway registers at the NRF.  With a loadable profile file the function
    is found under the identifier of the file, but the profile stored is not that of the
    file: it has no service, address, PLMN or slice, so nothing the file lists can be
    discovered.  Without a loadable file nothing is registered and nothing ever tries
    again, while the start goes on.  The shutdown deregisters with the heartbeat still
    running: a beat that comes later brings the registration back. *)
Theorem gateway_registration c nanos read s :
  let '(s', cl, m) := GatewayBuild c nanos read s in
  match (if is_empty (ProfilePath (NRF c)) then Err estr else LoadProfileFromYAML read) with
  | Ok y =>
      let id := y_InstanceID y in
      element id = true -> HasPrefix id "nssAAF-" = true ->
      nc_instanceID cl = id /\ m <> None /\ Client.listed s' "NSSAAF" id = true
      /\ (exists doc p, Server.profiles s' !! id = Some doc /\ profile_dec doc = Some p
          /\ NfServices p = [] /\ PLMNList p = [] /\ SNSSAIList p = [] /\ FQDN p = estr)
      /\ let s1 := fst (Client.deregister_at order tag s' id) in
         Client.listed s1 "NSSAAF" id = false
         /\ Client.listed (fst (Client.heartbeat_at order tag s1 id)) "NSSAAF" id = true
  | _ => s' = s /\ m = None
  end.
Proof.
  unfold GatewayBuild. destruct (is_empty (ProfilePath (NRF c))); [done|]. unfold SetProfilePath.
  destruct (LoadProfileFromYAML read) as [y|e|] eqn:El; [|done..]. cbn [rbind].
  assert (Hy : is_empty (y_InstanceID y) = false).
  { unfold LoadProfileFromYAML in El. repeat (case_match; try done). by simplify_eq. }
  rewrite Hy. unfold StartHeartbeat. cbn [nc_heartbeat].
  destruct (Client.register_at _ _ _ _ _) as [s' r] eqn:Er. cbn zeta. intros He Hp.
  rewrite Client.register_at_spec in Er by done. injection Er as <- <-. split_and!; [done|done|..].
  - unfold Client.listed. cbn. rewrite lookup_insert_eq, Client.nssaaf_match, Hp. done.
  - eexists _, _. split; [apply lookup_insert_eq|]. split; [apply profile_roundtrip|done].
  - rewrite Client.deregister_at_spec by done. unfold Client.listed. cbn. by rewrite lookup_delete_eq.
  - rewrite heartbeat_restores by done. rewrite Client.deregister_at_spec by done. unfold Client.listed. cbn.
    by rewrite lookup_insert_eq, Client.nssaaf_match, Hp.
Qed.
End Build.

(** ** main *)
Inductive tls_choice : Type := PlainHTTP | TLS13 (cert key : string).
(** The TLS configuration allows version 1.3 only. *)
Definition choose_tls (Getenv : string -> string) (t : option TLSConfig) : tls_choice :=
  if str_eqb (Getenv "ISTIO_MTLS") "1" then PlainHTTP
  else match t with
  | Some t => if negb (is_empty (Cert t)) && negb (is_empty (Key t)) then TLS13 (Cert t) (Key t) else PlainHTTP
  | None => PlainHTTP
  end.
Record gateway_process : Type := mkGwProcess {
  gp_addr : string; gp_validator : TokenValidator; gp_jwks : string; gp_disabled : bool; gp_mode : mode; gp_tls : tls_choice }.
Inductive gw_start_error : Type := GwLoad (e : load_error) | GwComponent (got : string) | GwAuth (e : auth_error).
Definition gateway_main (Getenv : string -> string) (Unmarshal : string -> option Config) (file : option string)
  : result gw_start_error gateway_process :=
  let? c := map_err GwLoad (Load Getenv Unmarshal file) in
  if negb (str_eqb (Component c) ComponentHTTPGateway) then Err (GwComponent (Component c))
  else match HTTPgw c with
  | None => Panic
  | Some g =>
      let base := str_default (NRF_BaseURL (NRF c)) "https://nrf.operator.com" in
      let? v := map_err GwAuth (NewTokenValidator (base +:+ "/.well-known/jwks.json") base ["nnssaaf-nssaa"; "nnssaaf-aiw"]
                  ["AMF"; "AUSF"] ["nnssaaf-nssaa"; "nnssaaf-aiw"]) in
      Ok (mkGwProcess (Addr (Server_ c)) v (base +:+ "/.well-known/jwks.json")
            (match HTTPgw_Auth g with Some a => Disabled a | None => false end)
            (NewFactory (InternalComm c) Getenv) (choose_tls Getenv (HTTPgw_TLS g)))
  end.

(** The gateway starts with every configuration that loads for it, and serves TLS 1.3
    exactly when its section is there and the mesh is not in charge; an absent section
    means plain HTTP. *)
Theorem gateway_starts Getenv Unmarshal file c :
  Load Getenv Unmarshal file = Ok c -> Component c = ComponentHTTPGateway ->
  exists p, gateway_main Getenv Unmarshal file = Ok p
  /\ (gp_tls p = PlainHTTP <-> Getenv "ISTIO_MTLS" = "1" \/ exists g, HTTPgw c = Some g /\ HTTPgw_TLS g = None).
Proof.
  intros HL Hc. unfold gateway_main. rewrite HL. cbn [map_err rbind]. rewrite Hc, str_eqb_refl. cbn [negb].
  apply Load_inv in HL as [Hv _]. unfold Validate in Hv. rewrite Hc in Hv.
  repeat (rewrite (str_eqb_false ComponentHTTPGateway) in Hv by done). rewrite str_eqb_refl in Hv.
  destruct (validate_httpgw c) as [[]|e|] eqn:E; [|done..]. unfold validate_httpgw in E.
  destruct (HTTPgw c) as [g|]; [|done]. unfold NewTokenValidator.
  assert (Hb : is_empty (str_default (NRF_BaseURL (NRF c)) "https://nrf.operator.com") = false).
  { unfold str_default. destruct (NRF_BaseURL (NRF c)); done. }
  assert (Hj : is_empty (str_default (NRF_BaseURL (NRF c)) "https://nrf.operator.com" +:+ "/.well-known/jwks.json") = false).
  { by destruct (str_default _ _). }
  rewrite Hb, Hj. eexists. split; [done|]. cbn [gp_tls]. unfold choose_tls.
  destruct (str_eqb (Getenv "ISTIO_MTLS") "1") eqn:Em.
  { apply str_eqb_true in Em. split; [by left|done]. }
  assert (Getenv "ISTIO_MTLS" <> "1") by (intros H; rewrite H, str_eqb_refl in Em; done).
  destruct (HTTPgw_TLS g) as [t|] eqn:Et.
  - unfold require in E. destruct (is_empty (Cert t)); [done|]. cbn in E. destruct (is_empty (Key t)); [done|]. cbn.
    split; [done|]. intros [?|(g' & [= <-] & ?)]; congruence.
  - split; [|done]. intros _. right. by exists g.
Qed.

(** ** The two clients of the AAA gateway

    With a breaker that lets the call through and a first answer 200, both clients return
    the same; on other statuses the native one tries again or reads the body of the error
    as if it were an answer. *)
Lemma aaa_clients_agree baseDelay post cancelled unmarshal now now' cb b :
  snd (Allow cb now) = true -> post 0%nat = inl (b, 200) ->
  match IstioClient.ForwardEAP unmarshal (Reply 200 b) false with
  | inl r => HttpClient.ForwardEAP baseDelay post cancelled unmarshal now now' cb
             = (RecordSuccess (fst (Allow cb now)), 1%nat, inl r)
  | inr e => e = IstioClient.ErrDecode
             /\ HttpClient.ForwardEAP baseDelay post cancelled unmarshal now now' cb
                = (RecordSuccess (fst (Allow cb now)), 1%nat, inr ErrUnmarshal)
  end.
Proof.
  intros Ha Hp. unfold HttpClient.ForwardEAP. destruct (Allow cb now) as [cb1 ok]. cbn in Ha. subst ok. cbn [negb fst].
  assert (Hd : Retry.result_of (Retry.Do (attempt_error post) cancelled (aaa_retryCfg baseDelay)) = None
    /\ Retry.calls (Retry.Do (attempt_error post) cancelled (aaa_retryCfg baseDelay)) = 1%nat).
  { unfold Retry.Do, Retry.with_defaults, aaa_retryCfg. cbn [Retry.MaxAttempts default_if_zero Z.eqb].
    change (Z.to_nat 2) with 2%nat. cbn [Retry.attempts]. unfold attempt_error. rewrite Hp. done. }
  destruct Hd as [-> ->]. cbn [lastBody]. rewrite Hp. unfold IstioClient.ForwardEAP. cbn [Z.eqb Pos.eqb negb].
  by destruct (unmarshal b).
Qed.

(** ** Witnesses: a creation answered with a location; a profile file with one service *)
Definition created_handler : handler := fun r ctx s =>
  (Write (CText "created") (Middleware.WriteHeader 201 (set_header "Location" "https://h/id-1" s)), false).
Lemma created_polite : Polite created_handler.
Proof. intros r ctx s. cbn [fst created_handler]. grow. Qed.
Definition text_bytes (c : chunk) : bytes := match c with CText t => bytes_of_string t | _ => [] end.
Definition create_request : request :=
  mkReq "POST" "/nnssaaf-nssaa/v1/slice-authentications" "10.0.0.1" {["Authorization" := "Bearer t"]} 2 [123; 125].

Definition profile_file : YAMLProfile :=
  mkYAMLProfile "nssAAF-1" "gw" "nssaaf.operator.com" estr estr ["10.0.0.9"] 0 [] []
    {["nnssaaf-nssaa" := mkYAMLService "s1" "/nnssaaf-nssaa/v1" [] [] 10 1 estr]} None None.
Definition gw_config : Config :=
  let c := raw None estr in
  mkConfig (Component c) (Version c) (Server_ c) (Database c) (Redis c) (EAP c) (AAA c) (RateLimit_ c) (Logging c) (Metrics c)
    (mkNRF "http://nrf" 0 0 estr "profile.yaml" (AccessToken (NRF c)) (mkHB (60 * second) true 3) (DiscoveryCache (NRF c)))
    (UDM c) (AUSF c) (Crypto_ c) (InternalComm c) (Debug c) (Biz_ c) (AAAgw c) (HTTPgw c) (NRM c).
Lemma gateway_registration_witness :
  let '(s', cl, m) := GatewayBuild [] "t" gw_config 5 (Some (Some profile_file)) Server.NewServer in
  Client.listed s' "NSSAAF" "nssAAF-1" = true
  /\ exists doc p, Server.profiles s' !! "nssAAF-1" = Some doc /\ profile_dec doc = Some p /\ NfServices p = [].
Proof.
  assert (H := gateway_registration [] "t" gw_config 5 (Some (Some profile_file)) Server.NewServer).
  destruct (GatewayBuild _ _ _ _ _ _) as [[s' cl] m].
  destruct (H eq_refl eq_refl) as (_ & _ & Hl & (doc & p & H1 & H2 & H3 & _) & _). split; [exact Hl|]. by exists doc, p.
Defined.
