(* ===== verification/KeyVault.v ===== *)
(** * internal/crypto/kms.go: the Vault and SoftHSM key managers

    The Vault manager over an arbitrary HTTP server: what it sends, how it authenticates
    and how it reads the answers.  The transit engine of Vault is code outside the
    repository: its documented behaviour is the type class [Transit], and the manager is
    a lawful [KeyManager] over every such server, so that secrets survive.  A small
    transit engine shows that the class can be satisfied. *)
From S2P Require Import Prelude Regex Common Types Encoding EapSession Crypto Json NrfServer Auth Config.
Import Validator.
Local Open Scope string_scope.
Local Open Scope Z_scope.
Local Open Scope list_scope.

(** ** Requests and answers *)
Record vreq : Type := mkVReq { v_method : string; v_path : string; v_authorization : string; v_body : option json }.
(** The status and the JSON body when it can be decoded; [None]: the exchange fails. *)
Abbreviation vresp := (option (Z * option json)).

(** [net/http] sends no header value with a control character other than the tab. *)
Definition header_char (c : char) : bool := let z := ascii_code c in (z =? 9) || ((32 <=? z) && negb (z =? 127)).
Definition valid_header (s : string) : bool := forallb header_char (chars s).

(** [strings.TrimSpace], on ASCII. *)
Fixpoint drop_space (cs : list char) : list char :=
  match cs with c :: t => if is_space c then drop_space t else cs | [] => [] end.
Definition TrimSpace (s : string) : string :=
  String.string_of_list_ascii (rev (drop_space (rev (drop_space (chars s))))).

(** [fmt.Sscanf(v, "%d", &n)]: blanks, a sign, decimal digits; what follows is not read. *)
Fixpoint drop_blank (cs : list char) : list char :=
  match cs with c :: t => if is_space c && negb (ascii_code c =? 10) then drop_blank t else cs | [] => [] end.
Fixpoint take_digits (cs : list char) : list char :=
  match cs with c :: t => if is_digit c then c :: take_digits t else [] | [] => [] end.
Definition sscanf_d (s : string) : option Z :=
  let '(neg, cs) :=
    match drop_blank (chars s) with
    | c :: t => if ascii_code c =? 45 then (true, t) else if ascii_code c =? 43 then (false, t) else (false, c :: t)
    | [] => (false, [])
    end in
  match take_digits cs with
  | [] => None
  | ds => let n := if neg then - digits_value ds else digits_value ds in
          if (- 2 ^ 63 <=? n) && (n <? 2 ^ 63) then Some n else None
  end.

(** ** The Vault manager *)
Section Manager.
Context {V : Type} (serve : V -> vreq -> V * vresp).
(** [os.ReadFile] *)
Context (ReadFile : string -> option string).
Context (m : VaultConfig).

Definition sa_token_path : string := "/var/run/secrets/kubernetes.io/serviceaccount/token".
(** The value of the Authorization header. *)
Definition setAuthHeader : option string :=
  if str_eqb (AuthMethod m) "kubernetes" then
    tok ← ReadFile sa_token_path; Some ("Bearer " +:+ tok)
  else if str_eqb (AuthMethod m) "token" then
    tok ← (if is_empty (TokenFile m) then Some (Token m) else TrimSpace <$> ReadFile (TokenFile m));
    if is_empty tok then None else Some ("Bearer " +:+ tok)
  else None.
Definition vault_Do (s : V) (r : vreq) : V * vresp := if valid_header (v_authorization r) then serve s r else (s, None).

(** Requests are built, authenticated and sent; [k] reads the answer. *)
Definition request {A} (s : V) (method path : string) (body : option json) (stage : string)
  (k : V -> Z -> option json -> V * result crypto_error A) : V * result crypto_error A :=
  match setAuthHeader with
  | None => (s, Err (ErrVaultStage (stage +:+ ": auth")))
  | Some a =>
      match vault_Do s (mkVReq method path a body) with
      | (s, None) => (s, Err (ErrVaultStage (stage +:+ ": request")))
      | (s, Some (status, b)) => k s status b
      end
  end.

(** [Data] of the answers: a string field of the object "data". *)
Definition data_fields (b : option json) : option (list (string * json)) :=
  fs ← b ≫= fields; match field fs "data" with None => Some [] | Some v => fields v end.
Definition data_string (b : option json) (k : string) : option string := d ← data_fields b; str_field d k.
(** The keys of the map "keys", whose values must be integers. *)
Definition data_keys (b : option json) : option (list string) :=
  d ← data_fields b;
  match field d "keys" with
  | None => Some []
  | Some v => kvs ← fields v; _ ← mapM dec_int kvs.*2; Some kvs.*1
  end.
Definition max_version (keys : list string) : Z :=
  let maxVer := foldr (fun v acc => match sscanf_d v with Some n => if acc <? n then n else acc | None => acc end) 0 keys in
  if maxVer =? 0 then 1 else maxVer.

Definition vault_GetKeyVersion (s : V) : V * result crypto_error Z :=
  request s "GET" ("/v1/transit/keys/" +:+ KeyName m) None "vault keyversion" (fun s status b =>
    if negb (status =? 200) then (s, Err (ErrVaultStage "vault keyversion: status"))
    else match data_keys b with
    | None => (s, Err (ErrVaultStage "vault keyversion: decode"))
    | Some keys => (s, Ok (max_version keys))
    end).
(** [between]: what other clients do between the two requests. *)
Definition vault_Wrap (between : V -> V) (s : V) (dek : bytes) : V * result crypto_error (bytes * Z) :=
  request s "POST" ("/v1/transit/encrypt/" +:+ KeyName m) (Some (JObj [("plaintext", JStr (Base64.EncodeToString dek))]))
    "vault wrap" (fun s status b =>
    if negb (status =? 200) then (s, Err (ErrVaultStage "vault wrap: status"))
    else match data_string b "ciphertext" with
    | None => (s, Err (ErrVaultStage "vault wrap: decode"))
    | Some c =>
        let '(s, ver) := vault_GetKeyVersion (between s) in
        (s, Ok (bytes_of_string c, match ver with Ok v => v | _ => 1 end))
    end).
Definition vault_Unwrap (s : V) (wrappedDEK : bytes) : V * result crypto_error bytes :=
  request s "POST" ("/v1/transit/decrypt/" +:+ KeyName m) (Some (JObj [("ciphertext", JStr (string_of_bytes wrappedDEK))]))
    "vault unwrap" (fun s status b =>
    if negb (status =? 200) then (s, Err (ErrVaultStage "vault unwrap: status"))
    else match data_string b "plaintext" with
    | None => (s, Err (ErrVaultStage "vault unwrap: decode"))
    | Some p => match Base64.DecodeString p with
                | None => (s, Err (ErrVaultStage "vault unwrap: decode base64"))
                | Some dek => (s, Ok dek)
                end
    end).
Definition vault_RotateKey (s : V) : V * result crypto_error unit :=
  request s "POST" ("/v1/transit/rotate/" +:+ KeyName m) None "vault rotate" (fun s status b =>
    if negb (status =? 204) && negb (status =? 200) then (s, Err (ErrVaultStage "vault rotate: status")) else (s, Ok tt)).
End Manager.

(** ** SoftHSMKeyManager, built without the softhsm tag *)
Definition hsm_Wrap (dek : bytes) : result crypto_error (bytes * Z) := Err ErrNotImplemented.
Definition hsm_Unwrap (wrappedDEK : bytes) : result crypto_error bytes := Err ErrNotImplemented.
Definition hsm_GetKeyVersion : result crypto_error Z := Ok 1.
Definition hsm_Rotate (h : SoftHSMConfig) : result crypto_error SoftHSMConfig := Ok h.
Definition NewSoftHSMKeyManager (cfg : SoftHSMConfig) : result crypto_error SoftHSMConfig :=
  if is_empty (LibraryPath cfg) then Err ErrMasterKey else Ok cfg.

(** ** Decimal numbers are read back *)
Lemma pretty_go_digits (x : N) : forall s,
  exists ds, chars (pretty_N_go x s) = ds ++ chars s /\ forallb is_digit ds = true /\ digits_value ds = Z.of_N x
    /\ (x <> 0%N -> ds <> []).
Proof.
  induction (N.lt_wf_0 x) as [x _ IH]; intros s. destruct (decide (x = 0%N)) as [->|Hx].
  - exists []. by rewrite pretty_N_go_0.
  - rewrite pretty_N_go_step by lia. destruct (IH (x `div` 10)%N ltac:(apply N.div_lt; lia) (String (pretty_N_char (x `mod` 10)) s))
      as (ds & -> & Hd & Hv & _).
    exists (ds ++ [pretty_N_char (x `mod` 10)]). assert (Hm : (x `mod` 10 < 10)%N) by (apply N.mod_lt; lia).
    assert (Hc : is_digit (pretty_N_char (x `mod` 10)) = true
                 /\ ascii_code (pretty_N_char (x `mod` 10)) - 48 = Z.of_N (x `mod` 10)).
    { revert Hm. generalize (x `mod` 10)%N. intros d Hm.
      assert (d = 0 \/ d = 1 \/ d = 2 \/ d = 3 \/ d = 4 \/ d = 5 \/ d = 6 \/ d = 7 \/ d = 8 \/ d = 9)%N as Hd' by lia.
      by destruct_or! Hd'; subst d. }
    split_and!; [by rewrite <- app_assoc|by rewrite forallb_app, Hd; cbn; rewrite (proj1 Hc)| |by destruct ds].
    unfold digits_value in *. rewrite foldl_app, Hv. cbn. rewrite (proj2 Hc). rewrite N2Z.inj_div, N2Z.inj_mod.
    pose proof (Z.div_mod (Z.of_N x) 10). lia.
Qed.
Lemma show_uint_digits n :
  0 < n -> chars (show_uint n) <> [] /\ forallb is_digit (chars (show_uint n)) = true
           /\ digits_value (chars (show_uint n)) = n.
Proof.
  intros Hn. unfold show_uint, pretty, pretty_N. rewrite decide_False by lia.
  destruct (pretty_go_digits (Z.to_N n) estr) as (ds & -> & Hd & Hv & Hne). cbn. rewrite app_nil_r.
  split; [by apply Hne; lia|]. split; [done|]. lia.
Qed.
Definition no_digit (cs : list char) : Prop := match cs with c :: _ => is_digit c = false | [] => True end.
Lemma take_digits_app ds rest : forallb is_digit ds = true -> no_digit rest -> take_digits (ds ++ rest) = ds.
Proof.
  intros Hd Hr. induction ds as [|c t IH]; cbn in *; [destruct rest as [|c t]; [done|]; cbn in *; by rewrite Hr|].
  apply andb_prop in Hd as [-> Hd]. by rewrite IH.
Qed.
Lemma sscanf_show n rest : 0 < n < 2 ^ 63 -> no_digit (chars rest) -> sscanf_d (show_uint n +:+ rest) = Some n.
Proof.
  intros [Hn Hm] Hr. destruct (show_uint_digits n Hn) as (Hne & Hd & Hv). unfold sscanf_d. rewrite chars_app.
  destruct (chars (show_uint n)) as [|c t] eqn:E; [done|]. assert (Hc : is_digit c = true) by (by apply andb_prop in Hd as [Hd _]).
  assert (Hr' : 48 <= ascii_code c <= 57) by (unfold is_digit, in_range in Hc; zbool; lia).
  assert (Hs : is_space c = false) by (unfold is_space; repeat (apply orb_false_intro || apply andb_false_intro2); zbool; lia).
  cbn [drop_blank app]. rewrite Hs. cbn [andb].
  replace (ascii_code c =? 45) with false by (symmetry; apply Z.eqb_neq; lia).
  replace (ascii_code c =? 43) with false by (symmetry; apply Z.eqb_neq; lia).
  rewrite (app_comm_cons t (chars rest) c), take_digits_app by done. rewrite Hv.
  replace (- 2 ^ 63 <=? n) with true by (symmetry; apply Z.leb_le; lia).
  replace (n <? 2 ^ 63) with true by (symmetry; apply Z.ltb_lt; lia). done.
Qed.

Lemma app_estr s : s +:+ estr = s.
Proof. induction s as [|c s IH]; [done|]. rewrite string_cons_app. by f_equal. Qed.

(** The highest version is found in any order of the map. *)
Definition version_names (n : Z) : list string := show_uint <$> seqZ 1 n.
Lemma max_version_spec n keys : 1 <= n < 2 ^ 63 -> keys ≡ₚ version_names n -> max_version keys = n.
Proof.
  intros Hn Hp. unfold max_version.
  set (step := fun v acc => match sscanf_d v with Some k => if acc <? k then k else acc | None => acc end).
  assert (Hstep : forall k acc, 1 <= k < 2 ^ 63 -> step (show_uint k) acc = Z.max acc k).
  { intros k acc Hk. unfold step. pose proof (sscanf_show k estr ltac:(lia) I) as Hs. rewrite app_estr in Hs. rewrite Hs.
    destruct (acc <? k) eqn:E; zbool; lia. }
  assert (Hf : forall ks, Forall (fun k => 1 <= k < 2 ^ 63) ks -> foldr step 0 (show_uint <$> ks) = foldr (fun k a => Z.max a k) 0 ks).
  { induction 1 as [|k ks Hk _ IH]; [done|]. cbn [fmap list_fmap foldr]. by rewrite IH, Hstep. }
  apply Permutation_map_inv in Hp as (ks & -> & Hks). change (map show_uint ks) with (show_uint <$> ks).
  assert (Hall : Forall (fun k => 1 <= k <= n) ks).
  { rewrite <- Hks. apply Forall_forall. intros k Hk. apply elem_of_seqZ in Hk. lia. }
  rewrite Hf by (eapply Forall_impl; [exact Hall|]; cbn; lia).
  assert (Hmax : foldr (fun k a => Z.max a k) 0 ks = n).
  { apply Z.le_antisymm.
    - clear -Hall Hn. induction Hall as [|k ks Hk _ IH]; cbn; lia.
    - assert (Hin : n ∈ ks) by (rewrite <- Hks; apply elem_of_seqZ; lia). clear -Hin.
      induction ks as [|k ks IH]; [by apply not_elem_of_nil in Hin|]. apply elem_of_cons in Hin as [->|Hin]; cbn; [lia|].
      specialize (IH Hin). lia. }
  rewrite Hmax. destruct (n =? 0) eqn:E; zbool; lia.
Qed.

(** ** The transit engine, as documented *)
Section Transit.
Context {V : Type} (serve : V -> vreq -> V * vresp) (ReadFile : string -> option string) (m : VaultConfig).

(** [accepts]: the Authorization values the server accepts; [latest]: the newest version of
    the key; [opens]: what a ciphertext decrypts to; [version_of]: the version in it. *)
Class Transit (accepts : string -> Prop) (latest : V -> Z) (opens : V -> string -> option bytes)
  (version_of : string -> Z) : Prop := {
  latest_range s : 1 <= latest s < 2 ^ 62;
  transit_encrypt s a dek : accepts a -> bytes_ok dek ->
    exists b c, serve s (mkVReq "POST" ("/v1/transit/encrypt/" +:+ KeyName m) a
                          (Some (JObj [("plaintext", JStr (Base64.EncodeToString dek))]))) = (s, Some (200, Some b))
    /\ data_string (Some b) "ciphertext" = Some c /\ opens s c = Some dek /\ version_of c = latest s;
  transit_decrypt s a c dek : accepts a -> opens s c = Some dek ->
    exists b, serve s (mkVReq "POST" ("/v1/transit/decrypt/" +:+ KeyName m) a (Some (JObj [("ciphertext", JStr c)])))
              = (s, Some (200, Some b))
    /\ data_string (Some b) "plaintext" = Some (Base64.EncodeToString dek);
  transit_keys s a : accepts a ->
    exists b keys, serve s (mkVReq "GET" ("/v1/transit/keys/" +:+ KeyName m) a None) = (s, Some (200, Some b))
    /\ data_keys (Some b) = Some keys /\ keys ≡ₚ version_names (latest s);
  transit_rotate s a : accepts a -> latest s < 2 ^ 62 - 1 ->
    exists s' b, serve s (mkVReq "POST" ("/v1/transit/rotate/" +:+ KeyName m) a None) = (s', Some (204, b))
    /\ latest s' = latest s + 1 /\ forall c d, opens s c = Some d -> opens s' c = Some d }.

Context {accepts latest opens version_of} `{!Transit accepts latest opens version_of}.
Context (a : string) (Hauth : setAuthHeader ReadFile m = Some a) (Hvalid : valid_header a = true) (Hacc : accepts a).

Lemma version_read s : vault_GetKeyVersion serve ReadFile m s = (s, Ok (latest s)).
Proof.
  unfold vault_GetKeyVersion, request, vault_Do. rewrite Hauth. cbn [v_authorization]. rewrite Hvalid.
  destruct (transit_keys s a Hacc) as (b & keys & -> & -> & Hk). cbn.
  rewrite (max_version_spec (latest s)); [done|pose proof (latest_range s); lia|done].
Qed.
Lemma unwrapped s c dek :
  opens s c = Some dek -> bytes_ok dek -> vault_Unwrap serve ReadFile m s (bytes_of_string c) = (s, Ok dek).
Proof.
  intros Ho Hb. unfold vault_Unwrap, request, vault_Do. rewrite Hauth, string_bytes_roundtrip. cbn [v_authorization]. rewrite Hvalid.
  destruct (transit_decrypt s a c dek Hacc Ho) as (b & -> & ->). cbn. by rewrite Base64.decode_encode.
Qed.
(** What wrapping gives when others rotate the key between its two requests. *)
Lemma wrapped between s dek :
  bytes_ok dek -> exists c, opens s c = Some dek /\ version_of c = latest s
    /\ vault_Wrap serve ReadFile m between s dek = (between s, Ok (bytes_of_string c, latest (between s))).
Proof.
  intros Hb. unfold vault_Wrap, request, vault_Do. rewrite Hauth. cbn [v_authorization]. rewrite Hvalid.
  destruct (transit_encrypt s a dek Hacc Hb) as (b & c & -> & -> & Ho & Hv). cbn. rewrite version_read. by exists c.
Qed.
Lemma rotated s :
  latest s < 2 ^ 62 - 1 -> exists s', vault_RotateKey serve ReadFile m s = (s', Ok tt) /\ latest s' = latest s + 1
    /\ forall c d, opens s c = Some d -> opens s' c = Some d.
Proof.
  intros Hl. unfold vault_RotateKey, request, vault_Do. rewrite Hauth. cbn [v_authorization]. rewrite Hvalid.
  destruct (transit_rotate s a Hacc Hl) as (s' & b & -> & Hs' & Ho). by exists s'.
Qed.

(** The manager at one state of the server keeps the law of the interface. *)
#[export] Instance vault_manager : Crypto.KeyManager V := {
  Wrap s _ dek := snd (vault_Wrap serve ReadFile m id s dek);
  Unwrap s w := snd (vault_Unwrap serve ReadFile m s w);
  GetKeyVersion s := snd (vault_GetKeyVersion serve ReadFile m s) }.
#[export] Program Instance vault_lawful : LawfulKeyManager V := { km_ok := fun _ => True; km_dek := fun _ d => bytes_ok d }.
Next Obligation.
  intros s nonce dek _ Hd _. cbn. destruct (wrapped id s dek Hd) as (c & Ho & _ & ->). cbn. exists (bytes_of_string c), (latest s).
  by rewrite version_read, (unwrapped s c dek).
Qed.

(** [n] rotations in a row; the first failure ends them. *)
Fixpoint rotations (n : nat) (s : V) : option V :=
  match n with
  | O => Some s
  | S n => match vault_RotateKey serve ReadFile m s with (s, Ok _) => rotations n s | _ => None end
  end.
Lemma rotations_keep n : forall s, latest s + Z.of_nat n < 2 ^ 62 ->
  exists s', rotations n s = Some s' /\ latest s' = latest s + Z.of_nat n
    /\ forall c d, opens s c = Some d -> opens s' c = Some d.
Proof.
  induction n as [|n IH]; intros s Hl; [exists s; split_and!; [done|lia|done]|]. cbn [rotations].
  destruct (rotated s ltac:(lia)) as (s1 & -> & H1 & Ho1). destruct (IH s1 ltac:(lia)) as (s' & -> & H2 & Ho2).
  exists s'. split_and!; [done|lia|eauto].
Qed.

Context (Seal : bytes -> bytes -> bytes -> bytes -> bytes) (Open : bytes -> bytes -> bytes -> bytes -> option bytes).
Context (seal_length : forall k n p a, length (Seal k n p a) = (length p + 16)%nat).
Context (open_seal : forall k n p a, Open k n (Seal k n p a) a = Some p).

(** With the Vault manager a secret survives every number of rotations, where the
    software manager loses it at the second one, and the version stored with it is that of
    its wrapping.  A rotation by another client between the two requests of [Wrap] makes
    the version it returns newer than the wrapping. *)
Theorem vault_secret_survives now text s dek n1 n2 n between :
  length dek = 32%nat -> bytes_ok dek -> length n1 = 12%nat -> length n2 = 12%nat -> latest s + Z.of_nat n < 2 ^ 62 ->
  (exists es s', EncryptSecret Seal now text s dek n1 n2 = Ok es /\ rotations n s = Some s'
     /\ DecryptSecret Open es s' = Ok text /\ es_DEKVersion es = latest s /\ latest s' = latest s + Z.of_nat n)
  /\ exists c, version_of c = latest s
     /\ snd (vault_Wrap serve ReadFile m between s dek) = Ok (bytes_of_string c, latest (between s)).
Proof.
  intros Hd Hb H1 H2 Hn. split.
  - assert (Hk : km_ok s) by exact I. assert (Hkd : km_dek s dek) by exact Hb.
    destruct (secret_roundtrip Seal Open seal_length open_seal now text s dek n1 n2 Hk Hkd Hd H1 H2) as (es & E & Hu & _ & Hall).
    destruct (rotations_keep n s Hn) as (s' & -> & Hs' & Ho). exists es, s'. split; [done|]. split; [done|].
    destruct (wrapped id s dek Hb) as (c & Hc & _ & Hw).
    assert (Hes : es_EncryptedDEK es = bytes_of_string c /\ es_DEKVersion es = latest s).
    { unfold EncryptSecret in E. cbn in E. rewrite version_read, Hw in E. cbn in E.
      destruct (Encrypt _ _ _ _ _) as [enc| |]; [|done..]. cbn in E. by injection E as <-. }
    destruct Hes as [He Hv]. split_and!; [|done|done]. apply Hall. rewrite He. cbn. by rewrite (unwrapped s' c dek (Ho _ _ Hc)).
  - destruct (wrapped between s dek Hb) as (c & _ & Hv & ->). by exists c.
Qed.
End Transit.

(** ** A transit engine in one number

    The state is the version; a ciphertext is the version, a colon and the plaintext. *)
Definition toy_latest (s : Z) : Z := Z.max 1 (Z.min s (2 ^ 62 - 1)).
Fixpoint after_colon (cs : list char) : list char :=
  match cs with c :: t => if ascii_code c =? 58 then t else after_colon t | [] => [] end.
Definition toy_opens (s : Z) (c : string) : option bytes :=
  v ← sscanf_d c; if v <=? toy_latest s then Base64.DecodeString (String.string_of_list_ascii (after_colon (chars c))) else None.
Definition toy_version (c : string) : Z := default 0 (sscanf_d c).
Definition toy_data (k : string) (v : json) : json := JObj [("data", JObj [(k, v)])].
Definition body_string (r : vreq) (k : string) : string := default estr (fs ← v_body r ≫= fields; str_field fs k).
Definition toy_serve (name : string) (s : Z) (r : vreq) : Z * vresp :=
  let path p := str_eqb (v_path r) ("/v1/transit/" +:+ p +:+ "/" +:+ name) in
  if negb (str_eqb (v_authorization r) "Bearer t") then (s, Some (403, None))
  else if path "encrypt" then
    (s, Some (200, Some (toy_data "ciphertext" (JStr (show_uint (toy_latest s) +:+ ":" +:+ body_string r "plaintext")))))
  else if path "decrypt" then
    match toy_opens s (body_string r "ciphertext") with
    | Some d => (s, Some (200, Some (toy_data "plaintext" (JStr (Base64.EncodeToString d)))))
    | None => (s, Some (400, None))
    end
  else if path "rotate" then (toy_latest s + 1, Some (204, None))
  else if path "keys" then
    (s, Some (200, Some (toy_data "keys" (JObj ((fun n => (n, JNum 0)) <$> version_names (toy_latest s))))))
  else (s, Some (404, None)).

Lemma after_colon_digits ds rest : forallb is_digit ds = true -> after_colon (ds ++ rest) = after_colon rest.
Proof.
  induction ds as [|c t IH]; [done|]. cbn. intros [Hc Ht]%andb_prop.
  assert (ascii_code c =? 58 = false) as -> by (unfold is_digit, in_range in Hc; zbool; lia). by apply IH.
Qed.
Lemma toy_cipher_open s s' p : toy_latest s <= toy_latest s' ->
  toy_opens s' (show_uint (toy_latest s) +:+ ":" +:+ p) = Base64.DecodeString p
  /\ toy_version (show_uint (toy_latest s) +:+ ":" +:+ p) = toy_latest s.
Proof.
  intros Hl. assert (Hr : 1 <= toy_latest s < 2 ^ 62) by (unfold toy_latest; lia).
  unfold toy_opens, toy_version. rewrite sscanf_show by (done || lia). cbn.
  destruct (toy_latest s <=? toy_latest s') eqn:E; [|zbool; lia]. split; [|done].
  rewrite chars_app, after_colon_digits by (apply show_uint_digits; lia). change (after_colon (chars (":" +:+ p))) with (chars p). unfold chars. by rewrite String.string_of_list_ascii_of_string.
Qed.
Lemma keys_document names :
  data_keys (Some (toy_data "keys" (JObj ((fun n => (n, JNum 0)) <$> names)))) = Some names.
Proof.
  assert (H : forall kvs, data_keys (Some (toy_data "keys" (JObj kvs))) = (_ ← mapM dec_int kvs.*2; Some kvs.*1)) by done.
  rewrite H. clear H. assert (H1 : ((fun n : string => (n, JNum 0)) <$> names).*1 = names).
  { induction names as [|n t IH]; [done|]. cbn. by f_equal. }
  assert (H2 : is_Some (mapM dec_int ((fun n : string => (n, JNum 0)) <$> names).*2)).
  { apply mapM_is_Some_2, Forall_forall. intros v Hv. apply list_elem_of_fmap in Hv as (y & -> & Hy).
    apply list_elem_of_fmap in Hy as (z & -> & _). by exists 0. }
  rewrite H1. destruct H2 as [l ->]. done.
Qed.
#[export] Instance toy_transit (m : VaultConfig) :
  Transit (toy_serve (KeyName m)) m (fun a => a = "Bearer t") toy_latest toy_opens toy_version.
Proof.
  split.
  - intros s. unfold toy_latest. lia.
  - intros s a dek -> Hb. unfold toy_serve. cbn [v_authorization v_path].
    change ("/v1/transit/encrypt/" +:+ KeyName m) with ("/v1/transit/" +:+ "encrypt" +:+ "/" +:+ KeyName m).
    rewrite !str_eqb_refl. cbn [negb]. eexists _, (show_uint (toy_latest s) +:+ ":" +:+ Base64.EncodeToString dek). split; [done|]. split; [done|].
    destruct (toy_cipher_open s s (Base64.EncodeToString dek) ltac:(lia)) as [-> ->]. by rewrite Base64.decode_encode.
  - intros s a c dek -> Ho. unfold toy_serve. cbn [v_authorization v_path].
    change (body_string _ "ciphertext") with c. rewrite Ho. rewrite str_eqb_refl. cbn [negb].
    rewrite (str_eqb_false _ ("/v1/transit/" +:+ "encrypt" +:+ "/" +:+ KeyName m)) by done. rewrite str_eqb_refl. by eexists.
  - intros s a ->. unfold toy_serve. cbn [v_authorization v_path]. rewrite str_eqb_refl. cbn [negb].
    do 3 rewrite str_eqb_false by done. rewrite str_eqb_refl. eexists _, (version_names (toy_latest s)). split; [done|].
    split; [|done]. apply keys_document.
  - intros s a -> Hl. unfold toy_serve. cbn [v_authorization v_path]. rewrite str_eqb_refl. cbn [negb].
    do 2 rewrite str_eqb_false by done. rewrite str_eqb_refl. eexists _, _. split; [done|]. unfold toy_latest in *. split; [lia|].
    intros c d. unfold toy_opens. destruct (sscanf_d c) as [v|]; [|done]. cbn. unfold toy_latest.
    repeat (destruct (_ <=? _) eqn:?; zbool); try done. lia.
Qed.

Definition token_config : VaultConfig := mkVault "http://vault:8200" "kek" "token" estr "t" estr.
Lemma vault_secret_survives_witness :
  exists es s', EncryptSecret toy_seal 7 "radius-secret" 1 (repeat 3 32) (repeat 1 12) (repeat 2 12)
      (H := vault_manager (toy_serve "kek") (fun _ => None) token_config) = Ok es
  /\ rotations (toy_serve "kek") (fun _ => None) token_config 5 1 = Some s'
  /\ DecryptSecret toy_open es s' (H := vault_manager (toy_serve "kek") (fun _ => None) token_config) = Ok "radius-secret".
Proof.
  destruct (vault_secret_survives (toy_serve "kek") (fun _ => None) token_config
    (Transit0 := toy_transit token_config) "Bearer t" eq_refl eq_refl eq_refl toy_seal toy_open toy_length toy_open_seal 7 "radius-secret" 1 (repeat 3 32) (repeat 1 12) (repeat 2 12) 5 id)
    as [(es & s' & H1 & H2 & H3 & _) _].
  1, 3, 4: reflexivity.
  - apply List.Forall_forall. intros x Hx. apply repeat_spec in Hx. subst x. unfold in_u8. lia.
  - vm_compute. done.
  - by exists es, s'.
Defined.

(** ** What the manager lets pass

    A 200 answer without a ciphertext is a wrapped key of no bytes; the version falls back
    to 1 when it cannot be read; a service account token that ends with a newline is never
    sent; the HSM manager says that it rotated. *)
Lemma wrap_accepts_empty {V} (serve : V -> vreq -> V * vresp) ReadFile m s dek a :
  setAuthHeader ReadFile m = Some a -> valid_header a = true -> (forall s r, serve s r = (s, Some (200, Some (JObj [])))) ->
  snd (vault_Wrap serve ReadFile m id s dek) = Ok ([], 1).
Proof.
  intros Ha Hv Hs. unfold vault_Wrap, vault_GetKeyVersion, request, vault_Do. rewrite Ha. cbn [v_authorization].
  rewrite Hv, !Hs. done.
Qed.
Lemma newline_token_not_sent {V} (serve : V -> vreq -> V * vresp) ReadFile m s dek tok :
  AuthMethod m = "kubernetes" -> ReadFile sa_token_path = Some (tok +:+ String (Ascii.ascii_of_N 10) estr) ->
  exists e, vault_Wrap serve ReadFile m id s dek = (s, Err e).
Proof.
  intros Hm Hf. unfold vault_Wrap, request, setAuthHeader. rewrite Hm, str_eqb_refl, Hf. cbn [mbind option_bind].
  unfold vault_Do. cbn [v_authorization].
  assert (valid_header ("Bearer " +:+ (tok +:+ String (Ascii.ascii_of_N 10) estr)) = false) as ->.
  { unfold valid_header. rewrite !chars_app, !forallb_app. cbn. by rewrite andb_false_r. }
  by eexists.
Qed.
