(* ===== verification/RedisStores.v ===== *)
(** * What the processes keep in Redis

    internal/cache/redis session_cache.go and session_correlation.go, the context store of
    internal/api/nssaa/redis_store.go, the pod registry
    of cmd/biz/main.go ([podHeartbeat]) read by internal/httpclient/biz_registry.go, and
    the consumer of internal/cache/redis/dlq.go with its shutdown.  Redis is one map from
    keys to documents with their expiry; commands fail when it cannot be reached or the
    context of the call has ended.  Times are in nanoseconds. *)
From S2P Require Import Prelude Regex Common Types Encoding EapSession Resilience Gateway BizClients Notify Handlers Json NrfServer.
Import Validator.
Local Open Scope string_scope.
Local Open Scope Z_scope.
Local Open Scope list_scope.

(** ** Redis *)
Record redis : Type := mkRedis { r_kv : gmap string (json * option Z); r_up : bool }.
Definition live (now : Z) (e : option Z) : bool := match e with None => true | Some t => now <? t end.
Definition value (now : Z) (r : redis) (k : string) : option json :=
  match r_kv r !! k with Some (v, e) => if live now e then Some v else None | None => None end.
(** [ok]: the command goes out (the context has not ended). *)
Definition GET (ok : bool) (now : Z) (r : redis) (k : string) : string + option json :=
  if ok && r_up r then inr (value now r k) else inl "redis".
(** An expiration of 0 means none. *)
Definition SET (ok : bool) (now : Z) (r : redis) (k : string) (v : json) (ttl : Z) : redis * option string :=
  if ok && r_up r then (mkRedis (<[k := (v, if ttl =? 0 then None else Some (now + ttl))]> (r_kv r)) true, None)
  else (r, Some "redis").
Definition DEL (ok : bool) (r : redis) (k : string) : redis * option string :=
  if ok && r_up r then (mkRedis (delete k (r_kv r)) true, None) else (r, Some "redis").
(** [EXPIRE] of a key that is not there does nothing and is no error. *)
Definition EXPIRE (ok : bool) (now : Z) (r : redis) (k : string) (ttl : Z) : redis * option string :=
  if ok && r_up r then
    match value now r k with
    | Some v => (mkRedis (<[k := (v, Some (now + ttl))]> (r_kv r)) true, None)
    | None => (r, None)
    end
  else (r, Some "redis").

Lemma value_set now r k v ttl now' k' :
  r_up r = true ->
  value now' (fst (SET true now r k v ttl)) k'
  = if decide (k = k') then (if (ttl =? 0) || (now' <? now + ttl) then Some v else None) else value now' r k'.
Proof.
  intros Hu. unfold SET. rewrite Hu. cbn. unfold value. cbn. destruct (decide (k = k')) as [<-|Hne].
  - rewrite lookup_insert_eq. by destruct (ttl =? 0).
  - by rewrite lookup_insert_ne.
Qed.
Lemma prefix_inj (p a b : string) : p +:+ a = p +:+ b -> a = b.
Proof. intros H. apply (f_equal (fun s => strip_prefix p s)) in H. rewrite !strip_prefix_app in H. by injection H. Qed.

(** ** session_cache.go *)
Record SessionCacheEntry : Type := mkSCE {
  SnssaiSST : Z; SnssaiSD : string; sc_NssaaStatus : string; EAPRounds : Z; sc_Method : string }.
Definition sce_segs (e : SessionCacheEntry) :=
  [("snssai_sst", SInt false (SnssaiSST e)); ("snssai_sd", SStr false (SnssaiSD e));
   ("nssaa_status", SStr false (sc_NssaaStatus e)); ("eap_rounds", SInt false (EAPRounds e)); ("method", SStr false (sc_Method e))].
Definition sce_json (e : SessionCacheEntry) : json := JObj (build (sce_segs e)).
(** A field of type uint8. *)
Definition u8_field (fs : list (string * json)) (k : string) : option Z :=
  n ← int_field fs k; if (0 <=? n) && (n <? 256) then Some n else None.
Definition sce_dec (v : json) : option SessionCacheEntry :=
  fs ← fields v; sst ← u8_field fs "snssai_sst"; sd ← str_field fs "snssai_sd"; st ← str_field fs "nssaa_status";
  n ← int_field fs "eap_rounds"; m ← str_field fs "method"; Some (mkSCE sst sd st n m).
Lemma u8_field_build segs k oe n :
  distinct segs = true -> assoc segs k = Some (SInt oe n) -> in_u8 n -> u8_field (build segs) k = Some n.
Proof.
  intros Hd Ha Hn. unfold u8_field. rewrite (int_field_build segs k oe n) by done. cbn.
  unfold in_u8 in Hn. destruct (0 <=? n) eqn:E1, (n <? 256) eqn:E2; zbool; done || lia.
Qed.
Lemma sce_roundtrip e : in_u8 (SnssaiSST e) -> sce_dec (sce_json e) = Some e.
Proof.
  intros H. unfold sce_dec, sce_json. cbn [fields mbind option_bind].
  erewrite u8_field_build by (done || reflexivity). cbn [mbind option_bind].
  repeat (erewrite str_field_build by reflexivity || erewrite int_field_build by reflexivity; cbn [mbind option_bind]).
  by destruct e.
Qed.

Module SessionCache.
Definition sessionKey (authCtxID : string) : string := "nssaa:session:" +:+ authCtxID.
Section Cache.
Context (ttl : Z).
Inductive cache_error : Type := ErrGet | ErrUnmarshal.
Definition Get (ok : bool) (now : Z) (r : redis) (id : string) : cache_error + option SessionCacheEntry :=
  match GET ok now r (sessionKey id) with
  | inl _ => inl ErrGet
  | inr None => inr None
  | inr (Some v) => match sce_dec v with None => inl ErrUnmarshal | Some e => inr (Some e) end
  end.
Definition Set_ (ok : bool) (now : Z) (r : redis) (id : string) (e : SessionCacheEntry) : redis * option string :=
  SET ok now r (sessionKey id) (sce_json e) ttl.
Definition Delete (ok : bool) (r : redis) (id : string) : redis * option string := DEL ok r (sessionKey id).
Definition Refresh (ok : bool) (now : Z) (r : redis) (id : string) : redis * option string :=
  EXPIRE ok now r (sessionKey id) ttl.
Definition Exists (ok : bool) (now : Z) (r : redis) (id : string) : string + bool :=
  match GET ok now r (sessionKey id) with inl e => inl e | inr v => inr (bool_decide (v <> None)) end.

(** The session cache: what is set is read back until it expires, also after a refresh
    in time, which restarts the life time; a deleted entry is gone; sessions do not disturb
    each other. *)
Theorem cache_contract r id e now now1 now2 :
  r_up r = true -> in_u8 (SnssaiSST e) -> 0 < ttl -> now <= now1 ->
  let r1 := fst (Set_ true now r id e) in
  let r2 := fst (Refresh true now1 r1 id) in
  Get true now1 r1 id = inr (if now1 <? now + ttl then Some e else None)
  /\ Exists true now1 r1 id = inr (now1 <? now + ttl)
  /\ Get true now2 r2 id = inr (if now2 <? (if now1 <? now + ttl then now1 else now) + ttl then Some e else None)
  /\ Get true now2 (fst (Delete true r1 id)) id = inr None
  /\ forall other, other <> id -> Get true now2 r1 other = Get true now2 r other
     /\ Get true now2 r2 other = Get true now2 r other /\ Get true now2 (fst (Delete true r1 id)) other = Get true now2 r other.
Proof.
  intros Hu He Ht Hn r1 r2.
  assert (Hz : ttl =? 0 = false) by (apply Z.eqb_neq; lia).
  assert (Hu1 : r_up r1 = true) by (unfold r1, Set_, SET; by rewrite Hu).
  assert (Hv1 : forall t k, value t r1 k = if decide (sessionKey id = k) then if t <? now + ttl then Some (sce_json e) else None else value t r k).
  { intros t k. unfold r1, Set_. rewrite value_set, Hz by done. done. }
  assert (Hv2 : forall t k, value t r2 k = if decide (sessionKey id = k) then
      if t <? (if now1 <? now + ttl then now1 else now) + ttl then Some (sce_json e) else None else value t r k).
  { intros t k. unfold r2, Refresh, EXPIRE. rewrite Hu1. cbn [andb]. rewrite Hv1, decide_True by done.
    destruct (now1 <? now + ttl) eqn:E1; cbn [fst]; [|apply Hv1]. unfold value. cbn. destruct (decide (sessionKey id = k)) as [<-|Hk].
    - by rewrite lookup_insert_eq.
    - rewrite lookup_insert_ne by done. specialize (Hv1 t k). rewrite decide_False in Hv1 by done. exact Hv1. }
  assert (Hu2 : r_up r2 = true).
  { unfold r2, Refresh, EXPIRE. rewrite Hu1. cbn. by destruct (value _ _ _). }
  assert (Hne : forall other, other <> id -> sessionKey id <> sessionKey other) by (intros other Ho H; by apply prefix_inj in H).
  unfold Get, Exists, GET. rewrite Hu1, Hu2, Hu. cbn [andb]. rewrite !Hv1, !Hv2, !decide_True by done. split_and!.
  - destruct (now1 <? now + ttl); [|done]. by rewrite sce_roundtrip.
  - by destruct (now1 <? now + ttl).
  - destruct (now2 <? _); [|done]. by rewrite sce_roundtrip.
  - unfold Delete, DEL. rewrite Hu1. cbn. unfold value. cbn. by rewrite lookup_delete_eq.
  - intros other Ho. rewrite !Hv1, !Hv2, !decide_False by auto. split_and!; [done|done|].
    unfold Delete, DEL. rewrite Hu1. cbn [fst r_up andb]. specialize (Hv1 now2 (sessionKey other)).
    rewrite decide_False in Hv1 by auto. unfold value in *. cbn. rewrite lookup_delete_ne by auto. by rewrite Hv1.
Qed.
End Cache.
End SessionCache.

(** ** session_correlation.go *)
Module Correlation.
Definition corr_segs (e : SessionCorrEntry) :=
  [("authCtxId", SStr false (ce_AuthCtxID e)); ("gpsi", SStr false (ce_GPSI e)); ("podId", SStr false (ce_PodID e));
   ("sst", SInt false (ce_Sst e)); ("sd", SStr false (ce_Sd e)); ("createdAt", SInt false (ce_CreatedAt e))].
Definition corr_json (e : SessionCorrEntry) : json := JObj (build (corr_segs e)).
Definition corr_dec (v : json) : option SessionCorrEntry :=
  fs ← fields v; a ← str_field fs "authCtxId"; g ← str_field fs "gpsi"; p ← str_field fs "podId";
  sst ← u8_field fs "sst"; sd ← str_field fs "sd"; t ← int_field fs "createdAt"; Some (mkCorr a g p sst sd t).
Lemma corr_roundtrip e : in_u8 (ce_Sst e) -> corr_dec (corr_json e) = Some e.
Proof.
  intros H. unfold corr_dec, corr_json. cbn [fields mbind option_bind].
  repeat (first [erewrite str_field_build by reflexivity | erewrite u8_field_build by (done || reflexivity)
               | erewrite int_field_build by reflexivity]; cbn [mbind option_bind]).
  by destruct e.
Qed.

Definition Save (ttl : Z) (ok : bool) (now : Z) (r : redis) (sessionID : string) (e : SessionCorrEntry) : redis * option string :=
  SET ok now r (SessionCorrKey sessionID) (corr_json e) ttl.
Inductive load_error : Type := ErrLoad | ErrDecode.
Definition Load (ok : bool) (now : Z) (r : redis) (sessionID : string) : load_error + option SessionCorrEntry :=
  match GET ok now r (SessionCorrKey sessionID) with
  | inl _ => inl ErrLoad
  | inr None => inr None
  | inr (Some v) => match corr_dec v with None => inl ErrDecode | Some e => inr (Some e) end
  end.

(** The correlation entries of the AAA gateway ([Gateway.corr_store]) as they are in Redis. *)
Definition holds (st : corr_store) (r : redis) : Prop :=
  forall sid, r_kv r !! SessionCorrKey sid = (fun '(e, t) => (corr_json e, Some t)) <$> st !! SessionCorrKey sid.
Lemma corr_key_inj a b : SessionCorrKey a = SessionCorrKey b -> a = b.
Proof. apply prefix_inj. Qed.

(** What the gateway writes before it forwards a message is what the Biz Pod loads, for
    the life time of the entry; the gateway's own store and Redis stay in step. *)
Lemma gateway_entry_loaded st r now now' sid e :
  r_up r = true -> in_u8 (ce_Sst e) -> holds st r ->
  let st' := writeSessionCorr now st sid e in
  let r' := fst (Save DefaultPayloadTTL true now r sid e) in
  holds st' r' /\ Load true now' r' sid = inr (getSessionCorr now' st' sid).
Proof.
  intros Hu He Hh st' r'.
  assert (Hd : DefaultPayloadTTL =? 0 = false) by done.
  assert (Hr : r' = mkRedis (<[SessionCorrKey sid := (corr_json e, Some (now + DefaultPayloadTTL))]> (r_kv r)) true).
  { unfold r', Save, SET. by rewrite Hu, Hd. }
  split.
  - intros sid'. rewrite Hr. unfold st', writeSessionCorr. cbn [r_kv].
    destruct (decide (sid = sid')) as [<-|Hne]; [by rewrite !lookup_insert_eq|].
    rewrite !lookup_insert_ne by (intros H; by apply corr_key_inj in H). apply Hh.
  - unfold Load, GET, getSessionCorr, value, st', writeSessionCorr. rewrite Hr. cbn [r_up r_kv andb].
    rewrite !lookup_insert_eq. cbn [live]. destruct (now' <? now + DefaultPayloadTTL); [|done]. by rewrite corr_roundtrip.
Qed.

(** The two stores share their key prefix: an entry of the session cache reads as a
    correlation entry with no content, without an error, and overwrites one. *)
Theorem cache_reads_as_correlation ttl r id e c now now' :
  r_up r = true -> 0 < ttl -> now' < now + ttl ->
  let r1 := fst (Save ttl true now r id c) in
  Load true now' (fst (SessionCache.Set_ ttl true now r1 id e)) id = inr (Some (mkCorr estr estr estr 0 estr 0)).
Proof.
  intros Hu Ht Hn r1. assert (Hu1 : r_up r1 = true) by (unfold r1, Save, SET; by rewrite Hu).
  unfold Load, GET, SessionCache.Set_.
  assert (Hz : ttl =? 0 = false) by (apply Z.eqb_neq; lia).
  assert (Hs : r_up (fst (SET true now r1 (SessionCache.sessionKey id) (sce_json e) ttl)) = true) by (unfold SET; by rewrite Hu1).
  rewrite Hs. cbn [andb]. rewrite value_set, decide_True, Hz by done.
  replace (now' <? now + ttl) with true by (symmetry; by apply Z.ltb_lt). cbn [orb].
  unfold corr_dec, sce_json. cbn [fields mbind option_bind].
  unfold str_field, u8_field, int_field. rewrite !field_build by reflexivity. done.
Qed.
End Correlation.

(** ** internal/api/nssaa/redis_store.go *)
Module AuthCtxStore.
Import Handlers.Nssaa.
Definition AuthCtxTTL : Z := 24 * 3600 * second.
Definition ctx_key (id : string) : string := "nssaa:auth:ctx:" +:+ id.
(** The payload is a byte slice: Base64, null when it is nil. *)
Definition ctx_segs (a : AuthCtx) :=
  [("AuthCtxID", SStr false (x_AuthCtxID a)); ("GPSI", SStr false (x_GPSI a)); ("SnssaiSST", SInt false (x_SST a));
   ("SnssaiSD", SStr false (x_SD a)); ("AmfInstance", SStr false (x_AmfInstance a)); ("ReauthURI", SStr false (x_ReauthURI a));
   ("RevocURI", SStr false (x_RevocURI a)); ("EapPayload", SStr true (Base64.EncodeToString (x_EapPayload a)))].
Definition ctx_json (a : AuthCtx) : json := JObj (build (ctx_segs a)).
Definition ctx_dec (v : json) : option AuthCtx :=
  fs ← fields v; id ← str_field fs "AuthCtxID"; g ← str_field fs "GPSI"; sst ← u8_field fs "SnssaiSST"; sd ← str_field fs "SnssaiSD";
  amf ← str_field fs "AmfInstance"; re ← str_field fs "ReauthURI"; rv ← str_field fs "RevocURI"; e ← str_field fs "EapPayload";
  b ← Base64.DecodeString e; Some (mkAuthCtx id g sst sd amf re rv b).
Lemma ctx_roundtrip a : in_u8 (x_SST a) -> bytes_ok (x_EapPayload a) -> ctx_dec (ctx_json a) = Some a.
Proof.
  intros H Hb. unfold ctx_dec, ctx_json. cbn [fields mbind option_bind].
  repeat (first [erewrite str_field_build by reflexivity | erewrite u8_field_build by (done || reflexivity)]; cbn [mbind option_bind]).
  rewrite Base64.decode_encode by done. by destruct a.
Qed.
Inductive store_error : Type := ErrNotFound | ErrRedisGet | ErrUnmarshal.
Definition Load (ok : bool) (now : Z) (r : redis) (id : string) : store_error + AuthCtx :=
  match GET ok now r (ctx_key id) with
  | inl _ => inl ErrRedisGet
  | inr None => inl ErrNotFound
  | inr (Some v) => match ctx_dec v with None => inl ErrUnmarshal | Some a => inr a end
  end.
Definition Save (ok : bool) (now : Z) (r : redis) (a : AuthCtx) : redis * option string :=
  SET ok now r (ctx_key (x_AuthCtxID a)) (ctx_json a) AuthCtxTTL.
Definition Delete (ok : bool) (r : redis) (id : string) : redis * option string := DEL ok r (ctx_key id).

(** A context is found for 24 hours after it was saved, unless deleted; the others are as
    they were. *)
Lemma ctx_save_load r a now now' :
  r_up r = true -> in_u8 (x_SST a) -> bytes_ok (x_EapPayload a) ->
  let r1 := fst (Save true now r a) in
  Load true now' r1 (x_AuthCtxID a) = (if now' <? now + AuthCtxTTL then inr a else inl ErrNotFound)
  /\ Load true now' (fst (Delete true r1 (x_AuthCtxID a))) (x_AuthCtxID a) = inl ErrNotFound
  /\ forall other, other <> x_AuthCtxID a -> Load true now' r1 other = Load true now' r other.
Proof.
  intros Hu Hs Hb r1. assert (Hu1 : r_up r1 = true) by (unfold r1, Save, SET; by rewrite Hu).
  assert (Hv : forall k, value now' r1 k = if decide (ctx_key (x_AuthCtxID a) = k) then
      if now' <? now + AuthCtxTTL then Some (ctx_json a) else None else value now' r k).
  { intros k. unfold r1, Save. by rewrite value_set. }
  unfold Load, GET. rewrite Hu1, Hu. cbn [andb]. split_and!.
  - rewrite Hv, decide_True by done. destruct (now' <? _); [|done]. by rewrite ctx_roundtrip.
  - unfold Delete, DEL. rewrite Hu1. cbn. unfold value. cbn. by rewrite lookup_delete_eq.
  - intros other Ho. rewrite Hv, decide_False; [done|]. intros H. apply Ho. symmetry. by apply prefix_inj in H.
Qed.
End AuthCtxStore.

(** ** The pod registry: podHeartbeat and getLivePods *)
Module Pods.
Import BizRegistry.
Definition pod_segs (e : BizPodEntry) := [("url", SStr false (URL e)); ("lastSeen", SInt false (LastSeen e))].
Definition pod_json (e : BizPodEntry) : json := JObj (build (pod_segs e)).
Definition pod_dec (v : json) : option BizPodEntry :=
  fs ← fields v; u ← str_field fs "url"; t ← int_field fs "lastSeen"; Some (mkEntry u t).
Lemma pod_roundtrip e : pod_dec (pod_json e) = Some e.
Proof.
  unfold pod_dec, pod_json. cbn [fields mbind option_bind].
  repeat (first [erewrite str_field_build by reflexivity | erewrite int_field_build by reflexivity]; cbn [mbind option_bind]).
  by destruct e.
Qed.
(** [SCAN] with the prefix, then [GET] of each key. *)
Definition scan (now : Z) (r : redis) : pod_scan :=
  if r_up r then
    Some ((fun '(k, (v, _)) => (k, pod_dec v)) <$>
          filter (fun '(k, (_, e)) => HasPrefix k BizPodsKeyPrefix = true /\ live now e = true) (map_to_list (r_kv r)))
  else None.

(** One turn of [podHeartbeat]: the registration and every tick write the entry. *)
Definition beat (now : Z) (podID podURL : string) (r : redis) : redis :=
  fst (SET true now r (BizPodsKey podID) (pod_json (mkEntry podURL (now / second))) BizPodEntryTTL).
(** The end: [Del] is called with the context that has just ended. *)
Definition unregister (podID : string) (r : redis) : redis := fst (DEL false r (BizPodsKey podID)).
(** The ticks, with the reachability of Redis at each, up to the shutdown. *)
Definition podHeartbeat (podID podURL : string) (ticks : list (Z * bool)) (r : redis) : redis :=
  unregister podID (foldl (fun r '(now, up) => beat now podID podURL (mkRedis (r_kv r) up)) r ticks).

Definition offered (now : Z) (podID podURL : string) (r : redis) : Prop :=
  exists l, getLivePods (now / second) (scan now r) = Some l /\ (podID, podURL) ∈ l.

Lemma TrimPrefix_pod id : TrimPrefix (BizPodsKeyPrefix +:+ id) = id.
Proof.
  unfold TrimPrefix. rewrite chars_app, take_app_length, bool_decide_eq_true_2, drop_app_length by done.
  unfold chars. by rewrite String.string_of_list_ascii_of_string.
Qed.
Lemma offered_lookup now podID podURL r :
  r_up r = true ->
  offered now podID podURL r <->
  exists v e, r_kv r !! BizPodsKey podID = Some (v, e) /\ live now e = true
    /\ exists t, pod_dec v = Some (mkEntry podURL t) /\ now / second - t < 60.
Proof.
  intros Hu. unfold offered, scan. rewrite Hu. cbn [getLivePods]. split.
  - intros (l & [= <-] & Hin). apply list_elem_of_In, in_flat_map in Hin as ([k o] & Hk & Hin).
    apply list_elem_of_In, list_elem_of_fmap in Hk as ([k' [v e]] & [= -> ->] & Hf).
    apply list_elem_of_filter in Hf as [[Hp Hl] Hm]. apply elem_of_map_to_list in Hm.
    destruct (pod_dec v) as [[u t]|] eqn:Ev; [|done]. cbn in Hin. destruct (_ <? 60) eqn:Et; [|done].
    destruct Hin as [[= H1 ->]|[]]. zbool.
    assert (Hk : k' = BizPodsKey podID).
    { unfold HasPrefix in Hp. destruct (strip_prefix BizPodsKeyPrefix k') as [rest|] eqn:Es; [|done].
      apply strip_prefix_Some in Es. subst k'. rewrite TrimPrefix_pod in H1. by subst rest. }
    subst k'. exists v, e. split_and!; [done|done|]. exists t. split; [done|lia].
  - intros (v & e & Hr & Hl & t & Hv & Ht). eexists. split; [done|]. apply list_elem_of_In, in_flat_map.
    exists (BizPodsKey podID, Some (mkEntry podURL t)). split.
    + apply list_elem_of_In, list_elem_of_fmap. exists (BizPodsKey podID, (v, e)). split; [by rewrite Hv|].
      apply list_elem_of_filter. split; [|by apply elem_of_map_to_list]. split; [|done].
      unfold HasPrefix, BizPodsKey, BizPodsKeyPrefix. by rewrite strip_prefix_app.
    + cbn [LastSeen URL]. replace (_ <? 60) with true by (symmetry; apply Z.ltb_lt; lia). left.
      f_equal. apply TrimPrefix_pod.
Qed.
Lemma failed_beats podID podURL post : forall r,
  Forall (fun '(_, up) => up = false) post ->
  r_kv (foldl (fun r '(now, up) => beat now podID podURL (mkRedis (r_kv r) up)) r post) = r_kv r.
Proof.
  induction post as [|[t up] post IH]; intros r Hf; [done|]. apply Forall_cons in Hf as [Hu Hf]. cbn in Hu. subst up.
  cbn [foldl]. by rewrite IH.
Qed.
Lemma run_kv podID podURL pre u post r :
  Forall (fun '(_, up) => up = false) post ->
  r_kv (podHeartbeat podID podURL (pre ++ (u, true) :: post) r) !! BizPodsKey podID
  = Some (pod_json (mkEntry podURL (u / second)), Some (u + BizPodEntryTTL)).
Proof.
  intros Hf. unfold podHeartbeat, unregister, DEL. cbn [andb fst]. rewrite foldl_app. cbn [foldl]. rewrite failed_beats by done.
  unfold beat, SET. cbn. by rewrite lookup_insert_eq.
Qed.

(** Which Biz Pods the HTTP gateway offers.  A pod is offered for at least 59 seconds
    after its last beat that reached Redis and no longer than 60, so a pod that beats every
    30 seconds stays offered when single beats fail; and a pod that has shut down is
    offered all the same, because its deregistration is sent with the context that has
    just ended. *)
Theorem pod_offering podID podURL pre u post r t :
  Forall (fun '(_, up) => up = false) post -> u <= t ->
  let r' := mkRedis (r_kv (podHeartbeat podID podURL (pre ++ (u, true) :: post) r)) true in
  (t <= u + 59 * second -> offered t podID podURL r') /\ (u + 60 * second <= t -> forall url, ~ offered t podID url r').
Proof.
  intros Hf Hut r'. assert (Hk := run_kv podID podURL pre u post r Hf). split.
  - intros Ht. apply offered_lookup; [done|]. eexists _, _. split; [exact Hk|]. split.
    { cbn. apply Z.ltb_lt. unfold BizPodEntryTTL. assert (0 < second) by done. lia. }
    exists (u / second). split; [apply pod_roundtrip|]. assert (Hs : 0 < second) by done.
    assert (t / second <= (u + 59 * second) / second) by (by apply Z.div_le_mono). rewrite Z.div_add in H by lia. lia.
  - intros Ht url Ho. apply offered_lookup in Ho as (v & e & Hr & Hl & _); [|done].
    cbn [r_kv r'] in Hr. unfold r' in Hr. cbn [r_kv] in Hr. rewrite Hk in Hr. injection Hr as <- <-. cbn in Hl. apply Z.ltb_lt in Hl.
    unfold BizPodEntryTTL in Hl. lia.
Qed.
End Pods.

(** ** dlq.go: the consumer of the AMF queue, with its shutdown *)
Module AmfDlq.
(** [classifyError], by the text of an error. *)
Fixpoint contains (s p : string) : bool :=
  HasPrefix s p || match s with String _ t => contains t p | EmptyString => false end.
Definition classifyError (err : option string) : string :=
  match err with
  | None => "unknown"
  | Some e =>
      if contains e "connection refused" || contains e "timeout" || contains e "i/o timeout" then "network"
      else if contains e "non-2xx" then "http" else "unknown"
  end.
(** One turn of the loop of [Process]: whether the context had ended before the item was
    taken, or ends while it is being delivered; the answers of the AMF; the outcome of
    the [k]-th [LPUSH] of the item (one, then up to five more). *)
Record turn : Type := mkTurn {
  t_ended : bool; t_cancelled : bool; t_http : string -> Z + string; t_push : nat -> bool }.
Definition requeued (t : turn) : bool := existsb (fun k => negb (t_cancelled t) && t_push t k) (seq 0 6).
Definition deliverToAMF (t : turn) (uri : string) : Z + string :=
  if t_cancelled t then inr "dlq: do request: context canceled" else t_http t uri.
(** The queue and what became of the items taken. *)
Fixpoint Process (turns : list turn) (q : list AMFDLQItem) : list AMFDLQItem * list dlq_outcome :=
  match turns with
  | [] => (q, [])
  | t :: turns =>
      if t_ended t then (q, [])
      else
        let '(q, o) := Process_one (deliverToAMF t) (requeued t) q in
        if t_cancelled t then (q, [o]) else let '(q, os) := Process turns q in (q, o :: os)
  end.

(** What identifies a notification, and what left the queue for good. *)
Definition ident (it : AMFDLQItem) : string * string * bytes := (i_ID it, i_URI it, i_Payload it).
Definition gone (o : dlq_outcome) : list (string * string * bytes) :=
  match o with
  | Exhausted it | DeliveredAt _ it | Lost _ it => [ident it]
  | Idle | Requeued _ _ => []
  end.
Definition lost (o : dlq_outcome) : bool := match o with Lost _ _ => true | _ => false end.

Lemma turn_conserves http ok q :
  let '(q', o) := Process_one http ok q in ident <$> q ≡ₚ gone o ++ (ident <$> q').
Proof.
  unfold Process_one. destruct (rev q) as [|it rest] eqn:E; [by apply (f_equal (@rev _)) in E; rewrite rev_involutive in E; subst|].
  assert (Hq : q = rev rest ++ [it]) by (by rewrite <- (rev_involutive q), E).
  assert (Hp : ident <$> q ≡ₚ ident it :: (ident <$> rev rest)) by (rewrite Hq, fmap_app, Permutation_app_comm; done).
  repeat case_match; simplify_eq; exact Hp.
Qed.
Lemma not_lost http q : lost (snd (Process_one http true q)) = false.
Proof. unfold Process_one. by repeat case_match. Qed.


(** Every item with a bound on its attempts leaves the queue: at most one turn per attempt
    left and one to discard it. *)
Definition turns_left (it : AMFDLQItem) : nat := S (Z.to_nat (i_MaxAttempts it - i_Attempt it)).
Definition turns_needed (q : list AMFDLQItem) : nat := sum_list_with turns_left q.
Lemma turn_progress http ok q :
  Forall (fun it => 0 < i_MaxAttempts it) q -> q <> [] ->
  let q' := fst (Process_one http ok q) in
  (turns_needed q' < turns_needed q)%nat /\ Forall (fun it => 0 < i_MaxAttempts it) q'.
Proof.
  intros Hm Hq. unfold Process_one. destruct (rev q) as [|it rest] eqn:E.
  { destruct q; [done|]. apply (f_equal (@length _)) in E. rewrite length_rev in E. done. }
  assert (Hr : q = rev rest ++ [it]) by (by rewrite <- (rev_involutive q), E). subst q.
  apply Forall_app in Hm as [Hm Hi]. apply Forall_cons in Hi as [Hi _].
  unfold turns_needed. rewrite sum_list_with_app. cbn [sum_list_with].
  destruct (_ && _) eqn:Ea; [cbn [fst]; unfold turns_left; split; [lia|done]|].
  assert (Ht : i_Attempt it < i_MaxAttempts it).
  { apply andb_false_iff in Ea as [Ea|Ea]; zbool; lia. }
  assert (Hb : forall e, (turns_left (bump e it) < turns_left it)%nat) by (intros e; unfold turns_left, bump; cbn; lia).
  repeat case_match; cbn [fst sum_list_with]; (split; [|done || by constructor]).
  all: try match goal with |- context [turns_left (bump ?e _)] => pose proof (Hb e) end; unfold turns_left in *; lia.
Qed.
Lemma amf_dlq_empties turns : forall q,
  Forall (fun it => 0 < i_MaxAttempts it) q -> Forall (fun t => t_ended t = false /\ t_cancelled t = false) turns ->
  (turns_needed q <= length turns)%nat -> fst (Process turns q) = [].
Proof.
  induction turns as [|t turns IH]; intros q Hm Ht Hl.
  { destruct q; [done|]. cbn in Hl. unfold turns_needed, turns_left in Hl. cbn in Hl. lia. }
  apply Forall_cons in Ht as [[He Hc] Ht]. cbn [Process]. rewrite He, Hc.
  destruct (decide (q = [])) as [->|Hq].
  - change (Process_one _ _ []) with (@nil AMFDLQItem, Idle). specialize (IH [] Hm Ht ltac:(cbn; lia)).
    cbn iota beta. by destruct (Process turns []).
  - destruct (turn_progress (deliverToAMF t) (requeued t) q Hm Hq) as [Hp Hm'].
    destruct (Process_one _ _ q) as [q1 o]. cbn [fst] in *. specialize (IH q1 Hm' Ht ltac:(cbn in Hl; lia)).
    by destruct (Process turns q1).
Qed.
(** A consumer stopped while it delivers the only item loses it. *)
Example stop_loses_item it http push :
  i_MaxAttempts it = 3 -> i_Attempt it = 1 ->
  Process [mkTurn false true http push] [it]
  = ([], [Lost (i_URI it) (bump "dlq: do request: context canceled" it)]).
Proof.
  intros H1 H2. cbn [Process t_ended t_cancelled]. unfold Process_one. cbn [rev app]. rewrite H1, H2. done.
Qed.
End AmfDlq.

(** ** Witnesses *)
Definition redis0 : redis := mkRedis ∅ true.
Definition cached0 : SessionCacheEntry := mkSCE 1 "000001" "PENDING" 2 "EAP-TLS".
Lemma cache_contract_witness :
  SessionCache.Get true 50 (fst (SessionCache.Refresh 60 true 40 (fst (SessionCache.Set_ 60 true 0 redis0 "id-1" cached0)) "id-1"))
    "id-1" = inr (Some cached0)
  /\ SessionCache.Get true 100 (fst (SessionCache.Refresh 60 true 40 (fst (SessionCache.Set_ 60 true 0 redis0 "id-1" cached0)) "id-1"))
    "id-1" = inr None.
Proof.
  assert (H1 := SessionCache.cache_contract 60 redis0 "id-1" cached0 0 40 50 eq_refl ltac:(done) ltac:(lia) ltac:(lia)).
  assert (H2 := SessionCache.cache_contract 60 redis0 "id-1" cached0 0 40 100 eq_refl ltac:(done) ltac:(lia) ltac:(lia)).
  destruct H1 as (_ & _ & H1 & _), H2 as (_ & _ & H2 & _). rewrite H1, H2. done.
Defined.
Lemma cache_reads_as_correlation_witness :
  Correlation.Load true 5 (fst (SessionCache.Set_ 60 true 0
    (fst (Correlation.Save 60 true 0 redis0 "id-1" (mkCorr "id-1" "g" "p" 1 "000001" 0))) "id-1" cached0)) "id-1"
  = inr (Some (mkCorr estr estr estr 0 estr 0)).
Proof. apply (Correlation.cache_reads_as_correlation 60 redis0 "id-1" cached0); [done|lia|lia]. Defined.
Lemma pod_offering_witness :
  let r' := mkRedis (r_kv (Pods.podHeartbeat "pod-a" "http://a" [(0, true); (30 * second, true); (60 * second, false)] redis0)) true in
  Pods.offered (80 * second) "pod-a" "http://a" r' /\ ~ Pods.offered (90 * second) "pod-a" "http://a" r'.
Proof.
  split.
  - apply (Pods.pod_offering "pod-a" "http://a" [(0, true)] (30 * second) [(60 * second, false)] redis0 (80 * second));
      [by repeat constructor|vm_compute; done|vm_compute; done].
  - apply (Pods.pod_offering "pod-a" "http://a" [(0, true)] (30 * second) [(60 * second, false)] redis0 (90 * second));
      [by repeat constructor|vm_compute; done|vm_compute; done].
Defined.
Definition item0 : AMFDLQItem := mkItem "c-1" "revocation" "http://amf/cb" [] "c" 1 3 0 estr.
Definition up_turn (status : Z) : AmfDlq.turn := AmfDlq.mkTurn false false (fun _ => inl status) (fun _ => true).
