(* ===== verification/EapTls.v ===== *)
(** * internal/eap/tls.go and internal/crypto kdf.go, hash.go, random.go

    Keys for EAP-TLS: the derivation of the master session key, the checks of the server
    certificate, the exporter, the key of a session, and message authentication.  HKDF,
    SHA-256, HMAC, the random source and the verification of a chain are arguments. *)
From S2P Require Import Prelude Regex Common Encoding NrfServer Crypto.
Import Validator.
Local Open Scope string_scope.
Local Open Scope Z_scope.
Local Open Scope list_scope.

(** ** tls.go *)
Definition VersionTLS12 : Z := 771.
Definition VersionTLS13 : Z := 772.
(** [crypto/tls.ConnectionState]; certificates are their raw bytes, [None] a nil pointer. *)
Record ConnectionState : Type := mkConn {
  cs_Version : Z; VerifiedChains : list (list bytes); PeerCertificates : list (option bytes) }.
Inductive tls_error : Type :=
| ErrMSKDerivationFailed | ErrTLSVersionNotSupported (version : Z) | ErrNilState | ErrNoPeer | ErrVerify | ErrNoServerCertificate.
Definition deriveMSKTLS13 (c : ConnectionState) : result tls_error bytes := Err ErrMSKDerivationFailed.
Definition deriveMSKTLS12 (c : ConnectionState) : result tls_error bytes := Err ErrMSKDerivationFailed.
Definition DeriveMSK (connState : option ConnectionState) : result tls_error bytes :=
  match connState with
  | None => Err ErrMSKDerivationFailed
  | Some c =>
      if cs_Version c =? VersionTLS13 then deriveMSKTLS13 c
      else if cs_Version c =? VersionTLS12 then deriveMSKTLS12 c
      else Err (ErrTLSVersionNotSupported (cs_Version c))
  end.
(** [verify leaf intermediates]: [leaf.Verify] under the given roots; [None] is success.
    The intermediates are those that are not nil ([AddCert] panics on nil). *)
Definition VerifyServerCertificate (verify : bytes -> list bytes -> option string) (connState : option ConnectionState)
  : result tls_error unit :=
  match connState with
  | None => Err ErrNilState
  | Some c =>
      match VerifiedChains c with
      | _ :: _ => Ok tt
      | [] =>
          match PeerCertificates c with
          | [] => Panic
          | None :: _ => Err ErrNoPeer
          | Some leaf :: rest =>
              match mapM id rest with
              | None => Panic
              | Some inter => match verify leaf inter with None => Ok tt | Some _ => Err ErrVerify end
              end
          end
      end
  end.
Definition ExtractServerCertificate (connState : option ConnectionState) : result tls_error bytes :=
  match connState with
  | None => Err ErrNoServerCertificate
  | Some c => match VerifiedChains c with
              | [] => Err ErrNoServerCertificate
              | [] :: _ => Panic
              | (leaf :: _) :: _ => Ok leaf
              end
  end.

(** No connection gives a master session key, so nothing can be forwarded to the AUSF
    after a local EAP-TLS exchange. *)
Lemma DeriveMSK_never c : exists e, DeriveMSK c = Err e.
Proof. destruct c as [c|]; cbn; [|by eexists]. repeat case_match; by eexists. Qed.

(** A certificate is accepted exactly when the handshake verified a chain or the chain sent
    verifies now; without any certificate, in a connection that skipped verification, the
    check panics instead of refusing. *)
Lemma VerifyServerCertificate_spec verify c :
  (VerifyServerCertificate verify (Some c) = Ok tt <->
     VerifiedChains c <> [] \/ exists leaf inter, PeerCertificates c = Some <$> leaf :: inter /\ verify leaf inter = None)
  /\ (VerifiedChains c = [] -> PeerCertificates c = [] -> VerifyServerCertificate verify (Some c) = Panic).
Proof.
  cbn. split; [|by intros -> ->]. destruct (VerifiedChains c) as [|ch chs]; [|split; [by left|done]].
  split.
  - destruct (PeerCertificates c) as [|[leaf|] rest]; [done| |done]. destruct (mapM id rest) as [inter|] eqn:Em; [|done].
    destruct (verify leaf inter) eqn:Ev; [done|]. intros _. right. exists leaf, inter. split; [|done].
    f_equal. change (rest = Some <$> inter). clear -Em. revert inter Em.
    induction rest as [|[b|] rest IH]; intros inter Em; cbn in Em; [by injection Em as <-| |done].
    destruct (mapM id rest) as [t|] eqn:Et; [|done]. cbn in Em. injection Em as <-. by rewrite (IH t eq_refl).
  - intros [|(leaf & inter & -> & Hv)]; [done|].
    assert (Hm : mapM id (Some <$> inter) = Some inter).
    { clear. induction inter as [|b t IH]; [done|]. cbn. by rewrite IH. }
    change (list_fmap _ _ Some inter) with (Some <$> inter). rewrite Hm, Hv. done.
Qed.

(** ** kdf.go *)
Section Kdf.
(** [hkdf.Extract] and [hkdf.Expand] with SHA-256; [expand] fails on too long outputs. *)
Context (extract : bytes -> bytes -> bytes) (expand : bytes -> bytes -> Z -> option bytes).
Definition exporter_info (label : string) (ctx : bytes) : bytes := bytes_of_string label ++ [0] ++ ctx.
Definition TLSExporter (masterSecret : bytes) (label : string) (ctx : bytes) (length : Z) : result crypto_error bytes :=
  match masterSecret with
  | [] => Err ErrEmptyIKM
  | _ => if length <=? 0 then Err ErrLength
         else match expand (extract masterSecret []) (exporter_info label ctx) length with
              | Some k => Ok k
              | None => Err ErrLength
              end
  end.
End Kdf.
Definition session_info (authCtxID : string) : bytes := bytes_of_string ("nssaa-session-kek:" +:+ authCtxID).
Definition SessionKEK (hkdf : bytes -> bytes -> bytes -> Z -> bytes) (masterKey : bytes) (authCtxID : string)
  : result crypto_error bytes := DeriveKey hkdf masterKey None (session_info authCtxID) 32.

(** ** random.go, hash.go *)
Section Random.
(** What the random source gives for a length; [None] is a failed read. *)
Context (read : Z -> option bytes).
Definition RandomBytes (n : Z) : option bytes := read n.
Definition RandomHexString (n : Z) : option string :=
  if negb (Z.rem n 2 =? 0) then None else Hex.EncodeToString <$> RandomBytes (Z.quot n 2).
Definition GCMNonce : option bytes := RandomBytes 12.
Definition GenerateDEK : option bytes := RandomBytes 32.
Definition GenerateKEK : option bytes := RandomBytes 32.
End Random.
Section Hash.
Context (sha256 : bytes -> bytes) (hmac : bytes -> bytes -> bytes).
Definition HashGPSI (gpsi : string) : string := Hex.EncodeToString (take 16 (sha256 (bytes_of_string gpsi))).
Definition HashSUPI (supi : string) : string := Hex.EncodeToString (take 16 (sha256 (bytes_of_string supi))).
Definition HashMessage (msg : bytes) : string := Hex.EncodeToString (sha256 msg).
Definition HMACSHA256 (key data : bytes) : bytes := hmac key data.
Definition VerifyHMAC (key data mac : bytes) : bool := bool_decide (HMACSHA256 key data = mac).
End Hash.

(** ** What the derivations keep apart *)
Lemma bytes_of_string_app a b : bytes_of_string (a +:+ b) = bytes_of_string a ++ bytes_of_string b.
Proof. unfold bytes_of_string. change (String.list_ascii_of_string ?s) with (chars s). rewrite !chars_app. apply map_app. Qed.
Lemma bytes_of_string_inj a b : bytes_of_string a = bytes_of_string b -> a = b.
Proof. intros H. rewrite <- (string_bytes_roundtrip a), <- (string_bytes_roundtrip b). by rewrite H. Qed.
Definition no_nul (label : string) : Prop := Forall (fun b => b <> 0) (bytes_of_string label).
Lemma split_at_nul a b x y :
  Forall (fun c : Z => c <> 0) a -> Forall (fun c : Z => c <> 0) b -> a ++ 0 :: x = b ++ 0 :: y -> a = b /\ x = y.
Proof.
  revert b. induction a as [|c a IH]; intros [|d b] Ha Hb; cbn.
  - by intros [= ->].
  - intros [= <- _]. by apply Forall_cons in Hb as [? _].
  - intros [= -> _]. by apply Forall_cons in Ha as [? _].
  - intros [= -> H]. apply Forall_cons in Ha as [_ Ha], Hb as [_ Hb]. by destruct (IH b Ha Hb H) as [-> ->].
Qed.

(** The information strings separate the keys: exporter strings of labels without a NUL are
    equal only for the same label and context, the key string of a session only for the
    same session, and no rotation string of the key manager is one of a session. *)
Theorem key_info_separates :
  (forall l l' c c', no_nul l -> no_nul l' -> exporter_info l c = exporter_info l' c' -> l = l' /\ c = c')
  /\ (forall a a', session_info a = session_info a' -> a = a')
  /\ (forall a v, session_info a <> bytes_of_string ("nssaa-kek-rotation:v" +:+ v)).
Proof.
  split_and!.
  - intros l l' c c' Hl Hl' H. destruct (split_at_nul _ _ _ _ Hl Hl' H) as [E ->]. by apply bytes_of_string_inj in E.
  - intros a a' H. apply bytes_of_string_inj, (f_equal (fun s => strip_prefix "nssaa-session-kek:" s)) in H.
    rewrite !strip_prefix_app in H. by injection H.
  - intros a v H. apply bytes_of_string_inj in H. done.
Qed.
