(* ===== verification/DebugTrace.v ===== *)
(** * The per-subscriber debug timeline

    internal/debug (events, hooks, sanitising), internal/logging/gpsi.go, and the operator
    tool cmd/nssAAF-debug that reads the timelines back.  A timeline is a Redis stream per
    hash of a subscriber identifier.  SHA-256, the JSON encoder, the clock, the span of the
    context and how many old entries Redis trims are arguments. *)
From Stdlib Require Import Sorting.Sorted.
From S2P Require Import Prelude Regex Common Encoding EapSession Resilience Json NrfServer KeyVault.
Import Validator.
Local Open Scope string_scope.
Local Open Scope Z_scope.
Local Open Scope list_scope.

(** ** logging/gpsi.go *)
(** [base64.RawURLEncoding] of eight bytes. *)
Definition raw_url_char (c : char) : char :=
  if ascii_code c =? 43 then Base64.char_of 45 else if ascii_code c =? 47 then Base64.char_of 95 else c.
Definition RawURLEncode (bs : bytes) : string :=
  String.string_of_list_ascii (raw_url_char <$> filter (fun c => Base64.is_pad c = false) (Base64.encode bs)).
Section Sha.
Context (sha256 : bytes -> bytes).
Definition HashGPSI (gpsi : string) : string := RawURLEncode (take 8 (sha256 (bytes_of_string gpsi))).
End Sha.

(** ** debug/sanitize.go *)
Definition piiKeys : list string := ["gpsi"; "supi"; "imsi"; "msisdn"; "user_name"; "calling_station_id"].
Definition isPII (k : string) : bool := existsb (str_eqb k) piiKeys.

(** An entry of a stream: its fields in the order of [Emit]; values are text. *)
Abbreviation entry := (list (string * string)).
Abbreviation streams := (gmap string (list entry)).
Section Debug.
Context (hash : string -> string).
(** The value of a key: hashed, sanitised below, or kept. *)
Fixpoint sanitize (v : json) : json :=
  match v with
  | JObj fs =>
      JObj (map (fun '(k, w) =>
        (k, match w with
            | JStr s => if isPII k && negb (is_empty s) then JStr (hash s) else w
            | JObj _ => sanitize w
            | _ => w
            end)) fs)
  | _ => v
  end.

(** ** debug/debug.go *)
Inductive Kind : Type := KindHTTP | KindDB | KindCache | KindProtocol | KindInternal.
Definition kind_name (k : Kind) : string :=
  match k with KindHTTP => "http" | KindDB => "db" | KindCache => "cache" | KindProtocol => "protocol" | KindInternal => "internal" end.
Record Event : Type := mkEvent {
  Op : string; ev_Kind : Kind; ev_GPSI : string; ev_SUPI : string; ev_AuthID : string; Detail : list (string * json);
  ev_Status : string; ev_Error : option string }.
Record Debug : Type := mkDebug { enabled : bool; podID : string; service : string; maxLen : Z; d_ttl : Z }.
(** The defaults of [New]; [None] when Redis does not answer the ping. *)
Definition New (on : bool) (svc pod : string) (ttl maxLen : Z) (ping : bool) : option Debug :=
  if ping then Some (mkDebug on pod svc (default_if_zero maxLen 10000) (default_if_zero ttl (24 * 3600 * second))) else None.
Definition Enabled (d : option Debug) : bool := match d with None => false | Some d => enabled d end.
Definition Set_ (on : bool) (d : option Debug) : option Debug :=
  (fun d => mkDebug on (podID d) (service d) (maxLen d) (d_ttl d)) <$> d.

Definition entry_get (e : entry) (k : string) : string :=
  match List.find (fun kv => str_eqb (fst kv) k) e with Some (_, v) => v | None => estr end.

(** [json.Marshal] of a detail. *)
Context (Marshal : json -> string).
Definition cut (n : nat) (s : string) : string := String.string_of_list_ascii (take n (chars s)).
Definition subscriber_of (ev : Event) : string * string * string :=
  if negb (is_empty (ev_GPSI ev)) then (hash (ev_GPSI ev), "gpsi", hash (ev_GPSI ev))
  else if negb (is_empty (ev_SUPI ev)) then (hash (ev_SUPI ev), "supi", estr)
  else (estr, estr, estr).
Definition stream_prefix : string := "nssaa:debug:stream:".
Definition stream_key (subHash : string) : string :=
  if is_empty subHash then "nssaa:debug:stream:_no_sub" else stream_prefix +:+ subHash.
Definition event_fields (d : Debug) (trace span : string) (ms : Z) (ev : Event) : entry :=
  let '(subHash, subKind, gpsiHash) := subscriber_of ev in
  [("ts", show_uint ms); ("pod", podID d); ("svc", service d); ("trace", trace); ("span", span); ("sub_h", subHash);
   ("sub_kind", subKind); ("gpsi_h", gpsiHash); ("auth", ev_AuthID ev); ("op", Op ev); ("kind", kind_name (ev_Kind ev));
   ("status", ev_Status ev)]
  ++ match ev_Error ev with Some e => [("err", e)] | None => [] end
  ++ match Detail ev with [] => [] | _ => [("detail", cut 512 (Marshal (sanitize (JObj (Detail ev)))))] end.
(** [span]: trace and span identifiers when the context has a valid span; [trimmed]: the
    entries Redis removes from the front; [up]: whether the command succeeds in time. *)
Definition Emit (d : option Debug) (span : option (string * string)) (ms : Z) (up : bool) (trimmed : nat) (ev : Event)
  (s : streams) : streams :=
  match d with
  | Some d =>
      if negb (enabled d) then s
      else match span with
      | None => s
      | Some (tr, sp) =>
          if negb up then s
          else
            let key := stream_key (fst (fst (subscriber_of ev))) in
            <[key := drop trimmed (default [] (s !! key) ++ [event_fields d tr sp ms ev])]> s
      end
  | None => s
  end.

(** ** debug/hooks.go: the wrappers around database, cache and protocol calls *)
Section Hooks.
Context {S E : Type} (err_text : E -> string).
(** The state of the program and the streams; the subscriber is that of the context. *)
Definition emitTiming (d : option Debug) (span : option (string * string)) (ms duration : Z) (up : bool) (trimmed : nat)
  (gpsi supi op : string) (k : Kind) (table key : string) (err : option E) (s : streams) : streams :=
  let detail := [("duration_ms", JNum duration)] ++ (if is_empty table then [] else [("table", JStr table)])
                ++ (if is_empty key then [] else [("key", JStr key)]) in
  let ev := mkEvent op k gpsi supi estr detail (match err with Some _ => "error" | None => "ok" end) (err_text <$> err) in
  Emit d span ms up trimmed ev s.
Definition wrap (k : Kind) (table key : string) (d : option Debug) span ms duration up trimmed (gpsi supi op : string)
  (fn : S -> S * option E) (x : S) (s : streams) : S * streams * option E :=
  if negb (Enabled d) then let '(x, err) := fn x in (x, s, err)
  else
    let '(x, err) := fn x in
    (x, emitTiming d span ms duration up trimmed gpsi supi op k table key err s, err).
Definition WrapDB (table : string) := wrap KindDB table estr.
Definition WrapRedis (key : string) := wrap KindCache estr key.
Definition WrapProtocol := wrap KindProtocol estr estr.

(** The hooks never change what the program does. *)
Lemma wrap_transparent k table key d span ms du up tr gpsi supi op fn x s :
  let '(x', _, err) := wrap k table key d span ms du up tr gpsi supi op fn x s in (x', err) = fn x.
Proof. unfold wrap. destruct (negb (Enabled d)), (fn x); done. Qed.
End Hooks.
End Debug.

(** ** cmd/nssAAF-debug *)
Inductive cli_error : Type := errMissingSubscriber | errBothGpsiAndSupi | errRedis.
Record traceOpts : Type := mkOpts {
  o_GPSI : string; o_SUPI : string; o_Trace : string; o_Pod : string; o_Op : string; Since : Z; Limit : Z }.
(** Decimal digits into an int64, with its wrap-around; no digit at all is 0. *)
Definition parseInt64 (s : string) : option Z :=
  if forallb is_digit (chars s) then Some (foldl (fun n c => (n * 10 + (ascii_code c - 48) + 2 ^ 63) mod 2 ^ 64 - 2 ^ 63) 0 (chars s))
  else None.
(** [strings.Contains] *)
Fixpoint contains (s p : string) : bool :=
  HasPrefix s p || match s with String _ t => contains t p | EmptyString => false end.
Definition entry_ts (e : entry) : Z := default 0 (parseInt64 (entry_get e "ts")).
Definition shortTrace (t : string) : string := cut 8 t.

Definition keep (o : traceOpts) (cutoff : Z) (e : entry) : bool :=
  match parseInt64 (entry_get e "ts") with
  | None => false
  | Some ms =>
      negb (ms <? cutoff)
      && (is_empty (o_Trace o) || str_eqb (entry_get e "trace") (o_Trace o))
      && (is_empty (o_Pod o) || str_eqb (entry_get e "pod") (o_Pod o))
      && (is_empty (o_Op o) || contains (entry_get e "op") (o_Op o))
  end.
(** [sort.SliceStable] by time stamp. *)
Fixpoint insert_ts (e : entry) (l : list entry) : list entry :=
  match l with
  | [] => [e]
  | x :: t => if entry_ts x <=? entry_ts e then x :: insert_ts e t else e :: l
  end.
Definition sort_ts (l : list entry) : list entry := foldl (fun acc e => insert_ts e acc) [] l.
Definition limited (o : traceOpts) (l : list entry) : list entry :=
  if (0 <? Limit o) && (Limit o <? len l) then take (Z.to_nat (Limit o)) l else l.

Section Cli.
Context (hash : string -> string).
Definition requireSubscriber (gpsi supi : string) : cli_error + string :=
  if negb (is_empty gpsi) && negb (is_empty supi) then inl errBothGpsiAndSupi
  else if is_empty gpsi && is_empty supi then inl errMissingSubscriber
  else if negb (is_empty gpsi) then inr (hash gpsi) else inr (hash supi).
(** [nowMs]: the clock in milliseconds; [Since] in nanoseconds.  The events that are shown. *)
Definition runTrace (up : bool) (nowMs : Z) (o : traceOpts) (s : streams) : cli_error + list entry :=
  match requireSubscriber (o_GPSI o) (o_SUPI o) with
  | inl e => inl e
  | inr subHash =>
      if negb up then inl errRedis
      else inr (limited o (sort_ts (List.filter (keep o (nowMs - Since o / 1000000)) (default [] (s !! (stream_prefix +:+ subHash))))))
  end.
Definition streamClear (gpsi supi : string) (s : streams) : cli_error + streams :=
  match requireSubscriber gpsi supi with inl e => inl e | inr h => inr (delete (stream_prefix +:+ h) s) end.
Definition streamLen (gpsi supi : string) (s : streams) : cli_error + Z :=
  match requireSubscriber gpsi supi with inl e => inl e | inr h => inr (len (default [] (s !! (stream_prefix +:+ h)))) end.
End Cli.

(** The lines of the two renderings.  [valid]: whether a detail is a JSON document, with
    its value. *)
Definition json_columns : list string :=
  ["pod"; "svc"; "trace"; "span"; "sub_h"; "gpsi_h"; "auth"; "op"; "kind"; "status"; "dur"].
Definition parseDetail (valid : string -> option json) (s : string) : json :=
  if is_empty s then JNull else match valid s with Some v => v | None => JObj [("raw", JStr s)] end.
Definition render_row (valid : string -> option json) (e : entry) : list (string * json) :=
  ("ts", JNum (entry_ts e))
  :: flat_map (fun k => let v := entry_get e k in if is_empty v then [] else [(k, JStr v)]) json_columns
  ++ [("detail", parseDetail valid (entry_get e "detail"))].
Definition renderJSON (valid : string -> option json) (l : list entry) : list (list (string * json)) := render_row valid <$> l.
Inductive line : Type := Blank | Row (cells : list string).
Definition table_row (time : Z -> string) (colorSvc : string -> string) (e : entry) : line :=
  Row [time (entry_ts e); entry_get e "pod"; colorSvc (entry_get e "svc"); shortTrace (entry_get e "trace"); entry_get e "auth";
       shortTrace (entry_get e "gpsi_h"); entry_get e "op"; entry_get e "status"; entry_get e "dur"; entry_get e "detail"].
Fixpoint table_rows (time : Z -> string) (colorSvc : string -> string) (prev : option string) (l : list entry) : list line :=
  match l with
  | [] => []
  | e :: t =>
      let tr := entry_get e "trace" in
      (if match prev with Some p => negb (str_eqb p tr) | None => false end then [Blank] else [])
      ++ table_row time colorSvc e :: table_rows time colorSvc (Some tr) t
  end.
Definition renderTable time colorSvc (l : list entry) : list line :=
  Row ["TIME"; "POD"; "SVC"; "TRACE"; "AUTH"; "GPSI_H"; "OP"; "STATUS"; "DUR"; "DETAIL"] :: table_rows time colorSvc None l.

(** ** What the operator sees *)
Definition ordered (a b : entry) : Prop := entry_ts a <= entry_ts b.
Lemma insert_ts_perm e l : insert_ts e l ≡ₚ e :: l.
Proof. induction l as [|x t IH]; [done|]. cbn. destruct (_ <=? _); [|done]. rewrite IH. apply Permutation_swap. Qed.
Lemma sort_ts_perm_aux l : forall acc, foldl (fun acc e => insert_ts e acc) acc l ≡ₚ acc ++ l.
Proof.
  induction l as [|e l IH]; intros acc; cbn; [by rewrite app_nil_r|]. rewrite IH, insert_ts_perm.
  by rewrite <- Permutation_middle.
Qed.
Lemma sort_ts_perm l : sort_ts l ≡ₚ l.
Proof. apply (sort_ts_perm_aux l []). Qed.
Lemma insert_ts_sorted e l : StronglySorted ordered l -> StronglySorted ordered (insert_ts e l).
Proof.
  induction 1 as [|x t Ht IH Hx]; [by repeat constructor|]. cbn. destruct (_ <=? _) eqn:E; zbool.
  - constructor; [done|]. rewrite insert_ts_perm. by constructor.
  - constructor; [by constructor|]. constructor; [unfold ordered; lia|].
    eapply Forall_impl; [exact Hx|]. unfold ordered. cbn. intros. lia.
Qed.
Lemma sort_ts_sorted l : StronglySorted ordered (sort_ts l).
Proof.
  unfold sort_ts. assert (H : forall acc, StronglySorted ordered acc -> StronglySorted ordered (foldl (fun acc e => insert_ts e acc) acc l)).
  { induction l as [|e l IH]; intros acc Ha; [done|]. cbn. apply IH. by apply insert_ts_sorted. }
  apply H. constructor.
Qed.
(** Entries with one time stamp stay in the order of the stream. *)
Lemma insert_ts_stable t e l : StronglySorted ordered l ->
  List.filter (fun x => entry_ts x =? t) (insert_ts e l)
  = List.filter (fun x => entry_ts x =? t) l ++ (if entry_ts e =? t then [e] else []).
Proof.
  induction 1 as [|x l Hl IH Hx]; cbn; [by destruct (_ =? t)|]. destruct (entry_ts x <=? entry_ts e) eqn:E; cbn.
  - rewrite IH. by destruct (entry_ts x =? t).
  - zbool. destruct (entry_ts e =? t) eqn:Et; [|by rewrite app_nil_r]. zbool.
    assert (Hn : List.filter (fun y => entry_ts y =? t) (x :: l) = []).
    { assert (Hall : Forall (fun y => entry_ts y <> t) (x :: l)).
      { constructor; [lia|]. eapply Forall_impl; [exact Hx|]. unfold ordered. cbn. intros. lia. }
      clear -Hall. induction Hall as [|y ys Hy _ IH]; [done|]. cbn. rewrite IH.
      by replace (entry_ts y =? t) with false by (symmetry; by apply Z.eqb_neq). }
    cbn in Hn. by rewrite Hn.
Qed.
Lemma sort_ts_stable t l : List.filter (fun x => entry_ts x =? t) (sort_ts l) = List.filter (fun x => entry_ts x =? t) l.
Proof.
  unfold sort_ts.
  assert (H : forall acc, StronglySorted ordered acc ->
    List.filter (fun x => entry_ts x =? t) (foldl (fun acc e => insert_ts e acc) acc l)
    = List.filter (fun x => entry_ts x =? t) acc ++ List.filter (fun x => entry_ts x =? t) l).
  { induction l as [|e l IH]; intros acc Ha; cbn; [by rewrite app_nil_r|].
    rewrite IH, insert_ts_stable by (done || by apply insert_ts_sorted). rewrite <- app_assoc. by destruct (_ =? t). }
  by rewrite H by constructor.
Qed.

Section Timeline.
Context (hash : string -> string) (Marshal : json -> string).
Context (hash_nonempty : forall x, hash x <> estr).

(** An event as a process emits it. *)
Record emission : Type := mkEm { em_debug : Debug; em_span : option (string * string); em_ms : Z; em_ev : Event }.
Definition emit_one (s : streams) (e : emission) : streams :=
  Emit hash Marshal (Some (em_debug e)) (em_span e) (em_ms e) true 0 (em_ev e) s.
Definition accepted (e : emission) : bool := enabled (em_debug e) && match em_span e with Some _ => true | None => false end.
Definition entry_of (e : emission) : entry :=
  match em_span e with
  | Some (tr, sp) => event_fields hash Marshal (em_debug e) tr sp (em_ms e) (em_ev e)
  | None => []
  end.
Definition subscriber (e : emission) : string := if is_empty (ev_GPSI (em_ev e)) then ev_SUPI (em_ev e) else ev_GPSI (em_ev e).
Definition em_key (e : emission) : string := stream_key (fst (fst (subscriber_of hash (em_ev e)))).

Lemma emit_one_lookup s e k :
  default [] (emit_one s e !! k) = default [] (s !! k) ++ (if accepted e && str_eqb (em_key e) k then [entry_of e] else []).
Proof.
  unfold emit_one, Emit, accepted, entry_of, em_key. destruct (enabled (em_debug e)); cbn [negb andb]; [|by rewrite app_nil_r].
  destruct (em_span e) as [[tr sp]|]; cbn [andb]; [|by rewrite app_nil_r]. cbn zeta. rewrite drop_0.
  destruct (str_eqb _ k) eqn:E.
  - apply str_eqb_true in E. subst k. by rewrite lookup_insert_eq.
  - rewrite lookup_insert_ne, app_nil_r; [done|]. intros H. by rewrite H, str_eqb_refl in E.
Qed.
Lemma run_stream es : forall s k,
  default [] (foldl emit_one s es !! k)
  = default [] (s !! k) ++ (entry_of <$> List.filter (fun e => accepted e && str_eqb (em_key e) k) es).
Proof.
  induction es as [|e es IH]; intros s k; cbn [foldl List.filter]; [by rewrite app_nil_r|].
  rewrite IH, emit_one_lookup, <- app_assoc. by destruct (accepted e && _).
Qed.
Lemma em_key_of e : subscriber e <> estr -> em_key e = stream_prefix +:+ hash (subscriber e).
Proof.
  unfold em_key, subscriber, subscriber_of. intros Hs.
  assert (Hk : forall x, stream_key (hash x) = stream_prefix +:+ hash x).
  { intros x. unfold stream_key. destruct (is_empty (hash x)) eqn:E; [|done]. apply is_empty_true in E. by destruct (hash_nonempty x). }
  destruct (is_empty (ev_GPSI (em_ev e))) eqn:Eg; cbn [negb]; [|apply Hk].
  destruct (is_empty (ev_SUPI (em_ev e))) eqn:Es; cbn [negb fst]; [|apply Hk]. apply is_empty_true in Es. done.
Qed.

(** The timeline of a subscriber.  Whatever the processes emitted, in whatever order,
    the tool shows for an identifier exactly the events of that subscriber (by GPSI, or by
    SUPI when there was no GPSI) that were accepted, lie in the time window and match the
    filters, in the order of their time stamps and, for equal ones, of their arrival; a
    limit keeps the earliest. *)
Theorem timeline es o g nowMs :
  g <> estr -> hash g <> "_no_sub" -> (o_GPSI o = g /\ o_SUPI o = estr \/ o_GPSI o = estr /\ o_SUPI o = g) ->
  Forall (fun e => hash (subscriber e) = hash g -> subscriber e = g) es ->
  let own := entry_of <$> List.filter (fun e => accepted e && str_eqb (subscriber e) g) es in
  let matching := List.filter (keep o (nowMs - Since o / 1000000)) own in
  exists l, l ≡ₚ matching /\ StronglySorted ordered l
    /\ (forall t, List.filter (fun x => entry_ts x =? t) l = List.filter (fun x => entry_ts x =? t) matching)
    /\ runTrace hash true nowMs o (foldl emit_one ∅ es) = inr (limited o l).
Proof.
  intros Hg Hns Ho Hsep own matching. exists (sort_ts matching).
  split_and!; [apply sort_ts_perm|apply sort_ts_sorted|intros t; apply sort_ts_stable|].
  assert (Hr : requireSubscriber hash (o_GPSI o) (o_SUPI o) = inr (hash g)).
  { assert (Hgf : is_empty g = false) by (by destruct g). unfold requireSubscriber.
    destruct Ho as [[-> ->]|[-> ->]]; rewrite Hgf; done. }
  unfold runTrace. rewrite Hr. cbn [negb]. rewrite run_stream, lookup_empty. cbn [default app].
  assert (Hf : List.filter (fun e => accepted e && str_eqb (em_key e) (stream_prefix +:+ hash g)) es
               = List.filter (fun e => accepted e && str_eqb (subscriber e) g) es).
  { clear -Hsep Hg Hns hash_nonempty. induction Hsep as [|e es He _ IH]; [done|]. cbn. rewrite IH.
    assert (E : str_eqb (em_key e) (stream_prefix +:+ hash g) = str_eqb (subscriber e) g); [|by rewrite E].
    destruct (decide (subscriber e = estr)) as [Hs|Hs].
    - rewrite Hs. rewrite (str_eqb_false estr g) by (intros H; by apply Hg). apply str_eqb_false.
      assert (Hk : em_key e = stream_prefix +:+ "_no_sub").
      { unfold em_key, subscriber_of. unfold subscriber in Hs. destruct (is_empty (ev_GPSI (em_ev e))) eqn:Eg.
        - cbn [negb]. rewrite Hs. done.
        - rewrite Hs in Eg. done. }
      rewrite Hk. intros H. apply Hns. apply (f_equal (fun s => strip_prefix stream_prefix s)) in H.
      rewrite !strip_prefix_app in H. by injection H.
    - rewrite em_key_of by done. destruct (str_eqb (subscriber e) g) eqn:Es.
      + apply str_eqb_true in Es as ->. apply str_eqb_refl.
      + apply str_eqb_false. intros H. apply (f_equal (fun s => strip_prefix stream_prefix s)) in H.
        rewrite !strip_prefix_app in H. injection H as H. specialize (He H). rewrite He, str_eqb_refl in Es. done. }
  by rewrite Hf.
Qed.

(** The column for durations is always empty: the duration is part of the detail. *)
Lemma no_duration d tr sp ms ev : entry_get (event_fields hash Marshal d tr sp ms ev) "dur" = estr.
Proof. unfold event_fields. destruct (subscriber_of hash ev) as [[a b] c]. by destruct (ev_Error ev), (Detail ev). Qed.

(** *** Personal data in the details *)
Fixpoint pii_values (v : json) : list string :=
  match v with
  | JObj fs =>
      flat_map (fun '(k, w) =>
        match w with
        | JStr s => if isPII k && negb (is_empty s) then [s] else []
        | JObj _ => pii_values w
        | _ => []
        end) fs
  | _ => []
  end.
(** Under the keys of the list every text, at any depth of objects, is replaced by its hash. *)
Theorem sanitize_hides v : pii_values (sanitize hash v) = hash <$> pii_values v.
Proof.
  revert v. fix IH 1. intros v. destruct v as [| | | | |fs]; [reflexivity..|].
  revert fs. fix IHfs 1. intros [|[k w] fs]; [reflexivity|]. pose proof (IH w) as Hw. specialize (IHfs fs). clear IH.
  cbn [sanitize map pii_values flat_map] in *. rewrite fmap_app, <- IHfs. f_equal.
  destruct w as [| | |s| |fs']; [reflexivity..| |reflexivity|exact Hw].
  destruct (isPII k); [|done]. destruct (is_empty s) eqn:Es; cbn [negb andb]; rewrite ?Es; [done|].
  cbn. destruct (is_empty (hash s)) eqn:Eh; [|done]. apply is_empty_true in Eh. by destruct (hash_nonempty s).
Qed.
End Timeline.
(** Values in lists are not looked at. *)
Example sanitize_skips_lists hash :
  sanitize hash (JObj [("ues", JArr [JObj [("gpsi", JStr "msisdn-1")]])]) = JObj [("ues", JArr [JObj [("gpsi", JStr "msisdn-1")]])].
Proof. reflexivity. Qed.

(** ** Witness: two subscribers, a late event, and one without a span *)
Definition toy_hash (x : string) : string := "h-" +:+ x.
Definition dbg : Debug := mkDebug true "pod-a" "biz" 100 60.
Definition event_of (g op : string) : Event := mkEvent op KindHTTP g estr "a" [] "ok" None.
Definition emitted : list emission :=
  [mkEm dbg (Some ("t", "1")) 2000 (event_of "g" "b"); mkEm dbg (Some ("t", "2")) 2500 (event_of "x" "other");
   mkEm dbg (Some ("t", "3")) 1000 (event_of "g" "a"); mkEm dbg None 2100 (event_of "g" "no-span")].
Definition opts : traceOpts := mkOpts "g" estr estr estr estr (10 ^ 10) 0.
Lemma timeline_witness :
  exists l, (fun e => entry_get e "op") <$> l = ["a"; "b"]
    /\ runTrace toy_hash true 5000 opts (foldl (emit_one toy_hash (fun _ => estr)) ∅ emitted) = inr l.
Proof.
  destruct (timeline toy_hash (fun _ => estr) ltac:(done) emitted opts "g" 5000) as (l & _ & _ & _ & E).
  - done.
  - done.
  - by left.
  - repeat constructor; cbn; intros H; try reflexivity; discriminate H.
  - exists (limited opts l). split; [|exact E]. assert (H : runTrace toy_hash true 5000 opts (foldl (emit_one toy_hash (fun _ => estr)) ∅ emitted)
      = inr [entry_of toy_hash (fun _ => estr) (mkEm dbg (Some ("t", "3")) 1000 (event_of "g" "a"));
             entry_of toy_hash (fun _ => estr) (mkEm dbg (Some ("t", "1")) 2000 (event_of "g" "b"))]) by (vm_compute; reflexivity).
    rewrite H in E. injection E as <-. reflexivity.
Defined.
