(* ===== verification/DiameterNode.v ===== *)
(** * The whole Diameter nodes: diameter_forward.go and internal/diameter/client.go

    [Forwarder] puts the parts of [DiameterForward] together as the gateway runs them:
    the handlers [newDiamForwarder] registers, the statistics, the connection with its
    watchers, the table of requests and the registry of server-initiated requests, with
    the steps at which one part acts on another.  [Client] is the Diameter client of
    internal/diameter, which keeps the same table but no watcher. *)
From S2P Require Import Prelude Regex Common Types Encoding Diameter ServerInit DiameterForward.
Local Open Scope string_scope.
Local Open Scope Z_scope.
Local Open Scope list_scope.

(** ** The wait of one call

    What happens to a call while it waits: answers that arrive for it or for others, the
    loss of the connection, the end of its context.  An answer is handled, sent to its
    channel when that has room, and received when the channel is the caller's own. *)
Module Await.
Import Pending.

Inductive arrival : Type := Arrived (m : Message) | Loss | ContextDone.

Definition handle (p : state) (m : Message) : state :=
  let p1 := handleDEA p m in
  match pending p !! m_HopByHopID m with
  | None => p1
  | Some ch => match chans p !! ch with
               | Some None => handler_send p1 [] ch m (inflight p)
               | _ => p1
               end
  end.
Definition outcome_of (p : state) (l : positive) : option outcome :=
  match calls p !! l with Some c => c_result c | None => None end.
(** [None]: the call still waits. *)
Fixpoint await (p : state) (l : positive) (evs : list arrival) : state * option outcome :=
  match evs with
  | [] => (p, None)
  | ContextDone :: _ => match Forward_fail p l ErrContext with
                        | Some p' => (p', outcome_of p' l)
                        | None => (p, None)
                        end
  | e :: t =>
      let p1 := match e with Arrived m => handle p m | _ => clearPending p end in
      match Forward_recv p1 l with Some p' => (p', outcome_of p' l) | None => await p1 l t end
  end.

(** The first of the arrivals that concerns the call. *)
Fixpoint first_relevant (hop : Z) (evs : list arrival) : option outcome :=
  match evs with
  | [] => None
  | Arrived m :: t => if m_HopByHopID m =? hop then Some (Answered m) else first_relevant hop t
  | Loss :: _ => Some (Failed ErrConnectionLost)
  | ContextDone :: _ => Some (Failed ErrContext)
  end.

(** A call that waits with its entry and an empty channel. *)
Record idle (p : state) (l : positive) (hop : Z) : Prop := {
  idle_inv : inv p;
  idle_call : calls p !! l = Some (mkCall hop None);
  idle_entry : pending p !! hop = Some l;
  idle_chan : chans p !! l = Some None }.

Lemma begin_idle p : inv p -> idle (fst (Forward_begin p)) (next p) (nextHopByHopID p).
Proof.
  intros H. split; [by apply begin_inv|..]; cbn; unfold addPending; by rewrite lookup_insert_eq.
Qed.
Lemma sent_idle p l hop : idle p l hop -> idle (count_sent p) l hop.
Proof. intros [Hi Hc He Hb]. split; [|done..]. eapply pending_step_inv; [exact Hi|apply step_sent]. Qed.

Lemma idle_waits p l hop : idle p l hop -> Forward_recv p l = None.
Proof. intros [_ Hc _ Hb]. unfold Forward_recv. by rewrite Hc, Hb. Qed.
Lemma idle_fail p l hop e :
  idle p l hop -> exists p', Forward_fail p l e = Some p' /\ outcome_of p' l = Some (Failed e) /\ pending p' !! hop = None.
Proof.
  intros [_ Hc _ _]. unfold Forward_fail. rewrite Hc. eexists. split; [done|]. unfold outcome_of. cbn.
  rewrite lookup_insert_eq. split; [done|]. apply lookup_delete_eq.
Qed.
Lemma full_recv p l hop v :
  calls p !! l = Some (mkCall hop None) -> chans p !! l = Some (Some v) ->
  exists p', Forward_recv p l = Some p'
    /\ outcome_of p' l = Some (match v with Some m => Answered m | None => Failed ErrConnectionLost end)
    /\ pending p' !! hop = None.
Proof.
  intros Hc Hb. unfold Forward_recv. rewrite Hc, Hb. eexists. split; [done|]. unfold outcome_of. cbn.
  rewrite lookup_insert_eq. split; [done|]. apply lookup_delete_eq.
Qed.

Lemma handle_own p l hop m :
  idle p l hop -> m_HopByHopID m = hop ->
  calls (handle p m) !! l = Some (mkCall hop None) /\ chans (handle p m) !! l = Some (Some (Some m)).
Proof.
  intros [_ Hc He Hb] Hm. unfold handle. rewrite Hm, He, Hb. cbn. unfold handleDEA. rewrite Hm, He. cbn.
  by rewrite lookup_insert_eq.
Qed.
Lemma handle_other p l hop m : idle p l hop -> m_HopByHopID m <> hop -> idle (handle p m) l hop.
Proof.
  intros [Hi Hc He Hb] Hm. assert (Hd := dea_inv p m Hi). unfold handle.
  destruct (pending p !! m_HopByHopID m) as [ch|] eqn:E; [|unfold handleDEA in *; rewrite E in *; by split].
  assert (Hne : ch <> l).
  { intros ->. destruct (inv_pending _ Hi _ _ E) as (c & Hcl & Hh & _). rewrite Hc in Hcl. by injection Hcl as <-. }
  destruct (chans p !! ch) as [[v|]|]; unfold handleDEA in *; rewrite E in *; [by split| |by split].
  split; [by apply send_inv|..]; cbn; [done..|]. by rewrite lookup_insert_ne.
Qed.
Lemma clear_own p l hop :
  idle p l hop -> calls (clearPending p) !! l = Some (mkCall hop None) /\ chans (clearPending p) !! l = Some (Some None).
Proof.
  intros [_ Hc He Hb]. split; [done|]. rewrite lookup_clear, Hb. cbn. rewrite bool_decide_true; [done|].
  apply list_elem_of_fmap. exists (hop, l). split; [done|]. by apply elem_of_map_to_list.
Qed.

Lemma await_first p l hop evs :
  idle p l hop ->
  snd (await p l evs) = first_relevant hop evs
  /\ (is_Some (first_relevant hop evs) -> pending (fst (await p l evs)) !! hop = None).
Proof.
  revert p. induction evs as [|e t IH]; intros p H; [split; [done|by intros []]|]. destruct e as [m| |]; cbn [await first_relevant].
  - destruct (Z.eqb_spec (m_HopByHopID m) hop) as [Hm|Hm].
    + destruct (handle_own _ _ _ _ H Hm) as [Hc Hb]. destruct (full_recv _ _ _ _ Hc Hb) as (p' & -> & -> & Hn). by split.
    + assert (H' := handle_other _ _ _ _ H Hm). rewrite (idle_waits _ _ _ H'). by apply IH.
  - destruct (clear_own _ _ _ H) as [Hc Hb]. destruct (full_recv _ _ _ _ Hc Hb) as (p' & -> & -> & Hn). by split.
  - destruct (idle_fail _ _ _ ErrContext H) as (p' & -> & -> & Hn). by split.
Qed.
End Await.

Module Forwarder.

(** The times of the statistics; the two message counters are in [Pending.state]. *)
Record ConnectionStats : Type := mkStats {
  ConnectedAt : Z; LastDWA : Z; LastDWR : Z; HandshakeAt : Z; MessagesSent : Z; MessagesRecv : Z; Errors : Z }.

(** [clearing]: the calls of [clearPending] that [watchDisconnect] and
    [monitorConnection] are about to make, outside the lock under which they changed the
    connection. *)
Record forwarder : Type := mkFwd {
  conn : Conn.state; reqs : Pending.state; reg : registry;
  connectedAt : Z; lastDWA : Z; lastDWR : Z; handshakeAt : Z; clearing : nat }.

Definition set_conn (c : Conn.state) (w : forwarder) : forwarder :=
  mkFwd c (reqs w) (reg w) (connectedAt w) (lastDWA w) (lastDWR w) (handshakeAt w) (clearing w).
Definition set_reqs (p : Pending.state) (w : forwarder) : forwarder :=
  mkFwd (conn w) p (reg w) (connectedAt w) (lastDWA w) (lastDWR w) (handshakeAt w) (clearing w).
Definition set_reg (r : registry) (w : forwarder) : forwarder :=
  mkFwd (conn w) (reqs w) r (connectedAt w) (lastDWA w) (lastDWR w) (handshakeAt w) (clearing w).
Definition set_clearing (n : nat) (w : forwarder) : forwarder :=
  mkFwd (conn w) (reqs w) (reg w) (connectedAt w) (lastDWA w) (lastDWR w) (handshakeAt w) n.
Definition set_connectedAt (now : Z) (w : forwarder) : forwarder :=
  mkFwd (conn w) (reqs w) (reg w) now (lastDWA w) (lastDWR w) (handshakeAt w) (clearing w).

(** ** Statistics *)
Definition recordDWR (now : Z) (w : forwarder) : forwarder :=
  mkFwd (conn w) (reqs w) (reg w) (connectedAt w) (lastDWA w) now (handshakeAt w) (clearing w).
Definition recordDWA (now : Z) (w : forwarder) : forwarder :=
  mkFwd (conn w) (reqs w) (reg w) (connectedAt w) now (lastDWR w) (handshakeAt w) (clearing w).
(** Nothing in the code counts errors. *)
Definition GetConnectionStats (w : forwarder) : ConnectionStats :=
  mkStats (connectedAt w) (lastDWA w) (lastDWR w) (handshakeAt w) (Pending.messagesSent (reqs w))
    (Pending.messagesRecv (reqs w)) 0.

(** ** The connection *)
Definition start (registry0 : registry) (now : Z) : forwarder :=
  mkFwd Conn.init Pending.init registry0 now 0 0 now 0.
(** One turn of [monitorConnection] whose dial, if there is one, succeeds. *)
Definition monitor (now : Z) (w : forwarder) : forwarder :=
  if Conn.connected (conn w) then w
  else set_clearing (S (clearing w)) (set_connectedAt now (set_conn (Conn.monitorConnection (conn w)) w)).
(** The notification of [watchDisconnect]; only the current connection is given up. *)
Definition disconnect (pre : list nat) (c : nat) (post : list nat) (w : forwarder) : forwarder :=
  let w' := set_conn (Conn.watch_fire (conn w) pre c post) w in
  if bool_decide (Conn.conn (conn w) = Some c) then set_clearing (S (clearing w)) w' else w'.
Definition clear (w : forwarder) : forwarder :=
  set_clearing (pred (clearing w)) (set_reqs (Pending.clearPending (reqs w)) w).

(** [getConn] with the outcome of the dial it may make; the error is wrapped. *)
Definition get_connection (dial : option string) (w : forwarder) : forwarder * result string nat :=
  match Conn.conn (conn w), dial with
  | None, Some e => (w, Err e)
  | _, _ => let '(c, k) := Conn.getConn (conn w) in (set_conn c w, Ok k)
  end.
Definition PeerMetadata {M} (FromContext : nat -> option M) (dial : option string) (w : forwarder)
  : forwarder * result string M :=
  match get_connection dial w with
  | (w, Ok k) => (w, match FromContext k with Some meta => Ok meta | None => Err "no peer metadata available" end)
  | (w, Err e) => (w, Err e)
  | (w, Panic) => (w, Panic)
  end.

(** ** One call of [Forward]

    The outcome of the dial, of writing the request and what arrives during the wait are
    arguments; [None]: the call still waits. *)
Section Calls.
Context (Serialize : Message -> option bytes) (avp_error : AVP -> option string) (NewRequest : Z -> Z -> Message).
Context (df : diamForwarder).

Definition getOriginStateID (w : forwarder) : Z := Conn.originStateID (conn w).
Definition fail_call (l : positive) (e : Pending.fwd_error) (w : forwarder) : forwarder :=
  match Pending.Forward_fail (reqs w) l e with Some p => set_reqs p w | None => w end.
Definition Forward (dial : option string) (write : nat -> Message -> option string) (evs : list Await.arrival)
  (eapPayload : bytes) (sessionID : string) (sst : Z) (sd gpsi : string) (w : forwarder)
  : forwarder * option (result Pending.fwd_error bytes) :=
  match get_connection dial w with
  | (w, Err e) => (w, Some (Err (Pending.ErrNoConnection e)))
  | (w, Panic) => (w, Some Panic)
  | (w, Ok k) =>
      let hopByHop := Pending.nextHopByHopID (reqs w) in
      let '(p, l) := Pending.Forward_begin (reqs w) in
      let w := set_reqs p w in
      match buildDERMessage avp_error NewRequest df (getOriginStateID w) hopByHop sessionID eapPayload sst sd gpsi with
      | Err e => (fail_call l (Pending.ErrBuild e) w, Some (Err (Pending.ErrBuild e)))
      | Panic => (fail_call l (Pending.ErrBuild (ErrAVP estr)) w, Some Panic)
      | Ok m =>
          match write k m with
          | Some e => (fail_call l (Pending.ErrSend e) w, Some (Err (Pending.ErrSend e)))
          | None =>
              let '(p, o) := Await.await (Pending.count_sent (reqs w)) l evs in
              (set_reqs p w, Pending.Forward_value Serialize <$> o)
          end
      end
  end.

Lemma build_hop osi hop sid payload sst sd gpsi m :
  buildDERMessage avp_error NewRequest df osi hop sid payload sst sd gpsi = Ok m -> m_HopByHopID m = hop.
Proof.
  unfold buildDERMessage, addM, NewAVP, rbind. intros H. repeat (case_match; simplify_eq/=; try done).
Qed.

Lemma fail_call_ends l hop e w :
  Await.idle (reqs w) l hop -> Pending.pending (reqs (fail_call l e w)) !! hop = None.
Proof. intros H. unfold fail_call. by destruct (Await.idle_fail _ _ _ e H) as (p' & -> & _ & ?). Qed.

End Calls.

(** ** The handlers the machine calls, by the name of the command *)
Section Dispatch.
Context (Serialize : Message -> option bytes) (Answer : Message -> Z -> Message) (avp_error : AVP -> option string).
Context (originHost originRealm : string).

(** What a handler does to the forwarder, and what it sends or starts. *)
Definition handler : Type := Z -> forwarder -> Message -> forwarder * option Inbound.reaction.
Definition handleDEA : handler := fun _ w m => (set_reqs (Pending.handleDEA (reqs w) m) w, None).
Definition handleDWR : handler := fun now w _ => (recordDWR now w, None).
Definition handleDWA : handler := fun now w _ => (recordDWA now w, None).
(** The answers to aborts, re-authentications and terminations are only logged. *)
Definition handleASA : handler := fun _ w _ => (w, None).
Definition handleRAA : handler := fun _ w _ => (w, None).
Definition handleSTA : handler := fun _ w _ => (w, None).
Definition inbound (k : Inbound.kind) : handler := fun now w m =>
  let '(r, a) := Inbound.handle_request Serialize Answer avp_error originHost originRealm k (reg w) now m in
  (set_reg r w, Some a).

(** The registrations of [newDiamForwarder]; [None]: no handler under the name. *)
Definition handlers (name : string) : option handler :=
  if str_eqb name "DEA" then Some handleDEA
  else if str_eqb name "DWR" then Some handleDWR
  else if str_eqb name "DWA" then Some handleDWA
  else if str_eqb name "ASR" then Some (inbound Inbound.ASR)
  else if str_eqb name "ASA" then Some handleASA
  else if str_eqb name "RAR" then Some (inbound Inbound.RAR)
  else if str_eqb name "RAA" then Some handleRAA
  else if str_eqb name "STR" then Some (inbound Inbound.STR)
  else if str_eqb name "STA" then Some handleSTA
  else None.

(** [sendASA], [sendRAA] and [sendSTA]: the answer without a result of a Biz Pod. *)
Definition success_answer (m : Message) : Message :=
  Inbound.answer_head Answer avp_error originHost originRealm m (mkResp estr ResultCodeSuccess [] estr).
Definition sendASA : Message -> Message := success_answer.
Definition sendRAA : Message -> Message := success_answer.
Definition sendSTA : Message -> Message := success_answer.

(** ** The forwarder as a transition system

    The goroutines of the handlers, of the calls of [Forward], of the watchers, of the
    monitor and of the waits on the registry, one critical section at a time. *)
Inductive step : forwarder -> forwarder -> Prop :=
| step_monitor w now : step w (monitor now w)
| step_get w : step w (set_conn (fst (Conn.getConn (conn w))) w)
| step_watch w : step w (set_conn (Conn.watch_start (conn w)) w)
| step_peer w c : step w (set_conn (Conn.peer_close (conn w) c) w)
| step_disconnect w pre c post :
    Conn.watchers (conn w) = pre ++ c :: post -> c ∈ Conn.lost (conn w) -> step w (disconnect pre c post w)
| step_clear w : (0 < clearing w)%nat -> step w (clear w)
| step_handle w name h now m : handlers name = Some h -> step w (fst (h now w m))
| step_deliver w pre ch m post :
    Pending.inflight (reqs w) = pre ++ (ch, m) :: post -> Pending.chans (reqs w) !! ch = Some None ->
    step w (set_reqs (Pending.handler_send (reqs w) pre ch m post) w)
| step_begin w : step w (set_reqs (fst (Pending.Forward_begin (reqs w))) w)
| step_sent w : step w (set_reqs (Pending.count_sent (reqs w)) w)
| step_recv w l p : Pending.Forward_recv (reqs w) l = Some p -> step w (set_reqs p w)
| step_fail w l e p : Pending.Forward_fail (reqs w) l e = Some p -> step w (set_reqs p w)
| step_registry w r : ServerInit.step (reg w) r -> step w (set_reg r w).
Inductive reachable : forwarder -> Prop :=
| reach_start t now : reachable (start (NewServerInitiatedRegistry t) now)
| reach_step w w' : reachable w -> step w w' -> reachable w'.
Inductive steps : forwarder -> forwarder -> Prop :=
| steps_refl w : steps w w
| steps_cons w w' w'' : steps w w' -> step w' w'' -> steps w w''.

(** ** Each step is a step, or none, of each part *)
Definition maybe {S} (R : S -> S -> Prop) (a b : S) : Prop := a = b \/ R a b.
Definition projects (w w' : forwarder) : Prop :=
  maybe (Conn.step true) (conn w) (conn w') /\ maybe Pending.step (reqs w) (reqs w')
  /\ maybe ServerInit.step (reg w) (reg w').

Lemma handler_cases name h :
  handlers name = Some h -> h = handleDEA \/ h = handleDWR \/ h = handleDWA \/ h = handleASA
    \/ exists k, h = inbound k.
Proof. unfold handlers. intros H. repeat case_match; simplify_eq; eauto 10. Qed.

Lemma inbound_registry k now w m :
  maybe ServerInit.step (reg w) (reg (fst (inbound k now w m))) /\ conn (fst (inbound k now w m)) = conn w
  /\ reqs (fst (inbound k now w m)) = reqs w /\ clearing (fst (inbound k now w m)) = clearing w.
Proof.
  unfold inbound, Inbound.handle_request. destruct (Serialize m) as [raw|]; cbn; [|by split; [left|]].
  generalize (if is_empty (extractSessionIDFromMsg m) then "unknown" else extractSessionIDFromMsg m) as sid. intros sid.
  destruct (Register _ _ _ _ _ _) as [r ch] eqn:E. cbn. split; [right|done].
  change r with (fst (r, ch)). rewrite <- E. apply ServerInit.step_register.
Qed.

Lemma disconnect_parts pre c post w :
  conn (disconnect pre c post w) = Conn.watch_fire (conn w) pre c post
  /\ reqs (disconnect pre c post w) = reqs w /\ reg (disconnect pre c post w) = reg w.
Proof. unfold disconnect. by case_bool_decide. Qed.

Lemma step_projects w w' : step w w' -> projects w w'.
Proof.
  intros Hs. destruct Hs as [w now|w|w|w c|w pre c post E Hl|w Hc|w name h now m Hh|w pre ch m post E Hb|w|w|w l p E
    |w l e p E|w r Hr]; unfold projects, maybe; cbn; try (split_and!; solve [by left|by right|right; by constructor]).
  - unfold monitor. destruct (Conn.connected (conn w)) eqn:Ec; [by split_and!; left|].
    split_and!; [right; apply Conn.step_monitor|by left..].
  - split_and!; [|by left..]. right. apply Conn.step_get. by left.
  - destruct (disconnect_parts pre c post w) as (-> & -> & ->). split_and!; [|by left..].
    right. by apply Conn.step_fire.
  - destruct (handler_cases _ _ Hh) as [->|[->|[->|[->|[k ->]]]]]; cbn;
      try (split_and!; solve [by left|by right|right; by constructor]).
    destruct (inbound_registry k now w m) as (Hr & -> & -> & _). by split_and!; [left|left|].
  - split_and!; [by left| |by left]. right. by eapply Pending.step_recv.
  - split_and!; [by left| |by left]. right. by eapply Pending.step_fail.
Qed.

Lemma maybe_reach {S} (R : S -> S -> Prop) (P : S -> Prop) a b :
  (forall x y, P x -> R x y -> P y) -> P a -> maybe R a b -> P b.
Proof. intros H Ha [<-|Hr]; eauto. Qed.

Lemma reachable_parts w :
  reachable w -> Conn.reachable true (conn w) /\ Pending.reachable (reqs w) /\ ServerInit.reachable (reg w).
Proof.
  induction 1 as [t now|w w' _ (Hc & Hp & Hr) Hs]; [by split_and!; constructor|].
  destruct (step_projects _ _ Hs) as (Sc & Sp & Sr). split_and!.
  - eapply maybe_reach; [|exact Hc|exact Sc]. apply Conn.reach_step.
  - eapply maybe_reach; [|exact Hp|exact Sp]. apply Pending.reach_step.
  - eapply maybe_reach; [|exact Hr|exact Sr]. apply ServerInit.reach_step.
Qed.

(** ** Ranges and shape of the state *)
Definition in_u64 (x : Z) : Prop := 0 <= x < 2 ^ 64.
Lemma u64_range x : in_u64 (Pending.u64 x).
Proof. apply Z.mod_pos_bound. lia. Qed.

Lemma counters_range p :
  Pending.reachable p -> in_u64 (Pending.messagesSent p) /\ in_u64 (Pending.messagesRecv p).
Proof.
  induction 1 as [|s s' _ [H1 H2] Hs]; [by split|].
  destruct Hs as [s|s|s l s' E|s l e s' E|s m|s pre ch m post E _|s]; try done.
  - split; [apply u64_range|done].
  - by apply Pending.Forward_recv_Some in E as (hop & v & _ & _ & ->).
  - by apply Pending.Forward_fail_Some in E as (hop & _ & ->).
  - unfold Pending.handleDEA. case_match; cbn; (split; [done|apply u64_range]).
Qed.

Record well_typed (w : forwarder) : Prop := {
  wt_stats : in_u64 (MessagesSent (GetConnectionStats w)) /\ in_u64 (MessagesRecv (GetConnectionStats w));
  wt_ids : in_u64 (Pending.hopByHopSeq (reqs w)) /\ in_u64 (Conn.originStateID (conn w));
  wt_keys h l : Pending.pending (reqs w) !! h = Some l -> in_u32 h /\ is_Some (Pending.chans (reqs w) !! l);
  wt_unshared h h' l : Pending.pending (reqs w) !! h = Some l -> Pending.pending (reqs w) !! h' = Some l -> h = h';
  wt_flag : Conn.connected (conn w) = true <-> is_Some (Conn.conn (conn w)) }.

Lemma flag_agrees dial s : Conn.reachable dial s -> Conn.connected s = true <-> is_Some (Conn.conn s).
Proof.
  induction 1 as [|s s' _ Hf Hs]; [done|]. destruct Hs as [s|s Hd|s|s pre c post E Hl|s c]; [..|done].
  - unfold Conn.monitorConnection. by destruct (Conn.connected s) eqn:Ec; rewrite ?Ec in *.
  - unfold Conn.getConn. by destruct (Conn.conn s) eqn:Ec; cbn; rewrite ?Ec in *.
  - unfold Conn.watch_start. by destruct (Conn.starting s).
  - unfold Conn.watch_fire. destruct (Conn.conn s) as [c'|] eqn:Ec; cbn; [|by rewrite ?Ec in *].
    destruct (c' =? c)%nat; cbn; [done|by rewrite ?Ec in *].
Qed.

(** C20: the forwarder's state keeps its machine types in every interleaving of requests,
    answers, watchdog messages, server-initiated requests, losses and reconnections: the
    counters and the state identifier are 64-bit values, every key of the pending table
    is a 32-bit hop-by-hop identifier with an allocated channel that no other entry
    shares, and the connected flag says whether there is a connection. *)
Theorem forwarder_typed w : reachable w -> well_typed w.
Proof.
  intros (Hc & Hp & _)%reachable_parts. assert (Hi := Pending.pending_inv _ Hp). split.
  - by apply counters_range.
  - rewrite (Pending.inv_seq _ Hi), (Conn.originStateID_constant _ _ Hc). split; [apply u64_range|done].
  - intros h l Hh. destruct (Pending.inv_pending _ Hi _ _ Hh) as (c & Hcl & <- & _).
    rewrite (Pending.inv_hop _ Hi _ _ Hcl). split; [apply u32_range|].
    apply (Pending.inv_chans _ Hi), (Pending.inv_dom _ Hi). eauto.
  - intros h h' l Hh Hh'. destruct (Pending.inv_pending _ Hi _ _ Hh) as (c & Hcl & <- & _).
    destruct (Pending.inv_pending _ Hi _ _ Hh') as (c' & Hcl' & <- & _). congruence.
  - by eapply flag_agrees.
Qed.

(** ** A noticed loss *)
Lemma step_clearing w w' :
  step w w' -> (clearing w <= clearing w')%nat \/ (reqs w' = Pending.clearPending (reqs w)).
Proof.
  intros Hs. destruct Hs as [w now|w|w|w c|w pre c post E Hl|w Hc|w name h now m Hh|w pre ch m post E Hb|w|w|w l p E
    |w l e p E|w r Hr]; cbn; auto.
  - left. unfold monitor. destruct (Conn.connected (conn w)); cbn; lia.
  - left. unfold disconnect. case_bool_decide; cbn; lia.
  - left. destruct (handler_cases _ _ Hh) as [->|[->|[->|[->|[k ->]]]]]; cbn; try lia.
    destruct (inbound_registry k now w m) as (_ & _ & _ & ->). lia.
Qed.

(** What a waiting call can count on after a loss. *)
Definition released (w : forwarder) (l : positive) : Prop :=
  Pending.waiting (reqs w) l -> (0 < clearing w)%nat \/ Pending.deliverable (reqs w) l.

Lemma released_step w w' l :
  reachable w -> step w w' -> (l < Pending.next (reqs w))%positive -> Zpos (Pending.next (reqs w)) <= 2 ^ 32 ->
  released w l -> released w' l.
Proof.
  intros (_ & Hp & _)%reachable_parts Hs Hl Hn Hrel Hw. assert (Hi := Pending.pending_inv _ Hp).
  destruct (step_clearing _ _ Hs) as [Hle|Hcl].
  - destruct (step_projects _ _ Hs) as (_ & [Heq|Hst] & _).
    + rewrite <- Heq in *. destruct (Hrel Hw) as [?|?]; [left; lia|by right].
    + assert (Hw0 := Pending.waiting_back _ _ _ Hi Hst Hl Hw).
      destruct (Hrel Hw0) as [?|Hd]; [left; lia|right]. by eapply Pending.deliverable_step.
  - right. rewrite Hcl in Hw |- *.
    destruct (Pending.waiting_registered _ l (Pending.reach_step _ _ Hp (Pending.step_clear _)) Hn Hw) as [(h & _ & E)|?];
      [|done]. cbn in E. by rewrite lookup_empty in E.
Qed.

Lemma step_next w w' : step w w' -> (Pending.next (reqs w) <= Pending.next (reqs w'))%positive.
Proof. intros (_ & [<-|Hst] & _)%step_projects; [lia|by apply Pending.next_mono]. Qed.

(** C19: no call is stranded by a lost connection.  From the moment a watcher notices that
    the current connection is gone, in every state the forwarder reaches, a call that
    was waiting then has ended, or can receive (an answer or the loss), or the clearing
    of the table that will let it receive is still to come; and the connection is
    given up at once, so that the monitor dials a new one. *)
Theorem loss_never_strands w pre c post w' l :
  reachable w -> Conn.conn (conn w) = Some c -> Conn.watchers (conn w) = pre ++ c :: post ->
  c ∈ Conn.lost (conn w) -> steps (disconnect pre c post w) w' -> Zpos (Pending.next (reqs w')) <= 2 ^ 32 ->
  (l < Pending.next (reqs w))%positive ->
  Conn.conn (conn (disconnect pre c post w)) = None
  /\ (Pending.waiting (reqs w') l -> (0 < clearing w')%nat \/ Pending.deliverable (reqs w') l).
Proof.
  intros Hr Hc Hw Hl Hs Hn Hlt. split.
  { destruct (disconnect_parts pre c post w) as (-> & _). unfold Conn.watch_fire. rewrite Hc. cbn. by rewrite Nat.eqb_refl. }
  assert (Hd : reachable (disconnect pre c post w)) by (eapply reach_step; [exact Hr|by apply step_disconnect]).
  assert (Hrel : released (disconnect pre c post w) l).
  { intros _. left. unfold disconnect. rewrite bool_decide_true by done. cbn. lia. }
  assert (Hlt' : (l < Pending.next (reqs (disconnect pre c post w)))%positive).
  { by destruct (disconnect_parts pre c post w) as (_ & -> & _). }
  change (released w' l). clear Hr Hc Hw Hl Hlt.
  assert (H : reachable w' /\ (l < Pending.next (reqs w'))%positive /\ released w' l); [|tauto].
  revert Hn. induction Hs as [w0|w0 w1 w2 Hs IH Hst]; [done|]. intros Hn. assert (Hm := step_next _ _ Hst).
  destruct IH as (Hr1 & Hl1 & Hrel1); [done..|lia|].
  split; [by eapply reach_step|]. split; [lia|]. eapply released_step; eauto. lia.
Qed.

(** A call made on a new connection can be failed by the clearing that belongs to the
    old one: [monitorConnection] publishes the connection first and clears the table
    afterwards, outside the lock. *)
Definition on_new_connection : forwarder :=
  let w := set_conn (Conn.watch_start (conn (start (NewServerInitiatedRegistry 0) 0))) (start (NewServerInitiatedRegistry 0) 0) in
  let w := set_conn (Conn.peer_close (conn w) 0) w in
  let w := monitor 1 (disconnect [] 0 [] w) in
  set_reqs (fst (Pending.Forward_begin (reqs w))) w.
Lemma on_new_connection_reachable : reachable on_new_connection.
Proof.
  unfold on_new_connection. eapply reach_step; [|apply step_begin]. eapply reach_step; [|apply step_monitor].
  eapply reach_step; [|apply step_disconnect; [done|set_solver]]. eapply reach_step; [|apply step_peer].
  eapply reach_step; [|apply step_watch]. apply reach_start.
Qed.
Theorem fresh_call_released :
  exists w p, reachable w /\ Conn.conn (conn w) = Some 1%nat /\ 1%nat ∉ Conn.lost (conn w)
    /\ Pending.calls (reqs w) = {[1%positive := Pending.mkCall 1 None]}
    /\ Pending.Forward_recv (reqs w) 1 = Some p
    /\ Pending.calls p !! 1%positive = Some (Pending.mkCall 1 (Some (Pending.Failed Pending.ErrConnectionLost))).
Proof.
  exists (clear on_new_connection), (default Pending.init (Pending.Forward_recv (reqs (clear on_new_connection)) 1)).
  split; [eapply reach_step; [apply on_new_connection_reachable|apply step_clear; by apply Nat.ltb_lt]|].
  split; [done|]. split; [cbn; set_solver|]. split; [done|]. by vm_compute.
Qed.

End Dispatch.

(** When the first [Connect] fails neither a watcher nor the monitor is started: the
    connection that the first request dials is used for ever, lost or not. *)
Definition unconnected : Conn.state := Conn.mkState None false 0 0 0 [] [].
Theorem failed_start_unwatched s :
  Conn.steps true (fst (Conn.getConn unconnected)) s -> snd (Conn.getConn s) = 0%nat.
Proof. intros Hs. by eapply (Conn.unwatched_loss_permanent (fst (Conn.getConn unconnected)) s 0); [..|exact Hs]; try done; cbn; set_solver. Qed.

Definition no_bytes (m : Message) : option bytes := None.
Definition same_message (m : Message) (rc : Z) : Message := m.
Definition no_avp_error (a : AVP) : option string := None.
Lemma forwarder_typed_witness : Conn.connected (conn on_new_connection) = true /\ well_typed on_new_connection.
Proof.
  split; [done|]. apply (forwarder_typed no_bytes same_message no_avp_error "gw" "realm" on_new_connection).
  apply on_new_connection_reachable.
Defined.
Definition toy_write (k : nat) (m : Message) : option string := None.
Definition waiting_at_loss : forwarder :=
  let w := start (NewServerInitiatedRegistry 0) 0 in
  let w := set_reqs (fst (Pending.Forward_begin (reqs w))) w in
  let w := set_conn (Conn.watch_start (conn w)) w in
  set_conn (Conn.peer_close (conn w) 0) w.
Lemma loss_never_strands_witness :
  Pending.waiting (reqs (clear (disconnect [] 0 [] waiting_at_loss))) 1
  /\ clearing (clear (disconnect [] 0 [] waiting_at_loss)) = 0%nat
  /\ Pending.deliverable (reqs (clear (disconnect [] 0 [] waiting_at_loss))) 1.
Proof.
  assert (Hw : Pending.waiting (reqs (clear (disconnect [] 0 [] waiting_at_loss))) 1) by by eexists.
  split; [done|]. split; [done|].
  destruct (loss_never_strands no_bytes same_message no_avp_error "gw" "realm" waiting_at_loss [] 0 []
    (clear (disconnect [] 0 [] waiting_at_loss)) 1) as [_ H]; [|done|done|cbn; set_solver| |done|done|].
  - eapply reach_step; [|apply step_peer]. eapply reach_step; [|apply step_watch].
    eapply reach_step; [|apply step_begin]. apply reach_start.
  - eapply steps_cons; [apply steps_refl|]. apply step_clear. by apply Nat.ltb_lt.
  - destruct (H Hw) as [Hlt|Hd]; [vm_compute in Hlt; lia|exact Hd].
Defined.
End Forwarder.

Module Client.
Import Pending.

(** client.go.  Connections are numbered in the order they are dialled; [closed] are
    those the client has closed.  The table of requests is the record of [Pending],
    whose message counters the client does not have and never reads. *)
Record Config : Type := mkConfig {
  cfg_OriginHost : string; cfg_OriginRealm : string; cfg_DestinationHost : string; cfg_DestinationRealm : string;
  ServerAddress : string; Network : string; UseTLS : bool; TLSCert : string; TLSKey : string; TLSCA : string;
  ReadTimeout : Z; WriteTimeout : Z }.
Record Client : Type := mkClient {
  cfg : Config; conn : option nat; dialled : nat; closed : list nat; table : state }.
Definition NewClient (c : Config) : Client := mkClient c None 0 [] init.
Definition set_table (t : state) (c : Client) : Client := mkClient (cfg c) (conn c) (dialled c) (closed c) t.

(** What the library is asked to dial: the network, the address and, over TLS, the files
    of the certificate and of its key. *)
Record dial_request : Type := mkDial { d_network : string; d_address : string; d_tls : option (string * string) }.
Definition dial_of (c : Config) : dial_request :=
  mkDial (if is_empty (Network c) then "tcp" else Network c) (ServerAddress c)
    (if UseTLS c then Some (TLSCert c, TLSKey c) else None).

Section Library.
(** The outcome of a dial, of writing on a connection, and the library's functions. *)
Context (dial : dial_request -> option string) (write : nat -> Message -> option string).
Context (Serialize : Message -> option bytes) (avp_error : AVP -> option string) (NewRequest : Z -> Z -> Message).

Definition Connect (c : Client) : Client * option string :=
  match dial (dial_of (cfg c)) with
  | Some e => (c, Some ("failed to connect to " +:+ ServerAddress (cfg c) +:+ ": " +:+ e))
  | None => (mkClient (cfg c) (Some (dialled c)) (S (dialled c)) (closed c) (table c), None)
  end.
Definition Close (c : Client) : Client :=
  match conn c with
  | Some k => mkClient (cfg c) None (dialled c) (k :: closed c) (table c)
  | None => c
  end.
(** The connection that is there is not tested; without one, one is dialled. *)
Definition getConn (c : Client) : Client * result string nat :=
  match conn c with
  | Some k => (c, Ok k)
  | None =>
      match Connect c with
      | (c, Some e) => (c, Err e)
      | (c, None) => (c, match conn c with Some k => Ok k | None => Panic end)
      end
  end.
Definition PeerMetadata {M} (FromContext : nat -> option M) (c : Client) : Client * result string M :=
  match getConn c with
  | (c, Ok k) => (c, match FromContext k with Some meta => Ok meta | None => Err "no peer metadata available" end)
  | (c, Err e) => (c, Err e)
  | (c, Panic) => (c, Panic)
  end.

(** [handleDEA], registered for DEA and STA. *)
Definition handleAnswer (c : Client) (m : Message) : Client := set_table (handleDEA (table c) m) c.

Definition end_with (l : positive) (e : fwd_error) (c : Client) : Client :=
  match Forward_fail (table c) l e with Some t => set_table t c | None => c end.
(** What arrives during the wait: an answer, or the end of the context. *)
Definition arrival_of (o : option Message) : Await.arrival :=
  match o with Some m => Await.Arrived m | None => Await.ContextDone end.
Record request : Type := mkReq {
  q_sessionID : string; q_userName : string; q_payload : bytes; q_sst : Z; q_sd : string }.
Definition client_request (c : Config) (hop : Z) (q : request) : result dia_error Message :=
  client_buildDERMessage avp_error NewRequest (cfg_OriginHost c) (cfg_OriginRealm c) (cfg_DestinationHost c)
    (cfg_DestinationRealm c) hop (q_sessionID q) (q_userName q) (q_payload q) (q_sst q) (q_sd q).
Definition SendDER (evs : list (option Message)) (q : request) (c : Client) : Client * option (result fwd_error bytes) :=
  match getConn c with
  | (c, Err e) => (c, Some (Err (ErrNoConnection e)))
  | (c, Panic) => (c, Some Panic)
  | (c, Ok k) =>
      let hopByHop := nextHopByHopID (table c) in
      let '(t, l) := Forward_begin (table c) in
      let c := set_table t c in
      match client_request (cfg c) hopByHop q with
      | Err e => (end_with l (ErrBuild e) c, Some (Err (ErrBuild e)))
      | Panic => (end_with l (ErrBuild (ErrAVP estr)) c, Some Panic)
      | Ok m =>
          match write k m with
          | Some e => (end_with l (ErrSend e) c, Some (Err (ErrSend e)))
          | None =>
              let '(t, o) := Await.await (table c) l (map arrival_of evs) in
              (set_table t c, Forward_value Serialize <$> o)
          end
      end
  end.
Fixpoint send_all (qs : list (request * list (option Message))) (c : Client) : Client * list (option (result fwd_error bytes)) :=
  match qs with
  | [] => (c, [])
  | (q, evs) :: t => let '(c, r) := SendDER evs q c in let '(c, rs) := send_all t c in (c, r :: rs)
  end.

(** ** Theorems *)
Lemma getConn_table c : table (fst (getConn c)) = table c.
Proof. unfold getConn, Connect. by repeat case_match; simplify_eq/=. Qed.
Lemma end_with_parts l e c : cfg (end_with l e c) = cfg c /\ conn (end_with l e c) = conn c.
Proof. unfold end_with. by case_match. Qed.
Lemma end_with_ends l hop e c : Await.idle (table c) l hop -> pending (table (end_with l e c)) !! hop = None.
Proof. intros H. unfold end_with. by destruct (Await.idle_fail _ _ _ e H) as (p' & -> & _ & ?). Qed.
Lemma client_request_hop c hop q m : client_request c hop q = Ok m -> m_HopByHopID m = hop.
Proof.
  unfold client_request, client_buildDERMessage, addM, NewAVP, rbind. intros H.
  repeat (case_match; simplify_eq/=; try done).
Qed.

(** The same exchange as [Forwarder.Forward], with the client's own request. *)
Theorem SendDER_exchange evs q c c1 k :
  inv (table c) -> getConn c = (c1, Ok k) ->
  let hop := nextHopByHopID (table c1) in
  let '(c2, ret) := SendDER evs q c in
  (ret = match client_request (cfg c1) hop q with
         | Ok m => match write k m with
                   | Some e => Some (Err (ErrSend e))
                   | None => Forward_value Serialize <$> Await.first_relevant (m_HopByHopID m) (map arrival_of evs)
                   end
         | Err e => Some (Err (ErrBuild e))
         | Panic => Some Panic
         end)
  /\ (is_Some ret -> pending (table c2) !! hop = None).
Proof.
  intros Hi Hg. cbn zeta. assert (Ht := getConn_table c). unfold SendDER. rewrite Hg in *. cbn in Ht.
  assert (Hidle := Await.begin_idle (table c1) ltac:(by rewrite Ht)). cbn in Hidle |- *.
  destruct (client_request _ _ _) as [m|e|] eqn:Eb.
  2, 3: split; [done|intros _; by apply end_with_ends].
  rewrite (client_request_hop _ _ _ _ Eb).
  destruct (write k m) as [e|]; [split; [done|intros _; by apply end_with_ends]|].
  destruct (Await.await_first _ _ _ (map arrival_of evs) Hidle) as [Ho Hn].
  destruct (Await.await _ _ _) as [p o]. cbn in Ho, Hn |- *. subst o. split; [done|].
  intros H. apply Hn. by apply fmap_is_Some in H.
Qed.

(** A connection on which writing fails is never given up: every request after that
    fails too, however many are made, without one more dial. *)
Theorem dead_connection_kept qs c k :
  conn c = Some k -> (forall m, is_Some (write k m)) ->
  conn (fst (send_all qs c)) = Some k /\ dialled (fst (send_all qs c)) = dialled c
  /\ Forall (fun r => match r with Some (Ok _) | None => False | _ => True end) (snd (send_all qs c)).
Proof.
  intros Hc Hw. revert c Hc. induction qs as [|[q evs] t IH]; intros c Hc; [by split_and!|]. cbn [send_all].
  assert (H : conn (fst (SendDER evs q c)) = Some k /\ dialled (fst (SendDER evs q c)) = dialled c
    /\ match snd (SendDER evs q c) with Some (Ok _) | None => False | _ => True end).
  { unfold SendDER, getConn. rewrite Hc. cbn. unfold end_with.
    destruct (client_request _ _ _) as [m|e|]; [destruct (Hw m) as [e ->]|..]; cbn; case_match; done. }
  destruct (SendDER evs q c) as [c1 r] eqn:E. destruct H as (H1 & H2 & H3). cbn in H1, H2, H3.
  destruct (IH c1 H1) as (H4 & H5 & H6). destruct (send_all t c1) as [c2 rs]. cbn in *.
  split_and!; [done|congruence|by constructor].
Qed.

(** Two calls that find no connection both dial; the first connection is then neither in
    use nor closed, also after [Close]. *)
Lemma concurrent_connects_leak c :
  conn c = None -> closed c = [] -> dialled c = 0%nat -> dial (dial_of (cfg c)) = None ->
  let c2 := fst (Connect (fst (Connect c))) in
  conn c2 = Some 1%nat /\ closed (Close c2) = [1%nat] /\ dialled (Close c2) = 2%nat.
Proof. intros Hc Hcl Hd H. unfold Connect. rewrite H. cbn. rewrite H. cbn. unfold Close. cbn. by rewrite Hcl, Hd. Qed.
End Library.

Definition lab : Config := mkConfig "nssaaf" "realm" "aaa" "aaa.realm" "aaa:3868" estr true "c" "k" "ca" 0 0.
Definition lab_request : request := mkReq "s" "gpsi" [2; 0; 0; 4] 1 "ABCDEF".
Definition dials (d : dial_request) : option string := None.
Lemma SendDER_exchange_witness :
  snd (SendDER dials Forwarder.toy_write (fun m => Some [m_HopByHopID m]) Forwarder.no_avp_error toy_request
         [Some (dea 4); Some (dea 1); None] lab_request (NewClient lab)) = Some (Ok [1]).
Proof.
  assert (H := SendDER_exchange dials Forwarder.toy_write (fun m => Some [m_HopByHopID m]) Forwarder.no_avp_error toy_request
    [Some (dea 4); Some (dea 1); None] lab_request (NewClient lab) (fst (Connect dials (NewClient lab))) 0 inv_init eq_refl).
  destruct (SendDER _ _ _ _ _ _ _ _) as [c2 ret]. destruct H as [-> _]. by vm_compute.
Defined.
Definition broken (k : nat) (m : Message) : option string := Some "broken pipe".
Lemma dead_connection_kept_witness :
  conn (fst (send_all dials broken Forwarder.no_bytes Forwarder.no_avp_error toy_request
    [(lab_request, []); (lab_request, [])] (fst (Connect dials (NewClient lab))))) = Some 0%nat.
Proof.
  apply (dead_connection_kept dials broken Forwarder.no_bytes Forwarder.no_avp_error toy_request
    [(lab_request, []); (lab_request, [])] (fst (Connect dials (NewClient lab))) 0); [done|by eexists].
Defined.
End Client.
