(* ===== verification/Processes.v ===== *)
(** * Life of the processes: cmd/nrm, cmd/biz, cmd/aaa-gateway, cmd/http-gateway

    [NrmMain]: the start of the NRM server and its evaluation window.  [Shutdown]: what
    the three other processes stop at the end, and in which order, over the traces of
    [Config.Build]. *)
From S2P Require Import Prelude Regex Common Encoding EapSession Alarm NrfServer UdmServer Config GatewayProcess.
Import Validator.
From Stdlib Require Import QArith_base Qcanon.
Local Open Scope string_scope.
Local Open Scope Z_scope.
Local Open Scope list_scope.

Module NrmMain.

Definition DefaultAlarmThresholds : NRMAlarmThreshold := mkThreshold (Q2Qc (inject_Z 10)) 300.

(** What the server and the manager are started with.  Durations are in nanoseconds;
    [window]: the period of the resets, none when the configured one is not positive. *)
Record nrm_process : Type := mkNrm {
  listen : string; url : string; thresholds : NRMAlarmThreshold; window : option Z;
  readTimeout : Z; writeTimeout : Z; idleTimeout : Z; manager : AlarmManager }.

Definition NewAlarmManager : AlarmManager := mkManager NewAlarmStore ∅ 0 0.
Definition StartMetricsWindow (t : NRMAlarmThreshold) : option Z :=
  if EvaluationWindowSec t <=? 0 then None else Some (EvaluationWindowSec t * second).

(** The settings of [NewServer]. *)
Definition server_timeout (configured : Z) (dflt : Z) : Z := if 0 <? configured then configured * second else dflt * second.
Definition server_addr (addr : string) : string := str_default addr ":8081".

Definition nrm_url (addr : string) : string := if HasPrefix addr "http" then addr else "http://localhost" +:+ addr.
Inductive nrm_error : Type := NrmLoad (e : load_error) | NrmComponent (got : string).
Definition nrm_main (Getenv : string -> string) (Unmarshal : string -> option Config) (file : option string)
  : result nrm_error nrm_process :=
  let? c := map_err NrmLoad (Load Getenv Unmarshal file) in
  if negb (str_eqb (Component c) ComponentNRM) then Err (NrmComponent (Component c))
  else match NRM c with
  | None => Panic
  | Some n =>
      let addr := str_default (Getenv "NRM_LISTEN_ADDR") (ListenAddr n) in
      let t := default DefaultAlarmThresholds (AlarmThresholds n) in
      Ok (mkNrm (server_addr addr) (nrm_url addr) t (StartMetricsWindow t)
            (server_timeout (NRM_ReadTimeout n) 10) (server_timeout (NRM_WriteTimeout n) 30)
            (server_timeout (NRM_IdleTimeout n) 120) NewAlarmManager)
  end.

Lemma Validate_nrm c : Validate c = Ok c -> Component c = ComponentNRM ->
  exists n, NRM c = Some n /\ ListenAddr n <> estr.
Proof.
  intros Hv Hc. unfold Validate in Hv. rewrite Hc in Hv. cbn in Hv.
  unfold validate_nrm in Hv. destruct (NRM c) as [n|]; [|done]. exists n. split; [done|].
  unfold require in Hv. by destruct (ListenAddr n).
Qed.

(** The NRM starts with exactly the configurations that load for it, never by a panic; it
    listens where the environment says, else where the section says, and an absent
    section of thresholds means the default ones. *)
Theorem nrm_starts Getenv Unmarshal file c :
  Load Getenv Unmarshal file = Ok c ->
  (Component c = ComponentNRM <-> exists p, nrm_main Getenv Unmarshal file = Ok p)
  /\ nrm_main Getenv Unmarshal file <> Panic
  /\ forall p, nrm_main Getenv Unmarshal file = Ok p ->
     exists n, NRM c = Some n
     /\ listen p = (if is_empty (Getenv "NRM_LISTEN_ADDR") then ListenAddr n else Getenv "NRM_LISTEN_ADDR")
     /\ thresholds p = default DefaultAlarmThresholds (AlarmThresholds n)
     /\ (AlarmThresholds n = None -> window p = Some (300 * second))
     /\ 0 < readTimeout p /\ 0 < writeTimeout p /\ 0 < idleTimeout p.
Proof.
  intros HL. unfold nrm_main. rewrite HL. cbn [map_err rbind]. apply Load_inv in HL as [Hv _].
  destruct (str_eqb (Component c) ComponentNRM) eqn:Ec.
  2: { split_and!; [|done|done]. split; [intros H; by rewrite H, str_eqb_refl in Ec|by intros [p ?]]. }
  apply str_eqb_true in Ec. destruct (Validate_nrm c Hv Ec) as (n & -> & Hl). cbn [negb].
  split_and!; [split; [by eexists|done]|done|]. intros p [= <-]. exists n. cbn.
  assert (Ht : forall v d, 0 < d -> 0 < server_timeout v d).
  { intros v d Hd. unfold server_timeout, second. destruct (Z.ltb_spec 0 v); lia. }
  split_and!; [done| |done|by intros ->|apply Ht; lia..].
  unfold server_addr, str_default. destruct (Getenv "NRM_LISTEN_ADDR"); cbn; [|done]. by destruct (ListenAddr n).
Qed.

(** ** The evaluation window *)
Section Window.
Context (rate_exceeds : Z -> Z -> bool) (rate_text : Z -> Z -> string).
(** Events of the Biz Pods and ticks of the window. *)
Inductive happening : Type := Event (now : Z) (uuid eventType target : string) | Tick.
Definition happen (m : AlarmManager) (h : happening) : AlarmManager :=
  match h with
  | Event now uuid e target => Evaluate rate_exceeds rate_text now uuid m e target
  | Tick => ResetAuthMetrics m
  end.
Definition run (hs : list happening) (m : AlarmManager) : AlarmManager := foldl happen m hs.

Definition is_failure (h : happening) : bool :=
  match h with Event _ _ e _ => str_eqb e "AUTH_FAILURE" | Tick => false end.
Definition is_auth (h : happening) : bool :=
  match h with Event _ _ e _ => str_eqb e "AUTH_SUCCESS" || str_eqb e "AUTH_FAILURE" | Tick => false end.
Definition count (p : happening -> bool) (hs : list happening) : Z := len (List.filter p hs).
(** What happened since the last tick. *)
Fixpoint since_tick (hs : list happening) : list happening :=
  match hs with
  | [] => []
  | h :: t => if existsb (fun x => match x with Tick => true | _ => false end) t then since_tick t
              else match h with Tick => t | _ => h :: t end
  end.

Lemma since_tick_snoc hs h :
  since_tick (hs ++ [h]) = match h with Tick => [] | _ => since_tick hs ++ [h] end.
Proof.
  induction hs as [|x t IH]; [by destruct h|]. cbn. rewrite existsb_app. cbn. rewrite IH.
  destruct h; cbn; rewrite ?orb_false_r, ?orb_true_r; [|done]. destruct (existsb _ t); [done|]. by destruct x.
Qed.
Lemma count_snoc p hs h : count p (hs ++ [h]) = count p hs + (if p h then 1 else 0).
Proof. unfold count, len. rewrite List.filter_app, length_app. cbn. destruct (p h); cbn; lia. Qed.
Lemma evaluate_counts now uuid m e target :
  let m' := Evaluate rate_exceeds rate_text now uuid m e target in
  authTotal m' = authTotal m + (if is_auth (Event now uuid e target) then 1 else 0)
  /\ authFailures m' = authFailures m + (if is_failure (Event now uuid e target) then 1 else 0).
Proof.
  unfold Evaluate, is_auth, is_failure, open_raise, open_mark, raise_in, set_store.
  destruct (str_eqb e "AUTH_SUCCESS") eqn:E1.
  { apply str_eqb_true in E1 as ->. rewrite (str_eqb_false "AUTH_SUCCESS" "AUTH_FAILURE") by done. cbn. lia. }
  cbn [orb]. destruct (str_eqb e "AUTH_FAILURE") eqn:E2; [|repeat case_match; cbn; lia].
  cbn [authTotal authFailures]. repeat case_match; cbn; lia.
Qed.

(** The counters behind the failure-rate alarm are those of the events since the last
    reset, whatever else happened: the window is not a sliding one. *)
Theorem window_counts hs :
  authTotal (run hs NewAlarmManager) = count is_auth (since_tick hs)
  /\ authFailures (run hs NewAlarmManager) = count is_failure (since_tick hs).
Proof.
  induction hs as [|h hs IH] using rev_ind; [done|]. unfold run in *. rewrite foldl_app. cbn.
  rewrite since_tick_snoc. destruct h as [now uuid e target|]; cbn [happen]; [|done].
  rewrite !count_snoc. destruct (evaluate_counts now uuid (foldl happen NewAlarmManager hs) e target) as [-> ->].
  by destruct IH as [-> ->].
Qed.
End Window.
End NrmMain.

Module Shutdown.

(** ** The Biz Pod: [BizPod.Close], then the deferred cleanup of [Build] *)
Inductive stop : Type := StopHeartbeat | StopResource (r : resource) | StopAAAClient | StopServer.
#[global] Instance stop_eq : EqDecision stop.
Proof. solve_decision. Defined.
Definition pod_Close (heartbeat dbg : bool) : list stop :=
  (if heartbeat then [StopHeartbeat] else []) ++ [StopResource RPool; StopResource RRedis; StopAAAClient]
  ++ (if dbg then [StopResource RDebug] else []) ++ [StopServer].
Definition has_debug (cleanup : list resource) : bool := bool_decide (RDebug ∈ cleanup).
(** main.go after the signal. *)
Definition biz_shutdown (cleanup : list resource) : list stop :=
  pod_Close true (has_debug cleanup) ++ (StopResource <$> cleanup).

Definition resource_action (s : stop) : list action := match s with StopResource r => [Close_ r] | _ => [] end.
Definition resource_actions (ss : list stop) : list action := concat (resource_action <$> ss).

(** Requests can still arrive: the server has not been stopped in this prefix. *)
Definition serving (pre : list stop) : Prop := StopServer ∉ pre.
Definition serves_without (r : resource) (ss : list stop) : Prop :=
  exists pre post, ss = pre ++ post /\ serving pre /\ StopResource r ∈ pre.

Lemma Build_cleanup w globalKM c tr pod cleanup :
  Build w globalKM c = (tr, Ok (pod, cleanup)) ->
  let dbg := DebugEnabled (Debug c) && debug_ok w in
  cleanup = (if dbg then [RDebug] else []) ++ [RRedis; RPool; RTracing]
  /\ tr = [Open_ RTracing; Open_ RPool] ++ (if dbg then [Open_ RDebug] else []) ++ [Open_ RRedis].
Proof.
  unfold Build. intros H. cbn zeta. destruct (DebugEnabled (Debug c) && debug_ok w); repeat case_match; by simplify_eq/=.
Qed.

(** The end of a Biz Pod that was built: everything it had opened is closed, some of it
    twice; the server stops after the stores, the AAA client and the debug store, so that
    requests still arrive when the database pool and the Redis pool are closed. *)
Theorem biz_shutdown_order w globalKM c tr pod cleanup :
  Build w globalKM c = (tr, Ok (pod, cleanup)) ->
  left_open (tr ++ resource_actions (biz_shutdown cleanup)) = []
  /\ StopServer ∈ biz_shutdown cleanup
  /\ serves_without RPool (biz_shutdown cleanup) /\ serves_without RRedis (biz_shutdown cleanup)
  /\ (RDebug ∈ cleanup -> serves_without RDebug (biz_shutdown cleanup)).
Proof.
  intros [-> ->]%Build_cleanup.
  destruct (DebugEnabled (Debug c) && debug_ok w);
    unfold biz_shutdown, has_debug, serves_without, serving;
    [rewrite bool_decide_true by set_solver|rewrite bool_decide_false by set_solver]; cbn [app].
  - split; [done|]. split; [cbn; set_solver|].
    assert (H : forall r, r ∈ [RPool; RRedis; RDebug] -> exists pre post,
      pod_Close true true ++ (StopResource <$> [RDebug; RRedis; RPool; RTracing]) = pre ++ post
      /\ StopServer ∉ pre /\ StopResource r ∈ pre).
    { intros r Hr. exists [StopHeartbeat; StopResource RPool; StopResource RRedis; StopAAAClient; StopResource RDebug].
      eexists. split; [reflexivity|]. set_solver. }
    split_and!; [apply H; set_solver..|]. intros _. apply H. set_solver.
  - split; [done|]. split; [cbn; set_solver|].
    assert (H : forall r, r ∈ [RPool; RRedis] -> exists pre post,
      pod_Close true false ++ (StopResource <$> [RRedis; RPool; RTracing]) = pre ++ post
      /\ StopServer ∉ pre /\ StopResource r ∈ pre).
    { intros r Hr. exists [StopHeartbeat; StopResource RPool; StopResource RRedis; StopAAAClient].
      eexists. split; [reflexivity|]. set_solver. }
    split_and!; [apply H; set_solver..|set_solver].
Qed.

(** The address the pod registers itself under. *)
Definition pod_url (podID addr : string) : string := "http://" +:+ podID +:+ addr.
(** A listen address with a host gives an address that names no pod. *)
Example pod_url_host : pod_url "biz-1" "0.0.0.0:8080" = "http://biz-10.0.0.0:8080".
Proof. done. Qed.

(** ** The AAA gateway: main.go with [Gateway.Stop] *)
Inductive aaa_error : Type := AaaLoad (e : load_error) | AaaComponent (got : string) | AaaNoListeners.
(** [ap_serving]: whether the HTTP server could listen.  Its error goes to a channel that
    main does not read. *)
Record aaa_process : Type := mkAaa { ap_config : GatewayConfig; ap_tasks : list task; ap_serving : bool }.
(** [Ok None]: still waiting for the virtual address. *)
Definition aaa_main (Getenv : string -> string) (Unmarshal : string -> option Config) (file : option string)
  (polls : list (option (list (option (list string))) * bool)) (listening : bool) : result aaa_error (option aaa_process) :=
  let? c := map_err AaaLoad (Load Getenv Unmarshal file) in
  if negb (str_eqb (Component c) ComponentAAAGateway) then Err (AaaComponent (Component c))
  else match AAAgw c with
  | None => Panic
  | Some g =>
      match StartVIPAware (main_config c g) (VIPAddress g) polls with
      | Started ts => Ok (Some (mkAaa (main_config c g) ts listening))
      | Cancelled => Err AaaNoListeners
      | StillWaiting => Ok None
      end
  end.
(** main.go after the signal: the context, [Stop] and the debug store.  [StopHTTP] would
    be the end of the HTTP server. *)
Inductive aaa_stop : Type := CancelContext | GatewayStop (a : stop_action) | CloseDebug | StopHTTP.
Definition aaa_shutdown (p : aaa_process) (dbg : bool) : list aaa_stop :=
  CancelContext :: (GatewayStop <$> Stop true (New (ap_config p))) ++ (if dbg then [CloseDebug] else []).

Lemma Validate_aaagw c : Validate c = Ok c -> Component c = ComponentAAAGateway -> is_Some (AAAgw c).
Proof.
  intros Hv Hc. unfold Validate in Hv. rewrite Hc in Hv. cbn in Hv. unfold validate_aaagw in Hv. by destruct (AAAgw c).
Qed.

(** The AAA gateway starts with every configuration that loads for it as soon as it has
    the virtual address, and never panics.  It runs in the same way when its HTTP server
    cannot listen: the listeners for the AAA server are up and no Biz Pod can reach it;
    and it ends without stopping that server, with Redis closed before. *)
Theorem aaa_starts Getenv Unmarshal file c polls listening :
  Load Getenv Unmarshal file = Ok c -> Component c = ComponentAAAGateway ->
  exists g, AAAgw c = Some g
  /\ match StartVIPAware (main_config c g) (VIPAddress g) polls with
      | Started ts => aaa_main Getenv Unmarshal file polls listening = Ok (Some (mkAaa (main_config c g) ts listening))
      | Cancelled => aaa_main Getenv Unmarshal file polls listening = Err AaaNoListeners
      | StillWaiting => aaa_main Getenv Unmarshal file polls listening = Ok None
      end
  /\ (VIPAddress g = estr -> aaa_main Getenv Unmarshal file polls listening
        = Ok (Some (mkAaa (main_config c g) (startListeners (main_config c g)) listening)))
  /\ forall p dbg, StopHTTP ∉ aaa_shutdown p dbg.
Proof.
  intros HL Hc. unfold aaa_main. rewrite HL. cbn [map_err rbind]. rewrite Hc, str_eqb_refl. cbn [negb].
  apply Load_inv in HL as [Hv _]. destruct (Validate_aaagw c Hv Hc) as [g Hg]. exists g. rewrite Hg.
  split; [done|]. split; [by destruct (StartVIPAware _ _ _)|]. split.
  - unfold StartVIPAware. by intros ->.
  - intros p dbg. unfold aaa_shutdown. rewrite not_elem_of_cons, not_elem_of_app. split_and!; [done| |by destruct dbg; set_solver].
    intros (a & ? & _)%list_elem_of_fmap. done.
Qed.

(** ** The HTTP gateway *)
Inductive gw_stop : Type := Deregister | CloseGwDebug | StopGwServer | ShutdownTracing | CancelInit.
#[global] Instance gw_stop_eq : EqDecision gw_stop.
Proof. solve_decision. Defined.
(** main.go after the signal, then the deferred calls. *)
Definition gw_shutdown (nrfClient dbg : bool) : list gw_stop :=
  (if nrfClient then [Deregister] else []) ++ (if dbg then [CloseGwDebug] else []) ++ [StopGwServer]
  ++ [ShutdownTracing; CancelInit].
(** Consumers are sent away before the server stops. *)
Lemma deregistered_before_stop dbg :
  exists pre post, gw_shutdown true dbg = pre ++ StopGwServer :: post /\ Deregister ∈ pre /\ Deregister ∉ post.
Proof.
  destruct dbg; [exists [Deregister; CloseGwDebug]|exists [Deregister]]; exists [ShutdownTracing; CancelInit];
    (split; [done|set_solver]).
Qed.

(** ** Witnesses *)
Definition lab_config (component : string) (aaagw : option AAAgwConfig) (nrm : option NRMConfig) : Config :=
  let c := raw None estr in
  mkConfig component (Version c) (Server_ c) (Database c) (Redis c) (EAP c) (AAA c) (RateLimit_ c) (Logging c) (Metrics c)
    (NRF c) (UDM c) (AUSF c) (Crypto_ c) (InternalComm c) (Debug c) None aaagw None nrm.
Lemma nrm_starts_witness :
  exists p, NrmMain.nrm_main env0 (fun _ => Some (lab_config "nrm" None (Some (mkNRM "0.0.0.0:8081" None estr 0 0 0)))) (Some "x") = Ok p
    /\ NrmMain.url p = "http://localhost0.0.0.0:8081".
Proof.
  destruct (NrmMain.nrm_starts env0 (fun _ => Some (lab_config "nrm" None (Some (mkNRM "0.0.0.0:8081" None estr 0 0 0)))) (Some "x")
    (applyDefaults env0 (lab_config "nrm" None (Some (mkNRM "0.0.0.0:8081" None estr 0 0 0))))) as (H & _ & _);
    [vm_compute; reflexivity|].
  destruct (proj1 H eq_refl) as [p Hp]. exists p. split; [done|]. vm_compute in Hp. by injection Hp as <-.
Defined.
Lemma biz_shutdown_order_witness :
  exists tr pod cleanup, Build up None (applyDefaults env0 (raw gw0 ":8080")) = (tr, Ok (pod, cleanup))
    /\ serves_without RPool (biz_shutdown cleanup).
Proof.
  destruct (Build up None (applyDefaults env0 (raw gw0 ":8080"))) as [tr [[pod cleanup]|e|]] eqn:E.
  - exists tr, pod, cleanup. split; [done|]. by apply (biz_shutdown_order up None (applyDefaults env0 (raw gw0 ":8080")) tr pod cleanup).
  - vm_compute in E. done.
  - vm_compute in E. done.
Defined.
End Shutdown.
