(* ===== verification/AaaMetrics.v ===== *)
(** * internal/aaa/metrics.go: counters and latencies of AAA requests

    Three nested maps under one lock.  The two latency maps hold 64-bit counters; the
    result of a division is the exact quotient, without the rounding of floats. *)
From S2P Require Import Prelude Resilience.
From Stdlib Require Import QArith_base.
Local Open Scope string_scope.
Local Open Scope Z_scope.
Local Open Scope list_scope.

Definition i64 : Z -> Z := Retry.i64.
Abbreviation hosts A := (gmap string (gmap string A)).
Record Metrics : Type := mkMetrics {
  requests : gmap string (hosts Z); latencies : hosts Z; counters : hosts Z }.
Definition NewMetrics : Metrics := mkMetrics ∅ ∅ ∅.

(** [m[a][b]] of a nested map; a missing inner map reads as empty. *)
Definition get2 {A} (m : hosts A) (a b : string) : option A := (m !! a) ≫= (.!! b).
Definition put2 {A} (m : hosts A) (a b : string) (v : A) : hosts A :=
  <[a := <[b := v]> (default ∅ (m !! a))]> m.

Definition RecordAAARequest (m : Metrics) (protocol host result : string) : Metrics :=
  let byHost := default ∅ (requests m !! protocol) in
  let n := default 0 (get2 byHost host result) in
  mkMetrics (<[protocol := put2 byHost host result (i64 (n + 1))]> (requests m)) (latencies m) (counters m).
Definition RecordAAALatency (m : Metrics) (protocol host : string) (d : Z) : Metrics :=
  let sum := default 0 (get2 (latencies m) protocol host) in
  let n := default 0 (get2 (counters m) protocol host) in
  mkMetrics (requests m) (put2 (latencies m) protocol host (i64 (sum + d))) (put2 (counters m) protocol host (i64 (n + 1))).
Definition RequestRate (m : Metrics) (protocol host : string) : Z := default 0 (get2 (counters m) protocol host).
Definition AverageLatency (m : Metrics) (protocol host : string) : Q :=
  match get2 (latencies m) protocol host, get2 (counters m) protocol host with
  | Some sum, Some n => if n =? 0 then inject_Z 0 else Qdiv (Qdiv (inject_Z sum) (inject_Z n)) (inject_Z 1000000)
  | _, _ => inject_Z 0
  end.
(** A deep copy of the request counters: the value they have now. *)
Definition Stats (m : Metrics) : gmap string (hosts Z) := requests m.

Lemma get2_put2 {A} (m : hosts A) a b a' b' v :
  get2 (put2 m a b v) a' b' = if decide (a = a' /\ b = b') then Some v else get2 m a' b'.
Proof.
  unfold get2, put2. destruct (decide (a = a')) as [->|Ha].
  - rewrite lookup_insert_eq. cbn. destruct (decide (b = b')) as [->|Hb].
    + rewrite lookup_insert_eq. by rewrite decide_True.
    + rewrite lookup_insert_ne by done. rewrite decide_False by tauto. by destruct (m !! a').
  - rewrite lookup_insert_ne by done. by rewrite decide_False by tauto.
Qed.

(** ** Histories *)
Inductive record : Type := Request (protocol host result : string) | Latency (protocol host : string) (d : Z).
Definition apply (m : Metrics) (r : record) : Metrics :=
  match r with
  | Request p h res => RecordAAARequest m p h res
  | Latency p h d => RecordAAALatency m p h d
  end.
Definition run (rs : list record) : Metrics := foldl apply NewMetrics rs.

Definition is_request (p h res : string) (r : record) : bool :=
  match r with Request p' h' res' => bool_decide (p' = p /\ h' = h /\ res' = res) | _ => false end.
Definition latency_of (p h : string) (r : record) : option Z :=
  match r with Latency p' h' d => if decide (p' = p /\ h' = h) then Some d else None | _ => None end.
Definition latencies_of (p h : string) (rs : list record) : list Z := omap (latency_of p h) rs.
Definition sum_of (l : list Z) : Z := foldr Z.add 0 l.

Definition stats_at (m : gmap string (hosts Z)) (p h res : string) : option Z := get2 (default ∅ (m !! p)) h res.
Definition occurrences (f : record -> bool) (rs : list record) : Z := len (List.filter f rs).

Lemma i64_add a b : i64 (i64 a + b) = i64 (a + b).
Proof.
  unfold i64, Retry.i64. f_equal. replace ((a + 2 ^ 63) mod 2 ^ 64 - 2 ^ 63 + b + 2 ^ 63) with ((a + 2 ^ 63) mod 2 ^ 64 + b) by lia.
  rewrite Z.add_mod_idemp_l by lia. f_equal. lia.
Qed.
Lemma occurrences_snoc f rs r : occurrences f (rs ++ [r]) = occurrences f rs + (if f r then 1 else 0).
Proof. unfold occurrences, len. rewrite List.filter_app, length_app. cbn. destruct (f r); cbn; lia. Qed.
Lemma latencies_snoc p h rs r :
  latencies_of p h (rs ++ [r]) = latencies_of p h rs ++ (match latency_of p h r with Some d => [d] | None => [] end).
Proof. unfold latencies_of. rewrite omap_app. cbn. by destruct (latency_of p h r). Qed.
Lemma sum_snoc l d : sum_of (l ++ [d]) = sum_of l + d.
Proof. unfold sum_of. induction l as [|x l IH]; cbn in *; lia. Qed.

(** A counter that was never touched is absent. *)
Definition some_if {A} (b : bool) (v : A) : option A := if b then Some v else None.
Definition nonempty {A} (l : list A) : bool := match l with [] => false | _ => true end.
Lemma default_some_if b v : (b = false -> i64 v = i64 0) -> i64 (default 0 (some_if b (i64 v)) + 1) = i64 (v + 1).
Proof. destruct b; cbn; intros H; [apply i64_add|]. rewrite <- (i64_add v), H by done. done. Qed.
Lemma nonempty_snoc {A} (l : list A) x : nonempty (l ++ [x]) = true.
Proof. by destruct l. Qed.

Lemma requests_run rs p h res :
  stats_at (requests (run rs)) p h res = some_if (0 <? occurrences (is_request p h res) rs) (i64 (occurrences (is_request p h res) rs)).
Proof.
  induction rs as [|r rs IH] using rev_ind; [by vm_compute|]. unfold run in *. rewrite foldl_app, occurrences_snoc. cbn.
  set (m := foldl apply NewMetrics rs) in *. set (n := occurrences (is_request p h res) rs) in *.
  assert (Hn : 0 <= n) by (unfold n, occurrences, len; lia).
  destruct r as [p' h' res'|p' h' d]; cbn [apply is_request]; [|by rewrite Z.add_0_r].
  unfold RecordAAARequest, stats_at. cbn [requests]. destruct (decide (p' = p)) as [->|Hp].
  - rewrite lookup_insert_eq. cbn [from_option id]. rewrite get2_put2. destruct (decide (h' = h /\ res' = res)) as [[-> ->]|Hd].
    + rewrite bool_decide_true by done. replace (0 <? n + 1) with true by (symmetry; apply Z.ltb_lt; lia). cbn. f_equal.
      unfold stats_at in IH. rewrite IH. apply default_some_if. intros Hz. apply Z.ltb_ge in Hz. by replace n with 0 by lia.
    + rewrite bool_decide_false by tauto. rewrite Z.add_0_r. exact IH.
  - rewrite lookup_insert_ne by done. rewrite bool_decide_false by tauto. rewrite Z.add_0_r. exact IH.
Qed.

Lemma latencies_run rs p h :
  get2 (latencies (run rs)) p h = some_if (nonempty (latencies_of p h rs)) (i64 (sum_of (latencies_of p h rs)))
  /\ get2 (counters (run rs)) p h = some_if (nonempty (latencies_of p h rs)) (i64 (len (latencies_of p h rs))).
Proof.
  induction rs as [|r rs [IH1 IH2]] using rev_ind; [by vm_compute|]. unfold run in *. rewrite foldl_app, latencies_snoc. cbn.
  set (m := foldl apply NewMetrics rs) in *. set (l := latencies_of p h rs) in *.
  destruct r as [p' h' res'|p' h' d]; cbn [apply latency_of]; [by rewrite app_nil_r|].
  unfold RecordAAALatency. cbn [latencies counters]. rewrite !get2_put2.
  destruct (decide (p' = p /\ h' = h)) as [[-> ->]|Hd]; [|by rewrite app_nil_r].
  rewrite IH1, IH2, nonempty_snoc, sum_snoc. cbn [some_if]. destruct l as [|x l]; [done|]. cbn [nonempty some_if from_option id].
  rewrite !i64_add. split; [done|]. f_equal. f_equal. unfold len. rewrite length_app. cbn. lia.
Qed.

(** What the collector reports after any history: for each protocol, host and result the
    number of requests recorded, as a 64-bit counter, and nothing for others; the mean of
    the latencies recorded for a protocol and host in milliseconds, and zero when there
    is none; and as its rate the number of latencies, over all time. *)
Theorem metrics_exact rs p h :
  (forall res, stats_at (Stats (run rs)) p h res
     = some_if (0 <? occurrences (is_request p h res) rs) (i64 (occurrences (is_request p h res) rs)))
  /\ RequestRate (run rs) p h = i64 (len (latencies_of p h rs))
  /\ (0 < len (latencies_of p h rs) < 2 ^ 63 ->
      AverageLatency (run rs) p h
      = Qdiv (Qdiv (inject_Z (i64 (sum_of (latencies_of p h rs)))) (inject_Z (len (latencies_of p h rs)))) (inject_Z 1000000))
  /\ (latencies_of p h rs = [] -> AverageLatency (run rs) p h = inject_Z 0).
Proof.
  split; [apply requests_run|]. destruct (latencies_run rs p h) as [H1 H2]. unfold RequestRate, AverageLatency. rewrite H1, H2.
  destruct (latencies_of p h rs) as [|x l]; cbn [nonempty some_if from_option id].
  - split; [done|]. split; [unfold len; cbn; lia|done].
  - split; [done|]. split; [|done]. intros Hl. assert (i64 (len (x :: l)) = len (x :: l)) as ->.
    { unfold i64, Retry.i64. rewrite Z.mod_small; lia. }
    by destruct (Z.eqb_spec (len (x :: l)) 0); [lia|].
Qed.
