(* ===== verification/RadiusDict.v ===== *)
(** * internal/radius/layeh/gen/dict.go and the packets of layeh/client.go

    The accessors of the RADIUS dictionary: adding, reading, replacing and removing the
    values of an attribute of a packet, and the same for the attributes of 3GPP inside
    Vendor-Specific.  The package layeh.com/radius is the class [Layeh], its documented
    behaviour the class [LayehLaws]; a packet is its list of attributes.  The generated
    functions differ in the attribute type and in the kind of its value, so each
    attribute of the dictionary is one record of functions. *)
From S2P Require Import Prelude KeyVault Regex Common Types Encoding Radius RadiusGateway.
Import Validator.
Local Open Scope string_scope.
Local Open Scope Z_scope.
Local Open Scope list_scope.

Abbreviation packet := (list Attribute).
Record IPNet : Type := mkIPNet { n_IP : bytes; n_Mask : bytes }.

(** ** The library *)
Class Layeh : Type := {
  NewBytes : bytes -> option bytes; Bytes : bytes -> bytes;
  NewString : string -> option bytes; String_ : bytes -> string;
  NewInteger : Z -> bytes; Integer : bytes -> option Z;
  NewIPAddr : bytes -> option bytes; IPAddr : bytes -> option bytes;
  NewIPv6Addr : bytes -> option bytes; IPv6Addr : bytes -> option bytes;
  NewIPv6Prefix : IPNet -> option bytes; IPv6Prefix : bytes -> option IPNet;
  NewVendorSpecific : Z -> bytes -> option bytes; VendorSpecific : bytes -> option (Z * bytes);
  p_Add : packet -> Z -> bytes -> packet; p_Set : packet -> Z -> bytes -> packet;
  p_Del : packet -> Z -> packet; p_Lookup : packet -> Z -> option bytes }.

(** The values a packet holds for a type, in order. *)
Definition stored (t : Z) (p : packet) : list bytes := AValue <$> filter (fun a => AType a = t) p.
Arguments stored : simpl never.

(** What the package documents: [Add] appends, [Del] removes all attributes of the type,
    [Set] removes and appends, [Lookup] gives the first; an attribute of bytes or text is
    those bytes; a number or an address can be read back from the attribute made of it;
    an attribute holds at most 253 bytes, a vendor attribute
    four less, behind the four bytes of the vendor. *)
Class LayehLaws `{Layeh} : Prop := {
  law_add p t a : p_Add p t a = p ++ [mkAttr t a];
  law_del p t : p_Del p t = filter (fun a => AType a <> t) p;
  law_set p t a : p_Set p t a = p_Del p t ++ [mkAttr t a];
  law_lookup p t : p_Lookup p t = head (stored t p);
  law_bytes v : NewBytes v = if len v <=? 253 then Some v else None;
  law_bytes_read a : Bytes a = a;
  law_string s : NewString s = NewBytes (bytes_of_string s);
  law_string_read a : String_ a = string_of_bytes a;
  law_integer n : in_u32 n -> Integer (NewInteger n) = Some n;
  law_ip v a : length v = 4%nat -> NewIPAddr v = Some a -> IPAddr a = Some v;
  law_ip6 v a : length v = 16%nat -> NewIPv6Addr v = Some a -> IPv6Addr a = Some v;
  law_vendor id v a : in_u32 id -> NewVendorSpecific id v = Some a -> VendorSpecific a = Some (id, v);
  law_vendor_layout id v a : VendorSpecific a = Some (id, v) -> length (take 4 a) = 4%nat /\ a = take 4 a ++ v;
  law_vendor_size id v : 1 <= len v <= 249 -> is_Some (NewVendorSpecific id v) }.

Inductive dict_error : Type := ErrNoAttribute | ErrValue.

(** ** The functions of one attribute *)
Record accessor (V : Type) : Type := mkAcc {
  Add : packet -> V -> result dict_error packet;
  Get : packet -> V;
  Gets : packet -> list V * option dict_error;
  Lookup : packet -> result dict_error V;
  Set_ : packet -> V -> result dict_error packet;
  Del : packet -> packet }.
Arguments Add {V}. Arguments Get {V}. Arguments Gets {V}. Arguments Lookup {V}. Arguments Set_ {V}. Arguments Del {V}.

Section Dict.
Context `{Layeh}.

Section Accessor.
Context {V : Type} (typ : Z) (enc : V -> option bytes) (dec : bytes -> option V) (zero : V).
Definition attr_Add (p : packet) (v : V) : result dict_error packet :=
  match enc v with Some a => Ok (p_Add p typ a) | None => Err ErrValue end.
Definition attr_Lookup (p : packet) : result dict_error V :=
  match p_Lookup p typ with
  | None => Err ErrNoAttribute
  | Some a => match dec a with Some v => Ok v | None => Err ErrValue end
  end.
Definition attr_Get (p : packet) : V := match attr_Lookup p with Ok v => v | _ => zero end.
(** Values up to the first that does not decode. *)
Fixpoint decode_all (l : list bytes) : list V * option dict_error :=
  match l with
  | [] => ([], None)
  | a :: l => match dec a with
              | None => ([], Some ErrValue)
              | Some v => let '(vs, e) := decode_all l in (v :: vs, e)
              end
  end.
Definition attr_Gets (p : packet) : list V * option dict_error := decode_all (stored typ p).
Definition attr_Set (p : packet) (v : V) : result dict_error packet :=
  match enc v with Some a => Ok (p_Set p typ a) | None => Err ErrValue end.
Definition attr_Del (p : packet) : packet := p_Del p typ.
Definition attr : accessor V := mkAcc V attr_Add attr_Get attr_Gets attr_Lookup attr_Set attr_Del.
End Accessor.

(** Attributes of text have each function for bytes and for strings. *)
Record text_accessor : Type := mkText { as_bytes : accessor bytes; as_string : accessor string }.
Definition text (typ : Z) : text_accessor :=
  mkText (attr typ NewBytes (fun a => Some (Bytes a)) []) (attr typ NewString (fun a => Some (String_ a)) estr).
Definition ip_addr (typ : Z) : accessor bytes := attr typ NewIPAddr IPAddr [].
Definition ipv6_addr (typ : Z) : accessor bytes := attr typ NewIPv6Addr IPv6Addr [].
Definition ipv6_prefix (typ : Z) : accessor (option IPNet) :=
  attr typ (fun o => o ≫= NewIPv6Prefix) (fun a => Some <$> IPv6Prefix a) None.
(** Integers have names for some values, and a rendering. *)
Record int_accessor : Type := mkInt { ops : accessor Z; values : list (Z * string); String__ : Z -> string }.
Fixpoint name_of (l : list (Z * string)) (n : Z) : option string :=
  match l with [] => None | (k, s) :: l => if k =? n then Some s else name_of l n end.
Definition integer (typ : Z) (name : string) (values : list (Z * string)) : int_accessor :=
  mkInt (attr typ (fun n => Some (NewInteger n)) Integer 0) values
    (fun n => match name_of values n with Some s => s | None => name +:+ "(" +:+ show_uint n +:+ ")" end).
End Dict.

(** ** The dictionary *)
Module Attrs.
Section Attrs.
Context `{Layeh}.
Definition UserName : text_accessor := text 1.
Definition UserPassword : text_accessor := text 2.
Definition CHAPPassword : text_accessor := text 3.
Definition NASIPAddress : accessor bytes := ip_addr 4.
Definition NASPort : int_accessor := integer 5 "NASPort" [].
Definition ServiceType : int_accessor := integer 6 "ServiceType"
  [(1, "Login-User"); (2, "Framed-User"); (3, "Callback-Login-User"); (4, "Callback-Framed-User"); 
   (5, "Outbound-User"); (6, "Administrative-User"); (7, "NAS-Prompt-User"); (8, "Authenticate-Only")].
Definition FramedProtocol : int_accessor := integer 7 "FramedProtocol" [].
Definition FramedIPAddress : accessor bytes := ip_addr 8.
Definition ReplyMessage : text_accessor := text 18.
Definition State : text_accessor := text 24.
Definition Class_ : text_accessor := text 25.
Definition SessionTimeout : int_accessor := integer 27 "SessionTimeout" [].
Definition IdleTimeout : int_accessor := integer 28 "IdleTimeout" [].
Definition CalledStationID : text_accessor := text 30.
Definition CallingStationID : text_accessor := text 31.
Definition NASIdentifier : text_accessor := text 32.
Definition AcctStatusType : int_accessor := integer 40 "AcctStatusType"
  [(1, "Start"); (2, "Stop"); (3, "Interim-Update"); (7, "Accounting-On"); (8, "Accounting-Off")].
Definition AcctSessionID : text_accessor := text 44.
Definition AcctAuthentic : int_accessor := integer 45 "AcctAuthentic" [].
Definition AcctSessionTime : int_accessor := integer 46 "AcctSessionTime" [].
Definition AcctTerminateCause : int_accessor := integer 49 "AcctTerminateCause" [].
Definition NASPortType : int_accessor := integer 61 "NASPortType"
  [(0, "Async"); (1, "Sync"); (2, "ISDN"); (6, "Async-ISDN"); (18, "Wireless-Other"); (19, "Wireless-IEEE-802-16")].
Definition ConnectInfo : text_accessor := text 77.
Definition EAPMessage : text_accessor := text 79.
Definition MessageAuthenticator : text_accessor := text 80.
Definition NASIPv6Address : accessor bytes := ipv6_addr 95.
Definition FramedIPv6Prefix : accessor (option IPNet) := ipv6_prefix 97.
Definition FramedIPv6Address : accessor bytes := ipv6_addr 168.
End Attrs.
End Attrs.

(** ** Attributes of a vendor

    A vendor attribute holds a list of type, length and value.  Reading skips attributes
    of other vendors and stops, in one attribute, at a malformed part.  Replacing and
    removing work in place: [mem] is the memory of the slice, [n] its length, and [alias]
    says whether the slice that the library's [VendorSpecific] returns is the attribute's
    own memory.  [None]: the loop has not ended within the fuel. *)
Module ThreeGPP.
Section ThreeGPP.
Context `{Layeh} (alias : bool).
Definition VendorID : Z := 10415.

Definition AddVendor (p : packet) (typ : Z) (attr : bytes) : result dict_error packet :=
  let vendor := typ :: u8 (2 + len attr) :: attr in
  match NewVendorSpecific VendorID vendor with
  | Some vsa => Ok (p_Add p AttrVendorSpecific vsa)
  | None => Err ErrValue
  end.

(** The guards at the start of each of the loops over the attributes. *)
Definition vendor_value (avp : Attribute) : option bytes :=
  if negb (AType avp =? AttrVendorSpecific) then None
  else match VendorSpecific (AValue avp) with
       | Some (vendorID, vsa) => if vendorID =? VendorID then Some vsa else None
       | None => None
       end.

(** Each round takes at least three bytes, so the length is enough fuel. *)
Fixpoint gets_vsa (fuel : nat) (typ : Z) (vsa : bytes) : list bytes :=
  match fuel with
  | O => []
  | S fuel =>
      if len vsa <? 3 then []
      else
        let vsaLen := byte_at vsa 1 in
        if (len vsa <? vsaLen) || (vsaLen <? 3) then []
        else (if byte_at vsa 0 =? typ then [slice 2 vsaLen vsa] else [])
             ++ gets_vsa fuel typ (suffix_from vsaLen vsa)
  end.
Fixpoint GetsVendor (p : packet) (typ : Z) : list bytes :=
  match p with
  | [] => []
  | avp :: p => match vendor_value avp with
                | None => GetsVendor p typ
                | Some vsa => gets_vsa (length vsa) typ vsa ++ GetsVendor p typ
                end
  end.

Fixpoint lookup_vsa (fuel : nat) (typ : Z) (vsa : bytes) : option bytes :=
  match fuel with
  | O => None
  | S fuel =>
      if len vsa <? 3 then None
      else
        let vsaLen := byte_at vsa 1 in
        if (len vsa <? vsaLen) || (vsaLen <? 3) then None
        else if byte_at vsa 0 =? typ then Some (slice 2 vsaLen vsa)
        else lookup_vsa fuel typ (suffix_from vsaLen vsa)
  end.
Fixpoint LookupVendor (p : packet) (typ : Z) : option bytes :=
  match p with
  | [] => None
  | avp :: p => match vendor_value avp with
                | None => LookupVendor p typ
                | Some vsa => match lookup_vsa (length vsa) typ vsa with
                              | Some v => Some v
                              | None => LookupVendor p typ
                              end
                end
  end.

(** The part of [vsaLen] bytes at [j] is cut out of the slice; its memory keeps its size. *)
Definition cut (mem : bytes) (n j vsaLen : Z) : bytes :=
  slice 0 j mem ++ slice (j + vsaLen) n mem ++ suffix_from (n - vsaLen) mem.
(** Go's [copy(dst[i:], src)]. *)
Definition copy_at (i : Z) (src dst : bytes) : bytes :=
  take (length dst) (slice 0 i dst ++ src ++ suffix_from (i + len src) dst).
(** What the packet's attribute [i] holds once its slice has become [mem]. *)
Definition shared (p : packet) (i : nat) (avp : Attribute) (mem : bytes) : packet :=
  if alias then <[i := mkAttr (AType avp) (slice 0 4 (AValue avp) ++ mem)]> p else p.
Definition value_at (p : packet) (i : nat) : bytes := match p !! i with Some a => AValue a | None => [] end.

(** The inner loop of [_ThreeGPP_SetVendor]: the slice and the [i] it leaves. *)
Fixpoint set_vsa (fuel : nat) (typ : Z) (mem : bytes) (n j : Z) (i : nat) : option (result dict_error (bytes * Z * nat)) :=
  match fuel with
  | O => None
  | S fuel =>
      if n <? j then Some Panic
      else if n - j <? 3 then Some (Ok (mem, n, i))
      else
        let vsaTyp := byte_at mem 0 in
        let vsaLen := byte_at mem 1 in
        if (n - j <? vsaLen) || (vsaLen <? 3) then Some (Ok (mem, n, S i))
        else if vsaTyp =? typ then set_vsa fuel typ (cut mem n j vsaLen) (n - vsaLen) (j + vsaLen) i
        else set_vsa fuel typ mem n (j + vsaLen) i
  end.
Fixpoint set_loop (fuel : nat) (typ : Z) (p : packet) (i : nat) : option (result dict_error packet) :=
  match fuel with
  | O => None
  | S fuel =>
      match p !! i with
      | None => Some (Ok p)
      | Some avp =>
          match vendor_value avp with
          | None => set_loop fuel typ p (S i)
          | Some vsa =>
              match set_vsa (S (length vsa)) typ vsa (len vsa) 0 i with
              | None => None
              | Some (Ok (mem, n, i')) =>
                  let p := shared p i avp mem in
                  if 0 <? n then
                    if len (AValue avp) <? 4 then Some Panic
                    else set_loop fuel typ
                           (<[i := mkAttr (AType avp) (copy_at 4 (slice 0 n mem) (value_at p i))]> p) (S i')
                  else if (length p <? i' + i')%nat then Some Panic
                  else set_loop fuel typ (take i' p ++ drop (i' + i') p) i'
              | Some _ => Some Panic
              end
          end
      end
  end.
Definition SetVendor (fuel : nat) (p : packet) (typ : Z) (attr : bytes) : option (result dict_error packet) :=
  match set_loop fuel typ p 0 with
  | Some (Ok p) => Some (AddVendor p typ attr)
  | o => o
  end.

(** The inner loop of [_ThreeGPP_DelVendor]; [None] as offset: [continue vsaLoop]. *)
Fixpoint del_vsa (fuel : nat) (typ : Z) (mem : bytes) (n offset : Z) : option (result dict_error (bytes * option Z)) :=
  match fuel with
  | O => None
  | S fuel =>
      if n <? offset then Some Panic
      else if n - offset <? 3 then Some (Ok (mem, Some offset))
      else
        let vsaLen := byte_at mem (offset + 1) in
        if (n <? vsaLen) || (vsaLen <? 3) then Some (Ok (mem, None))
        else if byte_at mem offset =? typ then
          if n <? offset + vsaLen then Some Panic
          else del_vsa fuel typ (cut mem n offset vsaLen) (n - vsaLen) offset
        else del_vsa fuel typ mem n (offset + vsaLen)
  end.
Fixpoint DelVendor (fuel : nat) (p : packet) (typ : Z) (i : nat) : option (result dict_error packet) :=
  match fuel with
  | O => None
  | S fuel =>
      match p !! i with
      | None => Some (Ok p)
      | Some avp =>
          match vendor_value avp with
          | None => DelVendor fuel p typ (S i)
          | Some vsa =>
              match del_vsa (S (length vsa)) typ vsa (len vsa) 0 with
              | None => None
              | Some (Ok (mem, offset)) =>
                  let p := shared p i avp mem in
                  match offset with
                  | None => DelVendor fuel p typ i
                  | Some offset => if offset =? 0 then DelVendor fuel (take i p ++ drop (S i) p) typ i
                                   else DelVendor fuel p typ (S i)
                  end
              | Some _ => Some Panic
              end
          end
      end
  end.

(** *** The 3GPP-S-NSSAI functions *)
Definition SNSSAI_typ : Z := 200.
Section Value.
Context {V : Type} (enc : V -> option bytes) (dec : bytes -> V) (zero : V).
Definition snssai_Add (p : packet) (value : V) : result dict_error packet :=
  match enc value with Some a => AddVendor p SNSSAI_typ a | None => Err ErrValue end.
Definition snssai_Lookup (p : packet) : result dict_error V :=
  match LookupVendor p SNSSAI_typ with Some a => Ok (dec a) | None => Err ErrNoAttribute end.
Definition snssai_Get (p : packet) : V := match snssai_Lookup p with Ok v => v | _ => zero end.
Definition snssai_Gets (p : packet) : list V := dec <$> GetsVendor p SNSSAI_typ.
Definition snssai_Set (fuel : nat) (p : packet) (value : V) : option (result dict_error packet) :=
  match enc value with Some a => SetVendor fuel p SNSSAI_typ a | None => Some (Err ErrValue) end.
Definition snssai_Del (fuel : nat) (p : packet) : option (result dict_error packet) := DelVendor fuel p SNSSAI_typ 0.
End Value.

(** vendor_3gpp.go *)
Definition AddNSSAIAttribute (pkt : packet) (nssai : NSSAI) : result dict_error packet :=
  snssai_Add NewBytes pkt (NSSAI_Pack nssai).
Fixpoint unpack_all (raw : list bytes) : list NSSAI :=
  match raw with
  | [] => []
  | b :: raw => match NSSAI_Unpack zero_NSSAI b with
                | None => unpack_all raw
                | Some n => n :: unpack_all raw
                end
  end.
Definition GetNSSAIAttributes (pkt : packet) : list NSSAI := unpack_all (snssai_Gets Bytes pkt).
End ThreeGPP.
End ThreeGPP.

(** ** The contract of an accessor *)
Section Contract.
Context `{LayehLaws}.

Lemma stored_app t p q : stored t (p ++ q) = stored t p ++ stored t q.
Proof. unfold stored. by rewrite filter_app, fmap_app. Qed.
Lemma stored_one t t' a : stored t [mkAttr t' a] = if decide (t' = t) then [a] else [].
Proof. unfold stored. rewrite filter_cons, filter_nil. cbn. by case_decide. Qed.
Lemma stored_add t t' a p : stored t (p_Add p t' a) = stored t p ++ (if decide (t' = t) then [a] else []).
Proof. by rewrite law_add, stored_app, stored_one. Qed.
Lemma stored_del t t' p : stored t (p_Del p t') = if decide (t' = t) then [] else stored t p.
Proof.
  rewrite law_del. unfold stored. rewrite list_filter_filter. case_decide as Hd.
  - subst. induction p as [|a p IH]; [done|]. rewrite filter_cons_False; [done|]. tauto.
  - f_equal. apply list_filter_iff. intros a. naive_solver.
Qed.
Lemma stored_set t t' a p : stored t (p_Set p t' a) = if decide (t' = t) then [a] else stored t p.
Proof. rewrite law_set, stored_app, stored_del, stored_one. case_decide; [done|]. by rewrite app_nil_r. Qed.

Lemma decode_all_app {V} (dec : bytes -> option V) l l' vs :
  decode_all dec l = (vs, None) -> decode_all dec (l ++ l') = (vs ++ fst (decode_all dec l'), snd (decode_all dec l')).
Proof.
  revert vs. induction l as [|a l IH]; intros vs; cbn; [intros [= <-]; by destruct (decode_all dec l')|].
  destruct (dec a); [|done]. destruct (decode_all dec l) as [vs' e]. intros [= <- ->]. by rewrite (IH vs' eq_refl).
Qed.

End Contract.

(** ** 3GPP-S-NSSAI *)
Section Vendor.
Context `{LayehLaws}.
Import ThreeGPP.

Definition tlv (typ : Z) (v : bytes) : bytes := typ :: u8 (2 + len v) :: v.
(** A packet without an attribute of the vendor. *)
Definition no_vendor (p : packet) : Prop := Forall (fun a => vendor_value a = None) p.

Lemma GetsVendor_app p q typ : GetsVendor (p ++ q) typ = GetsVendor p typ ++ GetsVendor q typ.
Proof.
  induction p as [|a p IH]; [done|]. cbn. destruct (vendor_value a); rewrite IH; [|done]. by rewrite app_assoc.
Qed.
Lemma GetsVendor_clean p typ : no_vendor p -> GetsVendor p typ = [].
Proof. induction 1 as [|a p Ha _ IH]; [done|]. cbn. by rewrite Ha. Qed.
Lemma lookup_vsa_head fuel typ vsa : lookup_vsa fuel typ vsa = head (gets_vsa fuel typ vsa).
Proof.
  revert vsa. induction fuel as [|fuel IH]; intros vsa; [done|]. cbn. destruct (_ <? 3); [done|].
  destruct (_ || _); [done|]. destruct (_ =? typ); [done|]. apply IH.
Qed.
(** Looking a value up is taking the first of all of them. *)
Lemma LookupVendor_head p typ : LookupVendor p typ = head (GetsVendor p typ).
Proof.
  induction p as [|a p IH]; [done|]. cbn. destruct (vendor_value a) as [vsa|]; [|done].
  rewrite lookup_vsa_head. by destruct (gets_vsa (length vsa) typ vsa).
Qed.

Lemma gets_vsa_tlv typ v : 1 <= len v <= 253 -> gets_vsa (length (tlv typ v)) typ (tlv typ v) = [v].
Proof.
  intros Hv. unfold tlv. rewrite u8_small by zsolve. cbn [length gets_vsa].
  change (byte_at (typ :: 2 + len v :: v) 1) with (2 + len v). change (byte_at (typ :: 2 + len v :: v) 0) with typ.
  replace (len (typ :: 2 + len v :: v)) with (2 + len v) by (unfold len; cbn; lia).
  rewrite (proj2 (Z.ltb_ge _ 3)) by lia. rewrite (proj2 (Z.ltb_ge (2 + len v) (2 + len v))) by lia.
  rewrite Z.eqb_refl. cbn [orb]. unfold slice, suffix_from.
  replace (Z.to_nat (2 + len v)) with (length (typ :: 2 + len v :: v)) by (unfold len; cbn; lia).
  rewrite drop_all. replace (Z.to_nat (2 + len v - 2)) with (length v) by zsolve.
  change (drop (Z.to_nat 2) (typ :: 2 + len v :: v)) with v. rewrite take_ge by done. by destruct v.
Qed.

Lemma vendor_value_made vsa a : NewVendorSpecific VendorID vsa = Some a -> vendor_value (mkAttr AttrVendorSpecific a) = Some vsa.
Proof. intros Ha. unfold vendor_value. cbn. rewrite (law_vendor VendorID vsa a); done. Qed.

(** Adding a value of at most 247 bytes succeeds, with one attribute more. *)
Lemma AddVendor_made p typ v : 1 <= len v <= 247 ->
  exists a, NewVendorSpecific VendorID (tlv typ v) = Some a /\ AddVendor p typ v = Ok (p ++ [mkAttr AttrVendorSpecific a]).
Proof.
  intros Hv. destruct (law_vendor_size VendorID (tlv typ v)) as [a Ha]; [unfold tlv, len in *; cbn; lia|].
  exists a. split; [done|]. unfold AddVendor. fold (tlv typ v). by rewrite Ha, law_add.
Qed.

(** The loops pass over what is not of the vendor. *)
Lemma set_loop_skip alias typ pre p q fuel : no_vendor p ->
  set_loop alias (length p + fuel) typ (pre ++ p ++ q) (length pre)
  = set_loop alias fuel typ (pre ++ p ++ q) (length (pre ++ p)).
Proof.
  intros Hp. revert pre. induction Hp as [|a p Ha Hp IH]; intros pre; [by rewrite app_nil_r|].
  cbn [length Nat.add set_loop app]. rewrite list_lookup_middle, Ha by done.
  specialize (IH (pre ++ [a])). rewrite <- !app_assoc in IH. cbn in IH. rewrite <- IH. f_equal. rewrite length_app. cbn. lia.
Qed.
Lemma DelVendor_skip alias typ pre p q fuel : no_vendor p ->
  DelVendor alias (length p + fuel) (pre ++ p ++ q) typ (length pre)
  = DelVendor alias fuel (pre ++ p ++ q) typ (length (pre ++ p)).
Proof.
  intros Hp. revert pre. induction Hp as [|a p Ha Hp IH]; intros pre; [by rewrite app_nil_r|].
  cbn [length Nat.add DelVendor app]. rewrite list_lookup_middle, Ha by done.
  specialize (IH (pre ++ [a])). rewrite <- !app_assoc in IH. cbn in IH. rewrite <- IH. f_equal. rewrite length_app. cbn. lia.
Qed.

Lemma set_loop_clean alias typ p q fuel : no_vendor p ->
  set_loop alias (length p + fuel) typ (p ++ q) 0 = set_loop alias fuel typ (p ++ q) (length p).
Proof. apply (set_loop_skip alias typ []). Qed.
Lemma DelVendor_clean alias typ p q fuel : no_vendor p ->
  DelVendor alias (length p + fuel) (p ++ q) typ 0 = DelVendor alias fuel (p ++ q) typ (length p).
Proof. apply (DelVendor_skip alias typ []). Qed.
(** Where the loop stays, it is not left with less fuel either. *)
Lemma DelVendor_stays alias typ p q fuel : no_vendor p ->
  (forall f, DelVendor alias f (p ++ q) typ (length p) = None) -> DelVendor alias fuel (p ++ q) typ 0 = None.
Proof.
  intros Hp Hs. change p with ([] ++ p) in Hs |- *. change 0%nat with (length (@nil Attribute)).
  revert Hs. generalize (@nil Attribute). intros pre Hs. rewrite <- app_assoc in *. revert pre fuel Hs.
  induction Hp as [|a p Ha Hp IH]; intros pre fuel Hs; [rewrite app_nil_r in Hs; apply Hs|].
  destruct fuel as [|fuel]; [done|]. cbn [DelVendor app]. rewrite list_lookup_middle, Ha by done.
  specialize (IH (pre ++ [a]) fuel). rewrite <- !app_assoc in IH. cbn [app] in IH.
  rewrite <- IH by done. f_equal. rewrite length_app. cbn. lia.
Qed.

(** One part of the type, alone in its attribute: replacing steps past the end of the
    slice, removing empties it. *)
Lemma set_vsa_tlv typ v i : 1 <= len v <= 247 -> set_vsa (S (length (tlv typ v))) typ (tlv typ v) (len (tlv typ v)) 0 i = Some Panic.
Proof.
  intros Hv. unfold tlv. rewrite u8_small by zsolve. cbn [length set_vsa].
  change (byte_at (typ :: 2 + len v :: v) 1) with (2 + len v). change (byte_at (typ :: 2 + len v :: v) 0) with typ.
  replace (len (typ :: 2 + len v :: v)) with (2 + len v) by (unfold len; cbn; lia).
  rewrite !(proj2 (Z.ltb_ge _ _)) by zsolve. cbn [orb]. rewrite Z.eqb_refl.
  by rewrite (proj2 (Z.ltb_lt _ _)) by zsolve.
Qed.
Lemma del_vsa_tlv typ v : 1 <= len v <= 247 ->
  exists mem, del_vsa (S (length (tlv typ v))) typ (tlv typ v) (len (tlv typ v)) 0 = Some (Ok (mem, Some 0)).
Proof.
  intros Hv. unfold tlv. rewrite u8_small by zsolve. cbn [length del_vsa]. rewrite Z.add_0_l.
  change (byte_at (typ :: 2 + len v :: v) 1) with (2 + len v). change (byte_at (typ :: 2 + len v :: v) 0) with typ.
  replace (len (typ :: 2 + len v :: v)) with (2 + len v) by (unfold len; cbn; lia).
  rewrite !(proj2 (Z.ltb_ge _ _)) by zsolve. cbn [orb]. rewrite Z.eqb_refl.
  replace (2 + len v - (2 + len v)) with 0 by lia. eexists. done.
Qed.

Lemma unpack_all_app l l' : unpack_all (l ++ l') = unpack_all l ++ unpack_all l'.
Proof. induction l as [|b l IH]; [done|]. cbn. destruct (NSSAI_Unpack zero_NSSAI b); by rewrite IH. Qed.

Lemma GetsVendor_made n a : length (N_SD n) = 3%nat ->
  NewVendorSpecific VendorID (tlv SNSSAI_typ (NSSAI_Pack n)) = Some a ->
  GetsVendor [mkAttr AttrVendorSpecific a] SNSSAI_typ = [NSSAI_Pack n].
Proof.
  intros Hn Ha. cbn [GetsVendor]. rewrite (vendor_value_made _ _ Ha), gets_vsa_tlv; [done|].
  unfold NSSAI_Pack, len; cbn; lia.
Qed.

(** The part that [AddNSSAIAttribute] makes of a slice. *)
Lemma AddNSSAIAttribute_made p n : length (N_SD n) = 3%nat ->
  exists a, NewVendorSpecific VendorID (tlv SNSSAI_typ (NSSAI_Pack n)) = Some a
    /\ AddNSSAIAttribute p n = Ok (p ++ [mkAttr AttrVendorSpecific a]).
Proof.
  intros Hn. assert (Hl : len (NSSAI_Pack n) = 4) by (unfold NSSAI_Pack, len; cbn; lia).
  destruct (AddVendor_made p SNSSAI_typ (NSSAI_Pack n)) as (a & Ha & Hadd); [lia|].
  exists a. split; [done|]. unfold AddNSSAIAttribute, snssai_Add. by rewrite law_bytes, Hl.
Qed.

(** The slice of a request survives the packet.  Adding a slice never fails; reading
    gives the slices that were there before and then the new one, whatever else the
    packet holds; and when it is the packet's only attribute of the vendor, removing it
    gives the packet from before. *)
Theorem nssai_attribute_roundtrip alias p n :
  length (N_SD n) = 3%nat ->
  exists p', AddNSSAIAttribute p n = Ok p'
    /\ GetNSSAIAttributes p' = GetNSSAIAttributes p ++ [n]
    /\ (no_vendor p ->
          snssai_Get Bytes [] p' = NSSAI_Pack n
          /\ snssai_Del alias (S (S (length p))) p' = Some (Ok p)).
Proof.
  intros Hn. destruct (AddNSSAIAttribute_made p n Hn) as (a & Ha & Hadd).
  assert (Hl : 1 <= len (NSSAI_Pack n) <= 247) by (unfold NSSAI_Pack, len; cbn; lia).
  apply vendor_value_made in Ha as Hv.
  pose proof (GetsVendor_made n a Hn Ha) as HG.
  eexists. split; [done|]. split.
  - unfold GetNSSAIAttributes, snssai_Gets. rewrite GetsVendor_app, fmap_app, unpack_all_app, HG. f_equal.
    cbn [fmap list_fmap]. rewrite law_bytes_read. cbn [unpack_all]. by rewrite NSSAI_roundtrip.
  - intros Hp. split.
    + unfold snssai_Get, snssai_Lookup. rewrite LookupVendor_head, GetsVendor_app, HG.
      rewrite GetsVendor_clean by done. cbn. by rewrite law_bytes_read.
    + unfold snssai_Del. replace (S (S (length p))) with (length p + 2)%nat by lia.
      rewrite DelVendor_clean by done. cbn [DelVendor].
      rewrite list_lookup_middle, Hv by done. destruct (del_vsa_tlv SNSSAI_typ _ Hl) as [mem ->]. cbn [Z.eqb].
      set (p' := shared _ _ _ _ _). assert (Hs : take (length p) p' ++ drop (S (length p)) p' = p).
      { subst p'. unfold shared. destruct alias; [rewrite insert_app_r_alt, Nat.sub_diag by lia|]; cbn;
          rewrite take_app_length, drop_ge by (rewrite length_app; cbn; lia); apply app_nil_r. }
      rewrite Hs. by rewrite lookup_ge_None_2.
Qed.

(** Replacing the slice works on a packet that has no attribute of the vendor, where
    it is adding; on a packet to which a slice has been added it panics, because the
    index is moved past the part that has just been cut out. *)
Theorem nssai_set_panics alias p n v fuel :
  length (N_SD n) = 3%nat -> no_vendor p -> len v <= 253 ->
  exists p', AddNSSAIAttribute p n = Ok p'
    /\ snssai_Set alias NewBytes (length p + S fuel) p v = Some (snssai_Add NewBytes p v)
    /\ snssai_Set alias NewBytes (length p + S fuel) p' v = Some Panic.
Proof.
  intros Hn Hp Hl. destruct (AddNSSAIAttribute_made p n Hn) as (a & Ha & Hadd).
  eexists. split; [done|]. unfold snssai_Set, snssai_Add, SetVendor. rewrite law_bytes, (proj2 (Z.leb_le _ _)) by done. split.
  - pose proof (set_loop_clean alias SNSSAI_typ p [] (S fuel) Hp) as Hs. rewrite app_nil_r in Hs. rewrite Hs. cbn [set_loop]. by rewrite lookup_ge_None_2.
  - rewrite set_loop_clean by done. cbn [set_loop].
    rewrite list_lookup_middle by done. rewrite (vendor_value_made _ _ Ha). rewrite set_vsa_tlv; [done|].
    unfold NSSAI_Pack, len; cbn; lia.
Qed.

(** Removing does not end on a packet with an attribute of the vendor that starts
    with a part of impossible length: the loop starts again at the same attribute. *)
Theorem nssai_del_diverges alias pre avp post vsa fuel :
  no_vendor pre -> vendor_value avp = Some vsa -> 3 <= len vsa -> byte_at vsa 1 < 3 \/ len vsa < byte_at vsa 1 ->
  snssai_Del alias fuel (pre ++ avp :: post) = None.
Proof.
  intros Hp Hv Hl Hb. assert (Hd : del_vsa (S (length vsa)) SNSSAI_typ vsa (len vsa) 0 = Some (Ok (vsa, None))).
  { cbn [del_vsa]. rewrite Z.add_0_l, !(proj2 (Z.ltb_ge (len vsa) 0)), !(proj2 (Z.ltb_ge (len vsa - 0) 3)) by zsolve.
    destruct Hb as [Hb|Hb]; rewrite (proj2 (Z.ltb_lt _ _) Hb); [by rewrite orb_true_r|done]. }
  assert (Hs : shared alias (pre ++ avp :: post) (length pre) avp vsa = pre ++ avp :: post).
  { unfold shared. destruct alias; [|done]. unfold vendor_value in Hv. destruct (_ =? _); [|done]. cbn in Hv.
    destruct (VendorSpecific (AValue avp)) as [[id w]|] eqn:E; [|done]. destruct (id =? VendorID); [|done]. injection Hv as ->.
    apply law_vendor_layout in E as [_ E]. 
    change (slice 0 4 (AValue avp)) with (take 4 (AValue avp)). rewrite <- E. apply list_insert_id. rewrite list_lookup_middle by done. by destruct avp. }
  apply DelVendor_stays; [done|]. induction f as [|f IH]; [done|].
  cbn [DelVendor]. rewrite list_lookup_middle, Hv, Hd by done. cbn. by rewrite Hs.
Qed.
End Vendor.

(** ** A library with the documented behaviour *)
Definition sized (n : Z) (v : bytes) : option bytes := if len v =? n then Some v else None.
Definition toy_layeh : Layeh := {|
  NewBytes v := if len v <=? 253 then Some v else None; Bytes a := a;
  NewString s := if len (bytes_of_string s) <=? 253 then Some (bytes_of_string s) else None; String_ := string_of_bytes;
  NewInteger n := be32 n; Integer a := match a with [x; y; z; w] => Some (get_be32 x y z w) | _ => None end;
  NewIPAddr := sized 4; IPAddr := sized 4; NewIPv6Addr := sized 16; IPv6Addr := sized 16;
  NewIPv6Prefix n := sized 16 (n_IP n); IPv6Prefix a := Some (mkIPNet a []);
  NewVendorSpecific id v := if (1 <=? len v) && (len v <=? 249) then Some (be32 id ++ v) else None;
  VendorSpecific a := match a with x :: y :: z :: w :: b :: v => Some (get_be32 x y z w, b :: v) | _ => None end;
  p_Add p t a := p ++ [mkAttr t a]; p_Set p t a := filter (fun x => AType x <> t) p ++ [mkAttr t a];
  p_Del p t := filter (fun x => AType x <> t) p; p_Lookup p t := head (stored t p) |}.

Lemma get_put_be32 n : in_u32 n ->
  get_be32 (u8 (u16 (n / 65536) / 256)) (u8 (u16 (n / 65536))) (u8 (u16 n / 256)) (u8 (u16 n)) = n.
Proof. unfold in_u32, get_be32, get_be16, u8, u16. intros. Z.to_euclidean_division_equations. lia. Qed.

Lemma toy_layeh_laws : @LayehLaws toy_layeh.
Proof.
  split; try done; cbn.
  - intros n Hn. by rewrite get_put_be32.
  - intros v a Hl. unfold sized. destruct (len v =? 4) eqn:E; [|done]. intros [= <-]. by rewrite E.
  - intros v a Hl. unfold sized. destruct (len v =? 16) eqn:E; [|done]. intros [= <-]. by rewrite E.
  - intros id [|b v] a Hid; [done|]. destruct (_ && _); [|done]. intros [= <-]. cbn. by rewrite get_put_be32.
  - intros id v [|x [|y [|z [|w [|b l]]]]]; try done. intros [= _ <-]. done.
  - intros id v Hv. rewrite !(proj2 (Z.leb_le _ _)) by lia. done.
Qed.

(** ** layeh/client.go over the dictionary *)
Record AccessResponse : Type := mkResp {
  Code : Z; R_EAPMessage : bytes; R_State : bytes; R_NSSAI : list NSSAI; R_Message : string; _packet : packet }.

Section Client.
Context `{Layeh}.
Import ThreeGPP.

Definition named (f : string) (r : result dict_error packet) : result forward_error packet :=
  map_err (fun _ => ErrAttribute f) r.
(** The packet of [Client.AccessRequest], before its Message-Authenticator is patched. *)
Definition request_packet (req : AccessRequest) : result forward_error packet :=
  let? pkt := named "UserName" (Add (as_string Attrs.UserName) [] (UserName req)) in
  let? pkt := (if is_empty (NASIdentifier req) then Ok pkt
               else named "NASIdentifier" (Add (as_string Attrs.NASIdentifier) pkt (NASIdentifier req))) in
  let? pkt := (if is_empty (CallingStationID req) then Ok pkt
               else named "CallingStationID" (Add (as_string Attrs.CallingStationID) pkt (CallingStationID req))) in
  let? pkt := (if 0 <? len (rState req) then named "State" (Add (as_bytes Attrs.State) pkt (rState req)) else Ok pkt) in
  let? pkt := (if 0 <? len (EAPMessage req)
               then named "EAPMessage" (Add (as_bytes Attrs.EAPMessage) pkt (EAPMessage req)) else Ok pkt) in
  let? pkt := named "AddNSSAIAttribute" (AddNSSAIAttribute pkt (rNSSAI req)) in
  named "MessageAuthenticator" (Add (as_bytes Attrs.MessageAuthenticator) pkt (MessageAuth.zeros 16)).

Definition parseAccessResponse (code : Z) (pkt : packet) : AccessResponse :=
  mkResp code (Get (as_bytes Attrs.EAPMessage) pkt) (Get (as_bytes Attrs.State) pkt) (GetNSSAIAttributes pkt)
    (Get (as_string Attrs.ReplyMessage) pkt) pkt.
End Client.

Section ClientSpec.
Context `{LayehLaws}.
Import ThreeGPP.

(** The attributes of a request, in the order of the code. *)
Definition one (t : Z) (v : bytes) : packet := [mkAttr t v].
Definition when (v : bytes) (t : Z) : packet := match v with [] => [] | _ => one t v end.
Definition plain_attrs (req : AccessRequest) : packet :=
  one 1 (bytes_of_string (UserName req)) ++ when (bytes_of_string (NASIdentifier req)) 32
  ++ when (bytes_of_string (CallingStationID req)) 31 ++ when (rState req) 24 ++ when (EAPMessage req) 79.
Definition fits (v : bytes) : bool := len v <=? 253.
Definition all_fit (req : AccessRequest) : bool :=
  forallb fits [bytes_of_string (UserName req); bytes_of_string (NASIdentifier req);
                bytes_of_string (CallingStationID req); rState req; EAPMessage req].

Lemma text_bytes_Add t p v : Add (as_bytes (text t)) p v = if fits v then Ok (p ++ one t v) else Err ErrValue.
Proof. cbn. unfold attr_Add, fits. rewrite law_bytes. destruct (_ <=? _); [|done]. by rewrite law_add. Qed.
Lemma text_string_Add t p s :
  Add (as_string (text t)) p s = if fits (bytes_of_string s) then Ok (p ++ one t (bytes_of_string s)) else Err ErrValue.
Proof. cbn. unfold attr_Add, fits. rewrite law_string, law_bytes. destruct (_ <=? _); [|done]. by rewrite law_add. Qed.
Lemma string_when s t (p : packet) e :
  (if is_empty s then Ok p else named e (Add (as_string (text t)) p s))
  = if fits (bytes_of_string s) then Ok (p ++ when (bytes_of_string s) t) else Err (ErrAttribute e).
Proof. rewrite text_string_Add. destruct s; [cbn; by rewrite app_nil_r|]. cbn [is_empty]. by destruct (fits _). Qed.
Lemma bytes_when v t (p : packet) e :
  (if 0 <? len v then named e (Add (as_bytes (text t)) p v) else Ok p)
  = if fits v then Ok (p ++ when v t) else Err (ErrAttribute e).
Proof. rewrite text_bytes_Add. destruct v; [cbn; by rewrite app_nil_r|]. cbn [len length Z.of_nat Z.ltb Z.compare]. by destruct (fits _). Qed.

Lemma request_packet_attrs req : length (N_SD (rNSSAI req)) = 3%nat ->
  match request_packet req with
  | Ok p => all_fit req = true
      /\ exists a, NewVendorSpecific VendorID (tlv SNSSAI_typ (NSSAI_Pack (rNSSAI req))) = Some a
        /\ p = plain_attrs req ++ one AttrVendorSpecific a ++ one 80 (MessageAuth.zeros 16)
  | Err _ => all_fit req = false
  | Panic => False
  end.
Proof.
  intros Hn. unfold request_packet, all_fit. cbn [forallb]. rewrite !andb_true_r.
  unfold Attrs.UserName, Attrs.NASIdentifier, Attrs.CallingStationID, Attrs.State, Attrs.EAPMessage, Attrs.MessageAuthenticator.
  rewrite text_string_Add. destruct (fits _); cbn [named map_err rbind andb]; [|done].
  rewrite string_when. destruct (fits _); cbn [rbind andb]; [|done].
  rewrite string_when. destruct (fits _); cbn [rbind andb]; [|done].
  rewrite bytes_when. destruct (fits _); cbn [rbind andb]; [|done].
  rewrite bytes_when. destruct (fits _); cbn [rbind andb]; [|done].
  match goal with |- context [AddNSSAIAttribute ?q _] => destruct (AddNSSAIAttribute_made q _ Hn) as (a & Ha & ->) end.
  cbn [named map_err rbind]. rewrite text_bytes_Add. cbn [fits named map_err].
  split; [done|]. exists a. split; [done|]. unfold plain_attrs. by rewrite <- !app_assoc.
Qed.

(** The first value of a type in a packet made of parts. *)
Definition first (t : Z) (p : packet) : bytes := default [] (head (stored t p)).
Lemma first_skip t p q : stored t p = [] -> first t (p ++ q) = first t q.
Proof. intros Hp. unfold first. by rewrite stored_app, Hp. Qed.
Lemma first_one t v q : first t (one t v ++ q) = v.
Proof. unfold first. rewrite stored_app. unfold one. by rewrite stored_one, decide_True. Qed.
Lemma first_when t v q : stored t q = [] -> first t (when v t ++ q) = v.
Proof. intros Hq. destruct v; [unfold first; cbn; by rewrite Hq|]. apply first_one. Qed.
Lemma stored_when t v t' : t' <> t -> stored t (when v t') = [].
Proof. intros Hne. unfold when, one. destruct v; [done|]. by rewrite stored_one, decide_False. Qed.
Lemma stored_other t v t' : t' <> t -> stored t (one t' v) = [].
Proof. intros Hne. unfold one. by rewrite stored_one, decide_False. Qed.
Lemma text_bytes_Get t p : Get (as_bytes (text t)) p = first t p.
Proof. cbn. unfold attr_Get, attr_Lookup, first. rewrite law_lookup. destruct (head (stored t p)); [|done]. apply law_bytes_read. Qed.
Lemma text_string_Get t p : Get (as_string (text t)) p = string_of_bytes (first t p).
Proof. cbn. unfold attr_Get, attr_Lookup, first. rewrite law_lookup. destruct (head (stored t p)); [|done]. apply law_string_read. Qed.
(** Walks to the part of the packet that holds the type. *)
Ltac pick :=
  repeat (rewrite first_skip by (by apply stored_when || by apply stored_other));
  first [rewrite first_one | rewrite first_when by (rewrite ?stored_app, ?stored_when, ?stored_other by done; done) | idtac].

(** What a server reads in an Access-Request is what the client was given.  The
    packet is made exactly when every field fits an attribute; from the packet, the
    dictionary reads the identity, the NAS, the calling station, the state, the EAP
    message, the one slice and an empty Message-Authenticator. *)
Lemma request_read_back req :
  length (N_SD (rNSSAI req)) = 3%nat ->
  match request_packet req with
  | Ok p =>
      let resp := parseAccessResponse 1 p in
      all_fit req = true
      /\ Get (as_string Attrs.UserName) p = UserName req
      /\ Get (as_string Attrs.NASIdentifier) p = NASIdentifier req
      /\ Get (as_string Attrs.CallingStationID) p = CallingStationID req
      /\ R_State resp = rState req /\ R_EAPMessage resp = EAPMessage req
      /\ R_NSSAI resp = [rNSSAI req] /\ R_Message resp = estr
      /\ Get (as_bytes Attrs.MessageAuthenticator) p = MessageAuth.zeros 16
  | Err _ => all_fit req = false
  | Panic => False
  end.
Proof.
  intros Hn. pose proof (request_packet_attrs req Hn) as Hp. destruct (request_packet req) as [p| |]; [|done|done].
  destruct Hp as (Hfit & a & Ha & ->). cbn zeta. unfold parseAccessResponse. cbn [R_State R_EAPMessage R_NSSAI R_Message].
  unfold Attrs.UserName, Attrs.NASIdentifier, Attrs.CallingStationID, Attrs.State, Attrs.EAPMessage,
    Attrs.MessageAuthenticator, Attrs.ReplyMessage.
  rewrite !text_string_Get, !text_bytes_Get.
  assert (Hc : no_vendor (plain_attrs req)).
  { unfold plain_attrs, when, one, no_vendor. rewrite !Forall_app. split_and!; repeat case_match; by repeat constructor. }
  assert (HN : GetNSSAIAttributes (plain_attrs req ++ one AttrVendorSpecific a ++ one 80 (MessageAuth.zeros 16)) = [rNSSAI req]).
  { unfold GetNSSAIAttributes, snssai_Gets, one. rewrite !GetsVendor_app, (GetsVendor_made _ _ Hn Ha), GetsVendor_clean by done.
    cbn. by rewrite law_bytes_read, NSSAI_roundtrip. }
  split; [done|]. rewrite HN. unfold plain_attrs. rewrite <- !app_assoc.
  split_and!; try done; pick; try done; apply string_bytes_roundtrip.
Qed.
End ClientSpec.

(** ** The client and the forwarder around it *)
Record layeh_Config : Type := mkLC { ServerAddr : string; Secret : bytes; Timeout : Z }.
Record layeh_Client : Type := mkClient { serverAddr : string; secret : bytes; timeout : Z; Retry : Z; InsecureSkipVerify : bool }.
Definition second : Z := 1000000000.

Section Forwarder.
(** [net.ResolveUDPAddr]. *)
Context (ResolveUDPAddr : string -> option string).
Definition NewClient (cfg : layeh_Config) : option layeh_Client :=
  let timeout := if Timeout cfg =? 0 then 5 * second else Timeout cfg in
  match ResolveUDPAddr (ServerAddr cfg) with
  | None => None
  | Some addr => Some (mkClient addr (Secret cfg) timeout (3 * second) true)
  end.

Record ForwarderConfig : Type := mkFC { ServerAddress : string; ServerPort : Z; SharedSecret : string; FTimeout : Z }.
Definition server_addr (cfg : ForwarderConfig) : string :=
  if (0 <? ServerPort cfg) && negb (containsPort (ServerAddress cfg))
  then ServerAddress cfg +:+ ":" +:+ show_uint (ServerPort cfg) else ServerAddress cfg.
(** The client of the forwarder, [None] when it is not configured. *)
Definition newRadiusForwarder (cfg : ForwarderConfig) : option layeh_Client :=
  if is_empty (ServerAddress cfg) then None
  else NewClient (mkLC (server_addr cfg) (bytes_of_string (SharedSecret cfg)) (FTimeout cfg)).
End Forwarder.

(** [Client.SendEAP] of the adapter: the attributes it sends. *)
Definition SendEAP_attrs (gpsi : string) (eapFrags : list bytes) (sst : Z) (sd : string) : list Attribute :=
  [MakeStringAttribute AttrUserName gpsi; MakeIntegerAttribute AttrServiceType ServiceTypeAuthenticateOnly;
   MakeIntegerAttribute AttrNASPortType NASPortTypeVirtual; Make3GPPSNSSAIAttribute sst sd]
  ++ map (MakeAttribute AttrEAPMessage) eapFrags.

Section Path.
Context `{LayehLaws}.
Import ThreeGPP.
(** [Message-Authenticator] patching, encoding, exchange: from the packet to the answer. *)
Context (exchange : packet -> result forward_error bytes).
Definition Client_AccessRequest (req : AccessRequest) : result forward_error bytes :=
  let? pkt := request_packet req in exchange pkt.
Definition adapter_SendEAP (gpsi : string) (eapPayload : bytes) (sst : Z) (sd : string) : result forward_error bytes :=
  match FragmentEAPMessage eapPayload 253 with
  | Ok eapFrags => Client_AccessRequest (to_request (SendEAP_attrs gpsi eapFrags sst sd))
  | _ => Panic
  end.

(** The attribute of the slice, as [RadiusGateway] takes it. *)
Definition vendor_snssai (b : bytes) : option Attribute :=
  match NewBytes b with
  | Some a => mkAttr AttrVendorSpecific <$> NewVendorSpecific VendorID (tlv SNSSAI_typ a)
  | None => None
  end.

Lemma rbind_assoc {E A B C} (r : result E A) (f : A -> result E B) (g : B -> result E C) :
  rbind (rbind r f) g = rbind r (fun a => rbind (f a) g).
Proof. by destruct r. Qed.
Lemma rbind_ext {E A B} (r : result E A) (f g : A -> result E B) : (forall a, f a = g a) -> rbind r f = rbind r g.
Proof. intros Hfg. destruct r; cbn; [apply Hfg|done|done]. Qed.

(** The request that [RadiusGateway] sends is the one the dictionary makes. *)
Lemma AccessRequest_send_dict req : AccessRequest_send NewBytes vendor_snssai exchange req = Client_AccessRequest req.
Proof.
  unfold AccessRequest_send, Client_AccessRequest, request_packet.
  assert (Hb : forall f t v p, named f (Add (as_bytes (text t)) p v) = add NewBytes f t v p).
  { intros. cbn. unfold attr_Add, add. destruct (NewBytes v); cbn; [by rewrite law_add|done]. }
  assert (Hs : forall f t s p, named f (Add (as_string (text t)) p s) = add NewBytes f t (bytes_of_string s) p).
  { intros. cbn. unfold attr_Add, add. rewrite law_string. destruct (NewBytes _); cbn; [by rewrite law_add|done]. }
  assert (Hn : forall p, named "AddNSSAIAttribute" (AddNSSAIAttribute p (rNSSAI req)) =
    match vendor_snssai (NSSAI_Pack (rNSSAI req)) with
    | Some a => Ok (p ++ [a]) | None => Err (ErrAttribute "AddNSSAIAttribute") end).
  { intros. unfold AddNSSAIAttribute, snssai_Add, vendor_snssai. destruct (NewBytes _) as [b|]; [|done].
    unfold AddVendor. fold (tlv SNSSAI_typ b). destruct (NewVendorSpecific _ _); cbn; [by rewrite law_add|done]. }
  unfold Attrs.UserName, Attrs.NASIdentifier, Attrs.CallingStationID, Attrs.State, Attrs.EAPMessage, Attrs.MessageAuthenticator.
  repeat (rewrite rbind_assoc; rewrite ?Hs, ?Hb, ?Hn; apply rbind_ext; intros ?). by rewrite Hb.
Qed.

(** What the server reads in the packet of an EAP message. *)
Definition eap_request_read (p : packet) (gpsi calling : string) (payload : bytes) : Prop :=
  Get (as_string Attrs.UserName) p = gpsi /\ Get (as_string Attrs.CallingStationID) p = calling
  /\ R_EAPMessage (parseAccessResponse 1 p) = payload /\ R_State (parseAccessResponse 1 p) = []
  /\ R_NSSAI (parseAccessResponse 1 p) = [zero_NSSAI].

Lemma eap_request_sent gpsi calling payload :
  calling = gpsi \/ calling = estr ->
  if fits (bytes_of_string gpsi) && fits payload
  then exists p, Client_AccessRequest (mkReq gpsi zero_NSSAI estr calling [] payload) = exchange p
         /\ eap_request_read p gpsi calling payload
  else exists e, Client_AccessRequest (mkReq gpsi zero_NSSAI estr calling [] payload) = Err e.
Proof.
  intros Hc. set (req := mkReq _ _ _ _ _ _).
  pose proof (request_read_back req eq_refl) as Hr. unfold Client_AccessRequest.
  assert (Hf : all_fit req = fits (bytes_of_string gpsi) && fits payload).
  { unfold all_fit, req. cbn [forallb UserName NASIdentifier CallingStationID rState EAPMessage].
    change (fits (bytes_of_string estr)) with true. change (fits []) with true.
    destruct Hc; subst calling; change (fits (bytes_of_string estr)) with true;
      destruct (fits (bytes_of_string gpsi)), (fits payload); done. }
  rewrite <- Hf. destruct (request_packet req) as [p|e|]; [|rewrite Hr; eauto|done].
  destruct Hr as (-> & Hu & _ & Hcs & Hst & He & Hns & _). exists p. done.
Qed.

(** C28: the RADIUS leg, from the forwarder's arguments to what the AAA server reads.  With
    an identity and an EAP message of at most 253 bytes the forwarder hands one packet to
    the exchange and returns its result; in it the dictionary reads the identity, also as
    the calling station, and the EAP message exactly, and the empty slice in place of the
    one that was given.  A longer identity or message is an error and nothing is sent.
    [SendEAP] of the adapter sends the same without the calling station. *)
Theorem radius_leg_read_back payload sst sd gpsi :
  if fits (bytes_of_string gpsi) && fits payload
  then (exists p, Forward NewBytes vendor_snssai exchange true payload sst sd gpsi = exchange p
                  /\ eap_request_read p gpsi gpsi payload)
       /\ (exists p, adapter_SendEAP gpsi payload sst sd = exchange p /\ eap_request_read p gpsi estr payload)
  else (exists e, Forward NewBytes vendor_snssai exchange true payload sst sd gpsi = Err e)
       /\ (exists e, adapter_SendEAP gpsi payload sst sd = Err e).
Proof.
  destruct (forward_request payload sst sd gpsi) as (fs & Hf & Hr).
  assert (Hs : to_request (SendEAP_attrs gpsi fs sst sd) = mkReq gpsi zero_NSSAI estr estr [] payload).
  { pose proof Hr as Hr'. rewrite to_request_forward in Hr'. injection Hr' as <-.
    unfold to_request, SendEAP_attrs. rewrite foldl_app, to_request_eap. simpl. by rewrite string_bytes_roundtrip. }
  unfold Forward, adapter_SendEAP, SendAccessRequest. cbn [negb]. rewrite Hf, Hr, Hs, AccessRequest_send_dict.
  pose proof (eap_request_sent gpsi gpsi payload) as H1. pose proof (eap_request_sent gpsi estr payload) as H2.
  destruct (_ && _); (split; [apply H1|apply H2]); auto.
Qed.
End Path.

(** A configured port ends up in the address, and the client has a timeout. *)
Lemma contains_port_digits ds rest :
  forallb is_digit ds = true -> contains_port_rev (ds ++ chars ":" ++ rest) = true.
Proof.
  induction ds as [|c ds IH]; cbn; [done|]. intros [-> Hd]%andb_prop. destruct (_ =? 58); [done|]. by apply IH.
Qed.
Theorem newRadiusForwarder_client resolve cfg :
  match newRadiusForwarder resolve cfg with
  | Some c => ServerAddress cfg <> estr /\ resolve (server_addr cfg) = Some (serverAddr c)
      /\ (0 < ServerPort cfg -> containsPort (server_addr cfg) = true)
      /\ (0 <= FTimeout cfg -> 0 < timeout c) /\ secret c = bytes_of_string (SharedSecret cfg)
  | None => ServerAddress cfg = estr \/ resolve (server_addr cfg) = None
  end.
Proof.
  unfold newRadiusForwarder, NewClient. cbn [ServerAddr Secret Timeout].
  destruct (ServerAddress cfg) eqn:E; cbn [is_empty]; [by left|]. rewrite <- E. destruct (resolve (server_addr cfg)); [|by right].
  cbn. split_and!; [by rewrite E|done| |unfold second; destruct (_ =? 0) eqn:E0; zsolve|done].
  intros Hp. unfold server_addr. rewrite (proj2 (Z.ltb_lt _ _) Hp). cbn [andb].
  destruct (containsPort (ServerAddress cfg)) eqn:Ec; [done|]. cbn [negb]. unfold containsPort.
  rewrite !chars_app, !rev_app_distr, <- !app_assoc. apply contains_port_digits.
  apply forallb_forall. intros c Hc%in_rev. revert c Hc. apply forallb_forall.
  by apply KeyVault.show_uint_digits.
Qed.

(** ** Fragments of an answer

    RFC 3579 splits an EAP message over several attributes.  [parseAccessResponse] reads
    the first; [AssembleEAPMessage] of the legacy package joins them. *)
Section Fragments.
Context `{LayehLaws}.
Theorem response_eap_first code f fs :
  let p := map (MakeAttribute AttrEAPMessage) (f :: fs) in
  R_EAPMessage (parseAccessResponse code p) = f /\ AssembleEAPMessage p = f ++ concat fs.
Proof.
  cbn zeta. split; [|apply (assemble_fragments (f :: fs))].
  unfold parseAccessResponse, Attrs.EAPMessage. cbn [R_EAPMessage]. rewrite text_bytes_Get. done.
Qed.
End Fragments.

(** ** Examples with the library above *)
#[local] Existing Instances toy_layeh toy_layeh_laws.
Import ThreeGPP.

(** Two parts in one attribute: the second one is not removed, whether or not the slice
    is the attribute's memory, and not replaced. *)
Example del_leaves_second :
  let p := [mkAttr AttrVendorSpecific (be32 VendorID ++ [1; 3; 9; 200; 3; 7])] in
  forall alias, snssai_Del alias 9 p = Some (Ok p) /\ GetsVendor p SNSSAI_typ = [[7]].
Proof. intros p []; split; vm_compute; reflexivity. Qed.

(** The state and the EAP message of a packet with a slice. *)
Definition sample : packet := [mkAttr 24 [9]; mkAttr 79 [1]; mkAttr AttrVendorSpecific (be32 9 ++ [1; 3; 5])].


Lemma nssai_attribute_roundtrip_witness :
  exists p', AddNSSAIAttribute sample (mkNSSAI 1 [0; 0; 7]) = Ok p'
    /\ GetNSSAIAttributes p' = [mkNSSAI 1 [0; 0; 7]] /\ snssai_Del false 5 p' = Some (Ok sample).
Proof.
  destruct (nssai_attribute_roundtrip false sample (mkNSSAI 1 [0; 0; 7]) eq_refl) as (p' & Ha & Hg & Hd).
  exists p'. split; [exact Ha|]. split; [exact Hg|]. apply Hd. repeat constructor.
Defined.

Lemma nssai_set_panics_witness :
  exists p', AddNSSAIAttribute sample (mkNSSAI 1 [0; 0; 7]) = Ok p' /\ snssai_Set true NewBytes 7 p' [2] = Some Panic.
Proof.
  destruct (nssai_set_panics true sample (mkNSSAI 1 [0; 0; 7]) [2] 3) as (p' & Ha & _ & Hp).
  - reflexivity.
  - repeat constructor.
  - vm_compute. discriminate.
  - exists p'. split; [exact Ha|exact Hp].
Defined.

Lemma nssai_del_diverges_witness :
  snssai_Del false 1000 (sample ++ [mkAttr AttrVendorSpecific (be32 VendorID ++ [200; 0; 7])]) = None.
Proof.
  apply (nssai_del_diverges false sample (mkAttr AttrVendorSpecific (be32 VendorID ++ [200; 0; 7])) [] [200; 0; 7] 1000).
  - repeat constructor.
  - vm_compute. reflexivity.
  - vm_compute. discriminate.
  - left. vm_compute. reflexivity.
Defined.

Lemma radius_leg_read_back_witness :
  exists p, Forward NewBytes vendor_snssai (fun _ => Ok [2]) true [2; 1; 0; 5; 1] 1 "000001" "msisdn-123456" = Ok [2]
    /\ eap_request_read p "msisdn-123456" "msisdn-123456" [2; 1; 0; 5; 1].
Proof.
  destruct (radius_leg_read_back (fun _ => Ok [2]) [2; 1; 0; 5; 1] 1 "000001" "msisdn-123456") as [(p & Hf & Hr) _].
  exists p. split; [exact Hf|exact Hr].
Defined.
