(* ===== verification/RadiusListen.v ===== *)
(** * internal/aaa/gateway/radius_handler.go: the UDP listener

    [Listen] reads every datagram into one buffer and hands a slice of it to
    [handlePacket]; for a server-initiated request [handleServerInitiated] starts a
    goroutine that forwards the request, waits for the answer and sends the response.
    The goroutine reads the slice again, and the reply address is a field of the handler,
    so both are shared with the datagrams read in the meantime.  The listener and its
    goroutines are one machine; what a goroutine reads of the buffer in one call is read at
    once.  Whether [Register] accepts a request is part of the event that reads it. *)
From S2P Require Import Prelude Regex Common Types Encoding Radius RadiusGateway.
Import Validator MessageAuth.
Local Open Scope string_scope.
Local Open Scope Z_scope.
Local Open Scope list_scope.

(** A goroutine: the session and message type it has copied, its slice [raw] as a length,
    and how far it is.  [t_raw] and [t_from] say which datagram it was started for; no step
    reads them. *)
Inductive stage : Type := Started | Waiting | Finished.
Record task : Type := mkTask { t_sid : string; t_mt : string; t_n : nat; t_stage : stage; t_raw : bytes; t_from : string }.
Record RadiusHandler : Type := mkHandler {
  l_running : bool; l_buf : bytes; l_replyAddr : option string; l_tasks : list task }.

Inductive event : Type :=
| Done_
| Timeout_
| ReadError
| Datagram (from : string) (data : bytes) (registered : bool)
| Forwards (i : nat)
| Answers (i : nat) (resultCode : Z).
Inductive output : Type := ToBiz (sid mt : string) (raw : bytes) | Reply (addr : string) (pkt : bytes).

Section Listen.
Context (hmac : bytes -> bytes -> bytes) (md5 : bytes -> bytes) (sharedSecret : string) (fuel : nat).

Definition Listen_start : RadiusHandler := mkHandler true (zeros 4096) None [].
(** [ReadFromUDP]: at most 4096 bytes, the rest of the datagram is lost. *)
Definition received (data : bytes) : bytes := take 4096 data.
Definition read_into (buf data : bytes) : bytes := overwrite 0 (received data) buf.
(** What a slice of [n] bytes holds now. *)
Definition raw_of (h : RadiusHandler) (n : nat) : bytes := take n (l_buf h).

(** [handlePacket] with the goroutine it may start. *)
Definition handle_datagram (h : RadiusHandler) (from : string) (data : bytes) (registered : bool) : RadiusHandler :=
  let h := mkHandler (l_running h) (read_into (l_buf h) data) (Some from) (l_tasks h) in
  let n := length (received data) in
  match handlePacket hmac sharedSecret (raw_of h n) with
  | Drop => h
  | Process sid mt =>
      if registered
      then mkHandler (l_running h) (l_buf h) (l_replyAddr h) (l_tasks h ++ [mkTask sid mt n Started (received data) from])
      else h
  end.

Definition set_stage (h : RadiusHandler) (i : nat) (t : task) (s : stage) : RadiusHandler :=
  mkHandler (l_running h) (l_buf h) (l_replyAddr h)
    (<[i := mkTask (t_sid t) (t_mt t) (t_n t) s (t_raw t) (t_from t)]> (l_tasks h)).

Definition step (h : RadiusHandler) (e : event) : RadiusHandler * list output :=
  match e with
  | Done_ => (mkHandler false (l_buf h) (l_replyAddr h) (l_tasks h), [])
  | Timeout_ | ReadError => (h, [])
  | Datagram from data registered => (if l_running h then handle_datagram h from data registered else h, [])
  | Forwards i =>
      match l_tasks h !! i with
      | Some t => match t_stage t with
                  | Started => (set_stage h i t Waiting, [ToBiz (t_sid t) (t_mt t) (raw_of h (t_n t))])
                  | _ => (h, [])
                  end
      | None => (h, [])
      end
  | Answers i resultCode =>
      match l_tasks h !! i with
      | Some t => match t_stage t with
                  | Waiting =>
                      if len (raw_of h (t_n t)) <? 20 then (set_stage h i t Finished, [])
                      else match sendCoAResponse hmac md5 (bytes_of_string sharedSecret) fuel (raw_of h (t_n t)) resultCode,
                                 l_replyAddr h with
                           | Some pkt, Some addr => (set_stage h i t Finished, [Reply addr pkt])
                           | Some _, None => (set_stage h i t Finished, [])
                           | None, _ => (h, [])
                           end
                  | _ => (h, [])
                  end
      | None => (h, [])
      end
  end.
Fixpoint run (h : RadiusHandler) (es : list event) : RadiusHandler * list output :=
  match es with
  | [] => (h, [])
  | e :: es => let '(h, o) := step h e in let '(h, os) := run h es in (h, o ++ os)
  end.

(** ** The invariant *)
Definition datagrams (es : list event) : list (string * bytes) :=
  omap (fun e => match e with Datagram from data _ => Some (from, received data) | _ => None end) es.
(** A goroutine was started for a datagram that [handlePacket] accepted. *)
Definition task_of (ds : list (string * bytes)) (t : task) : Prop :=
  (t_from t, t_raw t) ∈ ds /\ handlePacket hmac sharedSecret (t_raw t) = Process (t_sid t) (t_mt t)
  /\ t_n t = length (t_raw t) /\ (t_n t <= 4096)%nat.
Definition inv (ds : list (string * bytes)) (h : RadiusHandler) : Prop :=
  length (l_buf h) = 4096%nat /\ Forall (task_of ds) (l_tasks h)
  /\ match l_replyAddr h with Some a => a ∈ ds.*1 | None => True end.
Definition output_of (ds : list (string * bytes)) (o : output) : Prop :=
  match o with
  | ToBiz sid mt raw => exists from d, (from, d) ∈ ds /\ handlePacket hmac sharedSecret d = Process sid mt /\ length raw = length d
  | Reply addr _ => addr ∈ ds.*1
  end.

Lemma raw_of_read h from data :
  length (l_buf h) = 4096%nat ->
  raw_of (mkHandler (l_running h) (read_into (l_buf h) data) from (l_tasks h)) (length (received data)) = received data.
Proof.
  intros Hb. unfold raw_of, read_into, overwrite. cbn [l_buf]. change (take (Z.to_nat 0) (l_buf h)) with (@nil Z).
  cbn [app]. by rewrite take_app_length.
Qed.
Lemma read_into_length buf data : length buf = 4096%nat -> length (read_into buf data) = 4096%nat.
Proof.
  intros Hb. unfold read_into. rewrite overwrite_length; [done|lia|]. unfold received, len. rewrite length_take. lia.
Qed.
Lemma task_of_more ds ds' t : task_of ds t -> task_of (ds ++ ds') t.
Proof. intros (Hin & Hrest). split; [set_solver|done]. Qed.
Lemma handle_datagram_inv ds h from data registered :
  inv ds h -> inv (ds ++ [(from, received data)]) (handle_datagram h from data registered).
Proof.
  intros (Hb & Ht & _). assert (Ht' : Forall (task_of (ds ++ [(from, received data)])) (l_tasks h)).
  { eapply Forall_impl; [exact Ht|]. intros t. apply task_of_more. }
  assert (Ha : from ∈ (ds ++ [(from, received data)]).*1) by (rewrite fmap_app; set_solver).
  unfold handle_datagram. rewrite raw_of_read by done.
  destruct (handlePacket _ _ _) eqn:E; [|destruct registered]; (split; [cbn; by apply read_into_length|]); try done.
  split; [|done]. apply Forall_app. split; [done|]. apply Forall_singleton.
  split_and!; [set_solver|done|done|]. cbn. unfold received. rewrite length_take. lia.
Qed.

Lemma set_stage_inv ds h i t s : inv ds h -> l_tasks h !! i = Some t -> inv ds (set_stage h i t s).
Proof.
  intros (Hb & Ht & Ha) Hi. split; [done|]. split; [|done]. cbn. apply Forall_insert; [done|].
  exact (Forall_lookup_1 _ _ _ _ Ht Hi).
Qed.
Lemma raw_of_length ds h t i : inv ds h -> l_tasks h !! i = Some t -> length (raw_of h (t_n t)) = length (t_raw t).
Proof.
  intros (Hb & Ht & _) Hi. destruct (Forall_lookup_1 _ _ _ _ Ht Hi) as (_ & _ & Hn & Hle).
  unfold raw_of. rewrite length_take. lia.
Qed.

Lemma inv_more ds ds' h : inv ds h -> inv (ds ++ ds') h.
Proof.
  intros (Hb & Ht & Ha). split; [done|]. split.
  - eapply Forall_impl; [exact Ht|]. intros t. apply task_of_more.
  - destruct (l_replyAddr h); [|done]. rewrite fmap_app. set_solver.
Qed.

Lemma listen_step_inv ds h e :
  inv ds h -> inv (ds ++ datagrams [e]) (step h e).1 /\ Forall (output_of (ds ++ datagrams [e])) (step h e).2.
Proof.
  intros Hi. destruct e as [| | |from data reg|i|i rc]; cbn.
  1-3: split; [|done]; apply (inv_more ds []); exact Hi.
  - split; [|done]. destruct (l_running h); [by apply handle_datagram_inv|by apply inv_more].
  - rewrite app_nil_r. destruct (l_tasks h !! i) as [t|] eqn:Et; [|done]. destruct (t_stage t); [|done..].
    split; [by apply set_stage_inv|]. apply Forall_singleton. pose proof (raw_of_length ds h t i Hi Et) as Hr.
    destruct Hi as (_ & Ht & _). destruct (Forall_lookup_1 _ _ _ _ Ht Et) as (Hin & Hp & _ & _). by exists (t_from t), (t_raw t).
  - rewrite app_nil_r. destruct (l_tasks h !! i) as [t|] eqn:Et; [|done]. destruct (t_stage t); [done| |done].
    destruct (_ <? 20); [split; [by apply set_stage_inv|done]|]. destruct (sendCoAResponse _ _ _ _ _ _); [|done].
    destruct (l_replyAddr h) as [a|] eqn:Ea; (split; [by apply set_stage_inv|]); [|done]. apply Forall_singleton.
    destruct Hi as (_ & _ & Ha). by rewrite Ea in Ha.
Qed.
Lemma output_of_more ds ds' o : output_of ds o -> output_of (ds ++ ds') o.
Proof.
  destruct o; cbn; [|rewrite fmap_app; set_solver]. intros (from & d & Hin & Hrest). exists from, d. split; [set_solver|done].
Qed.
Lemma run_inv ds h es :
  inv ds h -> inv (ds ++ datagrams es) (run h es).1 /\ Forall (output_of (ds ++ datagrams es)) (run h es).2.
Proof.
  revert ds h. induction es as [|e es IH]; intros ds h Hi; [cbn; by rewrite app_nil_r|].
  destruct (listen_step_inv ds h e Hi) as [Hs Ho]. destruct (IH _ _ Hs) as [Hr Hos]. cbn [run].
  replace (datagrams (e :: es)) with (datagrams [e] ++ datagrams es) by (unfold datagrams; by rewrite <- omap_app).
  rewrite app_assoc. destruct (step h e) as [h' o]. cbn [fst snd] in *. destruct (run h' es) as [h'' os]. cbn [fst snd] in *.
  split; [done|]. apply Forall_app. split; [|done]. eapply Forall_impl; [exact Ho|]. intros x. apply output_of_more.
Qed.

(** Whatever datagrams arrive and however the goroutines are interleaved with them,
    every request that goes to a Biz Pod has the session id and the message type of a
    received datagram that [handlePacket] accepted, so one whose Message-Authenticator
    verifies, and every response goes to the sender of some datagram. *)
Theorem listen_authentic es : Forall (output_of (datagrams es)) (run Listen_start es).2.
Proof. apply (run_inv [] Listen_start es). split; [done|]. split; [constructor|done]. Qed.

(** Without a further datagram, buffer and reply address stay. *)
Lemma quiet_run h es : datagrams es = [] -> l_buf (run h es).1 = l_buf h /\ l_replyAddr (run h es).1 = l_replyAddr h.
Proof.
  revert h. induction es as [|e es IH]; intros h Hd; [done|]. cbn [run].
  assert (He : l_buf (step h e).1 = l_buf h /\ l_replyAddr (step h e).1 = l_replyAddr h /\ datagrams es = []).
  { destruct e; cbn in *; try done; repeat case_match; done. }
  destruct He as (Hb & Ha & Hes). destruct (step h e) as [h' o]. cbn [fst] in *. specialize (IH h' Hes).
  destruct (run h' es). cbn in *. by rewrite <- Hb, <- Ha.
Qed.

(** What a goroutine does next, by its stage. *)
Definition next_event (i : nat) (s : stage) (rc : Z) : event := match s with Started => Forwards i | _ => Answers i rc end.
Definition next_output (t : task) (raw : bytes) (addr : string) (rc : Z) : list output :=
  match t_stage t with
  | Started => [ToBiz (t_sid t) (t_mt t) raw]
  | Waiting => if len raw <? 20 then []
               else match sendCoAResponse hmac md5 (bytes_of_string sharedSecret) fuel raw rc with
                    | Some pkt => [Reply addr pkt] | None => [] end
  | Finished => []
  end.
Lemma next_reads h i t addr rc : l_tasks h !! i = Some t -> l_replyAddr h = Some addr ->
  (step h (next_event i (t_stage t) rc)).2 = next_output t (raw_of h (t_n t)) addr rc.
Proof.
  intros Ht Ha. unfold next_event, next_output. destruct (t_stage t) eqn:Es; cbn; rewrite Ht, Es, ?Ha; try done.
  destruct (_ <? 20); [done|]. by destruct (sendCoAResponse _ _ _ _ _ _).
Qed.

(** C29: a goroutine works on the last datagram that the listener has read, not on its own.
    After any run, let [data] be the last datagram read while the listener runs and [t] any
    goroutine that has not ended.  When [t] was started for this datagram, the request it
    forwards and the response it builds are made of the datagram, and the response goes to
    its sender.  When it was started for an earlier one of at most the same length, what is
    forwarded under the earlier session id, and what the response is made of, are the first
    bytes of the later datagram, whether or not that one was accepted, and the response
    goes to the later one's sender. *)
Theorem goroutine_reads_last es from data registered es' i t rc :
  let h0 := (run Listen_start es).1 in
  let h := (run (step h0 (Datagram from data registered)).1 es').1 in
  l_running h0 = true -> datagrams es' = [] -> l_tasks h !! i = Some t -> (t_n t <= length (received data))%nat ->
  (step h (next_event i (t_stage t) rc)).2 = next_output t (take (t_n t) (received data)) from rc.
Proof.
  cbn zeta. intros Hr Hes Ht Hn. set (h1 := (step _ _).1) in *.
  destruct (quiet_run h1 es' Hes) as [Hb Ha].
  assert (Hi : inv (datagrams es) (run Listen_start es).1).
  { apply (run_inv [] Listen_start es). split; [done|]. split; [constructor|done]. }
  assert (H1 : l_buf h1 = read_into (l_buf (run Listen_start es).1) data /\ l_replyAddr h1 = Some from).
  { subst h1. cbn. rewrite Hr. unfold handle_datagram. destruct (handlePacket _ _ _); [done|]. by destruct registered. }
  destruct H1 as [Hb1 Ha1]. rewrite (next_reads _ _ _ from) by (by rewrite ?Ha). f_equal.
  unfold raw_of. rewrite Hb, Hb1. unfold read_into, overwrite. rewrite take_0. cbn [app]. by rewrite take_app_le.
Qed.
End Listen.

(** ** A forged request *)
Definition signed_coa : bytes :=
  match AddMessageAuthenticator toy_mac signed_packet (bytes_of_string "k") with Ok p => p | _ => [] end.
Definition forged : bytes := [43; 9] ++ repeat 66 60.

(** The listener accepts the signed datagram and drops the forged one, and then forwards
    bytes of the forged one for the session of the signed one and answers to its sender. *)
Lemma goroutine_reads_last_witness :
  handlePacket toy_mac "k" signed_coa = Process "a" "COA" /\ handlePacket toy_mac "k" forged = Drop
  /\ (step toy_mac (fun b => take 16 b) "k" 100
        (run toy_mac (fun b => take 16 b) "k" 100 Listen_start [Datagram "aaa" signed_coa true; Datagram "evil" forged true]).1
        (Forwards 0)).2 = [ToBiz "a" "COA" (take (length signed_coa) forged)].
Proof.
  split; [vm_compute; reflexivity|]. split; [vm_compute; reflexivity|].
  pose proof (goroutine_reads_last toy_mac (fun b => take 16 b) "k" 100 [Datagram "aaa" signed_coa true] "evil" forged true [] 0
    (mkTask "a" "COA" (length signed_coa) Started signed_coa "aaa") 0) as Hg. cbn zeta in Hg.
  apply Hg; vm_compute; try reflexivity. lia.
Defined.
