(* ===== verification/ServiceApi.v ===== *)
(** * The two services over HTTP

    oapi-gen/gen/nssaa/nssaa.gen.go, oapi-gen/gen/aiw/aiw.gen.go, oapi-gen/gen/specs/specs.go
    (types, parameters and routes), internal/api/common/request.go (reading a body),
    internal/api/nssaa/router.go, internal/api/aiw/router.go, and the way the handlers of
    [Handlers] read requests and write responses.  Documents are values of [Json]; parsing
    text is a parameter.  A struct is filled the way [json.Unmarshal] does it, key by key in
    the order of the document, with keys compared up to ASCII case.  The router chi and the
    binding of path parameters are the class [Chi] with their documented behaviour. *)
From S2P Require Import Prelude Regex Common Types Encoding EapSession Storage Json NrfServer UdmServer Middleware Handlers.
Import Problem Validator.
Local Open Scope string_scope.
Local Open Scope Z_scope.
Local Open Scope list_scope.

(** ** json.Unmarshal into structs *)
Definition lower_char (c : char) : char :=
  let n := Ascii.N_of_ascii c in if ((65 <=? n) && (n <=? 90))%N then Ascii.ascii_of_N (n + 32) else c.
Definition lower (s : string) : string := String.string_of_list_ascii (map lower_char (chars s)).

(** A field of the struct: [None] when the value does not fit its type.  Null leaves a
    value as it is and makes a pointer nil. *)
Definition set_string (v : json) (cur : string) : option string :=
  match v with JStr s => Some s | JNull => Some cur | _ => None end.
Definition set_u8 (v : json) (cur : Z) : option Z :=
  match v with JNum n => if (0 <=? n) && (n <=? 255) then Some n else None | JNull => Some cur | _ => None end.
Definition set_pstring (v : json) : option (option string) :=
  match v with JStr s => Some (Some s) | JNull => Some None | _ => None end.
(** A pointer to bytes: base64 text, or an array of numbers. *)
Definition byte_elem (v : json) : option Z := set_u8 v 0.
Definition set_pbytes (v : json) : option (option bytes) :=
  match v with
  | JStr s => Some <$> Base64.DecodeString s
  | JArr vs => Some <$> mapM byte_elem vs
  | JNull => Some None
  | _ => None
  end.

(** The members of an object in order; [set] gets the key in lower case. *)
Fixpoint fill {T} (set : string -> json -> T -> option T) (fs : list (string * json)) (t : T) : option T :=
  match fs with
  | [] => Some t
  | (k, v) :: fs => match set (lower k) v t with Some t => fill set fs t | None => None end
  end.
Definition unmarshal {T} (set : string -> json -> T -> option T) (v : json) (t : T) : option T :=
  match v with JObj fs => fill set fs t | JNull => Some t | _ => None end.

(** ** specs.go *)
Record Snssai : Type := mkSnssai { Sst : Z; Sd : string }.
Definition set_Snssai (k : string) (v : json) (x : Snssai) : option Snssai :=
  if str_eqb k "sst" then (fun n => mkSnssai n (Sd x)) <$> set_u8 v (Sst x)
  else if str_eqb k "sd" then (fun s => mkSnssai (Sst x) s) <$> set_string v (Sd x)
  else Some x.
Definition json_Snssai (x : Snssai) : json := JObj (build [("sst", SInt false (Sst x)); ("sd", SStr true (Sd x))]).
Record ServerAddressingInfo : Type := mkSAI { Ipv4Addresses : list string; Ipv6Addresses : list string; FqdnList : list string }.
Definition AuthStatus_values : list string := ["EAP_SUCCESS"; "EAP_FAILURE"; "PENDING"].

(** Members of pointer type: without [omitempty] a nil pointer is null. *)
Definition jptr (p : option string) : json := match p with Some s => JStr s | None => JNull end.
Definition opt_member (k : string) (p : option json) : list (string * json) :=
  match p with Some v => [(k, v)] | None => [] end.

(** ** nssaa.gen.go: the documents *)
Module N58.
Record SliceAuthInfo : Type := mkInfo {
  AmfInstanceId : option string; EapIdRsp : option string; i_Gpsi : string; ReauthNotifUri : option string;
  RevocNotifUri : option string; i_Snssai : Snssai }.
Definition zero_SliceAuthInfo : SliceAuthInfo := mkInfo None None estr None None (mkSnssai 0 estr).
Definition set_SliceAuthInfo (k : string) (v : json) (x : SliceAuthInfo) : option SliceAuthInfo :=
  let '(mkInfo amf eap gpsi reauth revoc snssai) := x in
  if str_eqb k "amfinstanceid" then (fun p => mkInfo p eap gpsi reauth revoc snssai) <$> set_pstring v
  else if str_eqb k "eapidrsp" then (fun p => mkInfo amf p gpsi reauth revoc snssai) <$> set_pstring v
  else if str_eqb k "gpsi" then (fun s => mkInfo amf eap s reauth revoc snssai) <$> set_string v gpsi
  else if str_eqb k "reauthnotifuri" then (fun p => mkInfo amf eap gpsi p revoc snssai) <$> set_pstring v
  else if str_eqb k "revocnotifuri" then (fun p => mkInfo amf eap gpsi reauth p snssai) <$> set_pstring v
  else if str_eqb k "snssai" then (fun n => mkInfo amf eap gpsi reauth revoc n) <$> unmarshal set_Snssai v snssai
  else Some x.
Definition json_SliceAuthInfo (x : SliceAuthInfo) : json :=
  JObj (opt_member "amfInstanceId" (JStr <$> AmfInstanceId x) ++ [("eapIdRsp", jptr (EapIdRsp x)); ("gpsi", JStr (i_Gpsi x))]
        ++ opt_member "reauthNotifUri" (JStr <$> ReauthNotifUri x) ++ opt_member "revocNotifUri" (JStr <$> RevocNotifUri x)
        ++ [("snssai", json_Snssai (i_Snssai x))]).

Record SliceAuthConfirmationData : Type := mkConf { c_EapMessage : option string; c_Gpsi : string; c_Snssai : Snssai }.
Definition zero_SliceAuthConfirmationData : SliceAuthConfirmationData := mkConf None estr (mkSnssai 0 estr).
Definition set_SliceAuthConfirmationData (k : string) (v : json) (x : SliceAuthConfirmationData) : option SliceAuthConfirmationData :=
  let '(mkConf eap gpsi snssai) := x in
  if str_eqb k "eapmessage" then (fun p => mkConf p gpsi snssai) <$> set_pstring v
  else if str_eqb k "gpsi" then (fun s => mkConf eap s snssai) <$> set_string v gpsi
  else if str_eqb k "snssai" then (fun n => mkConf eap gpsi n) <$> unmarshal set_Snssai v snssai
  else Some x.
Definition json_SliceAuthConfirmationData (x : SliceAuthConfirmationData) : json :=
  JObj [("eapMessage", jptr (c_EapMessage x)); ("gpsi", JStr (c_Gpsi x)); ("snssai", json_Snssai (c_Snssai x))].

Record SliceAuthContext : Type := mkCtx { AuthCtxId : string; x_EapMessage : option string; x_Gpsi : string; x_Snssai : Snssai }.
Definition set_SliceAuthContext (k : string) (v : json) (x : SliceAuthContext) : option SliceAuthContext :=
  let '(mkCtx id eap gpsi snssai) := x in
  if str_eqb k "authctxid" then (fun s => mkCtx s eap gpsi snssai) <$> set_string v id
  else if str_eqb k "eapmessage" then (fun p => mkCtx id p gpsi snssai) <$> set_pstring v
  else if str_eqb k "gpsi" then (fun s => mkCtx id eap s snssai) <$> set_string v gpsi
  else if str_eqb k "snssai" then (fun n => mkCtx id eap gpsi n) <$> unmarshal set_Snssai v snssai
  else Some x.
Definition json_SliceAuthContext (x : SliceAuthContext) : json :=
  JObj [("authCtxId", JStr (AuthCtxId x)); ("eapMessage", jptr (x_EapMessage x)); ("gpsi", JStr (x_Gpsi x));
        ("snssai", json_Snssai (x_Snssai x))].

Record SliceAuthConfirmationResponse : Type := mkRsp {
  AuthResult : option string; r_EapMessage : option string; r_Gpsi : string; r_Snssai : Snssai }.
Definition set_SliceAuthConfirmationResponse (k : string) (v : json) (x : SliceAuthConfirmationResponse)
  : option SliceAuthConfirmationResponse :=
  let '(mkRsp res eap gpsi snssai) := x in
  if str_eqb k "authresult" then (fun p => mkRsp p eap gpsi snssai) <$> set_pstring v
  else if str_eqb k "eapmessage" then (fun p => mkRsp res p gpsi snssai) <$> set_pstring v
  else if str_eqb k "gpsi" then (fun s => mkRsp res eap s snssai) <$> set_string v gpsi
  else if str_eqb k "snssai" then (fun n => mkRsp res eap gpsi n) <$> unmarshal set_Snssai v snssai
  else Some x.
Definition json_SliceAuthConfirmationResponse (x : SliceAuthConfirmationResponse) : json :=
  JObj (opt_member "authResult" (JStr <$> AuthResult x)
        ++ [("eapMessage", jptr (r_EapMessage x)); ("gpsi", JStr (r_Gpsi x)); ("snssai", json_Snssai (r_Snssai x))]).

(** Notifications of both kinds have the same fields. *)
Record SliceAuthNotification : Type := mkNotif { t_Gpsi : string; NotifType : string; t_Snssai : Snssai; t_Supi : option string }.
Definition NotificationType_Valid (e : string) : bool := str_eqb e "SLICE_RE_AUTH" || str_eqb e "SLICE_REVOCATION".
Definition set_SliceAuthNotification (k : string) (v : json) (x : SliceAuthNotification) : option SliceAuthNotification :=
  let '(mkNotif gpsi typ snssai supi) := x in
  if str_eqb k "gpsi" then (fun s => mkNotif s typ snssai supi) <$> set_string v gpsi
  else if str_eqb k "notiftype" then (fun s => mkNotif gpsi s snssai supi) <$> set_string v typ
  else if str_eqb k "snssai" then (fun n => mkNotif gpsi typ n supi) <$> unmarshal set_Snssai v snssai
  else if str_eqb k "supi" then (fun p => mkNotif gpsi typ snssai p) <$> set_pstring v
  else Some x.
Definition json_SliceAuthNotification (x : SliceAuthNotification) : json :=
  JObj ([("gpsi", JStr (t_Gpsi x)); ("notifType", JStr (NotifType x)); ("snssai", json_Snssai (t_Snssai x))]
        ++ opt_member "supi" (JStr <$> t_Supi x)).

(** *** What is written is read back *)
Ltac read_back Hr p :=
  destruct p; lazy -[unmarshal json_Snssai set_Snssai]; lazy -[unmarshal json_Snssai set_Snssai] in Hr; rewrite Hr; done.
Lemma api_snssai_roundtrip x : in_u8 (Sst x) -> unmarshal set_Snssai (json_Snssai x) (mkSnssai 0 estr) = Some x.
Proof.
  destruct x as [sst sd]. cbn [Sst]. intros Hs. unfold json_Snssai. rewrite !build_cons. cbn [seg_value andb Sst Sd].
  assert (Hu : set_u8 (JNum sst) 0 = Some sst) by (unfold set_u8; rewrite !(proj2 (Z.leb_le _ _)) by zsolve; done).
  destruct sd as [|c sd]; lazy -[set_u8]; rewrite Hu; done.
Qed.
Lemma slice_info_roundtrip x : in_u8 (Sst (i_Snssai x)) ->
  unmarshal set_SliceAuthInfo (json_SliceAuthInfo x) zero_SliceAuthInfo = Some x.
Proof.
  destruct x as [amf eap gpsi reauth revoc snssai]. cbn [i_Snssai]. intros Hs. unfold json_SliceAuthInfo, zero_SliceAuthInfo. cbn [unmarshal].
  pose proof (api_snssai_roundtrip snssai Hs) as Hr.
  destruct amf, eap, reauth; read_back Hr revoc.
Qed.
Lemma conf_roundtrip x : in_u8 (Sst (c_Snssai x)) ->
  unmarshal set_SliceAuthConfirmationData (json_SliceAuthConfirmationData x) zero_SliceAuthConfirmationData = Some x.
Proof.
  destruct x as [eap gpsi snssai]. cbn [c_Snssai]. intros Hs. unfold json_SliceAuthConfirmationData, zero_SliceAuthConfirmationData. cbn [unmarshal].
  pose proof (api_snssai_roundtrip snssai Hs) as Hr. read_back Hr eap.
Qed.
Lemma context_roundtrip x : in_u8 (Sst (x_Snssai x)) ->
  unmarshal set_SliceAuthContext (json_SliceAuthContext x) (mkCtx estr None estr (mkSnssai 0 estr)) = Some x.
Proof.
  destruct x as [id eap gpsi snssai]. cbn [x_Snssai]. intros Hs. unfold json_SliceAuthContext. cbn [unmarshal].
  pose proof (api_snssai_roundtrip snssai Hs) as Hr. read_back Hr eap.
Qed.
Lemma response_roundtrip x : in_u8 (Sst (r_Snssai x)) ->
  unmarshal set_SliceAuthConfirmationResponse (json_SliceAuthConfirmationResponse x) (mkRsp None None estr (mkSnssai 0 estr)) = Some x.
Proof.
  destruct x as [res eap gpsi snssai]. cbn [r_Snssai]. intros Hs. unfold json_SliceAuthConfirmationResponse. cbn [unmarshal].
  pose proof (api_snssai_roundtrip snssai Hs) as Hr. destruct res; read_back Hr eap.
Qed.
Lemma notification_roundtrip x : in_u8 (Sst (t_Snssai x)) ->
  unmarshal set_SliceAuthNotification (json_SliceAuthNotification x) (mkNotif estr estr (mkSnssai 0 estr) None) = Some x.
Proof.
  destruct x as [gpsi typ snssai supi]. cbn [t_Snssai]. intros Hs. unfold json_SliceAuthNotification. cbn [unmarshal].
  pose proof (api_snssai_roundtrip snssai Hs) as Hr. read_back Hr supi.
Qed.
End N58.

(** ** aiw.gen.go: the documents *)
Module N60.
Record AuthInfo : Type := mkInfo {
  EapIdRsp : option bytes; i_Supi : string; i_SupportedFeatures : option string; TtlsInnerMethodContainer : option bytes }.
Definition zero_AuthInfo : AuthInfo := mkInfo None estr None None.
Definition set_AuthInfo (k : string) (v : json) (x : AuthInfo) : option AuthInfo :=
  let '(mkInfo eap supi feat ttls) := x in
  if str_eqb k "eapidrsp" then (fun p => mkInfo p supi feat ttls) <$> set_pbytes v
  else if str_eqb k "supi" then (fun s => mkInfo eap s feat ttls) <$> set_string v supi
  else if str_eqb k "supportedfeatures" then (fun p => mkInfo eap supi p ttls) <$> set_pstring v
  else if str_eqb k "ttlsinnermethodcontainer" then (fun p => mkInfo eap supi feat p) <$> set_pbytes v
  else Some x.
Definition jbytes (b : bytes) : json := JStr (Base64.EncodeToString b).
Definition json_AuthInfo (x : AuthInfo) : json :=
  JObj (opt_member "eapIdRsp" (jbytes <$> EapIdRsp x) ++ [("supi", JStr (i_Supi x))]
        ++ opt_member "supportedFeatures" (JStr <$> i_SupportedFeatures x)
        ++ opt_member "ttlsInnerMethodContainer" (jbytes <$> TtlsInnerMethodContainer x)).

Record AuthConfirmationData : Type := mkConf { c_EapMessage : option bytes; c_Supi : string; c_SupportedFeatures : option string }.
Definition zero_AuthConfirmationData : AuthConfirmationData := mkConf None estr None.
Definition set_AuthConfirmationData (k : string) (v : json) (x : AuthConfirmationData) : option AuthConfirmationData :=
  let '(mkConf eap supi feat) := x in
  if str_eqb k "eapmessage" then (fun p => mkConf p supi feat) <$> set_pbytes v
  else if str_eqb k "supi" then (fun s => mkConf eap s feat) <$> set_string v supi
  else if str_eqb k "supportedfeatures" then (fun p => mkConf eap supi p) <$> set_pstring v
  else Some x.
Definition json_AuthConfirmationData (x : AuthConfirmationData) : json :=
  JObj ([("eapMessage", match c_EapMessage x with Some b => jbytes b | None => JNull end); ("supi", JStr (c_Supi x))]
        ++ opt_member "supportedFeatures" (JStr <$> c_SupportedFeatures x)).

Record AuthContext : Type := mkCtx {
  AuthCtxId : string; x_EapMessage : option bytes; x_Supi : string; x_SupportedFeatures : option string; x_Ttls : option bytes }.
Definition json_AuthContext (x : AuthContext) : json :=
  JObj ([("authCtxId", JStr (AuthCtxId x))] ++ opt_member "eapMessage" (jbytes <$> x_EapMessage x) ++ [("supi", JStr (x_Supi x))]
        ++ opt_member "supportedFeatures" (JStr <$> x_SupportedFeatures x)
        ++ opt_member "ttlsInnerMethodContainer" (jbytes <$> x_Ttls x)).

Definition json_ServerAddressingInfo (x : ServerAddressingInfo) : json :=
  JObj (build [("ipv4Addresses", SArr true (JStr <$> Ipv4Addresses x)); ("ipv6Addresses", SArr true (JStr <$> Ipv6Addresses x));
               ("fqdnList", SArr true (JStr <$> FqdnList x))]).
Record AuthConfirmationResponse : Type := mkRsp {
  AuthResult : option string; r_EapMessage : option bytes; Msk : option string; PvsInfo : option (list ServerAddressingInfo);
  r_Supi : string; r_SupportedFeatures : option string }.
Definition json_AuthConfirmationResponse (x : AuthConfirmationResponse) : json :=
  JObj (opt_member "authResult" (JStr <$> AuthResult x)
        ++ [("eapMessage", match r_EapMessage x with Some b => jbytes b | None => JNull end)]
        ++ opt_member "msk" (JStr <$> Msk x)
        ++ opt_member "pvsInfo" ((fun l => JArr (json_ServerAddressingInfo <$> l)) <$> PvsInfo x)
        ++ [("supi", JStr (r_Supi x))] ++ opt_member "supportedFeatures" (JStr <$> r_SupportedFeatures x)).

Definition pbytes_ok (p : option bytes) : Prop := match p with Some b => bytes_ok b | None => True end.
Lemma set_pbytes_read b : bytes_ok b -> set_pbytes (jbytes b) = Some (Some b).
Proof. intros Hb. cbn [set_pbytes jbytes]. by rewrite Base64.decode_encode. Qed.
Lemma auth_info_roundtrip x : pbytes_ok (EapIdRsp x) -> pbytes_ok (TtlsInnerMethodContainer x) ->
  unmarshal set_AuthInfo (json_AuthInfo x) zero_AuthInfo = Some x.
Proof.
  destruct x as [eap supi feat ttls]. cbn [EapIdRsp TtlsInnerMethodContainer]. intros He Ht.
  unfold json_AuthInfo, zero_AuthInfo. cbn [unmarshal].
  destruct eap, feat, ttls; cbn [pbytes_ok] in *; lazy -[set_pbytes jbytes]; by rewrite ?set_pbytes_read.
Qed.
Lemma auth_conf_roundtrip x : pbytes_ok (c_EapMessage x) ->
  unmarshal set_AuthConfirmationData (json_AuthConfirmationData x) zero_AuthConfirmationData = Some x.
Proof.
  destruct x as [eap supi feat]. cbn [c_EapMessage]. intros He. unfold json_AuthConfirmationData, zero_AuthConfirmationData.
  cbn [unmarshal]. destruct eap, feat; cbn [pbytes_ok] in *; lazy -[set_pbytes jbytes]; by rewrite ?set_pbytes_read.
Qed.
End N60.

(** ** Reading a body: request.go, and the decoder of the AIW handler *)
Section Body.
(** [json.Unmarshal] and [json.Decoder] on text: the value, or the error's text; the
    decoder reads the first value and leaves the rest. *)
Context (Unmarshal Decode : bytes -> json + string) (type_error : json -> string).

(** Body and present keys. *)
Definition ReadRequestBody {T} (set : string -> json -> T -> option T) (zero : T) (b : bytes) : result string (T * (string -> bool)) :=
  match Unmarshal b with
  | inr e => Err e
  | inl raw =>
      match fields raw with
      | None => Err (type_error raw)
      | Some fs =>
          match unmarshal set raw zero with
          | None => Err (type_error raw)
          | Some body => Ok (body, fun k => bool_decide (k ∈ fs.*1))
          end
      end
  end.
Definition DecodeBody {T} (set : string -> json -> T -> option T) (zero : T) (b : bytes) : result string T :=
  match Decode b with
  | inr e => Err e
  | inl v => match unmarshal set v zero with None => Err (type_error v) | Some body => Ok body end
  end.
End Body.

(** ** The router *)
Inductive routed : Type := Matched (route : nat) (params : list (string * string)) | RouteNotFound | RouteMethodNotAllowed.

(** A registered pattern: text, or text and a last segment in braces.  Text matches
    itself; the segment matches one segment that is not empty. *)
Inductive pattern : Type := Text (p : string) | Param (p name : string).
Inductive matches : pattern -> string -> list (string * string) -> Prop :=
| m_text p : matches (Text p) p []
| m_param p name v : v <> estr -> no_slash v = true -> matches (Param p name) (p +:+ "/" +:+ v) [(name, v)].

Class Chi : Type := {
  Route : list (string * pattern) -> string -> string -> routed;
  (** [runtime.BindStyledParameterWithOptions] of a required string in the path. *)
  BindParameter : string -> option string;
  not_found : state -> state;
  method_not_allowed : state -> state }.
(** What the packages document: a request goes to the route whose method and pattern
    match, when there is one such route; without a pattern that matches it is not found,
    and when only methods differ it is not allowed.  A parameter without a character that
    would be escaped is bound as it is. *)
Definition unreserved (c : char) : bool :=
  let n := Ascii.N_of_ascii c in
  ((48 <=? n) && (n <=? 57) || (65 <=? n) && (n <=? 90) || (97 <=? n) && (n <=? 122) || (n =? 45) || (n =? 95))%N.
Class ChiLaws `{Chi} : Prop := {
  route_match rs m path i pat ps :
    rs !! i = Some (m, pat) -> matches pat path ps ->
    (forall j m' pat' ps', rs !! j = Some (m', pat') -> matches pat' path ps' -> j = i) -> Route rs m path = Matched i ps;
  route_miss rs m path : (forall j m' pat ps, rs !! j = Some (m', pat) -> ~ matches pat path ps) -> Route rs m path = RouteNotFound;
  route_method rs m path j m' pat ps :
    rs !! j = Some (m', pat) -> matches pat path ps ->
    (forall i pat' ps', rs !! i = Some (m, pat') -> ~ matches pat' path ps') -> Route rs m path = RouteMethodNotAllowed;
  bind_plain v : v <> estr -> forallb unreserved (chars v) = true -> BindParameter v = Some v }.

(** What the generated wrapper answers itself. *)
Inductive answer (R : Type) : Type := Served (r : R) | Panicked | NotFound_ | NotAllowed_ | BadParameter.
Arguments Served {R} r. Arguments Panicked {R}. Arguments NotFound_ {R}. Arguments NotAllowed_ {R}. Arguments BadParameter {R}.

Fixpoint URLParam (ps : list (string * string)) (k : string) : string :=
  match ps with [] => estr | (k', v) :: ps => if str_eqb k' k then v else URLParam ps k end.
Definition reply {R} (o : option R) : answer R := match o with Some r => Served r | None => Panicked end.

(** The two routes of a service never match the same path. *)
Section Routing.
Context `{ChiLaws} (c : string).
Abbreviation routes := [("POST", Text c); ("PUT", Param c "authCtxId")].
Lemma collection_not_item v : v <> estr -> c <> c +:+ "/" +:+ v.
Proof.
  intros Hv Hc%(f_equal (fun s => length (chars s))). rewrite !chars_app, !length_app in Hc. cbn in Hc. lia.
Qed.
Lemma route_post : Route routes "POST" c = Matched 0 [].
Proof.
  apply (route_match _ _ _ 0%nat (Text c)); [done|constructor|]. intros [|[|j]] m' pat' ps' Hj; [done| |done].
  injection Hj as <- <-. inversion 1 as [|p name v Hv Hs]; subst. by destruct (collection_not_item v).
Qed.
Lemma route_put id : id <> estr -> no_slash id = true -> Route routes "PUT" (c +:+ "/" +:+ id) = Matched 1 [("authCtxId", id)].
Proof.
  intros Hi Hs. apply (route_match _ _ _ 1%nat (Param c "authCtxId")); [done|by constructor|]. intros [|[|j]] m' pat' ps' Hj; [|done|done].
  injection Hj as <- <-. inversion 1 as [p Hp|]. by destruct (collection_not_item id).
Qed.
Lemma item_dec path :
  (exists id, path = c +:+ "/" +:+ id /\ id <> estr /\ no_slash id = true)
  \/ forall id, id <> estr -> no_slash id = true -> path <> c +:+ "/" +:+ id.
Proof.
  set (id := String.string_of_list_ascii (drop (length (chars c ++ chars "/")) (chars path))).
  assert (Hu : forall id', path = c +:+ "/" +:+ id' -> id' = id).
  { intros id' ->. unfold id. rewrite !chars_app, app_assoc, drop_app_length. apply chars_inj. by rewrite chars_of_list. }
  destruct (decide (path = c +:+ "/" +:+ id)) as [Hp|Hp]; [|right; intros id' _ _ Hp'; apply Hp; by rewrite <- (Hu _ Hp')].
  destruct (decide (id = estr)) as [He|He]; [right; intros id' He' _ Hp'; by rewrite (Hu _ Hp') in He'|].
  destruct (no_slash id) eqn:Hs; [left; by exists id|]. right. intros id' _ Hs' Hp'. by rewrite (Hu _ Hp'), Hs in Hs'.
Qed.
(** Every other path is not found, every other method not allowed. *)
Lemma route_other m path :
  match Route routes m path with
  | Matched 0 ps => m = "POST" /\ path = c /\ ps = []
  | Matched i ps => exists id, i = 1%nat /\ m = "PUT" /\ path = c +:+ "/" +:+ id /\ id <> estr /\ no_slash id = true /\ ps = [("authCtxId", id)]
  | RouteNotFound => path <> c /\ forall id, id <> estr -> no_slash id = true -> path <> c +:+ "/" +:+ id
  | RouteMethodNotAllowed => (path = c /\ m <> "POST") \/ (m <> "PUT" /\ exists id, path = c +:+ "/" +:+ id /\ id <> estr /\ no_slash id = true)
  end.
Proof.
  destruct (decide (path = c)) as [->|Hc].
  - destruct (decide (m = "POST")) as [->|Hm]; [by rewrite route_post|].
    rewrite (route_method routes m c 0 "POST" (Text c) []); [by left|done|constructor|].
    intros [|[|i]] pat' ps' Hi; [by injection Hi as <- <-| |done]. injection Hi as <- <-.
    inversion 1 as [|p name v Hv Hs]; subst. by destruct (collection_not_item v).
  - destruct (item_dec path) as [(id & -> & Hi & Hs)|Hno].
    + destruct (decide (m = "PUT")) as [->|Hm]; [rewrite route_put by done; by exists id|].
      rewrite (route_method routes m _ 1 "PUT" (Param c "authCtxId") [("authCtxId", id)]); [right; eauto|done|by constructor|].
      intros [|[|i]] pat' ps' He; [|by injection He as <- <-|done]. injection He as <- <-. by inversion 1.
    + rewrite route_miss; [done|]. intros [|[|j]] m' pat ps Hj; [| |done]; injection Hj as <- <-; inversion 1; subst; [done|].
      by eapply Hno.
Qed.
End Routing.

(** ** nssaa.gen.go and router.go: the N58 service *)
Definition nssaa_base : string := "/nnssaaf-nssaa/v1".
Definition nssaa_routes (base : string) : list (string * pattern) :=
  [("POST", Text (base +:+ "/slice-authentications")); ("PUT", Param (base +:+ "/slice-authentications") "authCtxId")].

Section N58Service.
Context `{Chi} (Unmarshal : bytes -> json + string) (type_error : json -> string).
Context {S : Type} `{!Repo S NssaaSession, !LawfulRepo S NssaaSession}.
Context (aaa : option aaa_router) (apiRoot : string) (amfRateLimiter rateLimiter : option limiter).

(** The generated documents as the handlers use them. *)
Definition of_info (x : N58.SliceAuthInfo) : Nssaa.SliceAuthInfo :=
  Nssaa.mkInfo (N58.i_Gpsi x) (Sst (N58.i_Snssai x)) (Sd (N58.i_Snssai x)) (N58.EapIdRsp x) (N58.AmfInstanceId x)
    (N58.ReauthNotifUri x) (N58.RevocNotifUri x).
Definition of_conf (x : N58.SliceAuthConfirmationData) : Nssaa.SliceAuthConfirmationData :=
  Nssaa.mkConf (N58.c_Gpsi x) (Sst (N58.c_Snssai x)) (Sd (N58.c_Snssai x)) (N58.c_EapMessage x).

Definition post_nssaa (now : Z) (uuid : string) (b : bytes) (s : S) : S * list (Session * bytes) * answer Nssaa.response :=
  let '(s, out, resp) := Nssaa.CreateSliceAuthenticationContext aaa apiRoot amfRateLimiter now uuid
    (rmap (fun '(x, present) => (of_info x, present "snssai"))
       (ReadRequestBody Unmarshal type_error N58.set_SliceAuthInfo N58.zero_SliceAuthInfo b)) s in
  (s, out, reply resp).
Definition put_nssaa (now : Z) (params : list (string * string)) (b : bytes) (s : S)
  : S * list (Session * bytes) * answer Nssaa.response :=
  match BindParameter (URLParam params "authCtxId") with
  | None => (s, [], BadParameter)
  | Some authCtxId =>
      let '(s, out, resp) := Nssaa.ConfirmSliceAuthentication aaa rateLimiter now authCtxId
        (rmap (fun '(x, present) => (of_conf x, present "snssai"))
           (ReadRequestBody Unmarshal type_error N58.set_SliceAuthConfirmationData N58.zero_SliceAuthConfirmationData b)) s in
      (s, out, reply resp)
  end.
Definition serve_nssaa (now : Z) (uuid : string) (r : request) (s : S) : S * list (Session * bytes) * answer Nssaa.response :=
  match Route (nssaa_routes nssaa_base) (Method r) (Path r) with
  | Matched 0 _ => post_nssaa now uuid (Body r) s
  | Matched _ params => put_nssaa now params (Body r) s
  | RouteNotFound => (s, [], NotFound_)
  | RouteMethodNotAllowed => (s, [], NotAllowed_)
  end.

(** An identifier whose characters need no escaping, such as [uuid.NewString] makes. *)
Definition plain (id : string) : Prop := id <> estr /\ forallb unreserved (chars id) = true.
Lemma plain_no_slash id : plain id -> no_slash id = true.
Proof.
  intros [_ Hp]. unfold no_slash. rewrite forallb_forall in *. intros c Hc. specialize (Hp c Hc).
  revert Hp. clear. destruct c as [[] [] [] [] [] [] [] []]; done.
Qed.
Lemma plain_valid id : plain id -> ValidateAuthCtxID id = Ok tt.
Proof.
  intros [Hne Hp]. unfold ValidateAuthCtxID.
  assert (Hb : Forall (fun b => 45 <= b < 127) (bytes_of_string id)).
  { unfold bytes_of_string. apply Forall_map, Forall_forall. intros c Hc%list_elem_of_In. rewrite forallb_forall in Hp.
    specialize (Hp c Hc). revert Hp. clear. cbn. destruct c as [[] [] [] [] [] [] [] []]; vm_compute; intros; try done; split; congruence. }
  assert (Hn : bytes_of_string id <> []) by (by destruct id).
  destruct (bytes_of_string id) as [|a t]; [done|]. apply Forall_cons in Hb as [Ha Ht].
  assert (Hs : all_space (a :: t) = false).
  { cbn [all_space]. destruct (_ || _) eqn:E; [apply orb_true_iff in E as [E|E]; zbool; lia|].
    destruct t as [|b [|c t]]; [done| |]; repeat (destruct (_ =? _) eqn:?; zbool; try lia; cbn [andb orb]); done. }
  rewrite Hs. destruct (existsb is_control (a :: t)) eqn:E; [|done]. apply existsb_exists in E as (b & Hb & Hc).
  assert (45 <= b < 127). { apply list_elem_of_In in Hb. apply elem_of_cons in Hb as [->|Hb]; [lia|]. rewrite Forall_forall in Ht. by apply Ht. }
  unfold is_control in Hc. apply orb_true_iff in Hc as [Hc|Hc]; zbool; lia.
Qed.

Context `{!ChiLaws}.
Definition collection : string := nssaa_base +:+ "/slice-authentications".

Lemma serve_post now uuid r s : Method r = "POST" -> Path r = collection -> serve_nssaa now uuid r s = post_nssaa now uuid (Body r) s.
Proof. intros Hm Hp. unfold serve_nssaa. rewrite Hm, Hp. unfold nssaa_routes. fold collection. by rewrite route_post. Qed.
Lemma serve_put now uuid r s id : plain id -> Method r = "PUT" -> Path r = collection +:+ "/" +:+ id ->
  serve_nssaa now uuid r s = put_nssaa now [("authCtxId", id)] (Body r) s.
Proof.
  intros Hi Hm Hp. unfold serve_nssaa. rewrite Hm, Hp. unfold nssaa_routes. fold collection.
  rewrite route_put; [done|apply Hi|by apply plain_no_slash].
Qed.

Lemma read_info b x : Unmarshal b = inl (N58.json_SliceAuthInfo x) -> in_u8 (Sst (N58.i_Snssai x)) ->
  rmap (fun '(x, present) => (of_info x, present "snssai"))
    (ReadRequestBody Unmarshal type_error N58.set_SliceAuthInfo N58.zero_SliceAuthInfo b) = Ok (of_info x, true).
Proof.
  intros Hu Hs. unfold ReadRequestBody. rewrite Hu, N58.slice_info_roundtrip by done. cbn. do 2 f_equal. apply bool_decide_eq_true_2.
  destruct x as [[] ? ? [] [] ?]; cbn; rewrite !elem_of_cons; tauto.
Qed.
Lemma read_conf b x : Unmarshal b = inl (N58.json_SliceAuthConfirmationData x) -> in_u8 (Sst (N58.c_Snssai x)) ->
  rmap (fun '(x, present) => (of_conf x, present "snssai"))
    (ReadRequestBody Unmarshal type_error N58.set_SliceAuthConfirmationData N58.zero_SliceAuthConfirmationData b)
  = Ok (of_conf x, true).
Proof.
  intros Hu Hs. unfold ReadRequestBody. rewrite Hu, N58.conf_roundtrip by done. cbn. do 2 f_equal.
Qed.

(** A request that the create path accepts. *)
Definition acceptable (x : N58.SliceAuthInfo) : Prop :=
  ValidateGPSI (N58.i_Gpsi x) = Ok tt /\ ValidateSnssai (Sst (N58.i_Snssai x)) (Sd (N58.i_Snssai x)) false = Ok tt
  /\ (exists t payload, N58.EapIdRsp x = Some t /\ t <> estr /\ Base64.DecodeString t = Some payload)
  /\ match N58.AmfInstanceId x with
     | Some amf => limited amfRateLimiter ("nssaa:ratelimit:amf:" +:+ amf) = false | None => True end.

Lemma acceptable_created now uuid x s :
  acceptable x ->
  match Nssaa.CreateSliceAuthenticationContext aaa apiRoot amfRateLimiter now uuid (Ok (of_info x, true)) s with
  | (_, _, Some (Nssaa.RCreated loc id gpsi sst sd _)) =>
      loc = apiRoot +:+ collection +:+ "/" +:+ id /\ gpsi = N58.i_Gpsi x /\ sst = Sst (N58.i_Snssai x) /\ sd = Sd (N58.i_Snssai x)
  | (s1, out, Some (Nssaa.RProblem pd)) => pd_status pd = 500 /\ load s1 = load s /\ out = []
  | _ => False
  end.
Proof.
  intros (Hg & Hs & (t & payload & He & Ht & Hd) & Ha). unfold Nssaa.CreateSliceAuthenticationContext.
  assert (Hc : Nssaa.create_checks amfRateLimiter (Ok (of_info x, true)) = Ok (of_info x, payload)).
  { unfold Nssaa.create_checks. cbn [Nssaa.b_AmfInstanceId Nssaa.b_Gpsi Nssaa.b_Sst Nssaa.b_Sd Nssaa.b_EapIdRsp of_info negb].
    assert (Hde : Nssaa.decode_eap "eapIdRsp" (N58.EapIdRsp x) = Ok payload) by (apply Nssaa.decode_eap_Ok; eauto).
    unfold Nssaa.check. destruct (N58.AmfInstanceId x); [rewrite Ha|]; cbn [rbind]; rewrite Hg; cbn [rbind map_err];
      rewrite Hs; cbn [rbind map_err]; by rewrite Hde. }
  rewrite Hc. destruct (save _ _) as [s1 [e|]] eqn:Es; [split_and!; [done|by apply (save_failed _ _ _ e Es)|done]|].
  destruct (Nssaa.forward _ _ _) as [out next]. done.
Qed.

(** C37: the slice authentication over HTTP, from the documents on the wire to the store.  A
    POST of an acceptable SliceAuthInfo to the collection creates a context, or answers 500
    with nothing stored or sent.  The Location of the 201 is a path of this service; a PUT of
    a SliceAuthConfirmationData with the subscriber and slice of the request to that path,
    in any later state that still holds the context, is served as its confirmation: 200 with
    this subscriber and slice, or 500 when the store fails to write. *)
Theorem nssaa_over_http now uuid r x s :
  plain uuid -> Method r = "POST" -> Path r = collection -> Unmarshal (Body r) = inl (N58.json_SliceAuthInfo x) ->
  in_u8 (Sst (N58.i_Snssai x)) -> acceptable x ->
  match serve_nssaa now uuid r s with
  | (s1, _, Served (Nssaa.RCreated loc id gpsi sst sd _)) =>
      id = uuid /\ loc = apiRoot +:+ collection +:+ "/" +:+ id /\ mkSnssai sst sd = N58.i_Snssai x /\ gpsi = N58.i_Gpsi x
      /\ (exists dom, load s1 id = Ok dom /\ n_GPSI dom = gpsi /\ n_SnssaiSST dom = sst /\ n_SnssaiSD dom = sd /\ n_Status dom = "PENDING")
      /\ forall now2 uuid2 r2 t payload s2,
           Method r2 = "PUT" -> loc = apiRoot +:+ Path r2 ->
           Unmarshal (Body r2) = inl (N58.json_SliceAuthConfirmationData (N58.mkConf (Some t) gpsi (mkSnssai sst sd))) ->
           load s2 id = load s1 id -> limited rateLimiter ("authctx:" +:+ id) = false ->
           t <> estr -> Base64.DecodeString t = Some payload ->
           match (serve_nssaa now2 uuid2 r2 s2).2 with
           | Served (Nssaa.RConfirmed g a b _) => g = gpsi /\ a = sst /\ b = sd
           | Served (Nssaa.RProblem pd) => pd_status pd = 500
           | _ => False
           end
  | (s1, out, Served (Nssaa.RProblem pd)) => pd_status pd = 500 /\ load s1 = load s /\ out = []
  | _ => False
  end.
Proof.
  intros Hu Hm Hp Hb Hs Hx. rewrite serve_post by done. unfold post_nssaa. rewrite (read_info _ x) by done.
  pose proof (acceptable_created now uuid x s Hx) as Ha.
  destruct (Nssaa.CreateSliceAuthenticationContext _ _ _ _ _ _ _) as [[s1 out] [[pd|ra pd|loc id gpsi sst sd eap|]|]] eqn:Ec; try done.
  cbn [reply]. destruct Ha as (Hloc & -> & -> & ->).
  destruct (Nssaa.created_confirms aaa apiRoot amfRateLimiter rateLimiter _ _ _ _ _ _ _ _ _ _ _ _ Ec) as (-> & (dom & Hd) & _ & Hconf).
  split; [done|]. split; [done|]. split; [by destruct (N58.i_Snssai x)|]. split; [done|]. split; [exists dom; tauto|].
  intros now2 uuid2 r2 t payload s2 Hm2 Hl2 Hb2 Hs2 Hlim Ht Hdec.
  assert (Hpath : Path r2 = collection +:+ "/" +:+ uuid).
  { rewrite Hloc in Hl2. apply (f_equal chars) in Hl2. rewrite !(chars_app apiRoot) in Hl2. by apply app_inv_head, chars_inj in Hl2. }
  rewrite (serve_put _ _ _ _ uuid) by done. unfold put_nssaa. cbn [URLParam]. rewrite str_eqb_refl.
  rewrite bind_plain by apply Hu. erewrite read_conf by done.
  specialize (Hconf now2 t payload s2 Hs2 (plain_valid _ Hu) Hlim Ht Hdec). unfold of_conf. cbn.
  by destruct (Nssaa.ConfirmSliceAuthentication _ _ _ _ _ _) as [[s3 o3] [[]|]].
Qed.
End N58Service.

(** ** aiw.gen.go and router.go: the N60 service *)
Definition aiw_base : string := "/nnssaaf-aiw/v1".
Definition aiw_routes (base : string) : list (string * pattern) :=
  [("POST", Text (base +:+ "/authentications")); ("PUT", Param (base +:+ "/authentications") "authCtxId")].

Section N60Service.
Context `{Chi} (Decode : bytes -> json + string) (type_error : json -> string).
Context {S : Type} `{!Repo S AiwSession, !LawfulRepo S AiwSession}.
Context (apiRoot : string) (rateLimiter : option limiter).

(** The fields the handlers use. *)
Definition of_auth_info (x : N60.AuthInfo) : Aiw.AuthInfo := Aiw.mkInfo (N60.i_Supi x) (N60.EapIdRsp x).
Definition of_auth_conf (x : N60.AuthConfirmationData) : Aiw.AuthConfirmationData := Aiw.mkConf (N60.c_Supi x) (N60.c_EapMessage x).

Definition post_aiw (now : Z) (uuid : string) (b : bytes) (s : S) : S * answer Aiw.response :=
  let '(s, resp) := Aiw.CreateAuthenticationContext apiRoot rateLimiter now uuid
    (rmap of_auth_info (DecodeBody Decode type_error N60.set_AuthInfo N60.zero_AuthInfo b)) s in
  (s, reply resp).
Definition put_aiw (params : list (string * string)) (b : bytes) (s : S) : S * answer Aiw.response :=
  match BindParameter (URLParam params "authCtxId") with
  | None => (s, BadParameter)
  | Some authCtxId =>
      let '(s, resp) := Aiw.ConfirmAuthentication rateLimiter authCtxId
        (rmap of_auth_conf (DecodeBody Decode type_error N60.set_AuthConfirmationData N60.zero_AuthConfirmationData b)) s in
      (s, reply resp)
  end.
Definition serve_aiw (now : Z) (uuid : string) (r : request) (s : S) : S * answer Aiw.response :=
  match Route (aiw_routes aiw_base) (Method r) (Path r) with
  | Matched 0 _ => post_aiw now uuid (Body r) s
  | Matched _ params => put_aiw params (Body r) s
  | RouteNotFound => (s, NotFound_)
  | RouteMethodNotAllowed => (s, NotAllowed_)
  end.

Context `{!ChiLaws}.
Definition aiw_collection : string := aiw_base +:+ "/authentications".

(** The AIW authentication over HTTP.  A POST of an AuthInfo with a valid SUPI that is not
    rate limited creates a context whose Location is a path of this service, or answers 500
    with nothing stored.  A PUT of an AuthConfirmationData with this SUPI and a message to
    that path, in any later state that still holds the context, is answered 200 with the
    message of the request, or 500 when the store fails to write. *)
Theorem aiw_over_http now uuid r x s :
  plain uuid -> Method r = "POST" -> Path r = aiw_collection -> Decode (Body r) = inl (N60.json_AuthInfo x) ->
  N60.pbytes_ok (N60.EapIdRsp x) -> N60.pbytes_ok (N60.TtlsInnerMethodContainer x) ->
  ValidateSUPI (N60.i_Supi x) = Ok tt -> limited rateLimiter ("aiw:supi:" +:+ N60.i_Supi x) = false ->
  match serve_aiw now uuid r s with
  | (s1, Served (Aiw.RCreated loc id supi eap)) =>
      id = uuid /\ loc = apiRoot +:+ aiw_collection +:+ "/" +:+ id /\ supi = N60.i_Supi x /\ eap = N60.EapIdRsp x
      /\ (exists dom, load s1 id = Ok dom /\ a_Supi dom = supi /\ a_Status dom = "PENDING")
      /\ forall now2 uuid2 r2 b s2,
           Method r2 = "PUT" -> loc = apiRoot +:+ Path r2 -> b <> [] -> bytes_ok b ->
           Decode (Body r2) = inl (N60.json_AuthConfirmationData (N60.mkConf (Some b) supi None)) ->
           load s2 id = load s1 id -> limited rateLimiter ("aiw:authctx:" +:+ id) = false ->
           match (serve_aiw now2 uuid2 r2 s2).2 with
           | Served (Aiw.RConfirmed g m) => g = supi /\ m = b
           | Served (Aiw.RProblem pd) => pd_status pd = 500
           | _ => False
           end
  | (s1, Served (Aiw.RProblem pd)) => pd_status pd = 500 /\ load s1 = load s
  | _ => False
  end.
Proof.
  intros Hu Hm Hp Hb He Htt Hv Hl. unfold serve_aiw at 1. rewrite Hm, Hp. unfold aiw_routes. fold aiw_collection. rewrite route_post.
  unfold post_aiw, DecodeBody. rewrite Hb, N60.auth_info_roundtrip by done. unfold Aiw.CreateAuthenticationContext, Aiw.create_checks.
  cbn [rmap rbind Aiw.b_Supi Aiw.b_EapIdRsp of_auth_info]. rewrite Hl. cbn [rbind]. rewrite Hv. cbn [rbind map_err].
  set (dom := Aiw.authContextToAiwSession _ _). destruct (save s dom) as [s1 [e|]] eqn:Es; cbn [reply].
  { split; [done|]. by apply (save_failed _ _ _ e Es). }
  assert (Hd := save_same s s1 dom Es). change (key_of dom) with uuid in Hd.
  split; [done|]. split; [done|]. split; [done|]. split; [done|]. split; [by exists dom|].
  intros now2 uuid2 r2 b s2 Hm2 Hl2 Hne Hok Hb2 Hs2 Hlim.
  assert (Hpath : Path r2 = aiw_collection +:+ "/" +:+ uuid).
  { apply (f_equal chars) in Hl2. rewrite !(chars_app apiRoot) in Hl2. by apply app_inv_head, chars_inj in Hl2. }
  unfold serve_aiw. rewrite Hm2, Hpath. unfold aiw_routes. fold aiw_collection.
  rewrite route_put by (apply Hu || by apply plain_no_slash). unfold put_aiw. cbn [URLParam]. rewrite str_eqb_refl.
  rewrite bind_plain by apply Hu. unfold DecodeBody. rewrite Hb2, N60.auth_conf_roundtrip by done.
  unfold Aiw.ConfirmAuthentication, Aiw.confirm_checks.
  cbn [rmap rbind Aiw.cb_Supi Aiw.cb_EapMessage of_auth_conf N60.c_Supi N60.c_EapMessage Aiw.eapPayloadFromPtr default].
  rewrite plain_valid by done. cbn [rbind map_err]. rewrite Hlim.
  cbn [rbind rmap Aiw.cb_Supi of_auth_conf N60.c_Supi of_auth_info Aiw.b_Supi]. rewrite Hv. cbn [rbind map_err].
  assert (Hz : (len b =? 0) = false) by (destruct b; done).
  unfold Aiw.eapPayloadFromPtr. cbn. rewrite Hz. cbn. rewrite Hs2, Hd. cbn. rewrite str_eqb_refl. cbn.
  by destruct (save s2 _) as [s3 [e|]].
Qed.
End N60Service.

(** ** Writing the responses *)
Definition HeaderLocation : string := "Location".
(** Headers of a successful answer, in the order of the code, then its document. *)
Definition write_document (status : Z) (reqID : string) (location : option string) (v : json) (s : state) : state :=
  let s := match location with Some l => set_header HeaderLocation l s | None => s end in
  Write (CJson v) (WriteHeader status (set_header HeaderContentType MediaTypeJSONVersion (set_header HeaderXRequestID reqID s))).
Definition write429 (retryAfter : Z) (pd : ProblemDetails) (s : state) : state :=
  WriteProblem pd (WriteHeader 429 (set_header "Retry-After" (show_uint retryAfter) s)).
(** The error handler of the generated wrapper. *)
Definition bad_parameter (reason : string) (s : state) : state :=
  http_Error ("Invalid format for parameter authCtxId: " +:+ reason) 400 s.

Definition write_nssaa (reqID : string) (r : Nssaa.response) (s : state) : state :=
  match r with
  | Nssaa.RProblem pd => WriteProblem pd s
  | Nssaa.RLimited n pd => write429 n pd s
  | Nssaa.RCreated loc id gpsi sst sd eap =>
      write_document 201 reqID (Some loc) (N58.json_SliceAuthContext (N58.mkCtx id (Some eap) gpsi (mkSnssai sst sd))) s
  | Nssaa.RConfirmed gpsi sst sd eap =>
      write_document 200 reqID None (N58.json_SliceAuthConfirmationResponse (N58.mkRsp None (Some eap) gpsi (mkSnssai sst sd))) s
  end.
Definition write_aiw (reqID : string) (r : Aiw.response) (s : state) : state :=
  match r with
  | Aiw.RProblem pd => WriteProblem pd s
  | Aiw.RLimited n pd => write429 n pd s
  | Aiw.RCreated loc id supi eap => write_document 201 reqID (Some loc) (N60.json_AuthContext (N60.mkCtx id eap supi None None)) s
  | Aiw.RConfirmed supi eap =>
      write_document 200 reqID None (N60.json_AuthConfirmationResponse (N60.mkRsp None (Some eap) None (Some []) supi None)) s
  end.
Definition write_answer `{Chi} {R} (reason : string) (write : R -> state -> state) (a : answer R) (s : state) : state * bool :=
  match a with
  | Served r => (write r s, false)
  | Panicked => (s, true)
  | NotFound_ => (not_found s, false)
  | NotAllowed_ => (method_not_allowed s, false)
  | BadParameter => (bad_parameter reason s, false)
  end.
(** router.go: the service as a handler of the Biz Pod, for the state of its store. *)
Definition nssaa_NewRouter `{Chi} Unmarshal type_error {S} `{!Repo S NssaaSession} aaa apiRoot amfRL rl now uuid (reason : string) (st : S) : handler :=
  LoggingMiddleware (RecoveryMiddleware (fun r reqID s =>
    write_answer reason (write_nssaa reqID) (serve_nssaa Unmarshal type_error aaa apiRoot amfRL rl now uuid r st).2 s)).
Definition aiw_NewRouter `{Chi} Decode type_error {S} `{!Repo S AiwSession} apiRoot rl now uuid (reason : string) (st : S) : handler :=
  LoggingMiddleware (RecoveryMiddleware (fun r reqID s =>
    write_answer reason (write_aiw reqID) (serve_aiw Decode type_error apiRoot rl now uuid r st).2 s)).

(** The consumer of a created or confirmed authentication reads what the handler meant. *)
Lemma created_document loc id gpsi sst sd eap reqID s :
  sent s = None -> in_u8 sst ->
  exists h v, sent (write_nssaa reqID (Nssaa.RCreated loc id gpsi sst sd eap) s) = Some (201, h)
    /\ h !! HeaderLocation = Some loc /\ h !! HeaderXRequestID = Some reqID
    /\ last (body (write_nssaa reqID (Nssaa.RCreated loc id gpsi sst sd eap) s)) = Some (CJson v)
    /\ unmarshal N58.set_SliceAuthContext v (N58.mkCtx estr None estr (mkSnssai 0 estr)) = Some (N58.mkCtx id (Some eap) gpsi (mkSnssai sst sd)).
Proof.
  intros Hs Hu. eexists _, _. cbn -[N58.json_SliceAuthContext unmarshal]. unfold send. cbn [sent WriteHeader set_header hdr]. unfold send.
  cbn [sent set_header hdr]. rewrite Hs. split; [done|]. split; [|split; [|split; [by rewrite last_snoc|by apply N58.context_roundtrip]]].
  - by rewrite lookup_insert_ne, lookup_insert_ne, lookup_insert_eq.
  - by rewrite lookup_insert_ne, lookup_insert_eq.
Qed.

(** The answer to a limited request has no content type: it is set after the status has
    been written. *)
Lemma limited_untyped n pd s : sent s = None -> hdr s !! HeaderContentType = None ->
  exists h, sent (write429 n pd s) = Some (429, h) /\ h !! HeaderContentType = None /\ h !! "Retry-After" = Some (show_uint n).
Proof.
  intros Hs Hc. eexists. unfold write429, WriteProblem, WriteHeader, Write, send. cbn. rewrite Hs. cbn. split; [done|].
  by rewrite lookup_insert_ne, lookup_insert_eq.
Qed.

(** A slice under a key in other letters is read, but counts as absent. *)
Example upper_case_snssai_absent :
  exists f, ReadRequestBody (fun _ => inl (JObj [("SNSSAI", JObj [("sst", JNum 7)])])) (fun _ => estr)
    N58.set_SliceAuthInfo N58.zero_SliceAuthInfo [] = Ok (N58.mkInfo None None estr None None (mkSnssai 7 estr), f)
    /\ f "snssai" = false.
Proof. eexists. split; [reflexivity|]. vm_compute. done. Qed.

(** ** A router with the documented behaviour *)
Definition match_pattern (pat : pattern) (path : string) : option (list (string * string)) :=
  match pat with
  | Text p => if str_eqb p path then Some [] else None
  | Param p name =>
      let v := String.string_of_list_ascii (drop (length (chars p ++ chars "/")) (chars path)) in
      if str_eqb path (p +:+ "/" +:+ v) && negb (is_empty v) && no_slash v then Some [(name, v)] else None
  end.
Lemma match_pattern_spec pat path ps : match_pattern pat path = Some ps <-> matches pat path ps.
Proof.
  split.
  - destruct pat as [p|p name]; cbn; [destruct (str_eqb p path) eqn:E; [|done]; apply str_eqb_true in E as ->; intros [= <-]; constructor|].
    set (v := String.string_of_list_ascii _). destruct (str_eqb path _) eqn:E; [|done]. apply str_eqb_true in E.
    destruct (is_empty v) eqn:Ev; [done|]. destruct (no_slash v) eqn:Es; [|done]. intros [= <-]. rewrite E. constructor; [|done].
    intros Hv. by rewrite Hv in Ev.
  - destruct 1 as [p|p name v Hv Hs]; cbn; [by rewrite str_eqb_refl|].
    rewrite !chars_app, app_assoc, drop_app_length, string_of_chars, str_eqb_refl, Hs. by destruct v.
Qed.
Fixpoint find_route (rs : list (string * pattern)) (m path : string) : option (nat * list (string * string)) :=
  match rs with
  | [] => None
  | (m', pat) :: rs =>
      match (if str_eqb m' m then match_pattern pat path else None) with
      | Some ps => Some (0%nat, ps)
      | None => (fun '(j, ps) => (S j, ps)) <$> find_route rs m path
      end
  end.
Lemma find_route_spec rs m path :
  match find_route rs m path with
  | Some (i, ps) => exists pat, rs !! i = Some (m, pat) /\ matches pat path ps
  | None => forall i pat ps, rs !! i = Some (m, pat) -> ~ matches pat path ps
  end.
Proof.
  induction rs as [|[m' pat] rs IH]; [done|]. cbn [find_route].
  destruct (if str_eqb m' m then match_pattern pat path else None) as [ps|] eqn:E.
  - destruct (str_eqb m' m) eqn:Em; [|done]. apply str_eqb_true in Em as ->. exists pat. split; [done|]. by apply match_pattern_spec.
  - destruct (find_route rs m path) as [[j ps]|]; cbn; [exact IH|]. intros [|i] pat' ps' Hi; [|by apply IH with i].
    injection Hi as <- <-. rewrite str_eqb_refl in E. intros Hm%match_pattern_spec. by rewrite E in Hm.
Qed.
Definition toy_chi : Chi := {|
  Route rs m path :=
    match find_route rs m path with
    | Some (i, ps) => Matched i ps
    | None => if existsb (fun r => if match_pattern r.2 path then true else false) rs then RouteMethodNotAllowed else RouteNotFound
    end;
  BindParameter v := Some v; not_found := http_Error "404 page not found" 404; method_not_allowed := WriteHeader 405 |}.
Lemma toy_chi_laws : @ChiLaws toy_chi.
Proof.
  split; cbn [Route BindParameter toy_chi]; [| | |done].
  - intros rs m path i pat ps Hi Hm Hu. pose proof (find_route_spec rs m path) as Hf.
    destruct (find_route rs m path) as [[j ps']|]; [|by destruct (Hf i pat ps)]. destruct Hf as (pat' & Hj & Hm').
    pose proof (Hu _ _ _ _ Hj Hm'). subst j. rewrite Hi in Hj. injection Hj as <-.
    apply match_pattern_spec in Hm, Hm'. rewrite Hm in Hm'. by injection Hm' as <-.
  - intros rs m path Hn. pose proof (find_route_spec rs m path) as Hf. destruct (find_route rs m path) as [[j ps']|].
    { destruct Hf as (pat & Hj & Hm). by destruct (Hn _ _ _ _ Hj Hm). }
    destruct (existsb _ rs) eqn:E; [|done]. apply existsb_exists in E as ([m' pat] & Hin & Hp). cbn in Hp.
    destruct (match_pattern pat path) eqn:Em; [|done]. apply match_pattern_spec in Em.
    apply list_elem_of_In, list_elem_of_lookup in Hin as [j Hj]. by destruct (Hn _ _ _ _ Hj Em).
  - intros rs m path j m' pat ps Hj Hm Hn. pose proof (find_route_spec rs m path) as Hf.
    destruct (find_route rs m path) as [[i ps']|]. { destruct Hf as (pat' & Hi & Hm'). by destruct (Hn _ _ _ Hi Hm'). }
    assert (E : existsb (fun r : string * pattern => if match_pattern r.2 path then true else false) rs = true).
    { apply existsb_exists. exists (m', pat). split; [by apply list_elem_of_In, list_elem_of_lookup; exists j|].
      apply match_pattern_spec in Hm. cbn. by rewrite Hm. }
    by rewrite E.
Qed.

(** ** Witnesses *)
#[local] Existing Instances toy_chi toy_chi_laws.
Definition doc_of (post put : json) (b : bytes) : json + string := inl (if len b =? 0 then post else put).
Definition n58_info : N58.SliceAuthInfo := N58.mkInfo None (Some "AgEABQE=") "msisdn-12345" None None (mkSnssai 1 "000001").
Definition n58_conf : N58.SliceAuthConfirmationData := N58.mkConf (Some "AgIABQE=") "msisdn-12345" (mkSnssai 1 "000001").
Definition n58_text : bytes -> json + string := doc_of (N58.json_SliceAuthInfo n58_info) (N58.json_SliceAuthConfirmationData n58_conf).
Definition http_request (m path : string) (b : bytes) : request := mkReq m path "10.0.0.1" ∅ (len b) b.
Definition n58_created := serve_nssaa n58_text (fun _ => estr) (Some Nssaa.down) "https://h" None None 5 "id-1"
  (http_request "POST" collection []) Nssaa.st0.

Lemma nssaa_over_http_witness :
  match (serve_nssaa n58_text (fun _ => estr) (Some Nssaa.down) "https://h" None None 6 "id-2"
           (http_request "PUT" (collection +:+ "/id-1") [1]) n58_created.1.1).2 with
  | Served (Nssaa.RConfirmed g a b _) => g = "msisdn-12345" /\ a = 1 /\ b = "000001"
  | Served (Nssaa.RProblem pd) => pd_status pd = 500
  | _ => False
  end.
Proof.
  assert (Hx : acceptable None n58_info).
  { split; [vm_compute; reflexivity|]. split; [vm_compute; reflexivity|]. split; [|exact I].
    exists "AgEABQE=", [2; 1; 0; 5; 1]. split; [reflexivity|]. split; [discriminate|vm_compute; reflexivity]. }
  assert (Hp : plain "id-1") by (split; [discriminate|vm_compute; reflexivity]).
  assert (Hs : in_u8 (Sst (N58.i_Snssai n58_info))) by (vm_compute; split; [discriminate|reflexivity]).
  pose proof (nssaa_over_http n58_text (fun _ => estr) (Some Nssaa.down) "https://h" None None 5 "id-1"
    (http_request "POST" collection []) n58_info Nssaa.st0 Hp eq_refl eq_refl eq_refl Hs Hx) as Hh.
  assert (Hc : n58_created = (Nssaa.st1, [(Nssaa.eap_session 5 "id-1" "msisdn-12345" 1 "000001", [2; 1; 0; 5; 1])],
    Served (Nssaa.RCreated "https://h/nnssaaf-nssaa/v1/slice-authentications/id-1" "id-1" "msisdn-12345" 1 "000001" "AgEABQE=")))
    by (vm_compute; reflexivity).
  unfold n58_created in Hc. rewrite Hc in Hh. destruct Hh as (_ & _ & _ & _ & _ & Hconf).
  unfold n58_created. rewrite Hc. apply (Hconf 6 "id-2" (http_request "PUT" (collection +:+ "/id-1") [1]) "AgIABQE=" [2; 2; 0; 5; 1] Nssaa.st1);
    (reflexivity || discriminate).
Defined.

Definition n60_text : bytes -> json + string :=
  doc_of (N60.json_AuthInfo (N60.mkInfo (Some [2; 1; 0; 4]) "imsi-123456" None None))
    (N60.json_AuthConfirmationData (N60.mkConf (Some [2; 2; 0; 4]) "imsi-123456" None)).
Definition n60_created := serve_aiw n60_text (fun _ => estr) "https://h" None 5 "id-1"
  (http_request "POST" aiw_collection []) InMemory.NewInMemoryStore.
Lemma aiw_over_http_witness :
  match (serve_aiw n60_text (fun _ => estr) "https://h" None 6 "id-2"
           (http_request "PUT" (aiw_collection +:+ "/id-1") [1]) n60_created.1).2 with
  | Served (Aiw.RConfirmed g m) => g = "imsi-123456" /\ m = [2; 2; 0; 4]
  | Served (Aiw.RProblem pd) => pd_status pd = 500
  | _ => False
  end.
Proof.
  assert (Hp : plain "id-1") by (split; [discriminate|vm_compute; reflexivity]).
  assert (Hb : bytes_ok [2; 1; 0; 4]) by (apply bytes_okb_spec; reflexivity).
  pose proof (aiw_over_http n60_text (fun _ => estr) "https://h" None 5 "id-1" (http_request "POST" aiw_collection [])
    (N60.mkInfo (Some [2; 1; 0; 4]) "imsi-123456" None None) InMemory.NewInMemoryStore Hp eq_refl eq_refl eq_refl Hb I eq_refl eq_refl) as Hh.
  assert (Hc : n60_created = (Aiw.st1,
    Served (Aiw.RCreated "https://h/nnssaaf-aiw/v1/authentications/id-1" "id-1" "imsi-123456" (Some [2; 1; 0; 4]))))
    by (vm_compute; reflexivity).
  unfold n60_created in Hc. rewrite Hc in Hh. destruct Hh as (_ & _ & _ & _ & _ & Hconf).
  unfold n60_created. rewrite Hc. apply (Hconf 6 "id-2" (http_request "PUT" (aiw_collection +:+ "/id-1") [1]) [2; 2; 0; 4] Aiw.st1);
    (reflexivity || discriminate || (apply bytes_okb_spec; reflexivity)).
Defined.
