(* ===== verification/DiameterDict.v ===== *)
(** * internal/diameter/generated/nssaa_dict.go: the Diameter dictionary of NSSAA

    The extension dictionary as data: the Diameter EAP command with the AVPs its request and
    answer may and must have, and the AVPs it defines; what it means for a message to
    conform to a command; and the loader [Parser].  The dictionary that comes with
    go-diameter is a parameter: it gives the codes of the AVPs of RFC 6733 and RFC 4072. *)
From S2P Require Import Prelude Regex Common Types Encoding EapSession Diameter.
Import Validator.
Local Open Scope string_scope.
Local Open Scope Z_scope.
Local Open Scope list_scope.

Record rule : Type := mkRule { r_avp : string; r_required : bool; r_max : option nat }.
Inductive data_type : Type :=
| TOctetString | TUTF8String | TUnsigned32 | TDiameterIdentity
| TEnumerated (items : list (Z * string))
| TGrouped (rules : list rule).
(** [d_must]: the flags that must be set, as bits. *)
Record avp_def : Type := mkDef { d_name : string; d_code : Z; d_must : Z; d_vendor : Z; d_type : data_type }.
Record command : Type := mkCommand { c_code : Z; c_short : string; c_request : list rule; c_answer : list rule }.
Record application : Type := mkApp { ap_id : Z; ap_name : string; ap_commands : list command; ap_avps : list avp_def }.

Definition must1 (n : string) : rule := mkRule n true (Some 1%nat).
Definition may1 (n : string) : rule := mkRule n false (Some 1%nat).
Definition many (n : string) : rule := mkRule n false None.
Definition some (n : string) : rule := mkRule n true None.
Definition MV : Z := Z.lor Mbit Vbit.
Definition tgpp (name : string) (code : Z) (t : data_type) : avp_def := mkDef name code MV 10415 t.

(** ** The dictionary *)
Definition DE_request : list rule :=
  [must1 "Session-Id"; must1 "Auth-Application-Id"; must1 "Auth-Request-Type"; must1 "Origin-Host"; must1 "Origin-Realm";
   may1 "Origin-State-Id"; may1 "Destination-Host"; must1 "Destination-Realm"; may1 "User-Name"; many "EAP-Payload";
   may1 "Multi-Round-Time-Out"; must1 "Auth-Session-State"; may1 "Calling-Station-Id"; may1 "External-Identifier";
   many "3GPP-S-NSSAI"; may1 "NSSAI-Configuration"; may1 "AAA-Server-Name"; many "Proxy-Info"; many "Route-Record"].
Definition DE_answer : list rule :=
  [must1 "Session-Id"; must1 "Auth-Application-Id"; must1 "Auth-Request-Type"; must1 "Result-Code"; may1 "Experimental-Result";
   must1 "Origin-Host"; must1 "Origin-Realm"; may1 "User-Name"; many "EAP-Payload"; may1 "Multi-Round-Time-Out";
   must1 "Auth-Session-State"; may1 "Origin-State-Id"; may1 "Error-Message"; may1 "Error-Reporting-Host"; may1 "Failed-AVP";
   many "Redirect-Host"; may1 "Redirect-Host-Usage"; may1 "Redirect-Max-Cache-Time"; many "Proxy-Info"].
Definition nssai_avps : list avp_def :=
  [tgpp "3GPP-S-NSSAI" 200 TOctetString;
   tgpp "NSSAI-Configuration" 3100
     (TGrouped [many "Configured-NSSAI"; many "Requested-NSSAI"; many "NSSAI-Configuration-Data"; many "AVP"]);
   tgpp "Configured-NSSAI" 3101 (TGrouped [some "3GPP-S-NSSAI"; many "AVP"]);
   tgpp "Requested-NSSAI" 3102 (TGrouped [some "3GPP-S-NSSAI"; many "AVP"]);
   tgpp "NSSAI-Configuration-Data" 3103 (TGrouped [must1 "PLMN-Id"; many "Configured-NSSAI"; many "AVP"]);
   tgpp "PLMN-Id" 1467 TOctetString; tgpp "AAA-Server-Name" 260 TDiameterIdentity].
Definition authorization_avps : list avp_def :=
  [tgpp "NSSAAuthorization-Information" 3104
     (TGrouped [must1 "3GPP-S-NSSAI"; must1 "Authorization-Result"; may1 "Authorization-Grace-Period"; many "AVP"]);
   tgpp "Authorization-Result" 3105 (TEnumerated [(0, "SLICE_AUTHORIZED"); (1, "SLICE_NOT_AUTHORIZED")]);
   tgpp "Authorization-Grace-Period" 3106 TUnsigned32; tgpp "NSSAAF-Server-Name" 3107 TDiameterIdentity;
   tgpp "Rejected-SNSSAI-List" 3108 (TGrouped [must1 "3GPP-S-NSSAI"; must1 "Rejected-SNSSAI-Cause"; many "AVP"]);
   tgpp "Rejected-SNSSAI-Cause" 3109
     (TEnumerated [(0, "S-NSSAI_NOT_AVAILABLE"); (1, "S-NSSAI_NOT_SUBSCRIBED"); (2, "S-NSSAI_CHANGED"); (3, "SLICE_AUTH_FAILED")])].
(** AVPs outside of an application. *)
Definition common_avps : list avp_def :=
  [mkDef "Calling-Station-Id" 31 Mbit 0 TUTF8String; tgpp "External-Identifier" 606 TUTF8String;
   tgpp "Supported-Features" 628 (TGrouped [must1 "Vendor-Id"; must1 "Feature-List-ID"; must1 "Feature-List"; many "AVP"]);
   mkDef "Vendor-Id" 266 Mbit 0 TUnsigned32; tgpp "Feature-List-ID" 629 TUnsigned32; tgpp "Feature-List" 630 TUnsigned32].
Definition eap_app : application := mkApp 5 "Diameter EAP" [mkCommand 268 "DE" DE_request DE_answer] (nssai_avps ++ authorization_avps).
Definition all_avps : list avp_def := ap_avps eap_app ++ common_avps.

Fixpoint find_def (l : list avp_def) (n : string) : option avp_def :=
  match l with [] => None | d :: l => if str_eqb (d_name d) n then Some d else find_def l n end.

(** ** What a dictionary has to be *)
Definition rules_of (d : avp_def) : list rule := match d_type d with TGrouped rs => rs | _ => [] end.
(** Names and codes are unique, and the members of groups are defined here ([AVP] stands
    for any). *)
Definition closed (l : list avp_def) : bool :=
  bool_decide (NoDup (d_name <$> l)) && bool_decide (NoDup ((fun d => (d_code d, d_vendor d)) <$> l))
  && forallb (fun d => forallb (fun r => str_eqb (r_avp r) "AVP" || match find_def l (r_avp r) with Some _ => true | None => false end)
                         (rules_of d)) l
  && forallb (fun d => Z.eqb (if d_vendor d =? 0 then 0 else Vbit) (Z.land (d_must d) Vbit)) l.
Lemma dictionary_closed : closed all_avps = true.
Proof. vm_compute. reflexivity. Qed.

(** A dictionary [base] of codes of AVPs without vendor, with this one on top. *)
Section Codes.
Context (base : string -> option Z).
Definition code_of (n : string) : option (Z * Z) :=
  match find_def all_avps n with
  | Some d => Some (d_code d, d_vendor d)
  | None => (fun c => (c, 0)) <$> base n
  end.
Definition rule_of (r : rule) (a : AVP) : bool :=
  match code_of (r_avp r) with Some (c, v) => is_avp c v a | None => false end.
Definition rule_kept (avps : list AVP) (r : rule) : bool :=
  let n := length (List.filter (rule_of r) avps) in
  (negb (r_required r) || (1 <=? n)%nat) && match r_max r with Some m => (n <=? m)%nat | None => true end.
Definition covered (rs : list rule) (a : AVP) : bool := existsb (fun r => rule_of r a) rs.
(** Each rule is kept; an AVP that no rule names is reported. *)
Definition strangers (rs : list rule) (avps : list AVP) : list AVP := List.filter (fun a => negb (covered rs a)) avps.
Definition conforms (rs : list rule) (avps : list AVP) : bool := forallb (rule_kept avps) rs.

End Codes.

(** The codes that RFC 6733 and RFC 4072 give. *)
Definition rfc_codes : list (string * Z) :=
  [("Session-Id", 263); ("Auth-Application-Id", 258); ("Auth-Request-Type", 274); ("Origin-Host", 264); ("Origin-Realm", 296);
   ("Origin-State-Id", 278); ("Destination-Host", 293); ("Destination-Realm", 283); ("User-Name", 1); ("EAP-Payload", 462);
   ("Multi-Round-Time-Out", 272); ("Auth-Session-State", 277); ("Proxy-Info", 284); ("Route-Record", 282)].
Fixpoint rfc_code (l : list (string * Z)) (n : string) : option Z :=
  match l with [] => None | (k, c) :: l => if str_eqb k n then Some c else rfc_code l n end.

(** Only the codes of the names in the rules matter. *)
Lemma rule_of_ext base base' r a : code_of base (r_avp r) = code_of base' (r_avp r) -> rule_of base r a = rule_of base' r a.
Proof. intros Hc. unfold rule_of. by rewrite Hc. Qed.
Lemma conforms_ext base base' rs avps : Forall (fun r => code_of base (r_avp r) = code_of base' (r_avp r)) rs ->
  conforms base rs avps = conforms base' rs avps /\ strangers base rs avps = strangers base' rs avps.
Proof.
  intros Hr. split.
  - unfold conforms. induction Hr as [|r rs Hc Hr IH]; [done|]. cbn. rewrite IH. f_equal. unfold rule_kept.
    rewrite (List.filter_ext _ _ (fun a => rule_of_ext base base' r a Hc)). done.
  - apply List.filter_ext. intros a. f_equal. unfold covered. induction Hr as [|r rs Hc Hr IH]; [done|]. cbn.
    by rewrite IH, (rule_of_ext base base').
Qed.
Lemma rfc_code_base base l n c : Forall (fun '(n, c) => base n = Some c) l -> rfc_code l n = Some c -> base n = Some c.
Proof.
  induction 1 as [|[k d] l Hk Hl IH]; [done|]. cbn. destruct (str_eqb k n) eqn:E; [|done].
  apply str_eqb_true in E as ->. by intros [= <-].
Qed.

Section Conformance.
Context (base : string -> option Z).
Hypothesis base_rfc : Forall (fun '(n, c) => base n = Some c) rfc_codes.

Context (avp_error : AVP -> option string) (FindAVPs : Message -> Z -> Z -> option (list AVP))
  (NewRequest : Z -> Z -> Message) (laws : library_laws FindAVPs NewRequest).
Hypothesis no_error : forall a, avp_error a = None.

(** The requests of the forwarder against the dictionary it loads.  Every rule of the
    Diameter-EAP request is kept: what it requires is there, nothing more often than
    allowed, and the slice has the code, vendor and flags of its definition.  One AVP
    belongs to no rule: the one with the EAP message, because it has code 209, while the
    command's EAP-Payload is 462. *)
Theorem der_conforms df osi hop sid payload sst sd gpsi :
  sd = estr \/ sd_form sd ->
  exists m b, buildDERMessage avp_error NewRequest df osi hop sid payload sst sd gpsi = Ok m
    /\ conforms base DE_request (m_AVP m) = true
    /\ strangers base DE_request (m_AVP m) = [mkAVP 209 Mbit 0 (OctetString payload)]
    /\ find_def all_avps "3GPP-S-NSSAI" = Some (mkDef "3GPP-S-NSSAI" 200 192 10415 TOctetString)
    /\ last (m_AVP m) = Some (mkAVP 200 192 10415 (OctetString (sst :: b))).
Proof.
  intros Hsd.
  assert (Hs : exists b, EncodeSnssaiAVP sst sd = Ok (mkAVP AVP3GPP_S_NSSAI 192 10415 (OctetString (sst :: b)))).
  { destruct Hsd as [->|Hsd]; [by exists []|]. destruct (parseSD_valid sd Hsd) as (b & Hb & _). exists b.
    unfold EncodeSnssaiAVP. by rewrite (sd_form_nonempty sd Hsd), Hb. }
  destruct Hs as (b & Ha).
  destruct (buildDER_avps avp_error FindAVPs NewRequest laws no_error df osi hop sid payload sst sd gpsi _ Ha) as (m & Hm & _ & _ & _ & Hav).
  assert (Hc : Forall (fun r => code_of base (r_avp r) = code_of (rfc_code rfc_codes) (r_avp r)) DE_request).
  { apply Forall_forall. intros r Hr. unfold code_of. destruct (find_def all_avps (r_avp r)) eqn:E; [done|]. f_equal.
    assert (Hk : Forall (fun r => find_def all_avps (r_avp r) = None -> is_Some (rfc_code rfc_codes (r_avp r))) DE_request)
      by (repeat constructor; vm_compute; (discriminate || eauto)).
    rewrite Forall_forall in Hk. destruct (Hk r Hr E) as [c Hk']. rewrite Hk'. exact (rfc_code_base _ _ _ _ base_rfc Hk'). }
  exists m, b. split; [done|]. destruct (conforms_ext _ _ _ (m_AVP m) Hc) as [-> ->]. rewrite Hav. split_and!; [vm_compute; reflexivity..|]. by rewrite last_snoc.
Qed.
End Conformance.

(** ** Loading: the parser is the library's default one, extended at most once *)
Section Loader.
(** The parser's state, and its [Load]: also a failed load may leave something behind. *)
Context {P : Type} (Load : P -> P * option string).
(** [done_]: the [sync.Once] has run, also when its function panicked. *)
Record loader : Type := mkLoader { done_ : bool; default_ : P }.
Definition Parser (s : loader) : loader * result string P :=
  if done_ s then (s, Ok (default_ s))
  else match Load (default_ s) with
       | (p, None) => (mkLoader true p, Ok p)
       | (p, Some e) => (mkLoader true p, Panic)
       end.
Fixpoint Parsers (n : nat) (s : loader) : list (result string P) :=
  match n with O => [] | S n => let '(s, r) := Parser s in r :: Parsers n s end.

(** Every call gives the extended parser; when loading fails, the first call panics and
    every later one gives, without an error, what the failed load left. *)
Theorem Parser_once n p :
  Parsers (S n) (mkLoader false p) =
  match Load p with
  | (q, None) => Ok q :: repeat (Ok q) n
  | (q, Some _) => Panic :: repeat (Ok q) n
  end.
Proof.
  cbn. destruct (Load p) as [q [e|]]; f_equal; induction n as [|n IH]; [done|cbn; by f_equal|done|cbn; by f_equal].
Qed.
End Loader.

Lemma der_conforms_witness :
  exists m, buildDERMessage (fun _ => None) toy_request toy_forwarder 1 7 "s" [2; 1; 0; 5; 1] 1 "000001" "msisdn-12345" = Ok m
    /\ conforms (rfc_code rfc_codes) DE_request (m_AVP m) = true.
Proof.
  destruct (der_conforms (rfc_code rfc_codes)) with (avp_error := fun _ : AVP => @None string) (FindAVPs := toy_find)
    (NewRequest := toy_request) (df := toy_forwarder) (osi := 1) (hop := 7) (sid := "s") (payload := [2; 1; 0; 5; 1]) (sst := 1)
    (sd := "000001") (gpsi := "msisdn-12345") as (m & b & Hm & Hc & _).
  - repeat constructor.
  - apply toy_laws.
  - reflexivity.
  - right. split; vm_compute; reflexivity.
  - exists m. split; [exact Hm|exact Hc].
Defined.
