(* ===== verification/MetricsRegistry.v ===== *)
(** * internal/metrics/metrics.go, and the gauge of the AMF queue

    The collectors of the process: their registration when the package is loaded, and the
    calls that record into them.  Registering two collectors of one name, and asking a
    collector for a number of label values other than its number of labels, panics (both
    documented by the Prometheus client).  [DlqDepth] is the gauge of the queue of
    notifications (internal/cache/redis/dlq.go, [Enqueue] and [Dequeue]) against the queue. *)
From S2P Require Import Prelude.
Local Open Scope string_scope.
Local Open Scope Z_scope.
Local Open Scope list_scope.

Inductive kind : Type := Counter | Gauge | Histogram.
(** [m_labels] is [None] for a collector without labels, which is used directly. *)
Record collector : Type := mkColl { m_var : string; m_name : string; m_kind : kind; m_labels : option (list string) }.

(** ** Registration *)
Definition Register (reg : list collector) (c : collector) : result string (list collector) :=
  if bool_decide (m_name c ∈ m_name <$> reg) then Panic else Ok (reg ++ [c]).
Fixpoint init (reg : list collector) (cs : list collector) : result string (list collector) :=
  match cs with [] => Ok reg | c :: cs => let? reg := Register reg c in init reg cs end.
Definition newCounterVec v n ls : collector := mkColl v n Counter (Some ls).
Definition newCounter v n : collector := mkColl v n Counter None.
Definition newGauge v n : collector := mkColl v n Gauge None.
Definition newGaugeVec v n ls : collector := mkColl v n Gauge (Some ls).
Definition newHistogramVec v n ls : collector := mkColl v n Histogram (Some ls).
Definition newHistogram v n : collector := mkColl v n Histogram None.

Definition request_metrics : list collector :=
  [newCounterVec "RequestsTotal" "nssAAF_requests_total" ["service"; "endpoint"; "method"; "status_code"];
   newHistogramVec "RequestDuration" "nssAAF_request_duration_seconds" ["service"; "endpoint"; "method"]].
Definition eap_metrics : list collector :=
  [newGauge "EapSessionsActive" "nssAAF_eap_sessions_active"; newCounterVec "EapSessionsTotal" "nssAAF_eap_sessions_total" ["result"];
   newHistogramVec "EapSessionDuration" "nssAAF_eap_session_duration_seconds" ["eap_method"]; newHistogram "EapRounds" "nssAAF_eap_rounds"].
Definition aaa_metrics : list collector :=
  [newCounterVec "AaaRequestsTotal" "nssAAF_aaa_requests_total" ["protocol"; "server"; "result"];
   newHistogramVec "AaaRequestDuration" "nssAAF_aaa_request_duration_seconds" ["protocol"; "server"]].
Definition store_metrics : list collector :=
  [newHistogramVec "DbQueryDuration" "nssAAF_db_query_duration_seconds" ["operation"; "table"];
   newGauge "DbConnectionsActive" "nssAAF_db_connections_active";
   newCounterVec "RedisOperationsTotal" "nssAAF_redis_operations_total" ["operation"; "result"]].
Definition breaker_metrics : list collector :=
  [newGaugeVec "CircuitBreakerState" "nssAAF_circuit_breaker_state" ["server"];
   newCounterVec "CircuitBreakerTransitions" "nssAAF_circuit_breaker_transitions_total" ["server"; "from_state"; "to_state"];
   newCounterVec "CircuitBreakerFailures" "nssAAF_circuit_breaker_failures_total" ["server"];
   newCounterVec "NrfCacheHits" "nssAAF_nrf_cache_hits_total" []; newCounterVec "NrfCacheMisses" "nssAAF_nrf_cache_misses_total" []].
Definition dlq_metrics : list collector :=
  [newGauge "DLQDepth" "nssAAF_dlq_depth"; newCounterVec "DLQProcessed" "nssAAF_dlq_processed_total" ["result"];
   newCounterVec "DLQRetry" "nssAAF_dlq_retry_total" ["error_type"];
   newCounter "DLQReenqueueFailures" "nssAAF_dlq_reenqueue_failures_total"].
Definition limit_metrics : list collector :=
  [newCounterVec "RateLimitRequests" "nssAAF_ratelimit_requests_total" ["handler"; "result"];
   newCounterVec "RateLimitDecisionRequests" "nssAAF_ratelimit_decisions_total" ["service"; "scope"; "result"];
   newCounterVec "ServerInitiatedCompletions" "nssAAF_server_initiated_completions_total" ["message_type"; "completion"]].
Definition client_metrics : list collector :=
  [newHistogramVec "HTTPClientRequestDuration" "nssAAF_httpclient_request_duration_seconds" ["source"; "destination"; "status"];
   newCounterVec "HTTPClientRequestRetries" "nssAAF_httpclient_request_retries_total" ["source"; "destination"];
   newGaugeVec "HTTPClientCircuitBreakerState" "nssAAF_httpclient_circuit_breaker_state" ["destination"];
   newCounterVec "HTTPClientCircuitBreakerTransitions" "nssAAF_httpclient_circuit_breaker_transitions_total"
     ["destination"; "from_state"; "to_state"]].
Definition collectors : list collector :=
  request_metrics ++ eap_metrics ++ aaa_metrics ++ store_metrics ++ breaker_metrics ++ dlq_metrics ++ limit_metrics ++ client_metrics.

(** ** Recording *)
Inductive record_op : Type := Inc | Dec | AddN | SetV | Observe.
Definition op_ok (k : kind) (o : record_op) : bool :=
  match k, o with
  | Counter, (Inc | AddN) | Gauge, (Inc | Dec | AddN | SetV) | Histogram, Observe => true
  | _, _ => false
  end.
(** A call: the collector, the label values ([None]: no [WithLabelValues]) and the operation. *)
Record call : Type := mkCall { c_var : string; c_values : option (list string); c_op : record_op }.
Definition Record_ (reg : list collector) (c : call) : result string collector :=
  match List.find (fun m => str_eqb (m_var m) (c_var c)) reg with
  | None => Panic
  | Some m =>
      match m_labels m, c_values c with
      | Some ls, Some vs => if len ls =? len vs then Ok m else Panic
      | None, None => Ok m
      | _, _ => Panic
      end
  end.

(** The calls in the sources; variables stand for the values that are computed there. *)
Section Calls.
Context (service endpoint method status typ completion protocol host res url from_ to_ source err : string).
Definition limit_calls (svc scope : string) : list call :=
  [mkCall "RateLimitDecisionRequests" (Some [svc; scope; "error"]) Inc; mkCall "RateLimitRequests" (Some [svc; "limited"]) Inc;
   mkCall "RateLimitDecisionRequests" (Some [svc; scope; "limited"]) Inc;
   mkCall "RateLimitDecisionRequests" (Some [svc; scope; "allowed"]) Inc].
Definition handler_calls : list call :=
  limit_calls "aiw" "supi" ++ limit_calls "aiw" "authctx" ++ limit_calls "nssaa" "amf" ++ limit_calls "nssaa" "authctx"
  ++ [mkCall "RequestsTotal" (Some [service; endpoint; method; status]) Inc;
      mkCall "RequestDuration" (Some [service; endpoint; method]) Observe;
      mkCall "ServerInitiatedCompletions" (Some [typ; completion]) Inc;
      mkCall "AaaRequestsTotal" (Some [protocol; host; res]) Inc; mkCall "AaaRequestDuration" (Some [protocol; host]) Observe].
Definition queue_calls : list call :=
  [mkCall "DLQDepth" None Inc; mkCall "DLQDepth" None Dec; mkCall "DLQProcessed" (Some ["exhausted"]) Inc;
   mkCall "DLQProcessed" (Some ["success"]) Inc; mkCall "DLQRetry" (Some [err]) Inc; mkCall "DLQProcessed" (Some ["error"]) Inc;
   mkCall "DLQReenqueueFailures" None Inc].
Definition client_calls : list call :=
  [mkCall "CircuitBreakerTransitions" (Some [url; from_; to_]) Inc; mkCall "CircuitBreakerState" (Some [url]) SetV;
   mkCall "HTTPClientCircuitBreakerState" (Some [url]) SetV; mkCall "HTTPClientRequestDuration" (Some [source; url; "circuit_open"]) Observe;
   mkCall "HTTPClientRequestDuration" (Some [source; url; status]) Observe;
   mkCall "HTTPClientCircuitBreakerTransitions" (Some [url; from_; to_]) Inc;
   mkCall "HTTPClientRequestRetries" (Some [source; url]) AddN].
Definition calls : list call := handler_calls ++ queue_calls ++ client_calls.
Definition recorded : list string := m_var <$> List.filter (fun m => existsb (fun c => str_eqb (c_var c) (m_var m)) calls) collectors.

(** No metric makes the process panic: loading the package registers every collector,
    and every call of the program names a registered collector with as many values as it
    has labels and an operation of its kind. *)
Theorem metrics_never_panic :
  init [] collectors = Ok collectors
  /\ Forall (fun c => exists m, Record_ collectors c = Ok m /\ op_ok (m_kind m) (c_op c) = true) calls.
Proof. split; [vm_compute; reflexivity|]. repeat constructor; eexists; split; reflexivity. Qed.

(** Ten of the collectors are never recorded. *)
Lemma never_recorded : (m_var <$> List.filter (fun m => negb (bool_decide (m_var m ∈ recorded))) collectors)
  = ["EapSessionsActive"; "EapSessionsTotal"; "EapSessionDuration"; "EapRounds"; "DbQueryDuration"; "DbConnectionsActive";
     "RedisOperationsTotal"; "CircuitBreakerFailures"; "NrfCacheHits"; "NrfCacheMisses"].
Proof. reflexivity. Qed.
End Calls.

(** ** The gauge of the AMF queue *)
Module DlqDepth.
(** What the Redis list holds: items this code can read, or others. *)
Inductive entry : Type := Item (id : string) | Unreadable.
Inductive event : Type :=
| Enqueue (id : string) (pushed : bool)  (** [LPUSH] may fail *)
| Dequeue (up : bool)                    (** [BRPOP]: times out on an empty list or fails *)
| Foreign (q : list entry).              (** another process changes the list *)
Record state : Type := mkState { queue : list entry; gauge : Z }.
Definition step (s : state) (e : event) : state :=
  match e with
  | Enqueue id pushed => if pushed then mkState (queue s ++ [Item id]) (gauge s + 1) else s
  | Dequeue up =>
      match up, queue s with
      | true, Item _ :: q => mkState q (gauge s - 1)
      | true, Unreadable :: q => mkState q (gauge s)
      | _, _ => s
      end
  | Foreign q => mkState q (gauge s)
  end.
Definition readable (q : list entry) : bool := forallb (fun e => match e with Item _ => true | _ => false end) q.
Definition run (s : state) (es : list event) : state := fold_left step es s.

(** While one process works on the queue and all entries can be read, the gauge moves with
    the length of the queue: it is right up to the length at the start. *)
Theorem gauge_tracks s es :
  readable (queue s) = true -> Forall (fun e => match e with Foreign _ => False | _ => True end) es ->
  gauge (run s es) - len (queue (run s es)) = gauge s - len (queue s) /\ readable (queue (run s es)) = true.
Proof.
  intros Hr Hf. revert s Hr. induction Hf as [|e es He Hf IH]; intros s Hr; [done|]. cbn [run fold_left].
  assert (Hs : gauge (step s e) - len (queue (step s e)) = gauge s - len (queue s) /\ readable (queue (step s e)) = true).
  { destruct e as [id []|[]|q]; cbn [step]; try done.
    - cbn [gauge queue]. unfold readable in *. rewrite forallb_app, Hr. split; [|done]. unfold len. rewrite length_app. cbn. lia.
    - destruct (queue s) as [|[id|] q] eqn:E; [by rewrite E| |done]. cbn [gauge queue]. split; [|done].
      unfold len. cbn. lia. }
  destruct Hs as [Hg Hr']. destruct (IH _ Hr') as [Hg' Hr'']. split; [|done]. unfold run in Hg'. lia.
Qed.
Lemma gauge_tracks_witness :
  gauge (run (mkState [Item "a"] 0) [Enqueue "b" true; Dequeue true; Dequeue true; Dequeue true]) - 0 = 0 - 1.
Proof.
  apply (gauge_tracks (mkState [Item "a"] 0) [Enqueue "b" true; Dequeue true; Dequeue true; Dequeue true]); [reflexivity|].
  repeat constructor.
Defined.
(** An entry that cannot be read is dropped and stays counted; another process's work is
    not seen. *)
Example gauge_drifts :
  run (mkState [Unreadable] 1) [Dequeue true] = mkState [] 1
  /\ run (mkState [] 0) [Enqueue "a" true; Foreign []; Enqueue "b" true] = mkState [Item "b"] 2.
Proof. split; reflexivity. Qed.
End DlqDepth.
