(* ===== verification/Pools.v ===== *)
(** * Connection pools: internal/storage/postgres/pool.go and reconnect.go,
    internal/cache/redis/pool.go, and the consumer loop of internal/aaa/gateway/dlq.go

    A pool of the libraries pgx and go-redis is a handle; the world says which handles are
    open.  What the libraries and servers do (the DSN parses, the pool is created, the ping
    is answered) is an argument of each call. *)
From S2P Require Import Prelude Regex Common Types Encoding EapSession ServerInit Gateway.
Local Open Scope string_scope.
Local Open Scope Z_scope.
Local Open Scope list_scope.

Record world : Type := mkWorld { opened : gset nat; next : nat }.
Definition fresh_world : world := mkWorld ∅ 0.
Definition create (w : world) : nat * world := (next w, mkWorld ({[next w]} ∪ opened w) (S (next w))).
Definition close (h : nat) (w : world) : world := mkWorld (opened w ∖ {[h]}) (next w).

(** ** postgres/pool.go *)
Module Pg.
Record Config : Type := mkConfig {
  DSN : string; MaxConns : Z; MinConns : Z; MaxConnLifetime : Z; MaxConnIdleTime : Z; HealthCheckPeriod : Z }.
Record pgx_config : Type := mkPgx { x_MaxConns : Z; x_MinConns : Z; x_Lifetime : Z; x_IdleTime : Z; x_Health : Z }.
Inductive pool_error : Type := ErrParse | ErrCreate | ErrPing.
(** What a call of [NewPool] meets. *)
Record meeting : Type := mkMeeting { parsed : option pgx_config; created : bool; pinged : bool }.

Definition override (v d : Z) : Z := if 0 <? v then v else d.
Definition effective (cfg : Config) (x : pgx_config) : pgx_config :=
  mkPgx (override (MaxConns cfg) (x_MaxConns x)) (override (MinConns cfg) (x_MinConns x))
    (override (MaxConnLifetime cfg) (x_Lifetime x)) (override (MaxConnIdleTime cfg) (x_IdleTime x))
    (override (HealthCheckPeriod cfg) (x_Health x)).
Definition NewPool (m : meeting) (cfg : Config) (w : world) : result pool_error (nat * pgx_config) * world :=
  match parsed m with
  | None => (Err ErrParse, w)
  | Some x =>
      if negb (created m) then (Err ErrCreate, w)
      else
        let '(h, w) := create w in
        if negb (pinged m) then (Err ErrPing, close h w) else (Ok (h, effective cfg x), w)
  end.

(** ** postgres/reconnect.go *)

(** The errors of a chain, outermost first, as [errors.As] walks it. *)
Inductive layer : Type := PgError (code : string) | OpError | Other (msg : string).
Definition connectionErrorCodes : list string :=
  ["08000"; "08003"; "08006"; "08001"; "08004"; "57P01"; "57P02"; "57P03"; "40001"].
Fixpoint as_PgError (err : list layer) : option string :=
  match err with [] => None | PgError c :: _ => Some c | _ :: err => as_PgError err end.
Definition IsConnectionError (err : list layer) : bool :=
  match as_PgError err with
  | Some code => bool_decide (code ∈ connectionErrorCodes)
  | None => existsb (fun l => match l with OpError => true | _ => false end) err
  end.

(** The pool it holds may be closed. *)
Record ReconnectingPool : Type := mkRP { rp_pool : nat; rp_cfg : Config }.
Definition NewReconnectingPool (m : meeting) (cfg : Config) (w : world) : option ReconnectingPool * world :=
  match NewPool m cfg w with
  | (Ok (h, _), w) => (Some (mkRP h cfg), w)
  | (_, w) => (None, w)
  end.
Definition reconnect (m : meeting) (rp : ReconnectingPool) (w : world) : option pool_error * ReconnectingPool * world :=
  let w := close (rp_pool rp) w in
  match NewPool m (rp_cfg rp) w with
  | (Ok (h, _), w) => (None, mkRP h (rp_cfg rp), w)
  | (Err e, w) => (Some e, rp, w)
  | (Panic, w) => (None, rp, w)
  end.

Inductive outcome : Type := Success | NotConnection (err : list layer) | ContextDone | ConnectionFailed.
(** An attempt: what the function returns, whether the context ends in the pause, and what
    the reconnection meets. *)
Record attempt : Type := mkAttempt { fn_error : option (list layer); cancelled : bool; meets : meeting }.
Fixpoint ExecuteWithRetry (attempts : list attempt) (rp : ReconnectingPool) (w : world) : outcome * ReconnectingPool * world :=
  match attempts with
  | [] => (ConnectionFailed, rp, w)
  | a :: attempts =>
      match fn_error a with
      | None => (Success, rp, w)
      | Some err =>
          if negb (IsConnectionError err) then (NotConnection err, rp, w)
          else if cancelled a then (ContextDone, rp, w)
          else let '(_, rp, w) := reconnect (meets a) rp w in ExecuteWithRetry attempts rp w
      end
  end.

(** At most the pool it holds is open. *)
Definition holds_only (w0 : world) (rp : ReconnectingPool) (w : world) : Prop :=
  opened w ⊆ {[rp_pool rp]} ∪ opened w0 /\ opened w0 ⊆ opened w /\ (next w0 <= rp_pool rp < next w)%nat
  /\ set_Forall (fun h => (h < next w0)%nat) (opened w0).

Lemma NewPool_opens m cfg w :
  match NewPool m cfg w with
  | (Ok (h, x), w') => h = next w /\ next w' = S h /\ opened w' = {[h]} ∪ opened w
      /\ exists d, parsed m = Some d /\ x = effective cfg d
  | (Err _, w') => set_Forall (fun h => (h < next w)%nat) (opened w) -> opened w' = opened w /\ (next w <= next w')%nat
  | (Panic, _) => False
  end.
Proof.
  unfold NewPool, create, close. destruct (parsed m) as [d|]; [|done]. destruct (created m); [|done]. cbn.
  destruct (pinged m); cbn; [eauto 10|]. intros Hf. split; [|lia].
  assert (next w ∉ opened w) by (intros Hin; specialize (Hf _ Hin); cbn in Hf; lia). set_solver.
Qed.

Lemma reconnect_holds w0 m rp w :
  holds_only w0 rp w ->
  let '(e, rp', w') := reconnect m rp w in
  holds_only w0 rp' w' /\ (e = None -> rp_pool rp' ∈ opened w') /\ (e <> None -> opened w' = opened w0).
Proof.
  intros (Hs & Hk & Hn & Hf). unfold reconnect.
  assert (Hc : opened (close (rp_pool rp) w) = opened w0).
  { cbn. assert (rp_pool rp ∉ opened w0) by (intros Hin; specialize (Hf _ Hin); cbn in Hf; lia). set_solver. }
  pose proof (NewPool_opens m (rp_cfg rp) (close (rp_pool rp) w)) as Ho.
  destruct (NewPool m (rp_cfg rp) (close (rp_pool rp) w)) as [[[h x]|e|] w']; [| |done].
  - destruct Ho as (-> & Hn' & Ho & _). rewrite Hc in Ho. cbn [next close] in *. split; [|split; [|done]].
    + split_and!; cbn [rp_pool]; rewrite ?Ho; [set_solver..| |lia|done]. lia.
    + intros _. cbn. set_solver.
  - rewrite Hc in Ho. cbn [next close] in *. destruct Ho as [Ho Hle]. { intros h Hh. specialize (Hf h Hh). cbn in *. lia. }
    split; [|split; [done|by rewrite Ho]]. split_and!; rewrite ?Ho; [set_solver..| |lia|done]. lia.
Qed.

(** Whatever the database does, the reconnecting pool neither leaks pools nor touches
    others: after its creation and any number of calls with any number of attempts, at most
    the pool it holds is open besides those that were open before. *)
Theorem one_pool m cfg w rp w1 calls :
  set_Forall (fun h => (h < next w)%nat) (opened w) -> NewReconnectingPool m cfg w = (Some rp, w1) ->
  let '(rp', w') := foldl (fun '(rp, w) attempts => let '(_, rp, w) := ExecuteWithRetry attempts rp w in (rp, w)) (rp, w1) calls in
  holds_only w rp' w'.
Proof.
  intros Hf Hnew. assert (H1 : holds_only w rp w1).
  { unfold NewReconnectingPool in Hnew. pose proof (NewPool_opens m cfg w) as Ho.
    destruct (NewPool m cfg w) as [[[h x]|e|] w']; [|done|done]. injection Hnew as <- <-. destruct Ho as (-> & Hn & Ho & _).
    split_and!; cbn [rp_pool]; rewrite ?Ho; [set_solver..|lia|lia|done]. }
  clear Hnew. revert rp w1 H1. induction calls as [|c calls IH]; intros rp w1 H1; [done|]. cbn [foldl].
  assert (Hc : let '(_, rp', w') := ExecuteWithRetry c rp w1 in holds_only w rp' w').
  { clear IH. revert rp w1 H1. induction c as [|a c IHc]; intros rp w1 H1; [done|]. cbn [ExecuteWithRetry].
    destruct (fn_error a) as [err|]; [|done]. destruct (IsConnectionError err); [|done]. cbn [negb]. destruct (cancelled a); [done|].
    pose proof (reconnect_holds w (meets a) rp w1 H1) as Hr. destruct (reconnect (meets a) rp w1) as [[e rp'] w']. apply IHc, Hr. }
  destruct (ExecuteWithRetry c rp w1) as [[o rp'] w']. by apply IH.
Qed.

(** When the last reconnection fails, the pool it goes on holding is closed. *)
Example failed_reconnect_holds_closed :
  let up := mkMeeting (Some (mkPgx 4 0 0 0 0)) true true in
  let down := mkMeeting (Some (mkPgx 4 0 0 0 0)) true false in
  let cfg := mkConfig "dsn" 10 0 0 0 0 in
  match NewReconnectingPool up cfg fresh_world with
  | (Some rp, w) => let '(o, rp', w') := ExecuteWithRetry [mkAttempt (Some [OpError]) false down] rp w in
                    o = ConnectionFailed /\ rp' = rp /\ opened w' = ∅
  | _ => False
  end.
Proof. vm_compute. split_and!; reflexivity. Qed.
Lemma one_pool_witness :
  let up := mkMeeting (Some (mkPgx 4 0 0 0 0)) true true in
  let cfg := mkConfig "dsn" 10 0 0 0 0 in
  exists rp w, NewReconnectingPool up cfg fresh_world = (Some rp, w)
    /\ let '(rp', w') := foldl (fun '(rp, w) attempts => let '(_, rp, w) := ExecuteWithRetry attempts rp w in (rp, w)) (rp, w)
                           [[mkAttempt (Some [OpError]) false up; mkAttempt None false up]] in holds_only fresh_world rp' w'.
Proof.
  eexists _, _. split; [reflexivity|].
  apply (one_pool (mkMeeting (Some (mkPgx 4 0 0 0 0)) true true) (mkConfig "dsn" 10 0 0 0 0) fresh_world); [|reflexivity].
  intros h Hh. apply elem_of_empty in Hh. destruct Hh.
Defined.
End Pg.

(** ** redis/pool.go *)
Module RedisPool.
Record Config : Type := mkConfig { Addrs : list string; Password : string; DB : Z; PoolSize : Z; MinIdleConns : Z }.
Inductive client : Type := Single (h : nat) (addr : string) (db : Z) | Cluster (h : nat) (addrs : list string).
Inductive redis_error : Type := ErrNoAddress | ErrRedisPing.
(** [cfg.Addrs[0]] panics without an address. *)
Definition NewPool (pinged : bool) (cfg : Config) (w : world) : result redis_error client * world :=
  match Addrs cfg with
  | [] => (Panic, w)
  | addr :: _ => let '(h, w) := create w in if pinged then (Ok (Single h addr (DB cfg)), w) else (Err ErrRedisPing, close h w)
  end.
Definition NewClusterPool (pinged : bool) (cfg : Config) (w : world) : result redis_error client * world :=
  match Addrs cfg with
  | [] => (Err ErrNoAddress, w)
  | addrs => let '(h, w) := create w in if pinged then (Ok (Cluster h addrs), w) else (Err ErrRedisPing, close h w)
  end.
Definition Close (c : client) (w : world) : world := match c with Single h _ _ | Cluster h _ => close h w end.

(** Opening and closing leaves what was open before, also when the ping fails; without an
    address the single-node constructor panics where the one for a cluster refuses. *)
Theorem redis_pool_closes pinged cfg w :
  set_Forall (fun h => (h < next w)%nat) (opened w) ->
  let ends r := match r with (Ok c, w') => opened (Close c w') = opened w | (Err _, w') => opened w' = opened w | (Panic, _) => Addrs cfg = [] end in
  ends (NewPool pinged cfg w) /\ ends (NewClusterPool pinged cfg w)
  /\ (Addrs cfg = [] -> NewPool pinged cfg w = (Panic, w) /\ NewClusterPool pinged cfg w = (Err ErrNoAddress, w)).
Proof.
  intros Hf. assert (Hn : next w ∉ opened w) by (intros Hin; specialize (Hf _ Hin); cbn in Hf; lia).
  unfold NewPool, NewClusterPool, create. destruct (Addrs cfg) as [|a l]; [done|]. destruct pinged; cbn; split_and!; try done; set_solver.
Qed.
End RedisPool.

(** ** dlq.go: the consumer loop of the AAA gateway *)
(** The ticks that arrive before the context ends, with what each of them meets; an interval
    that is not positive ends the loop at once. *)
Definition runDLQConsumer (MaxRetries PollInterval : Z) (ticks : list (string * bool * http_outcome)) (q : list DLQMessage) : list DLQMessage :=
  if PollInterval <=? 0 then q else run_dlq MaxRetries ticks q.
