(* ===== verification/Durations.v ===== *)
(** * Durations of the configuration: internal/config/config.go, decodeDurationLike and the
    two UnmarshalYAML methods, with [time.ParseDuration]

    Arithmetic is that of 64-bit integers.  Floating point appears in two places, the
    fraction of a number in a duration and a floating point number of seconds; what it gives
    is a parameter. *)
From S2P Require Import Prelude KeyVault Regex Common Types Encoding EapSession Config.
Import Validator.
Local Open Scope string_scope.
Local Open Scope Z_scope.
Local Open Scope list_scope.

Definition two63 : Z := 2 ^ 63.
Definition u64 (x : Z) : Z := x mod 2 ^ 64.
Definition i64 (x : Z) : Z := (x + two63) mod 2 ^ 64 - two63.
Definition digit (c : char) : Z := ascii_code c - 48.

(** ** time.ParseDuration *)
Section Parse.
(** [uint64(float64(f) * (float64(unit) / scale))] for the fraction [f] of [k] digits. *)
Context (fraction : Z -> Z -> nat -> Z).

(** The digits at the start; [None]: more than 2^63. *)
Fixpoint leadingInt (x : Z) (cs : list char) : option (Z * list char) :=
  match cs with
  | [] => Some (x, [])
  | c :: t =>
      if negb (is_digit c) then Some (x, cs)
      else if two63 / 10 <? x then None
      else let x := x * 10 + digit c in if two63 <? x then None else leadingInt x t
  end.
(** Digits that do not fit are skipped. *)
Fixpoint leadingFraction (x : Z) (k : nat) (overflow : bool) (cs : list char) : Z * nat * list char :=
  match cs with
  | [] => (x, k, [])
  | c :: t =>
      if negb (is_digit c) then (x, k, cs)
      else if overflow then leadingFraction x k true t
      else if (two63 - 1) / 10 <? x then leadingFraction x k true t
      else let y := x * 10 + digit c in
           if two63 <? y then leadingFraction x k true t else leadingFraction y (S k) false t
  end.
Definition is_dot (c : char) : bool := ascii_code c =? 46.
(** The unit: up to the next digit or point. *)
Fixpoint span_unit (cs : list char) : list char * list char :=
  match cs with
  | [] => ([], [])
  | c :: t => if is_dot c || is_digit c then ([], cs) else let '(u, r) := span_unit t in (c :: u, r)
  end.
Definition micro1 : list char := [Ascii.ascii_of_N 194; Ascii.ascii_of_N 181; Ascii.ascii_of_N 115].
Definition micro2 : list char := [Ascii.ascii_of_N 206; Ascii.ascii_of_N 188; Ascii.ascii_of_N 115].
Definition unitMap : list (list char * Z) :=
  [(chars "ns", 1); (chars "us", 1000); (micro1, 1000); (micro2, 1000); (chars "ms", 1000000); (chars "s", 1000000000);
   (chars "m", 60000000000); (chars "h", 3600000000000)].
Fixpoint unit_of (l : list (list char * Z)) (u : list char) : option Z :=
  match l with [] => None | (k, n) :: l => if bool_decide (k = u) then Some n else unit_of l u end.

(** One number with its unit: its value and the rest. *)
Definition term (cs : list char) : option (Z * list char) :=
  match cs with
  | [] => None
  | c :: _ =>
      if negb (is_dot c || is_digit c) then None
      else
        match leadingInt 0 cs with
        | None => None
        | Some (v, s1) =>
            let pre := negb (length cs =? length s1)%nat in
            let '(f, k, s2, post) :=
              match s1 with
              | d :: t => if is_dot d then let '(f, k, r) := leadingFraction 0 0 false t in (f, k, r, negb (length t =? length r)%nat)
                          else (0, 0%nat, s1, false)
              | [] => (0, 0%nat, s1, false)
              end in
            if negb pre && negb post then None
            else match span_unit s2 with
            | ([], _) => None
            | (u, rest) =>
                match unit_of unitMap u with
                | None => None
                | Some unit =>
                    if two63 / unit <? v then None
                    else
                      let v := v * unit in
                      if 0 <? f then
                        let v := u64 (v + fraction f unit k) in if two63 <? v then None else Some (v, rest)
                      else Some (v, rest)
                end
            end
        end
  end.
(** The sum of the terms; each takes at least one character, so the length is enough fuel. *)
Fixpoint terms (fuel : nat) (d : Z) (cs : list char) : option Z :=
  match fuel, cs with
  | _, [] => Some d
  | O, _ => None
  | S fuel, _ =>
      match term cs with
      | None => None
      | Some (v, rest) => let d := u64 (d + v) in if two63 <? d then None else terms fuel d rest
      end
  end.
Definition ParseDuration (s : string) : option Z :=
  let '(neg, cs) :=
    match chars s with
    | c :: t => if (ascii_code c =? 45) || (ascii_code c =? 43) then (ascii_code c =? 45, t) else (false, chars s)
    | [] => (false, [])
    end in
  if bool_decide (cs = chars "0") then Some 0
  else match cs with
  | [] => None
  | _ => match terms (length cs) 0 cs with
         | None => None
         | Some d => if neg then Some (- d) else if two63 - 1 <? d then None else Some d
         end
  end.

(** ** config.go *)
(** A YAML value of type [interface{}]; floating point numbers of type [F]. *)
Context {F : Type} (float_seconds : F -> Z).
Inductive yaml_value : Type := VNil | VInt (n : Z) | VFloat (x : F) | VString (s : string) | VOther (type : string).
Definition decodeDurationLike (v : yaml_value) : result string (Z * bool) :=
  match v with
  | VNil => Ok (0, false)
  | VInt n => Ok (i64 (n * second), true)
  | VFloat x => Ok (float_seconds x, true)
  | VString s => match ParseDuration s with Some d => Ok (d, true) | None => Err "invalid duration" end
  | VOther t => Err ("unsupported type " +:+ t)
  end.
(** [node.Decode] gives the raw fields, or its error. *)
Definition HeartbeatConfig_UnmarshalYAML (raw : result string (yaml_value * bool * Z)) (c : HeartbeatConfig) : result string HeartbeatConfig :=
  let? r := raw in
  let '(interval, accept, maxFailures) := r in
  let? d := map_err (fun e => "heartbeat.initialIntervalSeconds: " +:+ e) (decodeDurationLike interval) in
  Ok (mkHB (if snd d then fst d else InitialInterval c) accept maxFailures).
Definition DiscoveryCacheConfig_UnmarshalYAML (raw : result string (bool * yaml_value)) (c : DiscoveryCacheConfig) : result string DiscoveryCacheConfig :=
  let? r := raw in
  let '(enabled, ttl) := r in
  let? d := map_err (fun e => "discoveryCache.defaultTTLSeconds: " +:+ e) (decodeDurationLike ttl) in
  Ok (mkDC enabled (if snd d then fst d else DefaultTTL c)).

(** ** What the forms mean *)
Lemma leadingInt_digits ds rest : forall x,
  forallb is_digit ds = true -> no_digit rest -> 0 <= x -> foldl (fun acc c => acc * 10 + digit c) x ds <= two63 ->
  leadingInt x (ds ++ rest) = Some (foldl (fun acc c => acc * 10 + digit c) x ds, rest).
Proof.
  assert (Hmono : forall ds x, forallb is_digit ds = true -> 0 <= x -> x <= foldl (fun acc c => acc * 10 + digit c) x ds).
  { clear. induction ds as [|c ds IH]; intros x Hd Hx; [done|]. cbn in *. apply andb_prop in Hd as [Hc Hd].
    unfold is_digit, in_range in Hc. unfold digit in *. zbool. specialize (IH (x * 10 + (ascii_code c - 48)) Hd). lia. }
  induction ds as [|c ds IH]; intros x Hd Hr Hx Hle.
  - cbn. destruct rest as [|c rest]; [done|]. cbn in Hr |- *. by rewrite Hr.
  - cbn in Hd |- *. apply andb_prop in Hd as [Hc Hd]. rewrite Hc. cbn [negb].
    assert (Hr' : 48 <= ascii_code c <= 57) by (unfold is_digit, in_range in Hc; zbool; lia).
    cbn in Hle. pose proof (Hmono ds (x * 10 + digit c) Hd) as Hm. unfold digit in *.
    assert (Hx10 : x * 10 <= two63) by lia. rewrite (proj2 (Z.ltb_ge _ _)) by (apply Z.div_le_lower_bound; lia).
    rewrite (proj2 (Z.ltb_ge _ _)) by lia. apply IH; [done..|lia|done].
Qed.

(** A unit starts with neither digit nor point and is read whole. *)
Lemma units_read : Forall (fun '(u, k) => u <> [] /\ no_digit u /\ match u with c :: _ => is_dot c = false | [] => False end
  /\ span_unit u = (u, []) /\ unit_of unitMap u = Some k /\ 0 < k) unitMap.
Proof. repeat constructor; vm_compute; try done; discriminate. Qed.

Lemma term_unit n u k : (u, k) ∈ unitMap -> 0 < n -> n * k <= two63 -> term (chars (show_uint n) ++ u) = Some (n * k, []).
Proof.
  intros Hu Hn Hle. pose proof units_read as Hall. rewrite Forall_forall in Hall. destruct (Hall _ Hu) as (Hne & Hnd & Hdot & Hspan & Hof & Hk).
  destruct (show_uint_digits n Hn) as (Hds & Hd & Hv).
  assert (Hli : leadingInt 0 (chars (show_uint n) ++ u) = Some (n, u)).
  { rewrite leadingInt_digits; [|done|done|lia|]; change (foldl _ 0 (chars (show_uint n))) with (digits_value (chars (show_uint n)));
      rewrite Hv; [done|]. nia. }
  unfold term. destruct (chars (show_uint n)) as [|c ds] eqn:Ec; [done|]. cbn [app]. cbn [app] in Hli. rewrite Hli.
  assert (Hc : is_digit c = true) by (by apply andb_prop in Hd as [Hd _]). rewrite Hc, orb_true_r. cbn [negb].
  assert (Hpre : (length (c :: ds ++ u) =? length u)%nat = false) by (apply Nat.eqb_neq; cbn; rewrite length_app; lia).
  rewrite Hpre. cbn [negb andb]. destruct u as [|d u]; [done|]. rewrite Hdot. cbn [negb andb]. rewrite Hspan, Hof.
  rewrite (proj2 (Z.ltb_ge _ _)) by (apply Z.div_le_lower_bound; lia). done.
Qed.

(** A number with a unit means that many units: for every unit of the package and every
    positive number whose product fits, [ParseDuration] of the decimal text followed by the
    unit is the product. *)
Lemma ParseDuration_unit n u k :
  (u, k) ∈ unitMap -> 0 < n -> n * k < two63 -> ParseDuration (show_uint n +:+ String.string_of_list_ascii u) = Some (n * k).
Proof.
  intros Hu Hn Hle. pose proof (term_unit n u k Hu Hn ltac:(lia)) as Ht.
  pose proof units_read as Hall. rewrite Forall_forall in Hall. destruct (Hall _ Hu) as (Hne & _ & _ & _ & _ & Hk).
  destruct (show_uint_digits n Hn) as (Hds & Hd & _). unfold ParseDuration. rewrite chars_app, chars_of_list.
  destruct (chars (show_uint n)) as [|c ds] eqn:Ec; [done|]. cbn [app] in *.
  assert (Hc : is_digit c = true) by (by apply andb_prop in Hd as [Hd _]).
  assert (Hr : 48 <= ascii_code c <= 57) by (unfold is_digit, in_range in Hc; zbool; lia).
  rewrite !(proj2 (Z.eqb_neq _ _)) by lia. cbn [orb].
  rewrite bool_decide_eq_false_2 by (intros H0; injection H0 as _ H0; destruct ds; [by destruct u|done]).
  cbn [length terms]. rewrite Ht. cbn zeta.
  assert (Hu64 : u64 (0 + n * k) = n * k) by (unfold u64; rewrite Z.add_0_l; apply Z.mod_small; unfold two63 in *; nia).
  rewrite Hu64. rewrite (proj2 (Z.ltb_ge _ _)) by lia. destruct (length (ds ++ u)); cbn [terms]; rewrite (proj2 (Z.ltb_ge _ _)) by lia; done.
Qed.

(** The two forms of a time in the configuration agree.  For every positive number of
    seconds that a duration can hold, the integer and the text with the unit s (and, where it
    fits, sixty times as much for m) give the same heartbeat interval and cache lifetime; a
    field that is absent keeps the value from before; a text that is no duration, or a value
    of another type, is an error. *)
Theorem duration_forms_agree n accept failures enabled hb dc :
  0 < n -> n * second < two63 ->
  let s := show_uint n +:+ "s" in
  let m := show_uint n +:+ "m" in
  HeartbeatConfig_UnmarshalYAML (Ok (VInt n, accept, failures)) hb = Ok (mkHB (n * second) accept failures)
  /\ HeartbeatConfig_UnmarshalYAML (Ok (VString s, accept, failures)) hb = Ok (mkHB (n * second) accept failures)
  /\ DiscoveryCacheConfig_UnmarshalYAML (Ok (enabled, VInt n)) dc = DiscoveryCacheConfig_UnmarshalYAML (Ok (enabled, VString s)) dc
  /\ (60 * n * second < two63 -> decodeDurationLike (VString m) = decodeDurationLike (VInt (60 * n)))
  /\ HeartbeatConfig_UnmarshalYAML (Ok (VNil, accept, failures)) hb = Ok (mkHB (InitialInterval hb) accept failures)
  /\ DiscoveryCacheConfig_UnmarshalYAML (Ok (enabled, VNil)) dc = Ok (mkDC enabled (DefaultTTL dc))
  /\ (forall v, (exists t, v = VOther t) \/ (exists t, v = VString t /\ ParseDuration t = None) ->
       exists e, HeartbeatConfig_UnmarshalYAML (Ok (v, accept, failures)) hb = Err e).
Proof.
  intros Hn Hf. cbn zeta.
  assert (Hi : forall z, 0 <= z < two63 -> i64 z = z).
  { intros z Hz. unfold i64. rewrite Z.mod_small by (unfold two63 in *; lia). lia. }
  assert (Hs : decodeDurationLike (VString (show_uint n +:+ "s")) = Ok (n * second, true)).
  { cbn. pose proof (ParseDuration_unit n (chars "s") 1000000000) as Hp. change (String.string_of_list_ascii (chars "s")) with "s" in Hp.
    rewrite Hp; [done|set_solver|done|unfold second in *; lia]. }
  assert (Hint : decodeDurationLike (VInt n) = Ok (n * second, true)) by (cbn; rewrite Hi; [done|unfold second in *; lia]).
  unfold HeartbeatConfig_UnmarshalYAML, DiscoveryCacheConfig_UnmarshalYAML. cbn [rbind]. rewrite Hs, Hint. split_and!; try done.
  - intros Hm. cbn. pose proof (ParseDuration_unit n (chars "m") 60000000000) as Hp. change (String.string_of_list_ascii (chars "m")) with "m" in Hp.
    rewrite Hp; [|set_solver|done|unfold second in *; lia]. rewrite Hi by (unfold second in *; lia). do 2 f_equal. unfold second. lia.
  - intros v [[t ->]|(t & -> & Ht)]; cbn; [eauto|]. rewrite Ht. cbn. eauto.
Qed.
End Parse.

Definition no_fraction : Z -> Z -> nat -> Z := fun f unit k => f * unit / 10 ^ Z.of_nat k.
Lemma duration_forms_agree_witness :
  decodeDurationLike no_fraction (fun x : Z => x) (VString "300s") = decodeDurationLike no_fraction (fun x : Z => x) (VInt 300)
  /\ decodeDurationLike no_fraction (fun x : Z => x) (VString "5m") = decodeDurationLike no_fraction (fun x : Z => x) (VInt 300).
Proof.
  split; [reflexivity|].
  destruct (duration_forms_agree no_fraction (fun x : Z => x) 5 true 3 true (mkHB 0 true 0) (mkDC true 0)) as (_ & _ & _ & Hm & _);
    [reflexivity|vm_compute; reflexivity|]. apply Hm. vm_compute. reflexivity.
Defined.
(** An integer number of seconds that is too large wraps around, the text is refused. *)
Example large_seconds_wrap :
  decodeDurationLike no_fraction (fun x : Z => x) (VInt 9223372037) = Ok (-9223372036709551616, true)
  /\ ParseDuration no_fraction "9223372037s" = None /\ ParseDuration no_fraction "1.5h" = Some 5400000000000
  /\ ParseDuration no_fraction "-1m30s" = Some (-90000000000) /\ ParseDuration no_fraction "10" = None
  /\ ParseDuration no_fraction "0" = Some 0.
Proof. split_and!; vm_compute; reflexivity. Qed.
