(* ===== verification/ClientFactory.v ===== *)
(** * internal/httpclient: the constructors of the clients, and how long a call can last

    factory.go, the constructors of native_aaa.go, native_biz.go, biz_registry.go,
    istio_aaa.go, istio_biz.go and proxy.go with [buildTLSConfig], [doPost] of
    native_aaa.go, and the client the Biz Pod embeds (cmd/biz/http_aaa_client.go).  Files,
    certificates and the transport handed in by the caller are arguments.  The calls of
    the clients are those of [HttpClient], [BizClients] and [HttpGateway]; here the
    settings they run with come from the configuration of [Config]. *)
From S2P Require Import Prelude Regex Common EapSession Resilience Gateway HttpClient BizClients Biz Config Middleware HttpGateway.
Import Resilience.Retry Resilience.Registry.
Local Open Scope string_scope.
Local Open Scope Z_scope.
Local Open Scope list_scope.

Section Clients.
(** Certificates and key pairs of crypto/tls, round trippers of other packages; the files
    that can be read, the certificates in a PEM text, the key pairs that load. *)
Context {Cert KeyPair RT : Type}.
Context (ReadFile : string -> option bytes) (AppendCertsFromPEM : bytes -> list Cert).
Context (LoadX509KeyPair : string -> string -> option KeyPair).

(** [t_RootCAs]: [None] is the nil pool, for which crypto/tls takes the roots of the host. *)
Record tls_Config : Type := mkTlsConfig {
  t_ServerName : string; t_RootCAs : option (list Cert); t_Certificates : list KeyPair }.
Record http_Transport : Type := mkTransport {
  tr_MaxIdleConns : Z; tr_MaxIdleConnsPerHost : Z; tr_IdleConnTimeout : Z; tr_TLS : option tls_Config }.
(** [Otel] is [otelhttp.NewTransport]; [Injected] what [SetTransport] was given. *)
Inductive round_tripper : Type :=
| DefaultTransport
| Plain (t : http_Transport)
| Injected (t : RT)
| Otel (inner : round_tripper).
(** A timeout of 0 is none. *)
Record http_Client : Type := mkHttp { h_Transport : round_tripper; h_Timeout : Z }.
Definition http_DefaultClient : http_Client := mkHttp DefaultTransport 0.

Definition buildTLSConfig (cfg : option TLSClientConfig) : option tls_Config :=
  match cfg with
  | None => None
  | Some c =>
      let roots := if is_empty (CACert c) then None else AppendCertsFromPEM <$> ReadFile (CACert c) in
      let certs := if is_empty (ClientCert c) || is_empty (ClientKey c) then []
                   else match LoadX509KeyPair (ClientCert c) (ClientKey c) with Some k => [k] | None => [] end in
      Some (mkTlsConfig (ServerName c) roots certs)
  end.

(** ** The clients *)
Record NativeAAAClient : Type := mkAAAClient {
  n_aaaGatewayURL : string; n_healthURL : string; n_source : string; n_httpClient : http_Client;
  n_cbRegistry : Registry; n_retryCfg : RetryConfig }.
(** The argument is a copy, so the caller's settings stay as they are. *)
Definition NewNativeAAAClient (aaaGatewayURL : string) (cfg : NativeCommConfig) : NativeAAAClient :=
  let retry := Config.mkRetry 2 (default_if_zero (Config.BaseDelay (Native_Retry cfg)) (500 * 1000000)) (10 * second) in
  let cb := mkCBC 3 (15 * second) 2 in
  let perHost := default_if_zero (MaxIdleConnsPerHost (Native_Pool cfg)) 50 in
  mkAAAClient aaaGatewayURL (KeepalivedHealthURL cfg) "nssAAF"
    (mkHttp (Otel (Plain (mkTransport (MaxIdleConns (Native_Pool cfg)) perHost (IdleConnTimeout (Native_Pool cfg))
       (buildTLSConfig (Native_TLS cfg))))) (20 * second))
    (NewRegistry (CB_FailureThreshold cb) (CB_RecoveryTimeout cb) (CB_SuccessThreshold cb))
    (mkRetry (Config.MaxAttempts retry) (Config.BaseDelay retry) (Config.MaxDelay retry)).

Definition configured_retry (r : Config.RetryConfig) : RetryConfig :=
  retry_config (Config.MaxAttempts r) (Config.BaseDelay r) (Config.MaxDelay r).
Definition configured_registry (c : CircuitBreakerConfig) : Registry :=
  NewRegistry (default_if_zero (CB_FailureThreshold c) 5) (default_if_zero (CB_RecoveryTimeout c) (30 * second))
    (default_if_zero (CB_SuccessThreshold c) 3).

Record nativeBizClient : Type := mkBizClient {
  b_baseURL : string; b_source : string; b_httpClient : http_Client; b_cbRegistry : Registry; b_retryCfg : RetryConfig }.
Definition newNativeBizClient (baseURL : string) (cfg : NativeCommConfig) : nativeBizClient :=
  let p := Native_Pool cfg in
  mkBizClient baseURL "nssAAF"
    (mkHttp (Otel (Plain (mkTransport (MaxIdleConns p) (default_if_zero (MaxIdleConnsPerHost p) 100) (IdleConnTimeout p) None)))
       (Native_Timeout cfg))
    (configured_registry (Native_CB cfg)) (configured_retry (Native_Retry cfg)).

Record BizRegistry_ : Type := mkBizRegistry {
  r_redisAddr : string; r_staticURL : string; r_httpClient : http_Client; r_cbRegistry : Registry; r_retryCfg : RetryConfig }.
Definition NewBizRegistry (redisAddr staticURL : string) (cfg : NativeCommConfig) (transport : option round_tripper) : BizRegistry_ :=
  mkBizRegistry redisAddr staticURL
    (mkHttp (default (Otel (Plain (mkTransport 0 0 0 None))) transport) (Native_Timeout cfg))
    (configured_registry (Native_CB cfg)) (configured_retry (Native_Retry cfg)).

Record istioBizClient : Type := mkIstioBiz { ib_baseURL : string; ib_client : http_Client }.
Definition newIstioBizClient (baseURL : string) : istioBizClient := mkIstioBiz baseURL (mkHttp (Otel DefaultTransport) 0).
Record istioAAAClient : Type := mkIstioAAA { ia_aaaGatewayURL : string; ia_client : http_Client }.
Definition newIstioAAAClient (url : string) : istioAAAClient := mkIstioAAA url http_DefaultClient.

Record ProxyClient : Type := mkProxyClient { p_httpClient : http_Client; p_gatewayURL : string; p_retryCfg : RetryConfig }.
Definition NewProxyClient (gatewayURL : string) (retryCfg : Config.RetryConfig) (timeout : Z) : ProxyClient :=
  mkProxyClient (mkHttp DefaultTransport timeout) gatewayURL (configured_retry retryCfg).
(** The URL of [call], and the three calls over what the NF proxy answers there. *)
Definition proxy_url (p : ProxyClient) (targetNF path : string) : string := p_gatewayURL p +:+ "/internal/" +:+ targetNF +:+ path.
Definition proxy_call (http : string -> nat -> exchange) (cancelled : nat -> bool) (p : ProxyClient) (targetNF path : string) :=
  Proxy.call (http (proxy_url p targetNF path)) cancelled (p_retryCfg p).
Definition CallNRF http cancelled p path := proxy_call http cancelled p "nrf" path.
Definition CallUDM http cancelled p path := proxy_call http cancelled p "udm" path.
Definition CallAMF http cancelled p path := proxy_call http cancelled p "amf" path.

(** ** factory.go *)
Record Factory : Type := mkFactory { fa_mode : mode; fa_cfg : InternalCommConfig; fa_transport : option round_tripper }.
Definition Factory_New (cfg : InternalCommConfig) (Getenv : string -> string) : Factory := mkFactory (NewFactory cfg Getenv) cfg None.
Definition SetTransport (t : option round_tripper) (f : Factory) : Factory := mkFactory (fa_mode f) (fa_cfg f) t.
Inductive BizServiceClient : Type := IstioBiz (c : istioBizClient) | RegistryBiz (c : BizRegistry_).
Inductive BizAAAClient : Type := IstioAAA (c : istioAAAClient) | NativeAAA (c : NativeAAAClient).
Definition NewBizServiceClient (f : Factory) (bizServiceURL redisAddr : string) : BizServiceClient :=
  match fa_mode f with
  | ModeIstio => IstioBiz (newIstioBizClient bizServiceURL)
  | ModeNative => RegistryBiz (NewBizRegistry redisAddr bizServiceURL (Native (fa_cfg f)) (fa_transport f))
  end.
Definition NewAAAClient (f : Factory) (aaaGatewayURL : string) : BizAAAClient :=
  match fa_mode f with
  | ModeIstio => IstioAAA (newIstioAAAClient aaaGatewayURL)
  | ModeNative => NativeAAA (NewNativeAAAClient aaaGatewayURL (Native (fa_cfg f)))
  end.

(** cmd/biz/http_aaa_client.go: the embedded client. *)
Record httpAAAClient : Type := mkHttpAAA { hc_native : NativeAAAClient; hc_podID : string; hc_version : string; hc_snssai : option SnssaiRoutingConfig }.
Definition newHTTPAAAClient (aaaGatewayURL podID version : string) (cfg : InternalCommConfig) (snssai : option SnssaiRoutingConfig) : httpAAAClient :=
  mkHttpAAA (NewNativeAAAClient aaaGatewayURL (Native cfg)) podID version snssai.

(** ** native_aaa.go: one POST, and the call over the client's own registry *)
Definition HeaderName : string := "X-NSSAAF-Version".
Definition doPost_request (body : bytes) (version : string) : request :=
  mkReq "POST" "/aaa/forward" estr
    (<[HeaderName := version]> (<["Content-Length" := pretty (Z.of_nat (length body))]> {[HeaderContentType := "application/json"]}))
    (Z.of_nat (length body)) body.
(** body, status and error; [http] gets the base URL and the request *)
Definition doPost (http : string -> request -> exchange) (c : NativeAAAClient) (body : bytes) (version : string) : bytes * Z * option string :=
  match http (n_aaaGatewayURL c) (doPost_request body version) with
  | BadRequest e => ([], 0, Some e)
  | NoReply e => ([], 503, Some e)
  | BrokenBody _ _ e => ([], 0, Some e)
  | Reply status b => (b, status, None)
  end.
Definition post_of (r : bytes * Z * option string) : bytes * Z + string :=
  match r with (_, _, Some e) => inr e | (b, status, None) => inl (b, status) end.

(** ** The settings of the AAA client, and TLS *)
Lemma NewRegistry_first ft rt st key :
  let '(r, l) := Get (NewRegistry ft rt st) key in
  heap r !! l = Some (NewCircuitBreaker (default_if_zero ft 5) (default_if_zero rt (30 * second)) (default_if_zero st 3)).
Proof. unfold Get. cbn. rewrite lookup_empty. cbn. by rewrite lookup_insert_eq. Qed.

(** Whatever the configuration says, the AAA client runs with the settings [HttpClient]
    has; only the first pause can be configured. *)
Lemma aaa_client_settings url cfg :
  let c := NewNativeAAAClient url cfg in
  n_retryCfg c = aaa_retryCfg (Config.BaseDelay (Native_Retry cfg)) /\ h_Timeout (n_httpClient c) = 20 * second
  /\ let '(r, l) := Get (n_cbRegistry c) url in heap r !! l = Some aaa_breaker.
Proof. split_and!; [done|done|]. apply (NewRegistry_first 3 (15 * second) 2). Qed.

(** The TLS settings made from a configuration: the trusted roots are those of the file
    exactly when it can be read, and the client presents a certificate exactly when both
    files are named and load as a pair.  Every failure leaves the field as it is: a
    configured file that cannot be read gives the settings of a configuration that names
    none, the roots of the host and no client certificate. *)
Theorem tls_fails_open c :
  (forall t, buildTLSConfig (Some c) = Some t ->
     t_ServerName t = ServerName c
     /\ (forall roots, t_RootCAs t = Some roots <->
           CACert c <> estr /\ exists pem, ReadFile (CACert c) = Some pem /\ roots = AppendCertsFromPEM pem)
     /\ (forall k, t_Certificates t = [k] <->
           ClientCert c <> estr /\ ClientKey c <> estr /\ LoadX509KeyPair (ClientCert c) (ClientKey c) = Some k))
  /\ (ReadFile (CACert c) = None ->
      buildTLSConfig (Some c) = buildTLSConfig (Some (mkTLSClient estr (ClientCert c) (ClientKey c) (ServerName c))))
  /\ (LoadX509KeyPair (ClientCert c) (ClientKey c) = None ->
      buildTLSConfig (Some c) = buildTLSConfig (Some (mkTLSClient (CACert c) estr estr (ServerName c)))).
Proof.
  destruct c as [ca cert key sn]. unfold buildTLSConfig. cbn. split_and!.
  - intros t [= <-]. cbn. split_and!; [done|..].
    + intros roots. destruct ca as [|a ca]; cbn; [split; [done|by intros [? _]]|].
      rewrite fmap_Some. split; [by intros|by intros [_ ?]].
    + intros k. destruct cert as [|a cert]; cbn; [split; [done|by intros [? _]]|].
      destruct key as [|b key]; cbn; [split; [done|by intros (_ & ? & _)]|].
      destruct (LoadX509KeyPair _ _) as [k'|]; split; [by intros [= ->]|by intros (_ & _ & [= ->])|done|by intros (_ & _ & ?)].
  - intros ->. by destruct (is_empty ca).
  - intros ->. by destruct (_ || _).
Qed.

(** The client of the Biz Pods ignores the pool and TLS settings it is given. *)
Lemma registry_ignores_pool_and_tls redis url cfg transport pool tls :
  NewBizRegistry redis url cfg transport =
  NewBizRegistry redis url (mkNative (Native_Timeout cfg) (Native_Retry cfg) (Native_CB cfg) pool tls
    (KeepalivedHealthURL cfg) (Native_Radius cfg)) transport.
Proof. reflexivity. Qed.

(** In Istio mode the factory makes the plain client; the Biz Pod does not ask it. *)
Lemma biz_pod_always_native cfg Getenv url pod version snssai :
  NewFactory cfg Getenv = ModeIstio ->
  NewAAAClient (Factory_New cfg Getenv) url = IstioAAA (newIstioAAAClient url)
  /\ n_retryCfg (hc_native (newHTTPAAAClient url pod version cfg snssai)) = aaa_retryCfg (Config.BaseDelay (Native_Retry (Native cfg))).
Proof. intros H. unfold NewAAAClient, Factory_New. cbn. by rewrite H. Qed.
End Clients.

(** ** A negative number of attempts *)
Lemma DoS_no_attempt {S E} (fn : nat -> S -> S * option E) cancelled cfg s :
  Retry.MaxAttempts cfg < 0 -> DoS fn cancelled cfg s = (s, Some (ErrMaxRetriesExceeded None), O).
Proof.
  intros H. unfold DoS, with_defaults, default_if_zero. cbn [Retry.MaxAttempts].
  replace (Retry.MaxAttempts cfg =? 0) with false by (symmetry; by apply Z.eqb_neq; lia).
  by replace (Z.to_nat (Retry.MaxAttempts cfg)) with O by lia.
Qed.

(** A negative [retry.maxAttempts] passes the constructor, which replaces only 0, and the
    loop does not run: no request is sent, yet the call returns without an error and with
    status 0, and the handler of the gateway panics when it writes that status. *)
Theorem negative_attempts_panic {Cert KeyPair RT} redis url cfg (t : option (@round_tripper Cert KeyPair RT)) envs cancelled s :
  Config.MaxAttempts (Native_Retry cfg) < 0 ->
  let c := NewBizRegistry redis url cfg t in
  let '(st, res) := BizRegistry.ForwardRequest (r_staticURL c) envs cancelled (r_retryCfg c) (r_cbRegistry c) in
  BizRegistry.sent st = [] /\ res = ([], 0, None) /\ snd (answer_with res s) = true.
Proof.
  intros H c. unfold BizRegistry.ForwardRequest. rewrite DoS_no_attempt; [by cbn|].
  unfold c, NewBizRegistry, configured_retry, retry_config. cbn.
  by destruct (Config.MaxAttempts _ =? 0) eqn:E; [zbool; lia|].
Qed.
Lemma negative_attempts_panic_witness :
  let cfg := mkNative 0 (Config.mkRetry (-1) 0 0) (mkCBC 0 0 0) (mkPool 0 0 0 0) None estr (mkRad 0 0 0) in
  let c := @NewBizRegistry unit unit unit "r" "http://b" cfg None in
  snd (BizRegistry.ForwardRequest (r_staticURL c) BizRegistry.two_envs (fun _ => false) (r_retryCfg c) (r_cbRegistry c)) = ([], 0, None).
Proof.
  intros cfg c.
  assert (H := @negative_attempts_panic unit unit unit "r" "http://b" cfg None BizRegistry.two_envs (fun _ => false) fresh_state
    ltac:(cbn; lia)).
  fold c in H. cbv zeta in H. destruct (BizRegistry.ForwardRequest _ _ _ _ _) as [st res]. by destruct H as (_ & H & _).
Defined.

(** ** How long a call can last *)
Section Time.
Context {E : Type} (fn : nat -> option E) (cancelled : nat -> bool).
(** The [k]-th call of the closure lasts [took k]; a context that ends during a pause ends
    it after [cut]. *)
Context (took : nat -> Z) (cut : Z).
Definition total (l : list Z) : Z := foldr Z.add 0 l.
Definition elapsed (d : retry_run E) : Z :=
  total (took <$> seq 0 (calls d)) + total (slept d) + match result_of d with Some ErrContext => cut | _ => 0 end.

Lemma total_app l1 l2 : total (l1 ++ l2) = total l1 + total l2.
Proof. induction l1 as [|x l1 IH]; cbn; [done|]. fold (total (l1 ++ l2)) (total l1). lia. Qed.
Lemma total_took T n : (forall k, took k <= T) -> total (took <$> seq 0 n) <= Z.of_nat n * T.
Proof.
  intros H. induction n as [|n IH]; [cbn; lia|]. rewrite seq_S, fmap_app, total_app. cbn. specialize (H n). lia.
Qed.
Lemma backoff_le cfg a : backoff cfg a <= Retry.MaxDelay cfg.
Proof. unfold backoff. destruct (_ <? _) eqn:H; zbool; lia. Qed.

(** The pauses: one before every attempt but the first. *)
Lemma attempts_slept cfg n fuel : forall a last sl,
  Z.of_nat n = Retry.MaxAttempts cfg -> (a + fuel)%nat = n -> (0 < n)%nat -> 0 <= Retry.MaxDelay cfg -> cut <= Retry.MaxDelay cfg ->
  total sl <= Z.of_nat (Nat.min a (n - 1)) * Retry.MaxDelay cfg ->
  let d := attempts fn cancelled cfg a fuel last sl in
  (calls d <= n)%nat /\
  total (slept d) + match result_of d with Some ErrContext => cut | _ => 0 end <= Z.of_nat (n - 1) * Retry.MaxDelay cfg.
Proof.
  induction fuel as [|fuel IH]; intros a last sl Hn Ha Hp HD Hc Hs; cbn [attempts calls slept result_of].
  { split; [lia|]. replace (Nat.min a (n - 1)) with (n - 1)%nat in Hs by lia. lia. }
  assert (Hle : Z.of_nat (Nat.min a (n - 1)) <= Z.of_nat (n - 1)) by lia.
  destruct (fn a) as [err|]; cbn [calls slept result_of]; [|split; [lia|nia]].
  destruct (Z.of_nat a <? _) eqn:El; zbool.
  - assert (Hb := backoff_le cfg (Z.of_nat a)). replace (Nat.min a (n - 1)) with a in Hs by lia.
    assert ((Z.of_nat a + 1) * Retry.MaxDelay cfg <= Z.of_nat (n - 1) * Retry.MaxDelay cfg) by nia.
    destruct (cancelled a); cbn [calls slept result_of]; [split; [lia|lia]|].
    apply IH; try done; [lia|]. rewrite total_app. unfold total at 2. cbn [foldr]. replace (Nat.min (S a) (n - 1)) with (S a) by lia. lia.
  - apply IH; try done; [lia|]. replace (Nat.min (S a) (n - 1)) with (Nat.min a (n - 1)) by lia. done.
Qed.

(** Attempts that last at most [T] each: at most [n] of them, with at most [n - 1] pauses. *)
Lemma Do_time cfg T :
  0 < Retry.MaxAttempts (with_defaults cfg) -> 0 <= Retry.MaxDelay (with_defaults cfg) ->
  cut <= Retry.MaxDelay (with_defaults cfg) -> 0 <= T -> (forall k, took k <= T) ->
  let n := Retry.MaxAttempts (with_defaults cfg) in
  let d := Do fn cancelled cfg in
  Z.of_nat (calls d) <= n /\ elapsed d <= n * T + (n - 1) * Retry.MaxDelay (with_defaults cfg).
Proof.
  intros Hn HD Hc HT Ht n d. subst n d. unfold Do.
  set (m := Z.to_nat (Retry.MaxAttempts (with_defaults cfg))).
  assert (Hm : Z.of_nat m = Retry.MaxAttempts (with_defaults cfg)) by (unfold m; lia). clearbody m.
  destruct (attempts_slept (with_defaults cfg) m m 0 None [] Hm ltac:(lia) ltac:(lia) HD Hc ltac:(cbn; lia)) as [H1 H2].
  set (d := attempts _ _ _ _ _ _ _) in *. split; [lia|].
  unfold elapsed. assert (H3 := total_took T (calls d) Ht). assert (Z.of_nat (calls d) * T <= Z.of_nat m * T) by nia.
  replace (Z.of_nat (m - 1)) with (Z.of_nat m - 1) in H2 by lia. rewrite Hm in *. lia.
Qed.
End Time.

(** The two clients of a request on its way from the HTTP gateway to the AAA server. *)
Section Budget.
Context {Cert KeyPair RT : Type}.
Context (ReadFile : string -> option bytes) (AppendCertsFromPEM : bytes -> list Cert).
Context (LoadX509KeyPair : string -> string -> option KeyPair).
Abbreviation aaa_client := (@NewNativeAAAClient Cert KeyPair RT ReadFile AppendCertsFromPEM LoadX509KeyPair).
(** The errors of the attempts of a call: what the [k]-th POST meets is [http k]. *)
Definition call_errors (http : nat -> string -> request -> exchange) (url : string) (cfg : NativeCommConfig)
  (body : bytes) (version : string) : nat -> option client_error :=
  attempt_error (fun k => post_of (doPost (http k) (aaa_client url cfg) body version)).

(** A call of the AAA client ends: whatever the configuration, it makes at most two POSTs
    and, each being cut off by the timeout of the client, returns within 50 seconds.  The
    bound is close: with the default settings two POSTs that are not answered take 40.5
    seconds.  That is longer than both timeouts around the call, the HTTP gateway's for
    its request to the Biz Pod and the Biz Pod's own for writing the answer. *)
Theorem aaa_call_bounded http url cfg body version cancelled took cut :
  let c := aaa_client url cfg in
  (forall k, took k <= h_Timeout (n_httpClient c)) -> cut <= backoff (n_retryCfg c) 0 ->
  let d := Do (call_errors http url cfg body version) cancelled (n_retryCfg c) in
  ((calls d <= 2)%nat /\ elapsed took cut d <= 50 * second)
  /\ (Config.BaseDelay (Native_Retry cfg) = 0 ->
      (forall k, cancelled k = false /\ took k = h_Timeout (n_httpClient c)
         /\ exists e, http k url (doPost_request body version) = NoReply e) ->
      elapsed took cut d = 40 * second + 500 * 1000000
      /\ (Native_Timeout cfg = 0 -> Native_Timeout (default_native cfg) < elapsed took cut d)
      /\ (forall srv, WriteTimeout srv = 0 -> WriteTimeout (default_server srv) < elapsed took cut d)).
Proof.
  intros c Ht Hc d. destruct (aaa_client_settings (RT := RT) ReadFile AppendCertsFromPEM LoadX509KeyPair url cfg) as (Hr & HT & _).
  fold c in Hr, HT. split.
  - assert (H := Do_time (call_errors http url cfg body version) cancelled took cut (n_retryCfg c) (20 * second)).
    rewrite HT in Ht. assert (Hb := backoff_le (n_retryCfg c) 0). subst d. rewrite Hr in *. cbn in H, Hb.
    destruct H as [H1 H2]; try done; [etrans; [exact Hc|exact Hb]|]. split; [lia|]. cbn in H2. exact H2.
  - intros Hz Hk. assert (He : elapsed took cut d = 40 * second + 500 * 1000000).
    { assert (Hf : forall k, is_Some (call_errors http url cfg body version k)).
      { intros k. destruct (Hk k) as (_ & _ & e & H). unfold call_errors, attempt_error, doPost.
        change (n_aaaGatewayURL (aaa_client url cfg)) with url. rewrite H. by eexists. }
      subst d. rewrite Hr, Hz. destruct (Hf 0%nat) as [e0 F0], (Hf 1%nat) as [e1 F1].
      destruct (Hk 0%nat) as (C0 & T0 & _), (Hk 1%nat) as (_ & T1 & _). rewrite HT in T0, T1.
      set (fn := call_errors _ _ _ _ _) in *. clearbody fn.
      assert (HD : Do fn cancelled (aaa_retryCfg 0) = mkDone (Some (ErrMaxRetriesExceeded (Some e1))) 2 [500 * 1000000]).
      { change (Do fn cancelled (aaa_retryCfg 0)) with (attempts fn cancelled (with_defaults (aaa_retryCfg 0)) 0 2 None []).
        cbn [attempts]. rewrite F0. change (Z.of_nat 0 <? _) with true. cbv iota zeta. rewrite C0. by rewrite F1. }
      rewrite HD. unfold elapsed. cbn. rewrite T0, T1. reflexivity. }
    rewrite He. split; [done|]. split.
    + intros Hn. unfold default_native. cbn. by rewrite Hn.
    + intros srv Hw. unfold default_server. cbn. by rewrite Hw.
Qed.
End Budget.

(** ** Witnesses: an AAA gateway that does not answer *)
Definition silent (_ : nat) (_ : string) (_ : request) : exchange := NoReply "timeout awaiting response headers".
Definition empty_native : NativeCommConfig := mkNative 0 (Config.mkRetry 0 0 0) (mkCBC 0 0 0) (mkPool 0 0 0 0) None estr (mkRad 0 0 0).
Definition no_files (_ : string) : option bytes := None.
Lemma aaa_call_bounded_witness :
  let d := Do (call_errors (RT := unit) no_files (fun _ => [tt]) (fun _ _ => @None unit) silent "http://aaa" empty_native [] "1")
             (fun _ => false) (aaa_retryCfg 0) in
  calls d = 2%nat /\ elapsed (fun _ => 20 * second) 0 d = 40 * second + 500 * 1000000
  /\ Native_Timeout (default_native empty_native) < elapsed (fun _ => 20 * second) 0 d.
Proof.
  destruct (aaa_call_bounded (RT := unit) no_files (fun _ => [tt]) (fun _ _ => @None unit) silent "http://aaa" empty_native [] "1"
    (fun _ => false) (fun _ => 20 * second) 0 ltac:(done) ltac:(by vm_compute)) as [_ H].
  destruct H as (H1 & H2 & _); [done|intros k; split_and!; [done|done|by eexists]|].
  intros d. split; [by vm_compute|]. split; [exact H1|exact (H2 eq_refl)].
Defined.

(** A CA file that cannot be read. *)
Lemma tls_fails_open_example :
  buildTLSConfig no_files (fun _ => [tt]) (fun _ _ => @None unit) (Some (mkTLSClient "/etc/ca.pem" "/etc/c.pem" "/etc/k.pem" "aaa"))
  = Some (mkTlsConfig "aaa" None []).
Proof.
  destruct (tls_fails_open no_files (fun _ => [tt]) (fun _ _ => @None unit) (mkTLSClient "/etc/ca.pem" "/etc/c.pem" "/etc/k.pem" "aaa"))
    as (_ & H & _). exact (H eq_refl).
Defined.
